(* ===== verification/_CoqProject ===== *)
-Q . S2P
Prelude.v
Threads.v
GoStd.v
GoStrings.v
Float64.v
Model.v
Security.v
Json.v
GoJson.v
Llm.v
Db.v
MessageRepo.v
EntityRepo.v
History.v
MemoryRepo.v
ExperienceRepo.v
VectorRepo.v
Redis.v
Cache.v
Tenancy.v
Retriever.v
Rest.v
Flusher.v
ContextApi.v
Groups.v
Streams.v
ExpStreams.v
Embedder.v
Cognitive.v
Statements.v
Pipeline.v
Coverage.v
Experience.v
Config.v
Discovery.v
Server.v
Procedures.v
System.v
Interleave.v
Durable.v
Overlap.v
Startup.v
