(* ===== verification/Prelude.v ===== *)
(** * Cortexa, verified

    Cortexa is a memory service for conversational agents: an HTTP API stores
    the messages of sessions and answers with the context a model needs (recent
    messages, facts about people, persona traits, events, learned experiences);
    workers behind it turn batches of messages into those memories with the
    help of a language model.  PostgreSQL holds everything, one tenant's rows
    hidden from another's statements by row-level policies; Redis holds recent
    messages, batching counters and the streams the workers read.

    This library models the program's Go code as Rocq functions and relations and
    proves what makes it correct.  It is a shallow embedding: a repository
    function is a function on the tables, a cache operation a function on the
    Redis store, a handler a function from request, database and store to new
    states and a response; what the program does not choose (the order in which
    goroutines finish, a deadline, a lost reply) is a relation.

    ** From a message to a memory

    [Rest.handleAppendMessages] stores a message ([MessageRepo]), caches it
    ([Cache.AppendMessages]) and counts it; the message that fills a batch
    publishes a job on the tenant's stream.  [Flusher.runFlushCycle] publishes
    what a session that has gone silent still holds back.  [Discovery] finds the
    streams; [Streams] reads the jobs, retries them and sets the hopeless ones
    aside.  [Cognitive.processBatchPayload] turns a job into a prompt, the
    model's answer ([Llm]) into facts, events and traits, and writes them with
    [EntityRepo] and [MemoryRepo]; [Experience.processPayload] does the same for
    experiences, with [ExperienceRepo].  [Retriever.GetContext] finds them
    again, and [ContextApi.formatBundle] makes the next prompt's text of them.
    [Pipeline] composes this way into two theorems.  [System] has all of it
    taking turns on one database and one Redis, and [Interleave] has it there at
    once, command by command.

    ** The files, in dependency order, and their sources under
       [src/cortexa/internal]

    - [Prelude]: results (a value or an error), and the lemmas on lists and the
      arithmetic tactic that several files use.
    - [Threads]: procedures, trees of actions on a shared state, run alone or
      interleaved by a schedule; what every action keeps holds of any
      interleaving, an account of what procedures owe one another, and assertions
      a procedure has established when it is done, the others being relied on.
    - [GoStd], [GoStrings]: the Go language's int64, strings, runes, and the
      functions of [strings], [strconv] and [encoding/hex] the code calls.
    - [Float64]: binary64 numbers, by the Standard Library's [SpecFloat].
    - [Model] ([model/model.go]): the records, UUIDs and time.
    - [Security] ([security/validator.go], [security/crypto.go]).
    - [Json]: the JSON texts the program writes, PostgreSQL's JSONB; [GoJson]:
      what encoding/json reads, from bytes to structs, maps and slices, and how
      it writes.
    - [Llm] ([llm/llm.go]): the clients of model providers and their choice.
    - [Db] ([repository/db.go], [tenant.go], [migrations/*.sql]): the tables,
      their constraints, the tenant of a connection and its row-level policy,
      the texts a parameter can hold, ORDER BY, LIMIT, and the rows a walk of a
      vector index reaches.
    - [MessageRepo] ([message.go], [session.go]), [EntityRepo] ([entity.go],
      [profile.go]), [MemoryRepo] ([memory.go]), [ExperienceRepo]
      ([experience.go], [usage.go]), [VectorRepo] ([vector.go]): the
      repositories, one definition for each method, named as the method.
    - [History]: the chains of superseded facts, and the upsert run from a
      snapshot that others have overtaken.
    - [Redis]: the store and its commands as an interface, with an
      implementation in memory; [Cache] ([repository/cache.go]).
    - [Tenancy]: what each read query of a tenant depends on.
    - [Retriever] ([service/retriever.go]).
    - [Rest] and [ContextApi] ([api/rest.go]): the handlers; the two context
      endpoints and the text for a prompt.
    - [Flusher] ([worker/flusher.go]).
    - [Groups]: Redis streams, their trimming and their consumer groups, as the
      workers use them; [Streams] ([worker/cognitive.go]) and [ExpStreams]
      ([worker/experience.go]): the consumers' state machines.
    - [Embedder] ([worker/embedder.go]).
    - [Cognitive] ([worker/cognitive.go]) and [Experience]
      ([worker/experience.go]): what the two workers make of a job.
    - [Statements]: every kind of write the repositories make, as a relation
      under the tenant of its connection, what it keeps (the schema's
      constraints, other tenants' rows, what was learned), and each method of
      the repositories as a sequence of such writes.
    - [Pipeline]: from the API to the model and back, across the components;
      [Coverage]: what of a conversation the jobs of the API and of the flusher
      reach.
    - [Config] ([config/config.go], and GetDB of [repository/db.go]).
    - [Discovery] ([worker/cognitive.go], [worker/experience.go],
      [worker/decay.go]): the search for streams, and the decay worker.
    - [Server] ([api/middleware.go], the routes of [api/rest.go]): the chain of
      middleware around the handlers, and what gin answers without it.
    - [System] ([cmd/worker/main.go], the handlers and workers together): the
      whole service as a step relation on database and store.
    - [Procedures]: the same operations as procedures, an action for each command
      to the database or to Redis, each with the lemma that run alone it is the
      operation; [Interleave]: what holds whatever the schedule; [Durable]: what
      an answer promises about the time after it; [Overlap]: the requests of one
      session that overlap, and the counter they share.
    - [Startup] ([cmd/server/main.go], [cmd/worker/main.go]): what the two
      processes make of their environment, and what each then runs.

    ** State

    [Db.DB] is the database: a list of rows for each table, in the order of
    insertion.  [Redis.store] is the key space, a finite map from keys to typed
    values with their expiry.  [Groups.cgroup] is what Redis keeps of streams and
    a consumer group (entries, how far they are trimmed, position, pending list);
    [Streams.wstate] adds what a worker's processes keep in memory (goroutines,
    messages in flight, listed entries) and the dead letters, and
    [Embedder.emb_state] the embedder's batches and publications.  A statement runs
    under a [context] that carries the tenant [db.go] installs on the connection;
    the policies of the migrations decide what it sees and may write.  On a
    connection that has carried a tenant before, a statement without one finds
    the setting empty, which the policies cannot cast, instead of unset.
    A text parameter PostgreSQL cannot hold (U+0000 or a broken UTF-8 sequence,
    [GoStrings.storable]) fails its statement, and the batch it is in.

    ** What stands for code that is not the program's

    Each is a class whose laws are the documented behaviour, with an instance
    that satisfies them: [UuidLib] (google/uuid: parsing, the canonical form),
    [OrderBy] (a stable sort), [PgSearch] (pgvector, full text and trigrams:
    scores, with a total order on text, and the walk of an HNSW index), [Jsonb],
    [CryptoLib] (AES-GCM opens what it sealed under the same key and nonce; a
    digest is bytes), [UnicodeCase] (the case tables), [Redis] (the effect of
    each command that is answered, and what a failed round trip can leave
    behind), and [Server.Gin] (which route a request matches, and which requests
    gin redirects).  The vector indexes are shared by all tenants and filtered
    after the walk, so which rows it reaches ([Db.reached_rows]) may depend on
    the vectors of every tenant, and nothing is assumed of it: a query by vector
    sorts and filters what was reached.  A theorem about any of them holds for
    every instance; the witnesses use the concrete ones.  What the outside
    decides during one run is a record: [Cognitive.run_env],
    [Experience.exp_env], [Embedder.embed_env] (clocks, ids, nonces, the
    provider's answers, the order in which Go ranges over a map); the HTTP
    exchange with a provider, the environment, the file system and whether the
    server can listen are arguments.

    ** What the theorems show

    - Isolation: [GetContext_tenant_isolation] (nothing a tenant is answered
      depends on another tenant's rows, but for what the shared vector indexes
      reach, [crowded_out]), resting on one lemma for each query;
      [processBatchPayload_isolated] and [experience_job_writes] (a job writes
      under its own tenant only), and [turn_isolated], the same of every
      operation of the service, and [interleaved_isolated] of any interleaving of
      them; [Delete_cascades_across_tenants] is the way around it that remains,
      on the side of writes.
    - The whole service: [service_consistent] (the constraints of the schema, the
      chains of superseded facts and the validity of every fact, in every state
      reachable by operations that take turns), [service_remembers] (nothing learned is lost) and what
      that costs, [session_with_facts_stays].  [service_interleaves] has these
      states among those of the interleavings, where [interleaved_sound] proves
      all of it but that a key has one current fact, which its witness shows to
      fail.  [acknowledged_message_stays]: what was answered with 200 is there
      until its session is deleted.
    - No work is lost or repeated: [batching], its bound under overlapping
      requests [overlapping_appends_bounded] and the message these can lose all
      the same, [append_race]; [runFlushCycle_flushes], [Start_drains] (a backlog
      of any size), [runFlushCycle_exclusive], [no_entry_lost] and
      [no_entry_stuck] (with the two ways an entry can be lost, one of them
      [dead_letter_lost]),
      [attempts_bounded], [exp_attempts_bounded], [embedder_keeps_messages],
      [discoverStreams_spec].  [runFlushCycle_skips_urn],
      [runFlushCycle_starves], [discoverStreams_starves] and
      [busy_entries_block] name what is not reached.
    - From the API to the model: [no_message_left_out] for a whole conversation,
      with its limits [chatty_session_loses] and [duplicate_crowds_out];
      [full_batch_reaches_model]; and from the
      model's answer to the next prompt: [extracted_fact_told].  What a cached
      list must be for the worker to read the right messages from it is
      [Pipeline.window_cached].
    - From the model to the database: [batch_text_read] and [answer_read] (what
      is written is what is read), [processBatchPayload_keeps_facts_valid] (the
      invariant of the fact table, whatever the model answers),
      [process_facts_refines_union] (a job's facts are a union of maps, or none
      is stored when PostgreSQL cannot hold one's text),
      [process_extraction_idempotent] (a job delivered twice stores the same);
      [findSmartSlice_spec], [learned_again] and its limit
      [unreached_added_again] for experiences;
      [EmbedBatch_aligned] and [processBatch_embeds] for vectors.
    - The temporal fact table: [UpsertFact_refines_insert] refines it to a map,
      [UpsertFact_QueryCurrent] is its round trip through encryption,
      [UpsertFact_supersedes] its history, [UpsertFactBatch_atomic] its batch
      form and [UpsertFact_race] the overlap it does not serialise.
    - Messages: [InsertMessage_spec] and [handleAppendMessages_spec] on every
      branch, [GetSessionHistory_pages] for the cursor and
      [tied_message_skipped] for what it passes over,
      [handleGetSessionHistory_page] for the page.
    - The cache: [AppendMessages_window], the equivalence with the database
      [GetRawMessagesUntil_matches_database], and the duplicate of
      [handleAppendMessages_cold_duplicate].
    - Memories: [UpsertPersona_set_union], [RecordFeedback_spec],
      [GetUpcomingEvents_spec], [DecayImportance_spec], [decay_worker_spec],
      [Deactivate_final], [RecordFeedback_negative_streak],
      [SearchSimilar_nearest].
    - Retrieval: [GetContext_order_independent], [entity_facts_bounded],
      [truncateFactsToBudget_longest], [entity_facts_unfiltered],
      [rrfMerge_top_k], [rrfMerge_both_first]; [handleGetContext_total],
      [context_endpoints_agree] and [formatBundle_empty] for the endpoints.
    - Guards: [ValidateExtractedFact_ok_iff],
      [ValidateExtractedFact_rejects_override], [NewCrypto_ok_iff],
      [EncryptValue_DecryptValue], [load_well_configured].
    - The HTTP server: [served_telemetry].  The start of the processes:
      [key_checked_late], and [deployed_sound] for the two at work together.

    ** Bounds and fuel

    Integers that can wrap are int64 with the wrap written out ([GoStd]);
    floating point is rounded as the hardware rounds it.  Regular expressions
    are matched by derivatives, by recursion on the subject.  Recursion on fuel
    occurs in five places: [GoStrings.itoa_fuel] (20 digits, enough for an
    int64), [Json.member_text] (more than the text's length),
    [GoJson.parse_value] ([fuel_for], twice the text's length and one, is enough
    by [parse_value_fuel]), and, where the theorem says that some amount is
    enough and more changes nothing, [Discovery.scan_loop] and
    [MessageRepo.walk], the client that follows the cursor and collects the pages.

    ** What is left out

    Not modelled, and why: gin's matching of routes and its redirections, which
    are an interface, [Server.Gin]; logging but for the line of each request; the limit on goroutines a worker starts (a semaphore,
    which delays a step and decides nothing); the Python scripts under [tests].

    Simplifications that bound what the theorems say: an action of [Procedures]
    is a method of a repository or a round trip to Redis, and is atomic, but for
    the upsert of facts, which starts from a snapshot of its own and writes when
    its batch commits; a request's context is not cancelled between its commands;
    a dead letter counts as recorded when it is added, whatever is trimmed of its
    stream later; [Embedder], which nothing starts, has one process and a stream
    that is not trimmed; error values are their messages. *)
From Stdlib Require Export ZArith Lia Sorted.
From stdpp Require Export base tactics list option strings gmap sorting.


(** Byte strings are computed with throughout: let [simpl] unfold their append. *)
#[global] Arguments String.append : simpl nomatch.

(** The hints of the development. *)
Create HintDb cortexa.

(** ** Results: Go's pair of a value and an error *)

(** A Go error value carries its message. *)
Definition error : Type := string.

Inductive result (A : Type) : Type :=
  | Ok (a : A)
  | Err (e : error).
Arguments Ok {A} _.
Arguments Err {A} _.

#[export] Instance result_ret : MRet result := fun A a => Ok a.
#[export] Instance result_bind : MBind result := fun A B f m =>
  match m with Ok a => f a | Err e => Err e end.
#[export] Instance result_fmap : FMap result := fun A B f m =>
  match m with Ok a => Ok (f a) | Err e => Err e end.

Lemma result_bind_Ok {A B} (f : A -> result B) m b :
  m ≫= f = Ok b <-> exists a, m = Ok a /\ f a = Ok b.
Proof.
  destruct m as [a|e]; simpl; split; intros H.
  - by exists a.
  - destruct H as (x & Hx & <-). by injection Hx as ->.
  - done.
  - by destruct H as (x & Hx & _).
Qed.

(** ** Arithmetic with quotients and remainders *)
Ltac euclid := Z.to_euclidean_division_equations; lia.

(** ** Lists

    Selections are [List.filter], whose argument is the executable test that a
    statement's WHERE clause is. *)

Lemma elem_of_filter_bool {A} (p : A -> bool) l x : x ∈ List.filter p l <-> x ∈ l /\ p x = true.
Proof. rewrite !list_elem_of_In. apply List.filter_In. Qed.

Lemma StronglySorted_filter {A} (R : A -> A -> Prop) (p : A -> bool) l :
  StronglySorted R l -> StronglySorted R (List.filter p l).
Proof.
  induction 1 as [|x l Hl IH Hx]; simpl; [constructor|].
  destruct (p x); [|done]. constructor; [done|].
  rewrite Forall_forall in *. intros y Hy. apply elem_of_filter_bool in Hy as [Hy _]. auto.
Qed.

Lemma filter_Permutation {A} (p : A -> bool) l k : l ≡ₚ k -> List.filter p l ≡ₚ List.filter p k.
Proof.
  induction 1; simpl; repeat case_match; try done; try by constructor.
  by etrans.
Qed.

Lemma filter_fmap {A B} (p : B -> bool) (g : A -> B) l :
  List.filter p (g <$> l) = g <$> List.filter (fun x => p (g x)) l.
Proof. induction l as [|x l IH]; [done|]. rewrite fmap_cons. cbn [List.filter]. rewrite IH. by destruct (p (g x)). Qed.

Lemma filter_filter_and {A} (p q : A -> bool) l :
  List.filter p (List.filter q l) = List.filter (fun x => q x && p x) l.
Proof. induction l as [|x l IH]; [done|]. simpl. destruct (q x); simpl; by rewrite IH. Qed.

Lemma filter_all {A} (p : A -> bool) l : Forall (fun x => p x = true) l -> List.filter p l = l.
Proof. induction 1 as [|x l Hx _ IH]; simpl; [done|]. by rewrite Hx, IH. Qed.

Lemma filter_none {A} (p : A -> bool) l : Forall (fun x => p x = false) l -> List.filter p l = [].
Proof. induction 1 as [|x l Hx _ IH]; simpl; [done|]. by rewrite Hx. Qed.

Lemma NoDup_fmap_eq {A B} (g : A -> B) l x y : NoDup (g <$> l) -> x ∈ l -> y ∈ l -> g x = g y -> x = y.
Proof.
  induction l as [|z l IH]; [by intros _ []%not_elem_of_nil|]. intros [Hz Hl]%NoDup_cons [->|Hx]%elem_of_cons [->|Hy]%elem_of_cons E.
  - done.
  - destruct Hz. rewrite E. by apply list_elem_of_fmap_2.
  - destruct Hz. rewrite <-E. by apply list_elem_of_fmap_2.
  - by apply IH.
Qed.

Lemma existsb_none {A} (p : A -> bool) l : Forall (fun x => p x = false) l -> existsb p l = false.
Proof. induction 1 as [|x l Hx _ IH]; [done|]. simpl. by rewrite Hx. Qed.

Lemma NoDup_fmap_filter {A B} (g : A -> B) (p : A -> bool) l : NoDup (g <$> l) -> NoDup (g <$> List.filter p l).
Proof.
  induction l as [|x l IH]; simpl; [done|]. intros [Hx Hl]%NoDup_cons.
  destruct (p x); simpl; [|auto]. apply NoDup_cons. split; [|auto].
  intros (y & E & [Hy _]%elem_of_filter_bool)%list_elem_of_fmap. apply Hx. rewrite E.
  by apply list_elem_of_fmap_2.
Qed.

Lemma List_filter_sublist {A} (p : A -> bool) (l : list A) : List.filter p l `sublist_of` l.
Proof. induction l as [|x l IH]; simpl; [done|]. destruct (p x); by constructor. Qed.

Lemma filter_through {A} (p q : A -> bool) l k : (forall x, p x = true -> q x = true) ->
  List.filter q l = List.filter q k -> List.filter p l = List.filter p k.
Proof.
  intros Hpq E. assert (Hq : forall m, List.filter p m = List.filter p (List.filter q m)); [|by rewrite Hq, E, <-Hq].
  intros m. rewrite filter_filter_and. apply List.filter_ext. intros x. destruct (p x) eqn:Ep; [by rewrite Hpq|by rewrite andb_false_r].
Qed.

(** An element cut off is below every element kept. *)
Lemma sorted_take_drop {A} (R : A -> A -> Prop) n l x y : StronglySorted R l ->
  x ∈ take n l -> y ∈ drop n l -> R x y.
Proof.
  intros Hs. revert n. induction Hs as [|a l Hs IH Ha]; intros n Hx Hy; destruct n as [|n]; simpl in *;
    [by apply not_elem_of_nil in Hx..|by apply not_elem_of_nil in Hx|].
  apply elem_of_cons in Hx as [->|Hx]; [|by eapply IH].
  rewrite Forall_forall in Ha. apply Ha. rewrite <-(take_drop n l), elem_of_app. by right.
Qed.

Lemma sorted_lookup {A} (R : A -> A -> Prop) l i j x y : StronglySorted R l -> (i < j)%nat ->
  l !! i = Some x -> l !! j = Some y -> R x y.
Proof.
  intros Hs Hij Hi Hj. apply (sorted_take_drop R j l); [done| |].
  - apply list_elem_of_lookup. exists i. by rewrite lookup_take_Some.
  - apply list_elem_of_lookup. exists 0%nat. by rewrite lookup_drop, Nat.add_0_r.
Qed.
