(* ===== verification/Threads.v ===== *)
(** Procedures and their interleaving: an operation as a tree of actions on a
    shared state, run alone or beside others.  Handlers and workers run as
    goroutines of one process and as processes of their own; between two
    commands to the database or to Redis any other may take its turn. *)
From Stdlib Require Import ZArith Lia.
From S2P Require Import Prelude.

(** A procedure: a result, or an action on the shared state, whose answer
    decides what follows. *)
Inductive proc (S A : Type) : Type :=
  | Done (a : A)
  | Act {B : Type} (f : S -> S * B) (k : B -> proc S A).
Arguments Done {S A} a.
Arguments Act {S A B} f k.

#[export] Instance proc_ret {S} : MRet (proc S) := fun A a => Done a.
#[export] Instance proc_bind {S} : MBind (proc S) := fun A B k =>
  fix bind p := match p with Done a => k a | Act f k' => Act f (fun b => bind (k' b)) end.

(** One action. *)
Definition act {S B} (f : S -> S * B) : proc S B := Act f Done.

(** The procedure by itself. *)
Fixpoint perform {S A} (p : proc S A) (s : S) : S * A :=
  match p with
  | Done a => (s, a)
  | Act f k => let '(s', b) := f s in perform (k b) s'
  end.

(** Procedures beside each other: a step is one action of one of them. *)
Definition pool (S A : Type) : Type := list (proc S A) * S.
Definition step {S A} (i : nat) (c : pool S A) : pool S A :=
  match c.1 !! i with
  | Some (Act f k) => let '(s', b) := f c.2 in (<[i := k b]> c.1, s')
  | _ => c
  end.
(** The schedule says whose turn it is. *)
Definition interleave {S A} (schedule : list nat) (c : pool S A) : pool S A := foldl (fun c i => step i c) c schedule.

Definition finished {S A} (p : proc S A) : bool := match p with Done _ => true | Act _ _ => false end.

(** What every action of a procedure does to the state, whatever the others do
    in between, and what its result satisfies. *)
Fixpoint follows {S A} (R : S -> S -> Prop) (p : proc S A) (Q : A -> Prop) : Prop :=
  match p with
  | Done a => Q a
  | Act f k => forall s, R s (f s).1 /\ follows R (k (f s).2) Q
  end.
Definition obeys {S A} (R : S -> S -> Prop) (p : proc S A) : Prop := follows R p (fun _ => True).

(** ** Lemmas *)

Section Procedures.
Context {S : Type}.

Lemma bind_act {A B C} (f : S -> S * B) (k : B -> proc S A) (j : A -> proc S C) : Act f k ≫= j = Act f (fun b => k b ≫= j).
Proof. done. Qed.

Lemma perform_bind {A B} (p : proc S A) (k : A -> proc S B) s : perform (p ≫= k) s = perform (k (perform p s).2) (perform p s).1.
Proof.
  revert s. induction p as [a|C f k' IH]; intros s; [done|]. rewrite bind_act. simpl. destruct (f s) as [s' b]. apply IH.
Qed.

Lemma perform_act {B} (f : S -> S * B) s : perform (act f) s = f s.
Proof. simpl. by destruct (f s). Qed.

Lemma perform_ret {A} (a : A) (s : S) : perform (mret a) s = (s, a).
Proof. done. Qed.

Lemma obeys_ret {A} R (a : A) : obeys R (mret a : proc S A).
Proof. done. Qed.

Lemma obeys_act {B} (R : S -> S -> Prop) (f : S -> S * B) : (forall s, R s (f s).1) -> obeys R (act f).
Proof. intros Hf s. by split. Qed.

Lemma follows_bind {A B} R (p : proc S A) (k : A -> proc S B) P Q : follows R p P -> (forall a, P a -> follows R (k a) Q) ->
  follows R (p ≫= k) Q.
Proof.
  intros Hp Hk. induction p as [a|C f k' IH]; [by apply Hk|]. rewrite bind_act. intros s. destruct (Hp s) as [Hs Hp']. split; [done|by apply IH].
Qed.

Lemma obeys_bind {A B} R (p : proc S A) (k : A -> proc S B) : obeys R p -> (forall a, obeys R (k a)) -> obeys R (p ≫= k).
Proof. intros Hp Hk. eapply follows_bind; [exact Hp|]. intros a _. apply Hk. Qed.

Lemma obeys_mono {A} (R R' : S -> S -> Prop) (p : proc S A) : (forall s s', R s s' -> R' s s') -> obeys R p -> obeys R' p.
Proof.
  intros HR. induction p as [a|B f k IH]; [done|]. intros Hp s. destruct (Hp s) as [Hs Hk]. split; [by apply HR|by apply IH].
Qed.

(** Loops. *)
Lemma follows_mapM {A B} R (g : A -> proc S B) (P : A -> B -> Prop) l : (forall x, follows R (g x) (P x)) ->
  follows R (mapM g l) (Forall2 P l).
Proof.
  intros Hg. induction l as [|x l IH]; [by constructor|]. cbn [mapM]. eapply follows_bind; [apply Hg|]. intros y Hy.
  eapply follows_bind; [exact IH|]. intros ys Hys. by constructor.
Qed.

Lemma obeys_mapM {A B} R (g : A -> proc S B) l : (forall x, obeys R (g x)) -> obeys R (mapM g l).
Proof.
  intros Hg. induction l as [|x l IH]; [done|]. cbn [mapM]. apply obeys_bind; [done|]. intros y. by apply obeys_bind.
Qed.

Lemma obeys_perform {A} (R : S -> S -> Prop) (p : proc S A) s : obeys R p -> rtc R s (perform p s).1.
Proof.
  revert s. induction p as [a|B f k IH]; intros s Hp; [apply rtc_refl|]. simpl. destruct (Hp s) as [Hs Hk].
  destruct (f s) as [s' b]. eapply rtc_l; [exact Hs|]. by apply IH.
Qed.

Lemma step_obeys {A} (R : S -> S -> Prop) i (c : pool S A) : Forall (obeys R) c.1 ->
  Forall (obeys R) (step i c).1 /\ (R c.2 (step i c).2 \/ (step i c).2 = c.2).
Proof.
  destruct c as [ps s]. unfold step. cbn [fst snd]. intros Hps. destruct (ps !! i) as [p|] eqn:Ei; [|auto].
  pose proof (Forall_lookup_1 _ _ _ _ Hps Ei) as Hp. destruct p as [a|B f k]; [auto|]. destruct (Hp s) as [Hs Hk].
  destruct (f s) as [s' b]. split; [by apply Forall_insert|by left].
Qed.

(** What is shared changes by the procedures' actions only. *)
Lemma interleave_obeys {A} (R : S -> S -> Prop) sched (c : pool S A) : Forall (obeys R) c.1 ->
  rtc R c.2 (interleave sched c).2.
Proof.
  revert c. induction sched as [|i sched IH]; intros c Hc; [apply rtc_refl|]. simpl.
  destruct (step_obeys R i c Hc) as [Hc' Hs]. specialize (IH _ Hc'). destruct Hs as [Hs|Es]; [by eapply rtc_l|by rewrite <-Es].
Qed.

Lemma interleave_app {A} l l' (c : pool S A) : interleave (l ++ l') c = interleave l' (interleave l c).
Proof. apply foldl_app. Qed.

(** One procedure may have all its turns at once. *)
Lemma interleave_alone {A} i (p : proc S A) ps s : ps !! i = Some p ->
  exists n, interleave (replicate n i) (ps, s) = (<[i := Done (perform p s).2]> ps, (perform p s).1).
Proof.
  revert ps s. induction p as [a|B f k IH]; intros ps s Hi.
  - exists 0%nat. simpl. by rewrite list_insert_id.
  - destruct (f s) as [s' b] eqn:Ef. assert (Hstep : step i (ps, s) = (<[i := k b]> ps, s')) by (unfold step; simpl; by rewrite Hi, Ef).
    destruct (IH b (<[i := k b]> ps) s') as [n Hn]; [apply list_lookup_insert_eq; by eapply lookup_lt_Some|].
    exists (1 + n)%nat. change (interleave (replicate (1 + n) i) (ps, s)) with (interleave (replicate n i) (step i (ps, s))).
    rewrite Hstep, Hn. simpl. rewrite Ef. by rewrite list_insert_insert_eq.
Qed.

(** The others may have theirs after it. *)
Lemma interleave_cons {A} (p : proc S A) l ps s :
  interleave (Datatypes.S <$> l) (p :: ps, s) = (p :: (interleave l (ps, s)).1, (interleave l (ps, s)).2).
Proof.
  revert ps s. induction l as [|i l IH]; intros ps s; [done|].
  change (interleave (Datatypes.S <$> i :: l) (p :: ps, s)) with (interleave (Datatypes.S <$> l) (step (Datatypes.S i) (p :: ps, s))).
  change (interleave (i :: l) (ps, s)) with (interleave l (step i (ps, s))).
  assert (E : step (Datatypes.S i) (p :: ps, s) = (p :: (step i (ps, s)).1, (step i (ps, s)).2)).
  { unfold step. simpl. destruct (ps !! i) as [[a|B f k]|]; [done| |done]. by destruct (f s). }
  rewrite E, IH. by destruct (step i (ps, s)).
Qed.
End Procedures.

(** ** Assertions

    What a procedure has established when it is done, others running beside it:
    between two of its actions only what the others' actions keep is known. *)

Section Assertions.
Context {S : Type} (R : S -> S -> Prop).

Definition stable (K : S -> Prop) : Prop := forall s s', R s s' -> K s -> K s'.

Fixpoint establishes {A} (K : S -> Prop) (p : proc S A) (Q : A -> S -> Prop) : Prop :=
  match p with
  | Done a => forall s, K s -> Q a s
  | Act f k => forall s, K s -> exists K', stable K' /\ K' (f s).1 /\ establishes K' (k (f s).2) Q
  end.

Lemma establishes_weaken {A} (K K' : S -> Prop) (p : proc S A) (Q Q' : A -> S -> Prop) :
  (forall s, K' s -> K s) -> (forall a s, Q a s -> Q' a s) -> establishes K p Q -> establishes K' p Q'.
Proof.
  intros HK HQ. revert K K' HK. induction p as [a|B f k IH]; intros K K' HK Hp; [by intros s Hs; apply HQ, Hp, HK|].
  intros s Hs. destruct (Hp s (HK s Hs)) as (K1 & Hst & Hf & Hk). exists K1. split_and!; [done..|]. by eapply IH.
Qed.

Lemma establishes_bind {A B} (K : S -> Prop) (p : proc S A) (k : A -> proc S B) P Q : establishes K p P ->
  (forall a, establishes (P a) (k a) Q) -> establishes K (p ≫= k) Q.
Proof.
  intros Hp Hk. revert K Hp. induction p as [a|C f k' IH]; intros K Hp.
  - eapply establishes_weaken; [exact Hp|done|apply Hk].
  - rewrite bind_act. intros s Hs. destruct (Hp s Hs) as (K' & Hst & Hf & Hk'). exists K'. split_and!; [done..|by apply IH].
Qed.

Lemma establishes_act {B} (K : S -> Prop) (f : S -> S * B) Q : (forall b, stable (Q b)) -> (forall s, K s -> Q (f s).2 (f s).1) ->
  establishes K (act f) Q.
Proof. intros Hst Hf s Hs. exists (Q (f s).2). split_and!; [done|by apply Hf|by intros s1]. Qed.

(** What the others keep, a procedure that acts as they do keeps. *)
Lemma establishes_frame {A} (K : S -> Prop) (p : proc S A) : stable K -> obeys R p -> establishes K p (fun _ => K).
Proof.
  intros Hst. induction p as [a|B f k IH]; [by intros _ s|]. intros Hp s Hs. destruct (Hp s) as [Hf Hk].
  exists K. split_and!; [done|by eapply Hst|by apply IH].
Qed.

Lemma step_establishes {A} i j (c : pool S A) p K Q : Forall (obeys R) c.1 -> c.1 !! i = Some p -> stable K -> K c.2 ->
  establishes K p Q -> exists p' K', (step j c).1 !! i = Some p' /\ stable K' /\ K' (step j c).2 /\ establishes K' p' Q.
Proof.
  destruct c as [ps s]. cbn [fst snd]. intros Hps Hi Hst Hs Hp. unfold step. cbn [fst snd].
  destruct (ps !! j) as [[a|B f k]|] eqn:Ej; [by exists p, K| |by exists p, K].
  destruct (decide (i = j)) as [<-|Hne].
  - assert (p = Act f k) as -> by congruence. destruct (Hp s Hs) as (K' & Hst' & Hf & Hk). destruct (f s) as [s' b].
    exists (k b), K'. split; [|done]. apply list_lookup_insert_eq. by eapply lookup_lt_Some.
  - destruct (Forall_lookup_1 _ _ _ _ Hps Ej s) as [Hf _]. destruct (f s) as [s' b]. cbn [fst snd] in *. exists p, K.
    split; [by rewrite list_lookup_insert_ne|].
    split_and!; [done|by eapply Hst|done].
Qed.

(** A procedure that is done among others has established what it says. *)
Lemma interleave_establishes {A} i sched (c : pool S A) p a Q : Forall (obeys R) c.1 -> c.1 !! i = Some p ->
  (forall a, stable (Q a)) -> establishes (fun _ => True) p Q ->
  (interleave sched c).1 !! i = Some (Done a) -> Q a (interleave sched c).2.
Proof.
  intros Hps Hi HQ Hp. assert (HK : exists K, stable K /\ K c.2 /\ establishes K p Q) by by exists (fun _ => True).
  clear Hp. revert c p Hps Hi HK. induction sched as [|j sched IH]; intros c p Hps Hi (K & Hst & Hs & Hp).
  - simpl. rewrite Hi. intros [= ->]. by apply Hp.
  - destruct (step_establishes i j c p K Q Hps Hi Hst Hs Hp) as (p' & K' & Hi' & HK'). simpl. apply (IH _ p'); [|done|by exists K'].
    by apply step_obeys.
Qed.
End Assertions.

(** ** Credits

    A quantity of the shared state that each procedure may raise only by taking
    on a debt it will pay: bringing the quantity below the bound.  While [n]
    procedures are at work the quantity is less than the bound and [n]. *)

Section Credits.
Context {S : Type} (I : S -> Prop) (phi : S -> Z) (bound : Z).

Fixpoint credit {A} (owes : bool) (p : proc S A) (Q : A -> bool -> Prop) : Prop :=
  match p with
  | Done a => Q a owes
  | Act f k => forall s, I s -> I (f s).1 /\ exists owes', credit owes' (k (f s).2) Q /\
      (phi (f s).1 - Z.b2z owes' <= phi s - Z.b2z owes \/ phi (f s).1 < bound)%Z
  end.
(** All debts are paid at the end. *)
Definition solvent {A} (owes : bool) (p : proc S A) : Prop := credit owes p (fun _ o => o = false).

Lemma credit_bind {A B} o (p : proc S A) (k : A -> proc S B) P Q : credit o p P -> (forall a o, P a o -> credit o (k a) Q) ->
  credit o (p ≫= k) Q.
Proof.
  intros Hp Hk. revert o Hp. induction p as [a|C f k' IH]; intros o Hp; [by apply Hk|]. rewrite bind_act. intros s Hs.
  destruct (Hp s Hs) as (Hs' & o' & Hp' & Hphi). split; [done|]. exists o'. split; [by apply IH|done].
Qed.

(** An action that leaves the quantity alone, or lowers it. *)
Lemma credit_act {B} (f : S -> S * B) o : (forall s, I s -> I (f s).1 /\ (phi (f s).1 <= phi s)%Z) -> credit o (act f) (fun _ o' => o' = o).
Proof. intros Hf s Hs. destruct (Hf s Hs) as [HI Hphi]. split; [done|]. exists o. split; [done|left; lia]. Qed.

Lemma credit_mapM {A B} (g : A -> proc S B) l o : (forall x, credit o (g x) (fun _ o' => o' = o)) -> credit o (mapM g l) (fun _ o' => o' = o).
Proof.
  intros Hg. induction l as [|x l IH]; [done|]. cbn [mapM]. eapply credit_bind; [apply Hg|]. intros y o' ->.
  eapply credit_bind; [exact IH|]. by intros ys o' ->.
Qed.

Definition debts (os : list bool) : Z := foldr (fun o n => Z.b2z o + n)%Z 0%Z os.

Lemma debts_insert os i o o' : os !! i = Some o -> debts (<[i := o']> os) = (debts os - Z.b2z o + Z.b2z o')%Z.
Proof.
  revert i. induction os as [|x os IH]; intros [|i] Hi; simpl in *; simplify_eq; [lia|]. rewrite IH by done. lia.
Qed.

Lemma debts_nonneg os : (0 <= debts os)%Z.
Proof. induction os as [|[] os IH]; simpl; lia. Qed.

Lemma step_solvent {A} i (c : pool S A) os : I c.2 -> Forall2 solvent os c.1 -> (phi c.2 < bound + debts os)%Z ->
  I (step i c).2 /\ exists os', Forall2 solvent os' (step i c).1 /\ (phi (step i c).2 < bound + debts os')%Z.
Proof.
  destruct c as [ps s]. unfold step. cbn [fst snd]. intros Hs Hps Hphi. destruct (ps !! i) as [p|] eqn:Ei; [|eauto].
  destruct (Forall2_lookup_r _ _ _ _ _ Hps Ei) as (o & Eo & Hp). destruct p as [a|B f k]; [eauto|].
  destruct (Hp s Hs) as (HI & o' & Hk & Hd). destruct (f s) as [s' b]. cbn [fst snd] in *. split; [done|].
  exists (<[i := o']> os). split; [by apply Forall2_insert|]. rewrite (debts_insert os i o o' Eo).
  pose proof (debts_nonneg os). pose proof (debts_nonneg (<[i := o']> os)) as Hn. rewrite (debts_insert os i o o' Eo) in Hn. lia.
Qed.

Definition at_work {A} (ps : list (proc S A)) : nat := length (List.filter (fun p => negb (finished p)) ps).

Lemma debts_at_work {A} os (ps : list (proc S A)) : Forall2 solvent os ps -> (debts os <= Z.of_nat (at_work ps))%Z.
Proof.
  unfold at_work. induction 1 as [|o p os ps Hp _ IH]; [done|]. simpl. destruct p as [a|B f k]; simpl.
  - assert (o = false) as -> by exact Hp. simpl. lia.
  - destruct o; simpl; lia.
Qed.

Lemma interleave_solvent {A} sched (c : pool S A) : I c.2 -> Forall (solvent false) c.1 -> (phi c.2 < bound)%Z ->
  let c' := interleave sched c in I c'.2 /\ (phi c'.2 < bound + Z.of_nat (at_work c'.1))%Z.
Proof.
  intros Hs Hc Hphi. assert (Hos : exists os, Forall2 solvent os c.1 /\ (phi c.2 < bound + debts os)%Z).
  { exists (replicate (length c.1) false). split.
    - clear -Hc. induction Hc as [|p ps Hp _ IH]; [constructor|]. by constructor.
    - pose proof (debts_nonneg (replicate (length c.1) false)). lia. }
  clear Hc Hphi. destruct Hos as (os & Hos & Hphi). revert c os Hs Hos Hphi.
  induction sched as [|i sched IH]; intros c os Hs Hos Hphi.
  - split; [done|]. pose proof (debts_at_work _ _ Hos). simpl. lia.
  - destruct (step_solvent i c os Hs Hos Hphi) as (Hs' & os' & Hos' & Hphi'). by eapply IH.
Qed.
End Credits.
