(* ===== verification/GoStd.v ===== *)
(** The parts of the Go language and of its standard library that the program
    uses on plain data: int64 wrap-around, [strings], [unicode/utf8],
    [strconv.Atoi] and [encoding/hex].  A Go string is a sequence of bytes, so
    it is modelled by [string] (a list of 8-bit [ascii]); a rune is a [Z].
    Only the Unicode case tables, which are data, are left as a parameter. *)
From Stdlib Require Import Ascii String.
From S2P Require Import Prelude.

Local Open Scope Z_scope.

(** ** Machine integers *)

(** [int64(x)] for an exact result [x]: two's-complement wrap-around. *)
Definition int64 (x : Z) : Z := (x + 2 ^ 63) mod 2 ^ 64 - 2 ^ 63.

Lemma int64_small x : - 2 ^ 63 <= x < 2 ^ 63 -> int64 x = x.
Proof. intros H. unfold int64. rewrite Z.mod_small; lia. Qed.

(** ** Bytes *)

Definition byte_Z (c : ascii) : Z := Z.of_N (N_of_ascii c).
Definition Z_byte (z : Z) : ascii := ascii_of_N (Z.to_N z).

Definition bytes (s : string) : list Z := byte_Z <$> list_ascii_of_string s.
Definition of_bytes (l : list Z) : string := string_of_list_ascii (Z_byte <$> l).

(** [len(s)] *)
Definition len (s : string) : Z := Z.of_nat (String.length s).

Lemma byte_Z_range c : 0 <= byte_Z c < 256.
Proof.
  unfold byte_Z. pose proof (N_ascii_bounded c). lia.
Qed.

Lemma Z_byte_Z c : Z_byte (byte_Z c) = c.
Proof. unfold Z_byte, byte_Z. by rewrite N2Z.id, ascii_N_embedding. Qed.

Lemma byte_Z_byte z : 0 <= z < 256 -> byte_Z (Z_byte z) = z.
Proof. intros. unfold Z_byte, byte_Z. rewrite N_ascii_embedding by lia. lia. Qed.

Lemma of_bytes_bytes s : of_bytes (bytes s) = s.
Proof.
  unfold of_bytes, bytes.
  induction s as [|c s IH]; simpl; [done|]. rewrite Z_byte_Z. f_equal. exact IH.
Qed.

Definition is_byte (z : Z) : Prop := 0 <= z < 256.

Lemma bytes_of_bytes l : Forall is_byte l -> bytes (of_bytes l) = l.
Proof.
  intros Hl. unfold of_bytes, bytes. rewrite list_ascii_of_string_of_list_ascii.
  induction Hl as [|z l Hz _ IH]; simpl; [done|]. rewrite byte_Z_byte by done.
  f_equal. exact IH.
Qed.

Lemma bytes_is_byte s : Forall is_byte (bytes s).
Proof. apply Forall_fmap, Forall_true, byte_Z_range. Qed.

Lemma bytes_app s t : bytes (s +:+ t) = bytes s ++ bytes t.
Proof. induction s as [|c s IH]; simpl; [done|]. unfold bytes in *; simpl. f_equal. exact IH. Qed.

Lemma length_bytes s : length (bytes s) = String.length s.
Proof. unfold bytes. rewrite length_fmap. induction s; simpl; congruence. Qed.

Lemma of_bytes_app l k : of_bytes (l ++ k) = of_bytes l +:+ of_bytes k.
Proof.
  unfold of_bytes. rewrite fmap_app. generalize (Z_byte <$> l), (Z_byte <$> k).
  intros a b. induction a as [|c a IH]; simpl; [done|]. by rewrite IH.
Qed.

Lemma bytes_inj s t : bytes s = bytes t -> s = t.
Proof. intros E. by rewrite <-(of_bytes_bytes s), E, of_bytes_bytes. Qed.

(** ** UTF-8, as [unicode/utf8] decodes it *)

Definition RuneError : Z := 0xFFFD.

Definition is_cont (lo hi b : Z) : bool := (lo <=? b) && (b <=? hi).

(** [utf8.DecodeRune]: the first rune and its width in bytes.  An invalid or
    truncated sequence yields [RuneError] of width one. *)
Definition DecodeRune (p : list Z) : Z * nat :=
  match p with
  | [] => (RuneError, 0%nat)
  | b0 :: rest =>
    if b0 <? 0x80 then (b0, 1%nat)
    else if b0 <? 0xC2 then (RuneError, 1%nat)
    else if b0 <? 0xE0 then
      match rest with
      | b1 :: _ =>
        if is_cont 0x80 0xBF b1
        then (Z.lor (Z.shiftl (Z.land b0 0x1F) 6) (Z.land b1 0x3F), 2%nat)
        else (RuneError, 1%nat)
      | _ => (RuneError, 1%nat)
      end
    else if b0 <? 0xF0 then
      let lo := if b0 =? 0xE0 then 0xA0 else 0x80 in
      let hi := if b0 =? 0xED then 0x9F else 0xBF in
      match rest with
      | b1 :: b2 :: _ =>
        if is_cont lo hi b1 && is_cont 0x80 0xBF b2
        then (Z.lor (Z.shiftl (Z.land b0 0x0F) 12)
               (Z.lor (Z.shiftl (Z.land b1 0x3F) 6) (Z.land b2 0x3F)), 3%nat)
        else (RuneError, 1%nat)
      | _ => (RuneError, 1%nat)
      end
    else if b0 <? 0xF5 then
      let lo := if b0 =? 0xF0 then 0x90 else 0x80 in
      let hi := if b0 =? 0xF4 then 0x8F else 0xBF in
      match rest with
      | b1 :: b2 :: b3 :: _ =>
        if is_cont lo hi b1 && is_cont 0x80 0xBF b2 && is_cont 0x80 0xBF b3
        then (Z.lor (Z.shiftl (Z.land b0 0x07) 18)
               (Z.lor (Z.shiftl (Z.land b1 0x3F) 12)
                 (Z.lor (Z.shiftl (Z.land b2 0x3F) 6) (Z.land b3 0x3F))), 4%nat)
        else (RuneError, 1%nat)
      | _ => (RuneError, 1%nat)
      end
    else (RuneError, 1%nat)
  end.

(** The runes of a byte sequence, as [for _, r := range s] and [[]rune(s)]
    produce them; [skip] counts the bytes of the current rune still to pass. *)
Fixpoint runes_from (skip : nat) (p : list Z) : list Z :=
  match p with
  | [] => []
  | _ :: rest =>
    match skip with
    | S k => runes_from k rest
    | O => let '(r, w) := DecodeRune p in r :: runes_from (pred w) rest
    end
  end.

Definition runes (s : string) : list Z := runes_from 0 (bytes s).

(** [utf8.RuneCountInString(s)] *)
Definition RuneCountInString (s : string) : Z := Z.of_nat (length (runes s)).

(** [utf8.AppendRune]: surrogates and values out of range become [RuneError]. *)
Definition valid_rune (r : Z) : bool :=
  ((0 <=? r) && (r <? 0xD800)) || ((0xDFFF <? r) && (r <=? 0x10FFFF)).

Definition encode_valid (r : Z) : list Z :=
  if r <=? 0x7F then [r]
  else if r <=? 0x7FF then
    [Z.lor 0xC0 (Z.shiftr r 6); Z.lor 0x80 (Z.land r 0x3F)]
  else if r <=? 0xFFFF then
    [Z.lor 0xE0 (Z.shiftr r 12); Z.lor 0x80 (Z.land (Z.shiftr r 6) 0x3F);
     Z.lor 0x80 (Z.land r 0x3F)]
  else
    [Z.lor 0xF0 (Z.shiftr r 18); Z.lor 0x80 (Z.land (Z.shiftr r 12) 0x3F);
     Z.lor 0x80 (Z.land (Z.shiftr r 6) 0x3F); Z.lor 0x80 (Z.land r 0x3F)].

Definition encode_rune (r : Z) : list Z :=
  encode_valid (if valid_rune r then r else RuneError).

(** [string(runes)] *)
Definition string_of_runes (rs : list Z) : string := of_bytes (rs ≫= encode_rune).

Lemma length_runes_from k p : (length (runes_from k p) <= length p)%nat.
Proof.
  revert k. induction p as [|b p IH]; intros k; [done|].
  cbn [runes_from length]. destruct k as [|k]; [|specialize (IH k); lia].
  destruct (DecodeRune (b :: p)) as [r w]. simpl. specialize (IH (pred w)). lia.
Qed.

Lemma RuneCount_le_len s : 0 <= RuneCountInString s <= len s.
Proof.
  unfold RuneCountInString, len, runes.
  pose proof (length_runes_from 0 (bytes s)). rewrite length_bytes in *. lia.
Qed.

Lemma RuneCount_empty : RuneCountInString "" = 0.
Proof. done. Qed.

(** *** Bit-level facts of the encoding *)

Lemma lor_add a k x : 0 <= k -> 0 <= x < 2 ^ k -> Z.lor (a * 2 ^ k) x = a * 2 ^ k + x.
Proof.
  intros Hk Hx. rewrite <-Z.shiftl_mul_pow2, <-Z.add_lor_land by done.
  enough (Z.land (Z.shiftl a k) x = 0) by lia.
  destruct (decide (x = 0)) as [->|]; [apply Z.land_0_r|].
  apply Z.bits_inj'. intros i Hi. rewrite Z.land_spec, Z.bits_0.
  destruct (decide (i < k)).
  - by rewrite Z.shiftl_spec_low.
  - rewrite (Z.bits_above_log2 x i); [apply andb_false_r|lia|].
    apply Z.log2_lt_pow2; [lia|]. eapply Z.lt_le_trans; [apply Hx|].
    apply Z.pow_le_mono_r; lia.
Qed.

(** The byte forms that occur in an encoding, as sums. *)
Lemma cont_byte r : Z.lor 0x80 (Z.land r 0x3F) = 0x80 + r mod 64.
Proof.
  change 0x3F with (Z.ones 6). rewrite Z.land_ones by lia.
  change 0x80 with (2 * 2 ^ 6) at 1. rewrite lor_add by (try apply Z.mod_pos_bound; lia). done.
Qed.

Lemma lead_byte a k x : 0 <= k -> 0 <= x < 2 ^ k ->
  Z.lor (a * 2 ^ k) x = a * 2 ^ k + x /\ Z.land (a * 2 ^ k + x) (Z.ones k) = x.
Proof.
  intros. split; [by apply lor_add|].
  rewrite Z.land_ones, Z.add_comm, Z.mod_add, Z.mod_small; lia.
Qed.

Lemma cont_payload x : Z.land (0x80 + x mod 64) 0x3F = x mod 64.
Proof.
  pose proof (Z.mod_pos_bound x 64). by apply (lead_byte 2 6); lia.
Qed.

Lemma is_cont_spec lo hi b : is_cont lo hi b = true <-> lo <= b <= hi.
Proof. unfold is_cont. lia. Qed.

Lemma cont_ok lo hi x : lo <= 0x80 + x mod 64 <= hi -> is_cont lo hi (0x80 + x mod 64) = true.
Proof. unfold is_cont. lia. Qed.

Lemma shift6_add a x : 0 <= x < 2 ^ 6 -> Z.lor (Z.shiftl a 6) x = a * 64 + x.
Proof. intros. rewrite Z.shiftl_mul_pow2 by lia. by apply lor_add. Qed.
Lemma shift12_add a x : 0 <= x < 2 ^ 12 -> Z.lor (Z.shiftl a 12) x = a * 4096 + x.
Proof. intros. rewrite Z.shiftl_mul_pow2 by lia. by apply lor_add. Qed.
Lemma shift18_add a x : 0 <= x < 2 ^ 18 -> Z.lor (Z.shiftl a 18) x = a * 262144 + x.
Proof. intros. rewrite Z.shiftl_mul_pow2 by lia. by apply lor_add. Qed.

(** Decoding what was encoded, one lemma per encoding length. *)
Lemma DecodeRune_encode1 r rest : 0 <= r <= 0x7F ->
  DecodeRune (r :: rest) = (r, 1%nat).
Proof. intros. simpl. by replace (r <? 128) with true by lia. Qed.

Lemma DecodeRune_encode2 r rest : 0x80 <= r <= 0x7FF ->
  DecodeRune (Z.lor 0xC0 (Z.shiftr r 6) :: Z.lor 0x80 (Z.land r 0x3F) :: rest) = (r, 2%nat).
Proof.
  intros Hr. rewrite cont_byte, Z.shiftr_div_pow2 by lia.
  destruct (lead_byte 6 5 (r / 2 ^ 6)) as [E1 E2]; [lia|euclid|].
  change (6 * 2 ^ 5) with 0xC0 in *. change (Z.ones 5) with 0x1F in *.
  rewrite E1. unfold DecodeRune.
  rewrite (proj2 (Z.ltb_ge _ 0x80)), (proj2 (Z.ltb_ge _ 0xC2)), (proj2 (Z.ltb_lt _ 0xE0)) by euclid.
  rewrite cont_ok by euclid.
  rewrite E2, cont_payload, shift6_add by euclid. f_equal. euclid.
Qed.

Lemma DecodeRune_encode3 r rest : 0x800 <= r <= 0xFFFF -> valid_rune r = true ->
  DecodeRune (Z.lor 0xE0 (Z.shiftr r 12) :: Z.lor 0x80 (Z.land (Z.shiftr r 6) 0x3F)
    :: Z.lor 0x80 (Z.land r 0x3F) :: rest) = (r, 3%nat).
Proof.
  intros Hr Hv. rewrite !cont_byte, !Z.shiftr_div_pow2 by lia.
  destruct (lead_byte 14 4 (r / 2 ^ 12)) as [E1 E2]; [lia|euclid|].
  change (14 * 2 ^ 4) with 0xE0 in *. change (Z.ones 4) with 0x0F in *.
  rewrite E1. unfold DecodeRune, valid_rune in *.
  rewrite (proj2 (Z.ltb_ge _ 0x80)), (proj2 (Z.ltb_ge _ 0xC2)),
    (proj2 (Z.ltb_ge _ 0xE0)), (proj2 (Z.ltb_lt _ 0xF0)) by euclid.
  rewrite !cont_ok by (repeat case_match; euclid). cbn [andb].
  rewrite E2, !cont_payload, shift6_add, shift12_add by euclid. f_equal. euclid.
Qed.

Lemma DecodeRune_encode4 r rest : 0x10000 <= r <= 0x10FFFF ->
  DecodeRune (Z.lor 0xF0 (Z.shiftr r 18) :: Z.lor 0x80 (Z.land (Z.shiftr r 12) 0x3F)
    :: Z.lor 0x80 (Z.land (Z.shiftr r 6) 0x3F) :: Z.lor 0x80 (Z.land r 0x3F) :: rest)
  = (r, 4%nat).
Proof.
  intros Hr. rewrite !cont_byte, !Z.shiftr_div_pow2 by lia.
  destruct (lead_byte 30 3 (r / 2 ^ 18)) as [E1 E2]; [lia|euclid|].
  change (30 * 2 ^ 3) with 0xF0 in *. change (Z.ones 3) with 0x07 in *.
  rewrite E1. unfold DecodeRune.
  rewrite (proj2 (Z.ltb_ge _ 0x80)), (proj2 (Z.ltb_ge _ 0xC2)),
    (proj2 (Z.ltb_ge _ 0xE0)), (proj2 (Z.ltb_ge _ 0xF0)), (proj2 (Z.ltb_lt _ 0xF5)) by euclid.
  rewrite !cont_ok by (repeat case_match; euclid). cbn [andb].
  rewrite E2, !cont_payload, shift6_add, shift12_add, shift18_add by euclid. f_equal. euclid.
Qed.

Lemma DecodeRune_encode r rest : valid_rune r = true ->
  DecodeRune (encode_valid r ++ rest) = (r, length (encode_valid r)).
Proof.
  intros Hv. unfold encode_valid.
  destruct (Z.leb_spec r 0x7F); [|destruct (Z.leb_spec r 0x7FF);
    [|destruct (Z.leb_spec r 0xFFFF)]]; cbn [app length].
  - apply DecodeRune_encode1. unfold valid_rune in Hv. lia.
  - apply DecodeRune_encode2. lia.
  - apply DecodeRune_encode3; [lia|done].
  - apply DecodeRune_encode4. unfold valid_rune in Hv. lia.
Qed.

(** Decoding inverts encoding on any list of Unicode scalar values. *)
Lemma runes_from_skip k p rest : length p = k -> runes_from k (p ++ rest) = runes_from 0 rest.
Proof.
  intros <-. induction p as [|b p IH]; [done|]. exact IH.
Qed.

Lemma runes_encode rs rest : Forall (fun r => valid_rune r = true) rs ->
  runes_from 0 ((rs ≫= encode_rune) ++ rest) = rs ++ runes_from 0 rest.
Proof.
  induction 1 as [|r rs Hr _ IH]; [done|]. rewrite bind_cons, <-(assoc_L (++)).
  unfold encode_rune at 1. rewrite Hr.
  destruct (encode_valid r) as [|b bs] eqn:E.
  { unfold encode_valid in E. by repeat case_match. }
  cbn [app runes_from]. rewrite app_comm_cons, <-E, DecodeRune_encode, E by done.
  cbn [length pred app]. by rewrite runes_from_skip, IH.
Qed.

(** Every decoded rune is a Unicode scalar value. *)
Lemma land_mask b k : 0 <= k -> Z.land b (Z.ones k) = b mod 2 ^ k.
Proof. apply Z.land_ones. Qed.

Lemma DecodeRune_valid p : Forall is_byte p -> valid_rune (DecodeRune p).1 = true.
Proof.
  intros Hp. destruct Hp as [|b0 rest Hb0 Hrest]; [done|]. unfold is_byte in *.
  unfold DecodeRune.
  destruct (Z.ltb_spec b0 0x80); [cbn [fst]; unfold valid_rune; lia|].
  destruct (Z.ltb_spec b0 0xC2); [done|].
  change 0x1F with (Z.ones 5). change 0x0F with (Z.ones 4). change 0x07 with (Z.ones 3).
  change 0x3F with (Z.ones 6). rewrite !land_mask by lia.
  destruct (Z.ltb_spec b0 0xE0); [|destruct (Z.ltb_spec b0 0xF0); [|destruct (Z.ltb_spec b0 0xF5); [|done]]].
  - destruct Hrest as [|b1 ? Hb1 _]; [done|]. rewrite land_mask by lia.
    destruct (is_cont 0x80 0xBF b1) eqn:E1; [|done]. cbn [fst].
    rewrite shift6_add by euclid. unfold valid_rune. euclid.
  - destruct Hrest as [|b1 ? Hb1 [|b2 ? Hb2 _]]; [done..|]. rewrite !land_mask by lia.
    destruct (is_cont _ _ b1) eqn:E1; [|done].
    destruct (is_cont 0x80 0xBF b2) eqn:E2; [|done]. cbn [fst andb].
    apply is_cont_spec in E1, E2.
    rewrite shift6_add, shift12_add by euclid. unfold valid_rune.
    destruct (Z.eqb_spec b0 0xE0), (Z.eqb_spec b0 0xED); euclid.
  - destruct Hrest as [|b1 ? Hb1 [|b2 ? Hb2 [|b3 ? Hb3 _]]]; [done..|].
    rewrite !land_mask by lia.
    destruct (is_cont _ _ b1) eqn:E1; [|done].
    destruct (is_cont 0x80 0xBF b2) eqn:E2; [|done].
    destruct (is_cont 0x80 0xBF b3) eqn:E3; [|done]. cbn [fst andb].
    apply is_cont_spec in E1, E2, E3.
    rewrite shift6_add, shift12_add, shift18_add by euclid. unfold valid_rune.
    destruct (Z.eqb_spec b0 0xF0), (Z.eqb_spec b0 0xF4); euclid.
Qed.

Lemma runes_from_valid k p : Forall is_byte p ->
  Forall (fun r => valid_rune r = true) (runes_from k p).
Proof.
  intros Hp. revert k. induction Hp as [|b p Hb Hp IH]; intros k; [constructor|].
  cbn [runes_from]. destruct k as [|k]; [|apply IH].
  pose proof (DecodeRune_valid (b :: p) (Forall_cons_2 _ _ _ Hb Hp)) as Hv.
  destruct (DecodeRune (b :: p)) as [r w]. constructor; [exact Hv|apply IH].
Qed.

Lemma runes_valid s : Forall (fun r => valid_rune r = true) (runes s).
Proof. apply runes_from_valid, bytes_is_byte. Qed.

Lemma encode_rune_bytes r : Forall is_byte (encode_rune r).
Proof.
  unfold encode_rune. set (v := if valid_rune r then r else RuneError).
  assert (Hv : valid_rune v = true) by (unfold v; by destruct (valid_rune r) eqn:?).
  clearbody v. unfold encode_valid, valid_rune in *.
  rewrite !cont_byte, !Z.shiftr_div_pow2 by lia.
  destruct (Z.leb_spec v 0x7F); [|destruct (Z.leb_spec v 0x7FF);
    [|destruct (Z.leb_spec v 0xFFFF)]]; unfold is_byte.
  - repeat constructor; lia.
  - destruct (lead_byte 6 5 (v / 2 ^ 6)) as [E _]; [lia|euclid|].
    change (6 * 2 ^ 5) with 0xC0 in E. rewrite E. repeat constructor; euclid.
  - destruct (lead_byte 14 4 (v / 2 ^ 12)) as [E _]; [lia|euclid|].
    change (14 * 2 ^ 4) with 0xE0 in E. rewrite E. repeat constructor; euclid.
  - destruct (lead_byte 30 3 (v / 2 ^ 18)) as [E _]; [lia|euclid|].
    change (30 * 2 ^ 3) with 0xF0 in E. rewrite E. repeat constructor; euclid.
Qed.

Lemma encode_runes_bytes rs : Forall is_byte (rs ≫= encode_rune).
Proof.
  induction rs as [|r rs IH]; [constructor|]. rewrite bind_cons.
  apply Forall_app_2; [apply encode_rune_bytes|exact IH].
Qed.

(** Re-encoding decoded runes and decoding again gives the same runes. *)
Lemma runes_string_of_runes rs t : Forall (fun r => valid_rune r = true) rs ->
  runes (string_of_runes rs +:+ t) = rs ++ runes t.
Proof.
  intros Hrs. unfold runes, string_of_runes.
  rewrite bytes_app, bytes_of_bytes by apply encode_runes_bytes.
  by apply runes_encode.
Qed.
