(* ===== verification/GoStrings.v ===== *)
(** The functions of Go's packages [strings], [strconv] and [encoding/hex] that
    the program calls, on byte strings, with the lemmas its proofs share. *)
From Stdlib Require Import Ascii String.
From S2P Require Import Prelude GoStd.

Local Open Scope Z_scope.

(** The double quote, which a string literal cannot hold here. *)
Definition dquote : ascii := "034"%char.
Definition newline : string := String "010" EmptyString.

(** ** Searching and splitting *)

(** [strings.Contains(s, sub)] *)
Fixpoint Contains (s sub : string) : bool :=
  String.prefix sub s ||
  match s with
  | EmptyString => false
  | String _ s' => Contains s' sub
  end.

(** [strings.Split(s, sep)] for a one-byte separator. *)
Fixpoint Split (s : string) (sep : ascii) : list string :=
  match s with
  | EmptyString => [EmptyString]
  | String c s' =>
    if decide (c = sep) then EmptyString :: Split s' sep
    else match Split s' sep with
         | [] => [String c EmptyString]
         | x :: xs => String c x :: xs
         end
  end.

(** [strings.SplitN(s, sep, 2)[0]]: what precedes the first [sep]. *)
Fixpoint Before (s sep : string) : string :=
  if String.prefix sep s then EmptyString
  else match s with
       | EmptyString => EmptyString
       | String c s' => String c (Before s' sep)
       end.

(** [strings.Join(l, sep)] *)
Fixpoint Join (l : list string) (sep : string) : string :=
  match l with
  | [] => EmptyString
  | [x] => x
  | x :: l' => x +:+ sep +:+ Join l' sep
  end.

Definition no_byte (c : ascii) (s : string) : Prop := Forall (fun x => x <> c) (list_ascii_of_string s).

#[export] Instance no_byte_dec c s : Decision (no_byte c s).
Proof. unfold no_byte. apply _. Defined.

Lemma Split_not_nil s sep : Split s sep <> [].
Proof. destruct s; simpl; [done|]. case_decide; [done|]. by destruct (Split s sep). Qed.

Lemma Split_no_sep s sep : no_byte sep s -> Split s sep = [s].
Proof.
  induction s as [|c s IH]; intros Hs; simpl; [done|].
  unfold no_byte in *; simpl in Hs. apply Forall_cons in Hs as [Hc Hs].
  rewrite decide_False by done. by rewrite IH.
Qed.

Lemma Split_app a sep b : no_byte sep a ->
  Split (a +:+ String sep b) sep = a :: Split b sep.
Proof.
  induction a as [|c a IH]; intros Ha; simpl.
  - by rewrite decide_True.
  - unfold no_byte in *; simpl in Ha. apply Forall_cons in Ha as [Hc Ha].
    rewrite decide_False by done. by rewrite IH.
Qed.

(** Two strings joined around a byte absent from the first part are read back. *)
Lemma app_sep_inj (a b a' b' : string) sep :
  no_byte sep a -> no_byte sep a' ->
  a +:+ String sep b = a' +:+ String sep b' -> a = a' /\ b = b'.
Proof.
  revert a'. induction a as [|c a IH]; intros [|c' a'] Ha Ha' E; simpl in *.
  - by injection E.
  - injection E as -> _. unfold no_byte in Ha'. simpl in Ha'.
    apply Forall_cons in Ha' as [? _]. done.
  - injection E as -> _. unfold no_byte in Ha. simpl in Ha.
    apply Forall_cons in Ha as [? _]. done.
  - injection E as -> E. unfold no_byte in *. simpl in Ha, Ha'.
    apply Forall_cons in Ha as [_ Ha]. apply Forall_cons in Ha' as [_ Ha'].
    destruct (IH a' Ha Ha' E) as [-> ->]. done.
Qed.

Lemma string_app_assoc (a b c : string) : (a +:+ b) +:+ c = a +:+ (b +:+ c).
Proof. induction a as [|x a IH]; simpl; [done|]. by rewrite IH. Qed.

Lemma prefix_app a b : String.prefix a (a +:+ b) = true.
Proof.
  induction a as [|c a IH]; simpl; [by destruct b|].
  destruct (ascii_dec c c) as [_|?]; [exact IH|done].
Qed.

Lemma prefix_inv a s : String.prefix a s = true -> exists t, s = a +:+ t.
Proof.
  revert s. induction a as [|c a IH]; intros s Hp; [by exists s|].
  destruct s as [|d s]; simpl in Hp; [done|]. destruct (ascii_dec c d) as [->|]; [|done].
  destruct (IH s Hp) as [t ->]. by exists t.
Qed.

Lemma no_byte_app c a b : no_byte c (a +:+ b) <-> no_byte c a /\ no_byte c b.
Proof.
  unfold no_byte. induction a as [|x a IH]; simpl; [|rewrite !Forall_cons, IH; tauto].
  split; [auto|by intros [_ ?]].
Qed.

(** ** White space *)

(** [unicode.IsSpace] *)
Definition IsSpace (r : Z) : bool :=
  ((9 <=? r) && (r <=? 13)) || (r =? 0x20) || (r =? 0x85) || (r =? 0xA0) ||
  (r =? 0x1680) || ((0x2000 <=? r) && (r <=? 0x200A)) || (r =? 0x2028) ||
  (r =? 0x2029) || (r =? 0x202F) || (r =? 0x205F) || (r =? 0x3000).

(** The runes [IsSpace] accepts, and their encodings. *)
Definition space_runes : list Z :=
  [9; 10; 11; 12; 13; 0x20; 0x85; 0xA0; 0x1680; 0x2000; 0x2001; 0x2002; 0x2003;
   0x2004; 0x2005; 0x2006; 0x2007; 0x2008; 0x2009; 0x200A; 0x2028; 0x2029; 0x202F;
   0x205F; 0x3000].

(** The width of the space rune that [p] starts with, 0 when there is none. *)
Definition space_width (p : list Z) : nat :=
  let '(r, w) := DecodeRune p in if IsSpace r then w else 0%nat.

Fixpoint trim_left (skip : nat) (p : list Z) : list Z :=
  match p with
  | [] => []
  | _ :: rest =>
    match skip with
    | S k => trim_left k rest
    | O => match space_width p with
           | O => p
           | S w => trim_left w rest
           end
    end
  end.

(** The width of the space rune whose encoding, reversed, starts [q]. *)
Definition space_width_rev (q : list Z) : nat :=
  match List.find (fun r => bool_decide (rev (encode_valid r) `prefix_of` q)) space_runes with
  | Some r => length (encode_valid r)
  | None => 0%nat
  end.

Fixpoint trim_right_rev (skip : nat) (q : list Z) : list Z :=
  match q with
  | [] => []
  | _ :: rest =>
    match skip with
    | S k => trim_right_rev k rest
    | O => match space_width_rev q with
           | O => q
           | S w => trim_right_rev w rest
           end
    end
  end.

(** [strings.TrimSpace(s)] *)
Definition TrimSpace (s : string) : string :=
  of_bytes (rev (trim_right_rev 0 (rev (trim_left 0 (bytes s))))).

(** TrimSpace takes a prefix and a suffix off, both made of bytes of space
    runes; so no ASCII byte other than a space is lost. *)
Definition visible_ascii (b : Z) : Prop := 0x20 < b < 0x80.
Definition blank_byte (b : Z) : Prop := ~ visible_ascii b.

Lemma space_width_blank p : Forall blank_byte (take (space_width p) p).
Proof.
  unfold space_width. destruct (DecodeRune p) as [r w] eqn:E. destruct (IsSpace r) eqn:Hr; [|constructor].
  unfold blank_byte, visible_ascii. destruct p as [|b0 p]; [injection E as <- <-; constructor|].
  revert E. unfold DecodeRune. destruct (Z.ltb_spec b0 0x80).
  { intros [= <- <-]. cbn [take firstn]. repeat constructor. unfold IsSpace in Hr. lia. }
  intros E. assert (Hb : (w <= 1)%nat \/ Forall (fun b => 0x80 <= b) (take w (b0 :: p))).
  { unfold is_cont in E. repeat case_match; injection E as <- <-; try (left; lia); right; repeat constructor; lia. }
  destruct Hb as [Hw|Hb].
  - destruct w as [|[|]]; [constructor| |lia]. repeat constructor. lia.
  - eapply Forall_impl; [exact Hb|]. simpl. lia.
Qed.

Lemma trim_left_blank p : forall k, Forall blank_byte (take k p) ->
  exists a, p = a ++ trim_left k p /\ Forall blank_byte a.
Proof.
  induction p as [|b p IH]; intros k Hk; [by exists []|]. cbn [trim_left]. destruct k as [|k].
  - pose proof (space_width_blank (b :: p)) as Hw. destruct (space_width (b :: p)) as [|w]; [by exists []|].
    cbn [take firstn] in Hw. apply Forall_cons in Hw as [Hb Hw]. destruct (IH w Hw) as (a & E & Ha).
    exists (b :: a). simpl. split; [by rewrite <-E|by constructor].
  - cbn [take firstn] in Hk. apply Forall_cons in Hk as [Hb Hk]. destruct (IH k Hk) as (a & E & Ha).
    exists (b :: a). simpl. split; [by rewrite <-E|by constructor].
Qed.

Lemma space_width_rev_blank q : Forall blank_byte (take (space_width_rev q) q).
Proof.
  unfold space_width_rev. destruct (List.find _ space_runes) as [r|] eqn:E; [|constructor].
  apply List.find_some in E as [Hr [k ->]%bool_decide_eq_true].
  rewrite <-length_rev, take_app_length. apply Forall_rev. apply list_elem_of_In in Hr.
  assert (Hall : Forall (fun r => Forall (fun b => negb ((0x20 <? b) && (b <? 0x80)) = true) (encode_valid r)) space_runes)
    by (repeat constructor).
  rewrite Forall_forall in Hall. eapply Forall_impl; [apply Hall, Hr|]. intros b. unfold blank_byte, visible_ascii. simpl. lia.
Qed.

Lemma trim_right_rev_blank q : forall k, Forall blank_byte (take k q) ->
  exists a, q = a ++ trim_right_rev k q /\ Forall blank_byte a.
Proof.
  induction q as [|b q IH]; intros k Hk; [by exists []|]. cbn [trim_right_rev]. destruct k as [|k].
  - pose proof (space_width_rev_blank (b :: q)) as Hw. destruct (space_width_rev (b :: q)) as [|w]; [by exists []|].
    cbn [take firstn] in Hw. apply Forall_cons in Hw as [Hb Hw]. destruct (IH w Hw) as (a & E & Ha).
    exists (b :: a). simpl. split; [by rewrite <-E|by constructor].
  - cbn [take firstn] in Hk. apply Forall_cons in Hk as [Hb Hk]. destruct (IH k Hk) as (a & E & Ha).
    exists (b :: a). simpl. split; [by rewrite <-E|by constructor].
Qed.

Lemma TrimSpace_blank s : exists a b, bytes s = a ++ bytes (TrimSpace s) ++ b /\ Forall blank_byte a /\ Forall blank_byte b.
Proof.
  destruct (trim_left_blank (bytes s) 0) as (a & Ea & Ha); [constructor|]. unfold TrimSpace.
  set (m := trim_left 0 (bytes s)) in *. destruct (trim_right_rev_blank (rev m) 0) as (b & Eb & Hb); [constructor|].
  set (q := trim_right_rev 0 (rev m)) in *. assert (Em : m = rev q ++ rev b) by by rewrite <-rev_app_distr, <-Eb, rev_involutive.
  exists a, (rev b). split_and!; [|done|by apply Forall_rev]. rewrite bytes_of_bytes; [by rewrite <-Em|].
  pose proof (bytes_is_byte s) as Hs. rewrite Ea, Em in Hs. by apply Forall_app in Hs as [_ [Hs _]%Forall_app].
Qed.

(** ** Letter case *)

(** The rune mappings of package [unicode] outside ASCII. *)
Class UnicodeCase := {
  unicode_lower : Z -> Z;
  unicode_upper : Z -> Z;
}.

Definition ascii_lower (b : Z) : Z := if (65 <=? b) && (b <=? 90) then b + 32 else b.
Definition ascii_upper (b : Z) : Z := if (97 <=? b) && (b <=? 122) then b - 32 else b.

Definition isASCII (s : string) : bool := forallb (fun b => b <? 0x80) (bytes s).

Section Case.
Context `{UnicodeCase}.

(** [unicode.ToLower], [unicode.ToUpper] *)
Definition rune_lower (r : Z) : Z := if r <? 0x80 then ascii_lower r else unicode_lower r.
Definition rune_upper (r : Z) : Z := if r <? 0x80 then ascii_upper r else unicode_upper r.

(** [strings.ToLower], [strings.ToUpper] *)
Definition ToLower (s : string) : string :=
  if isASCII s then of_bytes (ascii_lower <$> bytes s)
  else string_of_runes (rune_lower <$> runes s).
Definition ToUpper (s : string) : string :=
  if isASCII s then of_bytes (ascii_upper <$> bytes s)
  else string_of_runes (rune_upper <$> runes s).
End Case.

(** ** Numbers *)

Definition digit_of (c : ascii) : option Z :=
  let b := byte_Z c in if (48 <=? b) && (b <=? 57) then Some (b - 48) else None.

Fixpoint digits_value (acc : Z) (s : string) : option Z :=
  match s with
  | EmptyString => Some acc
  | String c s' => d ← digit_of c; digits_value (acc * 10 + d) s'
  end.

Definition digits (s : string) : option Z :=
  match s with EmptyString => None | _ => digits_value 0 s end.

(** [strconv.Atoi(s)]; [None] is its error. *)
Definition Atoi (s : string) : option Z :=
  v ← match s with
      | String c s' =>
        if decide (c = "-"%char) then Z.opp <$> digits s'
        else if decide (c = "+"%char) then digits s' else digits s
      | EmptyString => None
      end;
  if (- 2 ^ 63 <=? v) && (v <? 2 ^ 63) then Some v else None.

Lemma Atoi_range s v : Atoi s = Some v -> - 2 ^ 63 <= v < 2 ^ 63.
Proof.
  unfold Atoi. intros H. apply bind_Some in H as (x & _ & Hx).
  destruct (_ && _) eqn:E; [|done]. injection Hx as ->. lia.
Qed.

(** [fmt.Sprintf] of an integer with the verb d. *)
Definition digit_char (d : Z) : ascii := Z_byte (48 + d).

Fixpoint itoa_fuel (fuel : nat) (n : Z) (acc : string) : string :=
  match fuel with
  | O => acc
  | S k =>
    let acc := String (digit_char (n mod 10)) acc in
    if n <? 10 then acc else itoa_fuel k (n / 10) acc
  end.

(** Twenty digits hold every 64-bit integer. *)
Definition Itoa (n : Z) : string :=
  if n <? 0 then String "-"%char (itoa_fuel 20 (- n) EmptyString) else itoa_fuel 20 n EmptyString.

(** ** Hexadecimal *)

(** Induction two bytes at a time. *)
Lemma string_ind2 (P : string -> Prop) :
  P EmptyString -> (forall c, P (String c EmptyString)) ->
  (forall c d s, P s -> P (String c (String d s))) -> forall s, P s.
Proof.
  intros H0 H1 H2 s. enough (P s /\ forall c, P (String c s)) by tauto.
  induction s as [|d s [IH1 IH2]]; split; auto.
Qed.

Definition hex_value (c : ascii) : option Z :=
  let b := byte_Z c in
  if (48 <=? b) && (b <=? 57) then Some (b - 48)
  else if (97 <=? b) && (b <=? 102) then Some (b - 87)
  else if (65 <=? b) && (b <=? 70) then Some (b - 55)
  else None.

(** [hex.DecodeString(s)]; [None] is its error (odd length or a bad digit). *)
Fixpoint hex_DecodeString (s : string) : option (list Z) :=
  match s with
  | EmptyString => Some []
  | String _ EmptyString => None
  | String c (String d s') =>
    h ← hex_value c; l ← hex_value d; rest ← hex_DecodeString s'; Some (h * 16 + l :: rest)
  end.

Definition hex_digit (v : Z) : ascii := Z_byte (if v <? 10 then 48 + v else 87 + v).

(** [hex.EncodeToString(l)] *)
Fixpoint hex_EncodeToString (l : list Z) : string :=
  match l with
  | [] => EmptyString
  | b :: l' => String (hex_digit (b / 16)) (String (hex_digit (b mod 16)) (hex_EncodeToString l'))
  end.

(** ** Texts PostgreSQL can hold

    PostgreSQL refuses a text that is not UTF-8 and one with a NUL in it. *)
Definition storable (s : string) : Prop :=
  string_of_runes (runes s) = s /\ Forall (fun r => r <> 0) (runes s).

#[export] Instance storable_dec s : Decision (storable s).
Proof. unfold storable. apply _. Defined.

(** ASCII without NUL *)
Definition plain (s : string) : bool := forallb (fun b => (0 <? b) && (b <? 128)) (bytes s).

Lemma plain_runes s : plain s = true -> runes s = bytes s.
Proof.
  unfold plain, runes. induction (bytes s) as [|b p IH]; [done|]. simpl.
  rewrite andb_true_iff. intros [Hb Hp]. assert (E : (b <? 128) = true) by lia. rewrite E. simpl. by rewrite IH.
Qed.

Lemma plain_storable s : plain s = true -> storable s.
Proof.
  intros Hs. unfold storable. rewrite plain_runes by done. unfold plain in Hs. split.
  - unfold string_of_runes. rewrite <-(of_bytes_bytes s) at 2. f_equal.
    induction (bytes s) as [|b p IH]; [done|]. simpl in Hs. apply andb_true_iff in Hs as [Hb Hp].
    rewrite bind_cons, IH by done. unfold encode_rune, encode_valid, valid_rune.
    assert ((0 <=? b) && (b <? 0xD800) = true) as -> by lia. simpl. assert ((b <=? 0x7F) = true) as -> by lia. done.
  - induction (bytes s) as [|b p IH]; [constructor|]. simpl in Hs. apply andb_true_iff in Hs as [Hb Hp].
    constructor; [lia|by apply IH].
Qed.

(** Hexadecimal text is one of them. *)
Lemma hex_EncodeToString_plain l : Forall is_byte l -> plain (hex_EncodeToString l) = true.
Proof.
  assert (Hd : forall v, 0 <= v < 16 -> (0 <? byte_Z (hex_digit v)) && (byte_Z (hex_digit v) <? 128) = true).
  { intros v Hv. unfold hex_digit. rewrite byte_Z_byte by (case_match; lia). case_match; lia. }
  unfold plain, bytes. induction 1 as [|b l Hb _ IH]; [done|]. unfold is_byte in Hb.
  cbn. rewrite !Hd; [exact IH|apply Z.mod_pos_bound; lia|].
  split; [apply Z.div_pos; lia|apply Z.div_lt_upper_bound; lia].
Qed.
