(* ===== verification/Float64.v ===== *)
(** IEEE binary64 numbers, Go's [float64] and PostgreSQL's [FLOAT] columns, by
    the Standard Library's executable specification of floating point
    ([SpecFloat]): every operation is correctly rounded, infinities and NaN
    included.  The file adds the two comparisons the program relies on (Go's,
    where NaN compares false, and PostgreSQL's, where NaN is the largest value)
    and proves that they are orders. *)
From Stdlib Require Import SpecFloat.
From S2P Require Import Prelude.

Local Open Scope Z_scope.

Abbreviation float64 := spec_float.

Definition fadd : float64 -> float64 -> float64 := SFadd 53 1024.
Definition fsub : float64 -> float64 -> float64 := SFsub 53 1024.
Definition fmul : float64 -> float64 -> float64 := SFmul 53 1024.
Definition fdiv : float64 -> float64 -> float64 := SFdiv 53 1024.

(** [float64(n)] *)
Definition f_of_Z (n : Z) : float64 := binary_normalize 53 1024 n 0 false.

(** The literal nearest to [n/d]. *)
Definition f_lit (n d : Z) : float64 := fdiv (f_of_Z n) (f_of_Z d).

#[export] Instance float64_eq_dec : EqDecision float64.
Proof. solve_decision. Defined.

(** ** The order of the non-NaN values *)

(** A key whose lexicographic order is the order of the values. *)
Definition fkey (x : float64) : option (Z * Z * Z) :=
  match x with
  | S754_nan => None
  | S754_infinity true => Some (-2, 0, 0)
  | S754_finite true m e => Some (-1, - e, Z.neg m)
  | S754_zero _ => Some (0, 0, 0)
  | S754_finite false m e => Some (1, e, Z.pos m)
  | S754_infinity false => Some (2, 0, 0)
  end.

Definition lex_le (a b : Z * Z * Z) : Prop :=
  let '(a1, a2, a3) := a in let '(b1, b2, b3) := b in
  a1 < b1 \/ (a1 = b1 /\ (a2 < b2 \/ (a2 = b2 /\ a3 <= b3))).

Lemma finite_compare ex ey mx my :
  SFcompare (S754_finite false mx ex) (S754_finite false my ey) =
    Some (if decide (ex < ey \/ (ex = ey /\ (mx < my)%positive)) then Lt
          else if decide (ex = ey /\ mx = my) then Eq else Gt) /\
  SFcompare (S754_finite true mx ex) (S754_finite true my ey) =
    Some (if decide (ex < ey \/ (ex = ey /\ (mx < my)%positive)) then Gt
          else if decide (ex = ey /\ mx = my) then Eq else Lt).
Proof.
  simpl. change (PosDef.Pos.compare_cont Eq mx my) with (mx ?= my)%positive.
  destruct (Z.compare_spec ex ey), (Pos.compare_spec mx my); split; f_equal;
    repeat case_decide; try done; exfalso; naive_solver lia.
Qed.

Lemma SFcompare_key x y c : SFcompare x y = Some c ->
  exists a b, fkey x = Some a /\ fkey y = Some b /\
    (c = Lt -> ~ lex_le b a) /\ (c = Gt -> ~ lex_le a b) /\ (c <> Gt -> lex_le a b) /\
    (c <> Lt -> lex_le b a).
Proof.
  intros Hc. destruct x as [sx|sx| |sx mx ex], y as [sy|sy| |sy my ey]; try done;
    try destruct sx; try destruct sy;
    try (destruct (finite_compare ex ey mx my) as [E1 E2];
         (rewrite E1 in Hc || rewrite E2 in Hc));
    simpl in Hc; injection Hc as <-; (do 2 eexists);
    split_and!; try done; intros; unfold lex_le; repeat case_decide; try done; lia.
Qed.

Lemma SFcompare_Some x y a b : fkey x = Some a -> fkey y = Some b ->
  exists c, SFcompare x y = Some c.
Proof. destruct x as [| | |?], y as [| | |?]; simpl; intros; simplify_eq; eauto; repeat case_match; eauto. Qed.

Lemma SFleb_key x y :
  SFleb x y = true <-> exists a b, fkey x = Some a /\ fkey y = Some b /\ lex_le a b.
Proof.
  unfold SFleb. split.
  - destruct (SFcompare x y) as [c|] eqn:E; [|done].
    destruct (SFcompare_key _ _ _ E) as (a & b & ? & ? & ? & ? & ? & ?).
    intros Hc. exists a, b. split_and!; [done..|]. destruct c; naive_solver.
  - intros (a & b & Ha & Hb & Hle). destruct (SFcompare_Some x y a b Ha Hb) as [c E].
    rewrite E. destruct (SFcompare_key _ _ _ E) as (a' & b' & ? & ? & ? & ? & ? & ?).
    simplify_eq. destruct c; naive_solver.
Qed.

Lemma SFltb_key x y :
  SFltb x y = true <-> exists a b, fkey x = Some a /\ fkey y = Some b /\ ~ lex_le b a.
Proof.
  unfold SFltb. split.
  - destruct (SFcompare x y) as [c|] eqn:E; [|done].
    destruct (SFcompare_key _ _ _ E) as (a & b & ? & ? & ? & ? & ? & ?).
    intros Hc. exists a, b. split_and!; [done..|]. destruct c; naive_solver.
  - intros (a & b & Ha & Hb & Hle). destruct (SFcompare_Some x y a b Ha Hb) as [c E].
    rewrite E. destruct (SFcompare_key _ _ _ E) as (a' & b' & ? & ? & ? & ? & ? & ?).
    simplify_eq. destruct c; naive_solver.
Qed.

(** Go's comparisons: [x <= y] and [x < y] on [float64]. *)
Definition fle (x y : float64) : bool := SFleb x y.
Definition flt (x y : float64) : bool := SFltb x y.

(** A value that is not NaN. *)
Definition is_num (x : float64) : bool := match x with S754_nan => false | _ => true end.

Lemma is_num_key x : is_num x = true <-> exists a, fkey x = Some a.
Proof. destruct x as [|[]| |[]]; simpl; split; intros Hx; eauto; try done; by destruct Hx. Qed.

Lemma lex_le_refl a : lex_le a a.
Proof. destruct a as [[??]?]. unfold lex_le. lia. Qed.
Lemma lex_le_trans a b c : lex_le a b -> lex_le b c -> lex_le a c.
Proof. destruct a as [[??]?], b as [[??]?], c as [[??]?]. unfold lex_le. lia. Qed.
Lemma lex_le_total a b : lex_le a b \/ lex_le b a.
Proof. destruct a as [[??]?], b as [[??]?]. unfold lex_le. lia. Qed.

Lemma fle_refl x : is_num x = true -> fle x x = true.
Proof. intros [a Ha]%is_num_key. apply SFleb_key. eauto using lex_le_refl. Qed.

Lemma fle_trans x y z : fle x y = true -> fle y z = true -> fle x z = true.
Proof.
  intros (a & b & Ha & Hb & ?)%SFleb_key (b' & c & Hb' & Hc & ?)%SFleb_key. simplify_eq.
  apply SFleb_key. exists a, c. split_and!; [done..|]. by eapply lex_le_trans.
Qed.

Lemma flt_not_fle x y : is_num x = true -> is_num y = true -> flt x y = negb (fle y x).
Proof.
  intros [a Ha]%is_num_key [b Hb]%is_num_key.
  destruct (fle y x) eqn:E; simpl.
  - apply SFleb_key in E as (? & ? & ? & ? & ?). simplify_eq.
    destruct (flt x y) eqn:E'; [|done]. apply SFltb_key in E' as (? & ? & ? & ? & ?). by simplify_eq.
  - apply SFltb_key. exists a, b. split_and!; [done..|]. intros Hle.
    assert (fle y x = true) by (apply SFleb_key; eauto). congruence.
Qed.

Lemma fle_total x y : is_num x = true -> is_num y = true -> fle x y = true \/ fle y x = true.
Proof.
  intros [a Ha]%is_num_key [b Hb]%is_num_key.
  destruct (lex_le_total a b); [left|right]; apply SFleb_key; eauto.
Qed.

Lemma flt_fle x y : flt x y = true -> fle x y = true.
Proof.
  intros (a & b & ? & ? & ?)%SFltb_key. apply SFleb_key.
  destruct (lex_le_total a b); [eauto|done].
Qed.

(** ** PostgreSQL's order: NaN equals NaN and exceeds everything else *)

Definition pg_le (x y : float64) : bool :=
  match x, y with
  | _, S754_nan => true
  | S754_nan, _ => false
  | _, _ => SFleb x y
  end.
Definition pg_lt (x y : float64) : bool := negb (pg_le y x).

(** SQL's [GREATEST(a, b)] and [LEAST(a, b)]. *)
Definition GREATEST (a b : float64) : float64 := if pg_lt a b then b else a.
Definition LEAST (a b : float64) : float64 := if pg_lt b a then b else a.

Lemma pg_le_num x y : is_num x = true -> is_num y = true -> pg_le x y = fle x y.
Proof. by destruct x, y. Qed.

Lemma pg_le_refl x : pg_le x x = true.
Proof. destruct (is_num x) eqn:E; [|by destruct x]. rewrite pg_le_num by done. by apply fle_refl. Qed.

Lemma pg_le_total x y : pg_le x y = true \/ pg_le y x = true.
Proof.
  destruct (is_num x) eqn:Ex, (is_num y) eqn:Ey; try (destruct x, y; by auto).
  rewrite !pg_le_num by done. by apply fle_total.
Qed.

Lemma pg_le_trans x y z : pg_le x y = true -> pg_le y z = true -> pg_le x z = true.
Proof.
  destruct (is_num z) eqn:Ez; [|by destruct x, z].
  destruct (is_num y) eqn:Ey; [|by destruct y, z].
  destruct (is_num x) eqn:Ex; [|by destruct x, y].
  rewrite !pg_le_num by done. apply fle_trans.
Qed.

Lemma GREATEST_ge_l a b : pg_le a (GREATEST a b) = true.
Proof.
  unfold GREATEST, pg_lt. destruct (pg_le b a) eqn:E; simpl; [apply pg_le_refl|].
  destruct (pg_le_total a b); congruence.
Qed.

Lemma LEAST_le_l a b : pg_le (LEAST a b) a = true.
Proof.
  unfold LEAST, pg_lt. destruct (pg_le a b) eqn:E; simpl; [apply pg_le_refl|].
  destruct (pg_le_total a b); congruence.
Qed.

Lemma LEAST_cases a b : LEAST a b = a \/ LEAST a b = b.
Proof. unfold LEAST. case_match; auto. Qed.

Lemma pg_le_false_flt x y : is_num x = true -> pg_le x y = false -> flt y x = true.
Proof.
  intros Hx Hle. destruct (is_num y) eqn:Hy.
  - rewrite pg_le_num in Hle by done. by rewrite flt_not_fle, Hle.
  - unfold is_num in Hy. destruct y; try done. unfold pg_le in Hle. by destruct x.
Qed.

(** Clamping into [lo, hi] with the two: the result is in range for every input. *)
Lemma clamp_range lo hi x : pg_le lo hi = true ->
  pg_le lo (LEAST hi (GREATEST lo x)) = true /\ pg_le (LEAST hi (GREATEST lo x)) hi = true.
Proof.
  intros Hlh. split; [|apply LEAST_le_l].
  destruct (LEAST_cases hi (GREATEST lo x)) as [-> | ->]; [done|apply GREATEST_ge_l].
Qed.
