(* ===== verification/Model.v ===== *)
(** The program's data ([internal/model/model.go]) and the two external notions
    every component shares: UUIDs, as the [google/uuid] package reads and
    prints them, and time. *)
From Stdlib Require Import Ascii String.
From S2P Require Import Prelude GoStd GoStrings Float64.

Local Open Scope Z_scope.

(** ** UUIDs *)

(** A [uuid.UUID] is represented by its canonical text, the result of its
    [String] method, so [String] is the identity on this type. *)
Abbreviation uuid := string (only parsing).

(** [uuid.Parse], from the package's documentation: it reads the canonical
    text, and other forms too (upper case, the urn:uuid: prefix, braces, no
    hyphens), which it maps to the same value.  [pg_uuid] is PostgreSQL's
    conversion of a text parameter to the type UUID: no text PostgreSQL cannot
    hold is one, nor is the empty text. *)
Class UuidLib := {
  uuid_Parse : string -> option uuid;
  pg_uuid : string -> option uuid;
  uuid_Parse_canonical s u : uuid_Parse s = Some u -> uuid_Parse u = Some u;
  uuid_Parse_no_colon s u : uuid_Parse s = Some u -> no_byte ":"%char u;
  uuid_Parse_not_empty s u : uuid_Parse s = Some u -> u <> EmptyString;
  pg_uuid_canonical s u : uuid_Parse s = Some u -> pg_uuid u = Some u;
  pg_uuid_empty : pg_uuid EmptyString = None;
  pg_uuid_storable s u : pg_uuid s = Some u -> storable s;
}.

(** The text of some UUID value. *)
Definition canonical `{UuidLib} (u : string) : Prop := uuid_Parse u = Some u.

#[export] Instance canonical_dec `{UuidLib} u : Decision (canonical u).
Proof. unfold canonical. apply _. Defined.

Lemma canonical_not_empty `{UuidLib} u : canonical u -> u <> EmptyString.
Proof. apply uuid_Parse_not_empty. Qed.
Lemma canonical_storable `{UuidLib} u : canonical u -> storable u.
Proof. intros Hu. by eapply pg_uuid_storable, pg_uuid_canonical. Qed.
Lemma canonical_no_colon `{UuidLib} u : canonical u -> no_byte ":"%char u.
Proof. apply uuid_Parse_no_colon. Qed.
Lemma Parse_canonical `{UuidLib} s u : uuid_Parse s = Some u -> canonical u.
Proof. apply uuid_Parse_canonical. Qed.
#[export] Hint Resolve canonical_no_colon canonical_storable Parse_canonical : cortexa.

(** An instance for examples: it accepts every non-empty ASCII text without a
    colon as canonical, and also such a text behind the prefix urn:uuid:, as
    [uuid.Parse] does; PostgreSQL accepts only the former. *)
Definition toy_text (u : string) : Prop := u <> EmptyString /\ no_byte ":"%char u /\ plain u = true.

#[export] Instance toy_text_dec u : Decision (toy_text u).
Proof. unfold toy_text. apply _. Defined.

Definition toy_Parse (s : string) : option string :=
  let u := if String.prefix "urn:uuid:" s then String.substring 9 (String.length s - 9) s else s in
  if decide (toy_text u) then Some u else None.

Definition toy_pg_uuid (s : string) : option string := if decide (toy_text s) then Some s else None.

Lemma toy_Parse_spec s u : toy_Parse s = Some u -> toy_text u.
Proof. unfold toy_Parse. cbn zeta. intros. case_decide; by simplify_eq. Qed.

Lemma no_colon_no_urn u : no_byte ":"%char u -> String.prefix "urn:uuid:" u = false.
Proof.
  intros Hu. apply not_true_iff_false. intros [t ->]%prefix_inv.
  apply no_byte_app in Hu as [Hu _]. unfold no_byte in Hu. simpl in Hu.
  rewrite !Forall_cons in Hu. naive_solver.
Qed.

Definition toy_uuid : UuidLib.
Proof.
  refine {| uuid_Parse := toy_Parse; pg_uuid := toy_pg_uuid |}.
  - intros s u Hu%toy_Parse_spec. unfold toy_Parse. cbn zeta.
    rewrite no_colon_no_urn by apply Hu. by rewrite decide_True.
  - intros s u Hu%toy_Parse_spec. apply Hu.
  - intros s u Hu%toy_Parse_spec. apply Hu.
  - intros s u Hu%toy_Parse_spec. unfold toy_pg_uuid. by rewrite decide_True.
  - reflexivity.
  - unfold toy_pg_uuid. intros s u Hs. case_decide as Ht; [|done]. apply plain_storable, Ht.
Defined.

(** ** Time: microseconds since the epoch *)

Abbreviation time := Z (only parsing).
Definition second : Z := 1000000.
Definition minute : Z := 60 * second.
Definition hour : Z := 60 * minute.
Definition day : Z := 24 * hour.

(** ** The records of package model *)

Record Session := mkSession {
  ses_ID : uuid;
  ses_TenantID : uuid;
  ses_UserID : uuid;
  ses_Title : string;
  ses_Meta : string;
  ses_CreatedAt : time;
  ses_UpdatedAt : time;
}.

Record Message := mkMessage {
  msg_ID : uuid;
  msg_TenantID : uuid;
  msg_SessionID : uuid;
  msg_UserID : uuid;
  msg_Role : string;
  msg_Content : string;
  msg_TokenCount : Z;
  msg_CreatedAt : time;
}.

Record EntityFact := mkEntityFact {
  ef_EntityName : string;
  ef_EntityType : string;
  ef_Attribute : string;
  ef_Value : string;
  ef_SourceQuote : string;
  ef_Confidence : float64;
}.

Record ExtractedFact := mkExtractedFact {
  xf_EntityName : string;
  xf_EntityType : string;
  xf_Attribute : string;
  xf_Value : string;
  xf_SourceQuote : string;
}.

Record SemanticMessage := mkSemanticMessage {
  sm_ID : uuid;
  sm_Content : string;
  sm_CosineSim : float64;
  sm_Score : float64;
  sm_Importance : float64;
  sm_CreatedAt : time;
}.

(** [Payload] is a [json.RawMessage]: the JSON text. *)
Record MemoryRecord := mkMemoryRecord {
  mr_ID : uuid;
  mr_Type : string;
  mr_Payload : string;
  mr_Importance : float64;
  mr_AccessCount : Z;
  mr_LastAccessedAt : option time;
  mr_CreatedAt : time;
}.

Record UserProfile := mkUserProfile {
  up_CanonicalName : string;
  up_Aliases : list string;
}.

Record MessagePayload := mkMessagePayload {
  mp_MessageID : uuid;
  mp_UserID : uuid;
  mp_TenantID : uuid;
  mp_SessionID : uuid;
}.

Record Experience := mkExperience {
  exp_ID : uuid;
  exp_TenantID : uuid;
  exp_UserID : uuid;
  exp_Description : string;
  exp_Steps : string;               (* a json.RawMessage *)
  exp_SourceSessionID : option uuid;
  exp_Confidence : float64;
  exp_UsageCount : Z;
  exp_SuccessCount : Z;
  exp_IsActive : bool;
  exp_CreatedAt : time;
  exp_UpdatedAt : time;
}.

Record LLMUsage := mkLLMUsage {
  lu_TenantID : uuid;
  lu_UserID : uuid;
  lu_SessionID : uuid;
  lu_Feature : string;
  lu_Model : string;
  lu_TotalTokens : Z;
  lu_CreatedAt : time;
}.

#[export] Instance Session_eq_dec : EqDecision Session.
Proof. solve_decision. Defined.
#[export] Instance Message_eq_dec : EqDecision Message.
Proof. solve_decision. Defined.
#[export] Instance EntityFact_eq_dec : EqDecision EntityFact.
Proof. solve_decision. Defined.
#[export] Instance ExtractedFact_eq_dec : EqDecision ExtractedFact.
Proof. solve_decision. Defined.
#[export] Instance SemanticMessage_eq_dec : EqDecision SemanticMessage.
Proof. solve_decision. Defined.
