(* ===== verification/Json.v ===== *)
(** What the program uses of JSON: the texts [encoding/json] writes for the
    payloads it stores, and PostgreSQL's type JSONB as an interface. *)
From Stdlib Require Import Ascii String.
From S2P Require Import Prelude GoStd GoStrings.

Local Open Scope Z_scope.

(** ** Strings, as json.Marshal writes them *)

Definition hex4 (r : Z) : list Z :=
  byte_Z ∘ hex_digit <$> [r / 4096 mod 16; r / 256 mod 16; r / 16 mod 16; r mod 16].

(** Quotation mark, backslash and control characters are escaped, and so are
    [<], [>], [&] and the line separators U+2028 and U+2029. *)
Definition quote_rune (r : Z) : list Z :=
  if (r =? 34) || (r =? 92) then [92; r]
  else if r =? 8 then [92; 98]
  else if r =? 9 then [92; 116]
  else if r =? 10 then [92; 110]
  else if r =? 12 then [92; 102]
  else if r =? 13 then [92; 114]
  else if (r <? 32) || (r =? 38) || (r =? 60) || (r =? 62) || (r =? 0x2028) || (r =? 0x2029)
  then [92; 117] ++ hex4 r
  else encode_rune r.

(** An invalid byte becomes the escape of U+FFFD. *)
Fixpoint quote_from (skip : nat) (p : list Z) : list Z :=
  match p with
  | [] => []
  | _ :: rest =>
    match skip with
    | S k => quote_from k rest
    | O => let '(r, w) := DecodeRune p in
           (if (r =? RuneError) && Nat.eqb w 1 then [92; 117] ++ hex4 RuneError else quote_rune r)
             ++ quote_from (pred w) rest
    end
  end.

Definition json_string (s : string) : string :=
  of_bytes ([34] ++ quote_from 0 (bytes s) ++ [34]).

Definition json_member (kv : string * string) : string := json_string kv.1 +:+ ":" +:+ json_string kv.2.

(** A [map[string]string] is written with its keys sorted, which the caller's
    literal here already is. *)
Definition json_object (l : list (string * string)) : string :=
  "{" +:+ Join (json_member <$> l) "," +:+ "}".
Definition json_strings (l : list string) : string :=
  "[" +:+ Join (json_string <$> l) "," +:+ "]".

Lemma quote_from_skip k p rest : length p = k -> quote_from k (p ++ rest) = quote_from 0 rest.
Proof. intros <-. induction p as [|b p IH]; [done|]. exact IH. Qed.

(** The text of valid UTF-8 is quoted rune by rune. *)
Lemma quote_from_encode rs rest : Forall (fun r => valid_rune r = true) rs ->
  quote_from 0 ((rs ≫= encode_rune) ++ rest) = (rs ≫= quote_rune) ++ quote_from 0 rest.
Proof.
  induction 1 as [|r rs Hr _ IH]; [done|]. rewrite !bind_cons, <-!(assoc_L (++)).
  unfold encode_rune at 1. rewrite Hr. destruct (encode_valid r) as [|b bs] eqn:E.
  { unfold encode_valid in E. by repeat case_match. }
  cbn [app quote_from]. rewrite app_comm_cons, <-E, DecodeRune_encode, E by done.
  assert (Hw : (r =? RuneError) && Nat.eqb (length (b :: bs)) 1 = false).
  { destruct (Z.eqb_spec r RuneError) as [->|]; [|done]. by injection E as <- <-. }
  rewrite Hw. cbn [length pred app]. by rewrite quote_from_skip, IH.
Qed.

(** ** JSONB

    [jsonb_in] is PostgreSQL's conversion of a text to JSONB, [None] its error;
    a value is represented by the text PostgreSQL prints for it.
    [jsonb_text j k] is [j ->> k], and [timestamptz_in] the conversion of a
    text to a time. *)
Class Jsonb := {
  jsonb_in : string -> option string;
  jsonb_text : string -> string -> option string;
  timestamptz_in : string -> option Z;
  jsonb_in_idem s j : jsonb_in s = Some j -> jsonb_in j = Some j;
  jsonb_in_member k v : storable k -> storable v ->
    exists j, jsonb_in (json_object [(k, v)]) = Some j /\ jsonb_text j k = Some v;
}.

(** *** An instance for examples: objects as Go writes them *)

Definition unhex (c : Z) : option Z :=
  if (48 <=? c) && (c <=? 57) then Some (c - 48)
  else if (97 <=? c) && (c <=? 102) then Some (c - 87) else None.

Definition unhex4 (l : list Z) : option Z :=
  match l with
  | [a; b; c; d] => a ← unhex a; b ← unhex b; c ← unhex c; d ← unhex d;
                    Some (a * 4096 + b * 256 + c * 16 + d)
  | _ => None
  end.

Definition unescape (c : Z) : Z :=
  if c =? 98 then 8 else if c =? 116 then 9 else if c =? 110 then 10
  else if c =? 102 then 12 else if c =? 114 then 13 else c.

(** The contents of a quoted string and what follows it. *)
Fixpoint unquote (p : list Z) : option (list Z * list Z) :=
  match p with
  | [] => None
  | c :: rest =>
    if c =? 34 then Some ([], rest)
    else if c =? 92 then
      match rest with
      | e :: rest' =>
        if e =? 117 then
          match rest' with
          | a :: b :: c :: d :: rest'' =>
            r ← unhex4 [a; b; c; d]; '(s, q) ← unquote rest''; Some (encode_rune r ++ s, q)
          | _ => None
          end
        else '(s, q) ← unquote rest'; Some (unescape e :: s, q)
      | [] => None
      end
    else '(s, q) ← unquote rest; Some (c :: s, q)
  end.

Definition prepend (l : list Z) (m : option (list Z * list Z)) : option (list Z * list Z) :=
  '(s, q) ← m; Some (l ++ s, q).

Lemma unhex4_hex4_below n : Forall (fun r => unhex4 (hex4 r) = Some r) (seqZ 0 n ++ [0x2028; 0x2029]) ->
  forall r, 0 <= r < n \/ r = 0x2028 \/ r = 0x2029 -> unhex4 (hex4 r) = Some r.
Proof.
  rewrite Forall_app. intros [Hall [H1 H2]%Forall_cons] r [Hr|[-> | ->]]; [|done|by apply Forall_cons in H2].
  rewrite Forall_forall in Hall. apply Hall, elem_of_seqZ. lia.
Qed.

Lemma unhex4_hex4 r : 0 <= r < 64 \/ r = 0x2028 \/ r = 0x2029 -> unhex4 (hex4 r) = Some r.
Proof. revert r. apply unhex4_hex4_below. apply (bool_decide_unpack _). by vm_compute. Qed.

Lemma unquote_raw l k : Forall (fun c => c <> 34 /\ c <> 92) l -> unquote (l ++ k) = prepend l (unquote k).
Proof.
  induction 1 as [|c l [H1 H2] _ IH]; simpl.
  - unfold prepend. by destruct (unquote k) as [[]|].
  - rewrite (proj2 (Z.eqb_neq c 34)), (proj2 (Z.eqb_neq c 92)), IH by done.
    unfold prepend. by destruct (unquote k) as [[]|].
Qed.

(** Beyond ASCII every byte of an encoding is beyond ASCII. *)
Lemma encode_beyond_ascii r : valid_rune r = true -> 128 <= r -> Forall (fun c => 128 <= c) (encode_rune r).
Proof.
  intros Hv Hr. unfold encode_rune. rewrite Hv. unfold encode_valid, valid_rune in *.
  rewrite !cont_byte, !Z.shiftr_div_pow2 by lia.
  destruct (Z.leb_spec r 0x7F); [lia|]. destruct (Z.leb_spec r 0x7FF); [|destruct (Z.leb_spec r 0xFFFF)].
  - destruct (lead_byte 6 5 (r / 2 ^ 6)) as [E _]; [lia|euclid|].
    change (6 * 2 ^ 5) with 0xC0 in E. rewrite E. repeat constructor; euclid.
  - destruct (lead_byte 14 4 (r / 2 ^ 12)) as [E _]; [lia|euclid|].
    change (14 * 2 ^ 4) with 0xE0 in E. rewrite E. repeat constructor; euclid.
  - destruct (lead_byte 30 3 (r / 2 ^ 18)) as [E _]; [lia|euclid|].
    change (30 * 2 ^ 3) with 0xF0 in E. rewrite E. repeat constructor; euclid.
Qed.

Lemma encode_high r : valid_rune r = true -> 128 <= r -> Forall (fun c => c <> 34 /\ c <> 92) (encode_rune r).
Proof. intros Hv Hr. eapply Forall_impl; [by apply encode_beyond_ascii|]. simpl. lia. Qed.

Lemma encode_ascii r : 0 <= r < 128 -> encode_rune r = [r].
Proof.
  intros Hr. unfold encode_rune, valid_rune, encode_valid.
  rewrite (proj2 (Z.leb_le 0 r)), (proj2 (Z.ltb_lt r 0xD800)) by lia. simpl.
  by rewrite (proj2 (Z.leb_le r 0x7F)) by lia.
Qed.

Lemma unquote_escape h r k : unhex4 h = Some r -> unquote (([92; 117] ++ h) ++ k) = prepend (encode_rune r) (unquote k).
Proof. intros Hh. destruct h as [|a [|b [|c [|d [|]]]]]; try done. cbn -[unhex4]. by rewrite Hh. Qed.

Lemma unquote_quote_rune r k : valid_rune r = true -> unquote (quote_rune r ++ k) = prepend (encode_rune r) (unquote k).
Proof.
  intros Hv. assert (0 <= r) by (unfold valid_rune in Hv; lia). unfold quote_rune.
  destruct (Z.eqb_spec r 34) as [->|N34]; [done|]. destruct (Z.eqb_spec r 92) as [->|N92]; [done|]. simpl.
  do 5 match goal with |- unquote ((if r =? ?n then _ else _) ++ _) = _ =>
         destruct (Z.eqb_spec r n) as [->|?]; [done|] end.
  destruct (_ || _) eqn:Eu.
  - apply unquote_escape, unhex4_hex4. lia.
  - apply unquote_raw. destruct (decide (r < 128)); [|apply encode_high; [done|lia]].
    rewrite encode_ascii by lia. by repeat constructor.
Qed.

Lemma unquote_quote rs k : Forall (fun r => valid_rune r = true) rs ->
  unquote ((rs ≫= quote_rune) ++ [34] ++ k) = Some (rs ≫= encode_rune, k).
Proof.
  induction 1 as [|r rs Hr _ IH]; [done|]. rewrite !bind_cons, <-(assoc_L (++)), unquote_quote_rune, IH by done.
  done.
Qed.

(** The members of an object of strings, found from the text. *)
Definition member_at (p : list Z) : option (list Z * list Z * list Z) :=
  match p with
  | _ :: q :: rest =>
    if q =? 34 then
      '(k, rest) ← unquote rest;
      match rest with
      | _ :: _ :: rest => '(v, rest) ← unquote rest; Some (k, v, rest)
      | _ => None
      end
    else None
  | _ => None
  end.

Fixpoint member_text (fuel : nat) (key : string) (p : list Z) : option string :=
  match fuel with
  | O => None
  | S fuel =>
    '(k, v, rest) ← member_at p;
    if decide (of_bytes k = key) then Some (of_bytes v) else member_text fuel key rest
  end.

Lemma member_at_object k v rest : Forall (fun r => valid_rune r = true) k -> Forall (fun r => valid_rune r = true) v ->
  member_at (123 :: 34 :: (k ≫= quote_rune) ++ [34] ++ 58 :: 34 :: (v ≫= quote_rune) ++ [34] ++ rest) =
  Some (k ≫= encode_rune, v ≫= encode_rune, rest).
Proof.
  intros Hk Hv. unfold member_at. rewrite Z.eqb_refl, unquote_quote by done.
  cbn [mbind option_bind]. by rewrite unquote_quote.
Qed.

Lemma quote_rune_bytes r : valid_rune r = true -> Forall is_byte (quote_rune r).
Proof.
  intros Hv. assert (Hh : forall r, Forall is_byte (hex4 r)).
  { intros x. unfold hex4. repeat constructor; apply byte_Z_range. }
  unfold quote_rune.
  destruct ((r =? 34) || (r =? 92)) eqn:E; [repeat constructor; unfold is_byte; lia|]. clear E.
  do 5 (destruct (r =? _); [repeat constructor; unfold is_byte; lia|]).
  destruct (_ || _); [|apply encode_rune_bytes].
  apply Forall_app_2; [|apply Hh]. repeat constructor; unfold is_byte; lia.
Qed.

Lemma json_string_bytes s : string_of_runes (runes s) = s ->
  bytes (json_string s) = [34] ++ (runes s ≫= quote_rune) ++ [34].
Proof.
  intros Hs. assert (Hv := runes_valid s).
  assert (Hq : quote_from 0 (bytes s) = runes s ≫= quote_rune).
  { rewrite <-Hs at 1. unfold string_of_runes. rewrite bytes_of_bytes by apply encode_runes_bytes.
    rewrite <-(app_nil_r (runes s ≫= encode_rune)), quote_from_encode by done. simpl. by rewrite app_nil_r. }
  unfold json_string. rewrite Hq, bytes_of_bytes; [done|].
  repeat apply Forall_app_2; try (repeat constructor; unfold is_byte; lia).
  clear -Hv. induction Hv as [|r l Hr _ IH]; [constructor|].
  rewrite bind_cons. apply Forall_app_2; [by apply quote_rune_bytes|done].
Qed.

Lemma json_object_bytes k v : string_of_runes (runes k) = k -> string_of_runes (runes v) = v ->
  bytes (json_object [(k, v)]) =
  123 :: 34 :: (runes k ≫= quote_rune) ++ [34] ++ 58 :: 34 :: (runes v ≫= quote_rune) ++ [34] ++ [125].
Proof.
  intros Hk Hv. unfold json_object, json_member. cbn [fmap list_fmap Join fst snd].
  rewrite !bytes_app, !json_string_bytes by done.
  change (bytes "{") with [123]. change (bytes ":") with [58]. change (bytes "}") with [125].
  cbn [app]. repeat (rewrite <-!app_assoc; cbn [app]). done.
Qed.

Definition toy_jsonb : Jsonb.
Proof.
  refine {| jsonb_in s := Some s;
            jsonb_text j k := member_text (S (String.length j)) k (bytes j);
            timestamptz_in := Atoi |}.
  - by intros s j [= ->].
  - intros k v [Hk _] [Hv _]. eexists. split; [done|].
    rewrite json_object_bytes by done. cbn [member_text].
    rewrite member_at_object by apply runes_valid. cbn [mbind option_bind].
    fold (string_of_runes (runes k)) (string_of_runes (runes v)).
    by rewrite Hk, Hv, decide_True.
Defined.
