(* ===== verification/GoJson.v ===== *)
(** Go's [encoding/json], the reading half: the texts Unmarshal accepts, the
    tree it reads them as, and how a tree is stored into variables of the
    program's types.  [Json] holds the writing half. *)
From Stdlib Require Import Ascii String.
From Stdlib Require Import SpecFloat.
From S2P Require Import Prelude GoStd GoStrings Float64 Json.

Local Open Scope Z_scope.

(** ** JSON values

    A number keeps its text, a string is decoded, an object keeps its members
    in order, repeated names included. *)
#[warnings="-register-all"]
Inductive json :=
  | JNull
  | JBool (b : bool)
  | JNumber (lit : list Z)
  | JString (s : string)
  | JArray (l : list json)
  | JObject (l : list (string * json)).

Section JsonInd.
Variable P : json -> Prop.
Hypothesis Hnull : P JNull.
Hypothesis Hbool : forall b, P (JBool b).
Hypothesis Hnumber : forall l, P (JNumber l).
Hypothesis Hstring : forall s, P (JString s).
Hypothesis Harray : forall l, Forall P l -> P (JArray l).
Hypothesis Hobject : forall l, Forall (fun m => P m.2) l -> P (JObject l).

(** Induction through the lists of a value. *)
Fixpoint json_induction (j : json) : P j :=
  match j with
  | JNull => Hnull
  | JBool b => Hbool b
  | JNumber l => Hnumber l
  | JString s => Hstring s
  | JArray l => Harray l ((fix go l : Forall P l :=
      match l with [] => Forall_nil_2 _ | j :: l => Forall_cons_2 _ _ _ (json_induction j) (go l) end) l)
  | JObject l => Hobject l ((fix go l : Forall (fun m => P m.2) l :=
      match l with [] => Forall_nil_2 _ | m :: l => Forall_cons_2 _ _ _ (json_induction m.2) (go l) end) l)
  end.
End JsonInd.

(** The nesting of arrays and objects; Unmarshal refuses more than 10000. *)
Fixpoint depth (j : json) : Z :=
  match j with
  | JArray l => 1 + foldr (fun j d => Z.max (depth j) d) 0 l
  | JObject l => 1 + foldr (fun m d => Z.max (depth m.2) d) 0 l
  | _ => 0
  end.
Definition maxNestingDepth : Z := 10000.

(** ** Lexing *)

Definition is_ws (c : Z) : bool := (c =? 32) || (c =? 9) || (c =? 10) || (c =? 13).
Fixpoint skip_ws (p : list Z) : list Z :=
  match p with c :: rest => if is_ws c then skip_ws rest else p | [] => [] end.

Definition is_digit (c : Z) : bool := (48 <=? c) && (c <=? 57).
Definition hex_of (c : Z) : option Z :=
  if is_digit c then Some (c - 48)
  else if (97 <=? c) && (c <=? 102) then Some (c - 87)
  else if (65 <=? c) && (c <=? 70) then Some (c - 55) else None.
Definition is_hex (c : Z) : bool := if hex_of c is Some _ then true else false.

(** The escapes of one letter. *)
Definition is_escape (c : Z) : bool :=
  (c =? 98) || (c =? 102) || (c =? 110) || (c =? 114) || (c =? 116) || (c =? 92) || (c =? 47) || (c =? 34).

(** From behind the opening quotation mark: the text up to the closing one, and
    what follows it. *)
Fixpoint scan_string (p : list Z) : option (list Z * list Z) :=
  match p with
  | [] => None
  | c :: rest =>
    if c =? 34 then Some ([], rest)
    else if c =? 92 then
      match rest with
      | e :: rest1 =>
        if is_escape e then prepend [c; e] (scan_string rest1)
        else if e =? 117 then
          match rest1 with
          | h1 :: h2 :: h3 :: h4 :: rest2 =>
            if is_hex h1 && is_hex h2 && is_hex h3 && is_hex h4
            then prepend [c; e; h1; h2; h3; h4] (scan_string rest2) else None
          | _ => None
          end
        else None
      | [] => None
      end
    else if c <? 32 then None
    else prepend [c] (scan_string rest)
  end.

(** getu4: the value of an escape of four digits. *)
Definition getu4 (p : list Z) : option Z :=
  match p with
  | c :: u :: h1 :: h2 :: h3 :: h4 :: _ =>
    if (c =? 92) && (u =? 117) then
      h1 ← hex_of h1; h2 ← hex_of h2; h3 ← hex_of h3; h4 ← hex_of h4;
      Some (h1 * 4096 + h2 * 256 + h3 * 16 + h4)
    else None
  | _ => None
  end.

(** [utf16.IsSurrogate], [utf16.DecodeRune] *)
Definition is_surrogate (r : Z) : bool := (0xD800 <=? r) && (r <? 0xE000).
Definition decode_surrogates (r1 r2 : Z) : option Z :=
  if (0xD800 <=? r1) && (r1 <? 0xDC00) && (0xDC00 <=? r2) && (r2 <? 0xE000)
  then Some ((r1 - 0xD800) * 1024 + (r2 - 0xDC00) + 0x10000) else None.

(** What a scanned string stands for: escapes resolved, invalid UTF-8 and lone
    surrogates replaced by U+FFFD. *)
Fixpoint unquote_body (skip : nat) (p : list Z) : list Z :=
  match p with
  | [] => []
  | c :: rest =>
    match skip with
    | S k => unquote_body k rest
    | O =>
      if c =? 92 then
        match rest with
        | [] => []
        | e :: _ =>
          if e =? 117 then
            match getu4 p with
            | None => []
            | Some r =>
              match (if is_surrogate r then r' ← getu4 (drop 6 p); decode_surrogates r r' else None) with
              | Some dec => encode_rune dec ++ unquote_body 11 rest
              | None => encode_rune r ++ unquote_body 5 rest
              end
            end
          else unescape e :: unquote_body 1 rest
        end
      else if c <? 0x80 then c :: unquote_body 0 rest
      else let '(r, w) := DecodeRune p in encode_rune r ++ unquote_body (pred w) rest
    end
  end.

Fixpoint span_digits (p : list Z) : list Z * list Z :=
  match p with
  | c :: rest => if is_digit c then let '(ds, q) := span_digits rest in (c :: ds, q) else ([], p)
  | [] => ([], [])
  end.

(** The parts of a number; [None] when a part has begun and does not end well. *)
Definition scan_int (p : list Z) : option (list Z * list Z) :=
  match p with
  | c :: rest => if c =? 48 then Some ([c], rest) else if is_digit c then Some (span_digits p) else None
  | [] => None
  end.
Definition scan_digits (p : list Z) : option (list Z * list Z) :=
  match span_digits p with ([], _) => None | r => Some r end.
Definition scan_frac (p : list Z) : option (list Z * list Z) :=
  match p with
  | c :: rest => if c =? 46 then prepend [c] (scan_digits rest) else Some ([], p)
  | [] => Some ([], [])
  end.
Definition scan_exp (p : list Z) : option (list Z * list Z) :=
  match p with
  | c :: rest =>
    if (c =? 101) || (c =? 69) then
      match rest with
      | s :: rest' =>
        if (s =? 43) || (s =? 45) then prepend [c; s] (scan_digits rest') else prepend [c] (scan_digits rest)
      | [] => None
      end
    else Some ([], p)
  | [] => Some ([], [])
  end.
Definition scan_sign (p : list Z) : list Z * list Z :=
  match p with c :: rest => if c =? 45 then ([c], rest) else ([], p) | [] => ([], []) end.
Definition scan_number (p : list Z) : option (list Z * list Z) :=
  let '(sign, p) := scan_sign p in
  '(i, p) ← scan_int p; '(f, p) ← scan_frac p; '(e, p) ← scan_exp p;
  Some (sign ++ i ++ f ++ e, p).

(** A keyword of which the first letter has been read. *)
Definition keyword (word : string) (j : json) (p : list Z) : option (json * list Z) :=
  if decide (take (String.length word) p = bytes word) then Some (j, drop (String.length word) p) else None.

(** ** Parsing *)

(** What separates the items of an array or object, up to its end: [next]
    parses the items after a comma. *)
Definition items {A} (close : Z) (x : A) (next : list Z -> option (list A * list Z)) (p : list Z)
  : option (list A * list Z) :=
  match skip_ws p with
  | c :: q =>
    if c =? 44 then '(l, q) ← next q; Some (x :: l, q)
    else if c =? close then Some ([x], q) else None
  | [] => None
  end.

Fixpoint parse_value (n : nat) (p : list Z) : option (json * list Z) :=
  match n with
  | O => None
  | S n =>
    match skip_ws p with
    | [] => None
    | c :: rest =>
      if c =? 34 then '(raw, q) ← scan_string rest; Some (JString (of_bytes (unquote_body 0 raw)), q)
      else if c =? 91 then
        match skip_ws rest with
        | c' :: q => if c' =? 93 then Some (JArray [], q) else '(l, q) ← parse_elements n rest; Some (JArray l, q)
        | [] => None
        end
      else if c =? 123 then
        match skip_ws rest with
        | c' :: q => if c' =? 125 then Some (JObject [], q) else '(l, q) ← parse_members n rest; Some (JObject l, q)
        | [] => None
        end
      else if c =? 110 then keyword "ull" JNull rest
      else if c =? 116 then keyword "rue" (JBool true) rest
      else if c =? 102 then keyword "alse" (JBool false) rest
      else '(lit, q) ← scan_number (c :: rest); Some (JNumber lit, q)
    end
  end
with parse_elements (n : nat) (p : list Z) : option (list json * list Z) :=
  match n with
  | O => None
  | S n => '(j, q) ← parse_value n p; items 93 j (parse_elements n) q
  end
with parse_members (n : nat) (p : list Z) : option (list (string * json) * list Z) :=
  match n with
  | O => None
  | S n =>
    match skip_ws p with
    | [] => None
    | c :: q =>
      if c =? 34 then
        '(raw, q) ← scan_string q;
        match skip_ws q with
        | [] => None
        | c :: q =>
          if c =? 58 then
            '(j, q) ← parse_value n q;
            items 125 (of_bytes (unquote_body 0 raw), j) (parse_members n) q
          else None
        end
      else None
    end
  end.

(** Enough fuel for any text of the length of [p] ([parse_value_fuel]). *)
Definition fuel_for (p : list Z) : nat := S (2 * length p).

(** The whole text is one value, within the depth allowed. *)
Definition parse_bytes (p : list Z) : option json :=
  '(j, q) ← parse_value (fuel_for p) p;
  if bool_decide (skip_ws q = []) && (depth j <=? maxNestingDepth) then Some j else None.
Definition parse_json (s : string) : option json := parse_bytes (bytes s).

(** ** Storing a value into a variable

    A decoder says what becomes of a variable, and whether the value fits it.
    What does not fit is skipped and the rest is still stored; null leaves a
    variable of these types as it is, and empties a slice or a map. *)
Abbreviation decoder A := (json -> A -> A * bool) (only parsing).

Definition dec_string : decoder string := fun j s =>
  match j with JString s' => (s', true) | JNull => (s, true) | _ => (s, false) end.
Definition dec_bool : decoder bool := fun j b =>
  match j with JBool b' => (b', true) | JNull => (b, true) | _ => (b, false) end.
(** An int: a fraction, an exponent or an overflow does not fit. *)
Definition dec_int : decoder Z := fun j i =>
  match j with
  | JNumber lit => match Atoi (of_bytes lit) with Some v => (v, true) | None => (i, false) end
  | JNull => (i, true)
  | _ => (i, false)
  end.

(** A slice: its elements, and what its backing array holds beyond them, which
    a longer array decoded into the same slice later uncovers. *)
Record slice A := mkSlice { elems : list A; spare : list A }.
Arguments mkSlice {A} _ _.
Arguments elems {A} _.
Arguments spare {A} _.
Definition nil_slice {A} : slice A := mkSlice [] [].

Section Slices.
Context {A : Type} (zero : A) (dec : decoder A).

(** Element after element, each into the place its index has. *)
Fixpoint dec_elems (l : list json) (old : list A) : list A * bool :=
  match l with
  | [] => ([], true)
  | j :: l =>
    let '(a, ok) := dec j (default zero (head old)) in
    let '(rest, ok') := dec_elems l (tail old) in (a :: rest, ok && ok')
  end.

Definition dec_slice : decoder (slice A) := fun j s =>
  match j with
  | JArray [] => (nil_slice, true)
  | JArray l =>
    let '(l', ok) := dec_elems l (elems s ++ spare s) in
    (mkSlice l' (drop (length l) (elems s ++ spare s)), ok)
  | JNull => (nil_slice, true)
  | _ => (s, false)
  end.
End Slices.

(** A map[string]string: a value that does not fit is stored as the empty
    string. *)
Definition dec_map : decoder (gmap string string) := fun j m =>
  match j with
  | JObject l =>
    foldl (fun '(m, ok) kv => let '(v, ok') := dec_string kv.2 EmptyString in (<[kv.1 := v]> m, ok && ok')) (m, true) l
  | JNull => (∅, true)
  | _ => (m, false)
  end.

(** The folding of letters under which a name that matches no field exactly is
    compared with the fields' names: the other runes that fold to ASCII letters
    are U+017F and U+212A. *)
Definition fold_rune (r : Z) : Z :=
  if (97 <=? r) && (r <=? 122) then r - 32
  else if r =? 0x17F then 83 else if r =? 0x212A then 75 else r.
Definition fold_name (s : string) : list Z := fold_rune <$> runes s.

Definition field (A : Type) : Type := (string * decoder A)%type.
Definition find_field {A} (fields : list (field A)) (name : string) : option (field A) :=
  match List.find (fun f => bool_decide (f.1 = name)) fields with
  | Some f => Some f
  | None => List.find (fun f => bool_decide (fold_name f.1 = fold_name name)) fields
  end.

(** The members of an object go to the fields they name, in order; others are
    ignored. *)
Definition dec_member {A} (fields : list (field A)) (acc : A * bool) (m : string * json) : A * bool :=
  match find_field fields m.1 with
  | Some f => let '(a, ok) := f.2 m.2 acc.1 in (a, acc.2 && ok)
  | None => acc
  end.
Definition dec_struct {A} (fields : list (field A)) : decoder A := fun j a =>
  match j with
  | JObject l => foldl (dec_member fields) (a, true) l
  | JNull => (a, true)
  | _ => (a, false)
  end.

(** Errors of syntax, and errors of type, are not told apart further. *)
Definition syntax_error_json : error := "json: invalid text"%string.
Definition type_error_json : error := "json: cannot unmarshal"%string.

(** [json.Unmarshal([]byte(s), &a)]: nothing is stored when the text is not
    JSON. *)
Definition Unmarshal {A} (dec : decoder A) (s : string) (a : A) : A * result unit :=
  match parse_json s with
  | None => (a, Err syntax_error_json)
  | Some j => let '(a', ok) := dec j a in (a', if ok then Ok tt else Err type_error_json)
  end.

(** ** Floating-point numbers

    A literal is [sign m * 10^e]; [ParseFloat] rounds it once, and has the
    error [ErrRange] when the nearest value is infinite. *)
Definition digits_number (ds : list Z) : Z := foldl (fun n d => n * 10 + (d - 48)) 0 ds.
Definition literal_parts (lit : list Z) : bool * Z * Z :=
  let '(sign, p) := scan_sign lit in
  let '(i, p) := span_digits p in
  let '(f, p) := match p with c :: q => if c =? 46 then span_digits q else ([], p) | [] => ([], []) end in
  let e := match p with
           | _ :: c :: q => if c =? 45 then - digits_number (span_digits q).1
                            else if c =? 43 then digits_number (span_digits q).1
                            else digits_number (span_digits (c :: q)).1
           | _ => 0
           end in
  (negb (bool_decide (sign = [])), digits_number (i ++ f), e - Z.of_nat (length f)).

(** [bits] is 32 or 64: the precision and the largest exponent of the format. *)
Definition ParseFloat (prec emax : Z) (lit : list Z) : option float64 :=
  let '(neg, m, e) := literal_parts lit in
  let x := match m with
           | Zpos m => if 0 <=? e then binary_normalize prec emax ((if neg then Zneg m else Zpos m) * 10 ^ e) 0 neg
                       else SFdiv prec emax (S754_finite neg m 0) (S754_finite false (Z.to_pos (10 ^ (- e))) 0)
           | _ => S754_zero neg
           end in
  match x with S754_infinity _ | S754_nan => None | _ => Some x end.

(** A float32. *)
Definition dec_float32 : decoder float64 := fun j x =>
  match j with
  | JNumber lit => match ParseFloat 24 128 lit with Some v => (v, true) | None => (x, false) end
  | JNull => (x, true)
  | _ => (x, false)
  end.

(** Into an interface{} everything fits but a number that is no float64. *)
Fixpoint numbers_fit (j : json) : bool :=
  match j with
  | JNumber lit => if ParseFloat 53 1024 lit is Some _ then true else false
  | JArray l => forallb numbers_fit l
  | JObject l => forallb (fun m => numbers_fit m.2) l
  | _ => true
  end.

(** The string a type assertion finds under a key of a map[string]interface{}:
    the last member of a name counts; a missing or other value reads as the
    empty string. *)
Definition string_member (l : list (string * json)) (k : string) : string :=
  match List.find (fun m => bool_decide (m.1 = k)) (rev l) with
  | Some (_, JString s) => s
  | _ => EmptyString
  end.

(** ** The fuel is enough *)

Lemma skip_ws_length p : (length (skip_ws p) <= length p)%nat.
Proof. induction p as [|c p IH]; simpl; [done|]. destruct (is_ws c); simpl; lia. Qed.

Lemma prepend_Some l m r : prepend l m = Some r <-> exists s q, m = Some (s, q) /\ r = (l ++ s, q).
Proof. unfold prepend. destruct m as [[s q]|]; simpl; [|naive_solver]. split; [|by intros (? & ? & [= <- <-] & ->)]. naive_solver. Qed.

(** Induction on the length of the text, for the functions that read it from
    the front in steps of several bytes. *)
Lemma length_ind (P : list Z -> Prop) :
  (forall p, (forall q, (length q < length p)%nat -> P q) -> P p) -> forall p, P p.
Proof. intros H p. induction (Nat.lt_wf_0_projected (@length Z) p) as [p _ IH]. by apply H. Qed.

Lemma scan_string_length p raw q : scan_string p = Some (raw, q) -> (length q < length p)%nat.
Proof.
  revert raw. induction p as [p IH] using length_ind. intros raw. destruct p as [|c rest]; [done|]. cbn [scan_string].
  destruct (c =? 34); [intros [= _ <-]; simpl; lia|]. destruct (c =? 92).
  - destruct rest as [|e rest]; [done|]. destruct (is_escape e).
    { intros (s & q' & E & [= -> ->])%prepend_Some. apply IH in E; simpl in *; lia. }
    destruct (e =? 117); [|done]. destruct rest as [|h1 [|h2 [|h3 [|h4 rest]]]]; try done. case_match; [|done].
    intros (s & q' & E & [= -> ->])%prepend_Some. apply IH in E; simpl in *; lia.
  - destruct (c <? 32); [done|]. intros (s & q' & E & [= -> ->])%prepend_Some. apply IH in E; simpl in *; lia.
Qed.

Lemma span_digits_app p ds q : span_digits p = (ds, q) -> p = ds ++ q.
Proof.
  revert ds. induction p as [|c p IH]; intros ds; simpl; [by intros [= <- <-]|].
  destruct (is_digit c); [|by intros [= <- <-]]. destruct (span_digits p) as [ds' q']. intros [= <- <-]. simpl. f_equal. by apply IH.
Qed.

Lemma scan_digits_app p ds q : scan_digits p = Some (ds, q) -> p = ds ++ q.
Proof. unfold scan_digits. destruct (span_digits p) as [[|d ds'] q'] eqn:E; [done|]. intros [= <- <-]. by apply span_digits_app. Qed.

Lemma scan_number_app p l q : scan_number p = Some (l, q) -> p = l ++ q.
Proof.
  unfold scan_number. assert (Hsp : p = (scan_sign p).1 ++ (scan_sign p).2)
    by (destruct p as [|c p]; [done|]; simpl; by destruct (c =? 45)).
  destruct (scan_sign p) as [sign p1]. simpl in Hsp. subst p. intros H.
  apply bind_Some in H as ([i p2] & Hi & H). apply bind_Some in H as ([f p3] & Hf & H).
  apply bind_Some in H as ([e p4] & He & [= <- <-]).
  assert (p1 = i ++ p2) as ->.
  { destruct p1 as [|c p1]; [done|]. simpl in Hi. destruct (c =? 48); [by injection Hi as <- <-|].
    destruct (is_digit c) eqn:Ec; [|done]. destruct (span_digits p1) as [ds q'] eqn:E. injection Hi as <- <-.
    apply span_digits_app in E. by rewrite E. }
  assert (p2 = f ++ p3) as ->.
  { destruct p2 as [|c p2]; [by injection Hf as <- <-|]. simpl in Hf. destruct (c =? 46); [|by injection Hf as <- <-].
    apply prepend_Some in Hf as (s & q' & E%scan_digits_app & [= -> ->]). by rewrite E. }
  assert (p3 = e ++ p4) as ->.
  { destruct p3 as [|c p3]; [by injection He as <- <-|]. simpl in He. destruct (_ || _); [|by injection He as <- <-].
    destruct p3 as [|s p3]; [done|]. destruct (_ || _); apply prepend_Some in He as (s' & q' & E%scan_digits_app & [= -> ->]);
      by rewrite E. }
  by rewrite <-!(assoc_L (++)).
Qed.

Lemma scan_number_length c p l q : scan_number (c :: p) = Some (l, q) -> (length q <= length p)%nat.
Proof.
  intros H. pose proof (scan_number_app _ _ _ H) as E. assert (l <> []).
  { intros ->. simpl in E. subst q. unfold scan_number in H.
    destruct (scan_sign (c :: p)) as [sign p1].
    apply bind_Some in H as ([i p2] & Hi & H). apply bind_Some in H as ([f p3] & _ & H).
    apply bind_Some in H as ([e p4] & _ & [=Hnil _]).
    apply app_eq_nil in Hnil as [_ Hnil]. apply app_eq_nil in Hnil as [-> _].
    destruct p1 as [|d p1]; [done|]. simpl in Hi. destruct (d =? 48); [done|]. destruct (is_digit d); [|done].
    by destruct (span_digits p1). }
  destruct l as [|d l]; [done|]. injection E as _ ->. rewrite length_app. lia.
Qed.

Lemma items_length {A} close (x : A) next p l q :
  (forall p' l q, (length p' < length p)%nat -> next p' = Some (l, q) -> (length q <= length p')%nat) ->
  items close x next p = Some (l, q) -> (length q < length p)%nat.
Proof.
  intros Hn. unfold items. pose proof (skip_ws_length p) as Hl. destruct (skip_ws p) as [|c p']; [done|]. simpl in Hl.
  destruct (c =? 44); [|destruct (c =? close); [intros [= _ <-]; lia|done]].
  intros ([l' q'] & E & [= _ ->])%bind_Some. apply Hn in E; lia.
Qed.

Lemma keyword_length w j p r q : keyword w j p = Some (r, q) -> (length q <= length p)%nat.
Proof. unfold keyword. case_decide; [|done]. intros [= _ <-]. rewrite length_drop. lia. Qed.

(** What is left is shorter. *)
Lemma parse_length n :
  (forall p j q, parse_value n p = Some (j, q) -> (length q < length p)%nat) /\
  (forall p l q, parse_elements n p = Some (l, q) -> (length q < length p)%nat) /\
  (forall p l q, parse_members n p = Some (l, q) -> (length q < length p)%nat).
Proof.
  induction n as [|n (IHv & IHe & IHm)]; [done|]. split_and!.
  - intros p j q. cbn [parse_value]. pose proof (skip_ws_length p) as Hp. destruct (skip_ws p) as [|c rest]; [done|]. simpl in Hp.
    destruct (c =? 34). { intros ([raw q'] & E%scan_string_length & [= _ ->])%bind_Some. lia. }
    pose proof (skip_ws_length rest) as Hr.
    destruct (c =? 91). { destruct (skip_ws rest) as [|c' q']; [done|]. simpl in Hr. destruct (c' =? 93); [intros [= _ <-]; lia|].
      intros ([l q''] & E%IHe & [= _ ->])%bind_Some. lia. }
    destruct (c =? 123). { destruct (skip_ws rest) as [|c' q']; [done|]. simpl in Hr. destruct (c' =? 125); [intros [= _ <-]; lia|].
      intros ([l q''] & E%IHm & [= _ ->])%bind_Some. lia. }
    destruct (c =? 110); [intros E%keyword_length; lia|]. destruct (c =? 116); [intros E%keyword_length; lia|].
    destruct (c =? 102); [intros E%keyword_length; lia|].
    intros ([l q'] & E%scan_number_length & [= _ ->])%bind_Some. lia.
  - intros p l q. cbn [parse_elements]. intros ([j q'] & E%IHv & H)%bind_Some.
    apply items_length in H; [lia|]. intros ??? _ ?%IHe. lia.
  - intros p l q. cbn [parse_members]. pose proof (skip_ws_length p) as Hp. destruct (skip_ws p) as [|c rest]; [done|]. simpl in Hp.
    destruct (c =? 34); [|done]. intros ([raw q'] & E%scan_string_length & H)%bind_Some.
    pose proof (skip_ws_length q') as Hq. destruct (skip_ws q') as [|c' rest']; [done|]. simpl in Hq. destruct (c' =? 58); [|done].
    apply bind_Some in H as ([j q''] & E'%IHv & H). apply items_length in H; [lia|]. intros ??? _ ?%IHm. lia.
Qed.

Lemma items_ext {A} close (x : A) next next' p :
  (forall p', (length p' < length p)%nat -> next p' = next' p') -> items close x next p = items close x next' p.
Proof.
  intros Hn. unfold items. pose proof (skip_ws_length p) as Hl. destruct (skip_ws p) as [|c p']; [done|]. simpl in Hl.
  destruct (c =? 44); [|done]. by rewrite Hn by lia.
Qed.

(** Beyond the length of the text, more fuel changes nothing: a text without a
    result is not JSON. *)
Lemma parse_fuel n :
  (forall p m, (2 * length p < n)%nat -> (2 * length p < m)%nat -> parse_value n p = parse_value m p) /\
  (forall p m, (2 * length p + 1 < n)%nat -> (2 * length p + 1 < m)%nat -> parse_elements n p = parse_elements m p) /\
  (forall p m, (2 * length p < n)%nat -> (2 * length p < m)%nat -> parse_members n p = parse_members m p).
Proof.
  induction n as [|n (IHv & IHe & IHm)]; [split_and!; intros; lia|]. split_and!; intros p [|m] Hn Hm; try lia.
  - cbn [parse_value]. pose proof (skip_ws_length p) as Hp. destruct (skip_ws p) as [|c rest]; [done|]. simpl in Hp.
    destruct (c =? 34); [done|]. destruct (c =? 91); [by rewrite (IHe rest m) by lia|].
    destruct (c =? 123); [by rewrite (IHm rest m) by lia|]. done.
  - cbn [parse_elements]. rewrite (IHv p m) by lia. destruct (parse_value m p) as [[j q]|] eqn:E; [|done]. simpl.
    apply parse_length in E. apply items_ext. intros p' Hp'. apply IHe; lia.
  - cbn [parse_members]. pose proof (skip_ws_length p) as Hp. destruct (skip_ws p) as [|c rest]; [done|]. simpl in Hp.
    destruct (c =? 34); [|done]. destruct (scan_string rest) as [[raw q]|] eqn:E; [|done]. simpl. apply scan_string_length in E.
    pose proof (skip_ws_length q) as Hq. destruct (skip_ws q) as [|c' q1]; [done|]. simpl in Hq. destruct (c' =? 58); [|done].
    rewrite (IHv q1 m) by lia. destruct (parse_value m q1) as [[j q2]|] eqn:E'; [|done]. simpl.
    apply parse_length in E'. apply items_ext. intros p' Hp'. apply IHm; lia.
Qed.

Lemma parse_value_fuel n p : (fuel_for p <= n)%nat -> parse_value n p = parse_value (fuel_for p) p.
Proof. unfold fuel_for. intros Hn. apply parse_fuel; lia. Qed.

(** ** Reading back what Marshal writes *)

Definition utf8 (s : string) : Prop := string_of_runes (runes s) = s.
#[export] Instance utf8_dec s : Decision (utf8 s).
Proof. unfold utf8. apply _. Defined.

Definition quoted (s : string) : list Z := [34] ++ quote_from 0 (bytes s) ++ [34].

Fixpoint commas (l : list (list Z)) : list Z :=
  match l with
  | [] => []
  | [x] => x
  | x :: l => x ++ 44 :: commas l
  end.

(** The compact text of a value. *)
Fixpoint encode (j : json) : list Z :=
  match j with
  | JNull => bytes "null"
  | JBool b => bytes (if b then "true" else "false")
  | JNumber lit => lit
  | JString s => quoted s
  | JArray l => 91 :: commas (map encode l) ++ [93]
  | JObject l => 123 :: commas (map (fun m => quoted m.1 ++ 58 :: encode m.2) l) ++ [125]
  end.

(** A literal that is read whole when nothing that continues a number follows. *)
Definition ends_number (p : list Z) : bool :=
  match p with
  | [] => true
  | c :: _ => negb (is_digit c || (c =? 46) || (c =? 101) || (c =? 69))
  end.
Definition number_literal (lit : list Z) : Prop :=
  Forall is_byte lit /\ (exists c l, lit = c :: l /\ (is_digit c = true \/ c = 45)) /\
  forall rest, ends_number rest = true -> scan_number (lit ++ rest) = Some (lit, rest).

(** What Marshal writes without loss. *)
Fixpoint encodable (j : json) : Prop :=
  match j with
  | JNumber lit => number_literal lit
  | JString s => utf8 s
  | JArray l => foldr (fun j P => encodable j /\ P) True l
  | JObject l => foldr (fun m P => (utf8 m.1 /\ encodable m.2) /\ P) True l
  | _ => True
  end.

Lemma foldr_and {A} (f : A -> Prop) l : foldr (fun x P => f x /\ P) True l <-> Forall f l.
Proof. induction l as [|x l IH]; simpl; [by split|]. by rewrite Forall_cons, IH. Qed.

(** *** Strings *)

Lemma hex4_hex r : Forall (fun h => is_hex h = true) (hex4 r).
Proof.
  assert (Hd : forall x, 0 <= x < 16 -> is_hex (byte_Z (hex_digit x)) = true).
  { intros x Hx. assert (Hall : Forall (fun x => is_hex (byte_Z (hex_digit x)) = true) (seqZ 0 16)).
    { apply (bool_decide_unpack _). by vm_compute. }
    rewrite Forall_forall in Hall. apply Hall, elem_of_seqZ. lia. }
  unfold hex4. repeat constructor; apply Hd, Z.mod_pos_bound; lia.
Qed.

Lemma getu4_hex4 r rest : 0 <= r < 64 \/ r = 0x2028 \/ r = 0x2029 -> getu4 ([92; 117] ++ hex4 r ++ rest) = Some r.
Proof.
  intros Hr. assert (Hall : Forall (fun r => getu4 ([92; 117] ++ hex4 r) = Some r) (seqZ 0 64 ++ [0x2028; 0x2029])).
  { apply (bool_decide_unpack _). by vm_compute. }
  assert (Hin : r ∈ seqZ 0 64 ++ [0x2028; 0x2029]) by (rewrite elem_of_app, elem_of_seqZ; destruct Hr as [?|[-> | ->]]; set_solver by lia).
  rewrite Forall_forall in Hall. specialize (Hall r Hin). exact Hall.
Qed.

Lemma scan_string_raw l rest : Forall (fun c => 32 <= c /\ c <> 34 /\ c <> 92) l ->
  scan_string (l ++ rest) = prepend l (scan_string rest).
Proof.
  induction 1 as [|c l (H1 & H2 & H3) _ IH]; simpl.
  - unfold prepend. by destruct (scan_string rest) as [[]|].
  - rewrite (proj2 (Z.eqb_neq c 34)), (proj2 (Z.eqb_neq c 92)), (proj2 (Z.ltb_ge c 32)), IH by done.
    unfold prepend. by destruct (scan_string rest) as [[]|].
Qed.

Lemma encode_rune_raw r : valid_rune r = true -> 32 <= r -> r <> 34 -> r <> 92 ->
  Forall (fun c => 32 <= c /\ c <> 34 /\ c <> 92) (encode_rune r).
Proof.
  intros Hv H32 H34 H92. destruct (decide (r < 128)) as [Hlt|Hge].
  - rewrite encode_ascii by lia. by repeat constructor.
  - eapply Forall_impl; [apply encode_beyond_ascii; [done|lia]|]. simpl. lia.
Qed.

Lemma prepend_prepend l k m : prepend l (prepend k m) = prepend (l ++ k) m.
Proof. unfold prepend. destruct m as [[s q]|]; simpl; [by rewrite (assoc_L (++))|done]. Qed.

(** The runes [quote_rune] writes as they are. *)
Lemma quote_rune_cases r : valid_rune r = true ->
  (exists e, quote_rune r = [92; e] /\ is_escape e = true /\ e <> 117 /\ [unescape e] = encode_rune r) \/
  (quote_rune r = [92; 117] ++ hex4 r /\ (0 <= r < 64 \/ r = 0x2028 \/ r = 0x2029)) \/
  (quote_rune r = encode_rune r /\ 32 <= r /\ r <> 34 /\ r <> 92).
Proof.
  intros Hv. assert (0 <= r) by (unfold valid_rune in Hv; lia). unfold quote_rune.
  destruct (Z.eqb_spec r 34) as [->|N34]; [left; by exists 34|]. destruct (Z.eqb_spec r 92) as [->|N92]; [left; by exists 92|]. simpl.
  destruct (Z.eqb_spec r 8) as [->|]; [left; by exists 98|]. destruct (Z.eqb_spec r 9) as [->|]; [left; by exists 116|].
  destruct (Z.eqb_spec r 10) as [->|]; [left; by exists 110|]. destruct (Z.eqb_spec r 12) as [->|]; [left; by exists 102|].
  destruct (Z.eqb_spec r 13) as [->|]; [left; by exists 114|]. right.
  destruct (_ || _) eqn:E; [left; split; [done|lia]|right; split; [done|lia]].
Qed.

Lemma scan_string_quote rs rest : Forall (fun r => valid_rune r = true) rs ->
  scan_string ((rs ≫= quote_rune) ++ 34 :: rest) = Some (rs ≫= quote_rune, rest).
Proof.
  induction 1 as [|r rs Hr _ IH]; [done|]. rewrite !bind_cons, <-(assoc_L (++)).
  destruct (quote_rune_cases r Hr) as [(e & -> & He & _)|[[-> _]|(-> & H1 & H2 & H3)]].
  - cbn [app scan_string]. rewrite He, IH. done.
  - pose proof (hex4_hex r) as Hh. unfold hex4 in *. rewrite !fmap_cons, fmap_nil in *. cbn [app scan_string].
    rewrite !Forall_cons in Hh. destruct Hh as (-> & -> & -> & -> & _). cbn [andb]. rewrite IH. done.
  - rewrite scan_string_raw, IH by by apply encode_rune_raw. done.
Qed.

Lemma unquote_body_skip k l rest : length l = k -> unquote_body k (l ++ rest) = unquote_body 0 rest.
Proof. intros <-. induction l as [|c l IH]; [done|]. exact IH. Qed.

Lemma unquote_body_encode r rest : valid_rune r = true -> r <> 92 ->
  unquote_body 0 (encode_rune r ++ rest) = encode_rune r ++ unquote_body 0 rest.
Proof.
  intros Hv H92. assert (0 <= r) by (unfold valid_rune in Hv; lia). destruct (decide (r < 128)) as [Hlt|Hge].
  - rewrite encode_ascii by lia. cbn [app unquote_body]. rewrite (proj2 (Z.eqb_neq r 92)), (proj2 (Z.ltb_lt r 0x80)) by lia. done.
  - pose proof (encode_beyond_ascii r Hv ltac:(lia)) as Hb. unfold encode_rune in *. rewrite Hv in *.
    pose proof (DecodeRune_encode r rest Hv) as Hd. destruct (encode_valid r) as [|b bs] eqn:E; [unfold encode_valid in E; by repeat case_match|].
    apply Forall_cons in Hb as [Hb _]. cbn [app unquote_body]. rewrite (proj2 (Z.eqb_neq b 92)), (proj2 (Z.ltb_ge b 0x80)) by lia.
    cbn [app] in Hd. rewrite Hd. unfold encode_rune. rewrite Hv, E. cbn [app length pred]. by rewrite unquote_body_skip.
Qed.

Lemma unquote_body_quote rs : Forall (fun r => valid_rune r = true) rs ->
  unquote_body 0 (rs ≫= quote_rune) = rs ≫= encode_rune.
Proof.
  induction 1 as [|r rs Hr _ IH]; [done|]. rewrite !bind_cons.
  destruct (quote_rune_cases r Hr) as [(e & -> & He & Hu & Henc)|[[-> Hrange]|(-> & H1 & H2 & H3)]].
  - cbn [app unquote_body]. rewrite (proj2 (Z.eqb_neq e 117)), IH, <-Henc by done. done.
  - rewrite <-(assoc_L (++)). pose proof (getu4_hex4 r (rs ≫= quote_rune) Hrange) as Hu.
    cbn [app] in Hu |- *. cbn [unquote_body]. rewrite Hu.
    replace (is_surrogate r) with false by (symmetry; unfold is_surrogate; lia). change (92 =? 92) with true. change (117 =? 117) with true. cbn iota beta.
    by rewrite unquote_body_skip, IH by done.
  - by rewrite unquote_body_encode, IH.
Qed.

Lemma quote_from_utf8 s : utf8 s -> quote_from 0 (bytes s) = runes s ≫= quote_rune.
Proof.
  unfold utf8. intros Hs. rewrite <-Hs at 1. unfold string_of_runes. rewrite bytes_of_bytes by apply encode_runes_bytes.
  rewrite <-(app_nil_r (runes s ≫= encode_rune)), quote_from_encode by apply runes_valid. simpl. by rewrite app_nil_r.
Qed.

(** A string written by Marshal is read back. *)
Lemma read_quoted s rest : utf8 s -> exists raw, quoted s ++ rest = 34 :: raw ++ 34 :: rest /\
  scan_string (raw ++ 34 :: rest) = Some (raw, rest) /\ of_bytes (unquote_body 0 raw) = s.
Proof.
  intros Hs. exists (runes s ≫= quote_rune). unfold quoted. rewrite quote_from_utf8 by done. split_and!.
  - cbn [app]. by rewrite <-(assoc_L (++)).
  - apply scan_string_quote, runes_valid.
  - rewrite unquote_body_quote by apply runes_valid. exact Hs.
Qed.

(** *** Values *)

Lemma skip_ws_head c p : is_ws c = false -> skip_ws (c :: p) = c :: p.
Proof. simpl. by intros ->. Qed.

Lemma encode_head j : encodable j -> exists c p, encode j = c :: p /\ is_ws c = false /\ c <> 93.
Proof.
  destruct j as [|[]|lit|s|l|l]; intros Hj; try by eexists _, _.
  destruct Hj as (_ & (c & p & -> & Hc) & _). exists c, p. unfold is_digit, is_ws in *. split_and!; [done|lia|lia].
Qed.

Lemma parse_string n s rest : utf8 s -> (0 < n)%nat -> parse_value n (quoted s ++ rest) = Some (JString s, rest).
Proof.
  intros Hs Hn. destruct n as [|n]; [lia|]. destruct (read_quoted s rest Hs) as (raw & -> & Hscan & Hraw).
  cbn [parse_value]. rewrite skip_ws_head by done. cbn [Z.eqb Pos.eqb]. rewrite Hscan. simpl. by rewrite Hraw.
Qed.

Lemma parse_number n lit rest : number_literal lit -> ends_number rest = true -> (0 < n)%nat ->
  parse_value n (lit ++ rest) = Some (JNumber lit, rest).
Proof.
  intros (_ & (c & l & -> & Hc) & Hlit) Hrest Hn. destruct n as [|n]; [lia|]. specialize (Hlit rest Hrest). cbn [app] in Hlit.
  cbn [app parse_value]. unfold is_digit in Hc. rewrite skip_ws_head by (unfold is_ws; lia).
  do 6 match goal with |- context [c =? ?k] => rewrite (proj2 (Z.eqb_neq c k)) by lia end. by rewrite Hlit.
Qed.

Lemma items_more {A} close (x : A) next p l q : next p = Some (l, q) -> items close x next (44 :: p) = Some (x :: l, q).
Proof. intros E. unfold items. rewrite skip_ws_head by done. cbn [Z.eqb Pos.eqb]. by rewrite E. Qed.

Lemma items_last {A} close (x : A) next p : close = 93 \/ close = 125 -> items close x next (close :: p) = Some ([x], p).
Proof. by intros [-> | ->]. Qed.

Lemma keyword_app w j rest : keyword w j (bytes w ++ rest) = Some (j, rest).
Proof. unfold keyword. by rewrite <-!length_bytes, take_app_length, decide_True, drop_app_length. Qed.


Lemma parse_elements_encode l :
  Forall (fun j => forall n rest, ends_number rest = true -> (2 * length (encode j) < n)%nat ->
    parse_value n (encode j ++ rest) = Some (j, rest)) l -> l <> [] ->
  forall n rest, (2 * length (commas (map encode l)) + 1 < n)%nat ->
  parse_elements n (commas (map encode l) ++ 93 :: rest) = Some (l, rest).
Proof.
  induction 1 as [|j l Hj Hl IH]; [done|]. intros _ n rest Hn. destruct n as [|n]; [lia|]. cbn [map commas] in *.
  destruct (map encode l) as [|e es] eqn:El; cbn [parse_elements].
  - destruct l; [|done]. rewrite Hj by (done || lia). cbn [mbind option_bind]. by apply items_last; left.
  - rewrite length_app in Hn. cbn [length] in Hn. rewrite <-(assoc_L (++)). cbn [app].
    rewrite Hj by (done || lia). cbn [mbind option_bind]. apply items_more. destruct l; [done|]. rewrite <-El in *.
    apply IH; [done|lia].
Qed.

Definition member_text (m : string * json) : list Z := quoted m.1 ++ 58 :: encode m.2.

Lemma parse_members_encode l :
  Forall (fun m => forall n rest, ends_number rest = true -> (2 * length (encode m.2) < n)%nat ->
    parse_value n (encode m.2 ++ rest) = Some (m.2, rest)) l -> Forall (fun m => utf8 m.1) l -> l <> [] ->
  forall n rest, (2 * length (commas (map member_text l)) < n)%nat ->
  parse_members n (commas (map member_text l) ++ 125 :: rest) = Some (l, rest).
Proof.
  induction 1 as [|[k j] l Hj Hl IH]; [done|]. intros [Hk Hks]%Forall_cons _ n rest Hn. destruct n as [|n]; [lia|].
  cbn [fst snd] in *. cbn [map commas] in *.
  assert (Hmember : forall rest', ends_number rest' = true -> (2 * length (encode j) < n)%nat ->
    parse_members (S n) (member_text (k, j) ++ rest') = items 125 (k, j) (parse_members n) rest').
  { intros rest' Hr' Hlen. unfold member_text. cbn [fst snd]. rewrite <-(assoc_L (++)). cbn [app].
    destruct (read_quoted k (58 :: encode j ++ rest') Hk) as (raw & -> & Hscan & Hraw).
    cbn [parse_members]. rewrite skip_ws_head by done. cbn [Z.eqb Pos.eqb]. rewrite Hscan. cbn [mbind option_bind].
    rewrite skip_ws_head by done. cbn [Z.eqb Pos.eqb]. rewrite Hj by done. cbn [mbind option_bind]. by rewrite Hraw. }
  assert (Hlen : (length (encode j) < length (member_text (k, j)))%nat).
  { unfold member_text. cbn [fst snd]. rewrite length_app. cbn [length]. lia. }
  destruct (map member_text l) as [|e es] eqn:El.
  - destruct l; [|done]. rewrite Hmember by (done || lia). by apply items_last; right.
  - rewrite length_app in Hn. cbn [length] in Hn. rewrite <-(assoc_L (++)). cbn [app].
    rewrite Hmember by (done || lia). apply items_more. destruct l; [done|]. rewrite <-El in *. apply IH; [done|done|lia].
Qed.
Lemma skip_ws_commas l rest : l <> [] -> Forall encodable l -> exists c p,
  commas (map encode l) ++ rest = c :: p /\ is_ws c = false /\ c <> 93.
Proof.
  destruct l as [|j l]; [done|]. intros _ [Hj _]%Forall_cons. destruct (encode_head j Hj) as (c & p & E & Hc).
  cbn [map commas]. destruct (map encode l); rewrite E; by eexists _, _.
Qed.

Lemma parse_encode j : encodable j -> forall n rest, ends_number rest = true -> (2 * length (encode j) < n)%nat ->
  parse_value n (encode j ++ rest) = Some (j, rest).
Proof.
  induction j as [|b|lit|s|l IH|l IH] using json_induction; intros Hj n rest Hrest Hn.
  - destruct n as [|n]; [lia|]. apply (keyword_app "ull").
  - destruct n as [|n]; [lia|]. destruct b; [apply (keyword_app "rue")|apply (keyword_app "alse")].
  - apply parse_number; [done|done|lia].
  - apply parse_string; [done|lia].
  - simpl in Hj. apply foldr_and in Hj. destruct n as [|n]; [lia|]. cbn [encode] in *. cbn [app parse_value].
    rewrite skip_ws_head by done. cbn [Z.eqb Pos.eqb]. rewrite <-(assoc_L (++)). cbn [app].
    destruct (decide (l = [])) as [->|Hne]; [done|].
    destruct (skip_ws_commas l (93 :: rest) Hne Hj) as (c & p & E & Hc & H93).
    pose proof (skip_ws_head c p Hc) as Hs. rewrite <-E in Hs. rewrite Hs, E. rewrite (proj2 (Z.eqb_neq c 93)) by done. rewrite <-E.
    cbn [length] in Hn. rewrite length_app in Hn. cbn [length] in Hn. rewrite parse_elements_encode; [done| |done|lia].
    rewrite Forall_forall in *. intros j Hin. apply IH; auto.
  - simpl in Hj. apply foldr_and in Hj. destruct n as [|n]; [lia|]. cbn [encode] in *. cbn [app parse_value].
    rewrite skip_ws_head by done. cbn [Z.eqb Pos.eqb]. rewrite <-(assoc_L (++)). cbn [app].
    destruct (decide (l = [])) as [->|Hne]; [done|].
    change (map (fun m => quoted m.1 ++ 58 :: encode m.2) l) with (map member_text l) in *.
    assert (E : exists p, commas (map member_text l) ++ 125 :: rest = 34 :: p).
    { destruct l as [|m l]; [done|]. cbn [map commas]. destruct (map member_text l); by eexists. }
    destruct E as [p E]. pose proof (skip_ws_head 34 p eq_refl) as Hs. rewrite <-E in Hs. rewrite Hs, E.
    cbn [Z.eqb Pos.eqb]. rewrite <-E.
    cbn [length] in Hn. rewrite length_app in Hn. cbn [length] in Hn. rewrite parse_members_encode; [done| | |done|lia].
    + rewrite Forall_forall in *. intros m Hin. apply IH; [done|]. by apply Hj.
    + eapply Forall_impl; [exact Hj|]. by intros m [? _].
Qed.

(** Unmarshal reads what Marshal wrote. *)
Lemma parse_bytes_encode j : encodable j -> depth j <= maxNestingDepth -> parse_bytes (encode j) = Some j.
Proof.
  intros Hj Hd. unfold parse_bytes. rewrite <-(app_nil_r (encode j)) at 2. rewrite parse_encode; [|done..|unfold fuel_for; lia].
  cbn [mbind option_bind]. rewrite (proj2 (Z.leb_le _ _)) by done. done.
Qed.

(** The text is made of bytes. *)
Lemma quoted_bytes s : utf8 s -> Forall is_byte (quoted s).
Proof.
  intros Hs. unfold quoted. rewrite quote_from_utf8 by done.
  assert (Hq : Forall is_byte (runes s ≫= quote_rune)).
  { pose proof (runes_valid s) as Hv. induction Hv as [|r l Hr _ IH]; [constructor|].
    rewrite bind_cons. apply Forall_app_2; [by apply quote_rune_bytes|done]. }
  repeat apply Forall_app_2; try done; repeat constructor; unfold is_byte; lia.
Qed.

Lemma commas_bytes l : Forall (Forall is_byte) l -> Forall is_byte (commas l).
Proof.
  induction 1 as [|x l Hx Hl IH]; [constructor|]. cbn [commas]. destruct l; [done|].
  apply Forall_app_2; [done|]. constructor; [unfold is_byte; lia|done].
Qed.

Lemma encode_bytes j : encodable j -> Forall is_byte (encode j).
Proof.
  induction j as [|b|lit|s|l IH|l IH] using json_induction; intros Hj.
  - apply bytes_is_byte.
  - apply bytes_is_byte.
  - apply Hj.
  - by apply quoted_bytes.
  - simpl in Hj. apply foldr_and in Hj. cbn [encode]. constructor; [unfold is_byte; lia|].
    apply Forall_app_2; [|repeat constructor; unfold is_byte; lia]. apply commas_bytes, Forall_fmap.
    rewrite Forall_forall in *. intros j Hin. simpl. auto.
  - simpl in Hj. apply foldr_and in Hj. cbn [encode]. constructor; [unfold is_byte; lia|].
    apply Forall_app_2; [|repeat constructor; unfold is_byte; lia]. apply commas_bytes, Forall_fmap.
    rewrite Forall_forall in *. intros [k j] Hin. destruct (Hj _ Hin) as [Hk Hv].
    change (Forall is_byte (quoted k ++ 58 :: encode j)).
    apply Forall_app_2; [by apply quoted_bytes|]. constructor; [unfold is_byte; lia|]. by apply (IH _ Hin).
Qed.

Lemma parse_json_encode j : encodable j -> depth j <= maxNestingDepth -> parse_json (of_bytes (encode j)) = Some j.
Proof. intros Hj Hd. unfold parse_json. rewrite bytes_of_bytes by by apply encode_bytes. by apply parse_bytes_encode. Qed.

(** *** Integers *)

Definition digits_text (n : Z) (ds : list Z) : Prop :=
  Forall (fun d => is_digit d = true) ds /\
  (exists d ds', ds = d :: ds' /\ (d = 48 -> ds' = [])) /\
  forall acc s, digits_value acc (of_bytes ds +:+ s) = digits_value (acc * 10 ^ Z.of_nat (length ds) + n) s.

Lemma digit_char_byte d : 0 <= d < 10 -> byte_Z (digit_char d) = 48 + d.
Proof. intros. apply byte_Z_byte. lia. Qed.

Lemma digits_text_one d : 0 <= d < 10 -> digits_text d [48 + d].
Proof.
  intros Hd. split_and!.
  - constructor; [unfold is_digit; lia|constructor].
  - by eexists _, _.
  - intros acc s. unfold of_bytes. simpl. unfold digit_of.
    change (Z_byte (48 + d)) with (digit_char d). rewrite digit_char_byte by done. simpl.
    rewrite (proj2 (Z.leb_le 48 (48 + d))), (proj2 (Z.leb_le (48 + d) 57)) by lia. simpl. f_equal. lia.
Qed.

Lemma digits_text_snoc n d ds : 0 < n -> 0 <= d < 10 -> digits_text n ds -> digits_text (n * 10 + d) (ds ++ [48 + d]).
Proof.
  intros Hn Hd (H1 & (c & ds' & -> & H0) & H3). destruct (digits_text_one d Hd) as (G1 & _ & G3). split_and!.
  - by apply Forall_app.
  - exists c, (ds' ++ [48 + d]). split; [done|]. intros ->. rewrite (H0 eq_refl) in H3. specialize (H3 0 EmptyString).
    assert (E : Some 0 = Some (0 * 10 ^ 1 + n)) by exact H3. injection E. lia.
  - intros acc s. rewrite of_bytes_app, string_app_assoc, H3, G3, length_app. cbn [length].
    rewrite Nat2Z.inj_add, Z.pow_add_r by lia. f_equal. change (10 ^ Z.of_nat 1) with 10. lia.
Qed.

Lemma itoa_fuel_spec k n acc : 0 <= n < 10 ^ Z.of_nat k -> (0 < k)%nat ->
  exists ds, digits_text n ds /\ itoa_fuel k n acc = of_bytes ds +:+ acc.
Proof.
  revert n acc. induction k as [|k IH]; [lia|]. intros n acc Hn _. cbn [itoa_fuel].
  assert (Hd : 0 <= n mod 10 < 10) by (apply Z.mod_pos_bound; lia).
  destruct (Z.ltb_spec n 10).
  - exists [48 + n]. split; [apply digits_text_one; lia|]. rewrite Z.mod_small by lia. done.
  - destruct (IH (n / 10) (String (digit_char (n mod 10)) acc)) as (ds & Hds & ->).
    + rewrite Nat2Z.inj_succ, Z.pow_succ_r in Hn by lia. split; [apply Z.div_pos; lia|]. apply Z.div_lt_upper_bound; lia.
    + destruct k; [|lia]. simpl in Hn. lia.
    + exists (ds ++ [48 + n mod 10]). split.
      * rewrite (Z.div_mod n 10) at 1 by lia. rewrite (Z.mul_comm 10). apply digits_text_snoc; [|done|done].
        apply Z.div_str_pos. lia.
      * rewrite of_bytes_app, string_app_assoc. done.
Qed.

Lemma string_app_nil (a : string) : a +:+ "" = a.
Proof. induction a as [|c a IH]; simpl; [done|]. by rewrite IH. Qed.

Lemma digits_of_text n ds : digits_text n ds -> digits (of_bytes ds) = Some n.
Proof.
  intros (_ & (c & ds' & -> & _) & H). specialize (H 0 EmptyString). rewrite string_app_nil in H. exact H.
Qed.

Lemma span_digits_whole ds rest : Forall (fun d => is_digit d = true) ds -> ends_number rest = true ->
  span_digits (ds ++ rest) = (ds, rest).
Proof.
  intros Hds Hrest. induction Hds as [|d ds Hd _ IH]; simpl; [|by rewrite Hd, IH].
  destruct rest as [|c rest]; [done|]. unfold ends_number in Hrest. simpl. destruct (is_digit c); [done|done].
Qed.

Lemma scan_number_digits sign n ds rest : sign = [] \/ sign = [45] -> digits_text n ds -> ends_number rest = true ->
  scan_number (sign ++ ds ++ rest) = Some (sign ++ ds, rest).
Proof.
  intros Hsign (Hds & (c & ds' & -> & H48) & _) Hrest. unfold scan_number.
  assert (Hc : is_digit c = true) by by apply Forall_cons in Hds as [? _].
  assert (Hs : scan_sign (sign ++ (c :: ds') ++ rest) = (sign, (c :: ds') ++ rest)).
  { destruct Hsign as [-> | ->]; [|done]. simpl. by rewrite (proj2 (Z.eqb_neq c 45)) by (unfold is_digit in Hc; lia). }
  rewrite Hs. assert (Hi : scan_int ((c :: ds') ++ rest) = Some (c :: ds', rest)).
  { unfold scan_int. cbn [app]. destruct (Z.eqb_spec c 48) as [->|_]; [by rewrite H48|].
    rewrite Hc. change (c :: ds' ++ rest) with ((c :: ds') ++ rest). by rewrite span_digits_whole. }
  rewrite Hi. cbn [mbind option_bind]. assert (Hf : scan_frac rest = Some ([], rest) /\ scan_exp rest = Some ([], rest)).
  { destruct rest as [|d rest]; [done|]. unfold ends_number in Hrest. unfold scan_frac, scan_exp.
    destruct (is_digit d), (d =? 46), (d =? 101), (d =? 69); done. }
  destruct Hf as [-> He]. cbn [mbind option_bind]. rewrite He. cbn [mbind option_bind]. by rewrite !app_nil_r.
Qed.

(** An int64 is written as a number and read back as the same int64. *)
Lemma Itoa_spec z : - 2 ^ 63 <= z < 2 ^ 63 ->
  exists sign ds, (sign = [] /\ 0 <= z \/ sign = [45] /\ z < 0) /\ digits_text (Z.abs z) ds /\ Itoa z = of_bytes (sign ++ ds).
Proof.
  intros Hz. unfold Itoa. destruct (Z.ltb_spec z 0) as [Hneg|Hpos].
  - destruct (itoa_fuel_spec 20 (- z) EmptyString) as (ds & Hds & ->); [lia|lia|]. exists [45], ds. rewrite string_app_nil.
    split; [by right|]. split; [by rewrite Z.abs_neq by lia|done].
  - destruct (itoa_fuel_spec 20 z EmptyString) as (ds & Hds & ->); [lia|lia|]. exists [], ds. rewrite string_app_nil.
    split; [by left|]. split; [by rewrite Z.abs_eq by lia|done].
Qed.

Lemma digits_text_bytes n ds : digits_text n ds -> Forall is_byte ds.
Proof. intros (H & _ & _). eapply Forall_impl; [exact H|]. intros d. unfold is_digit, is_byte. simpl. lia. Qed.

Lemma Itoa_literal z : - 2 ^ 63 <= z < 2 ^ 63 -> number_literal (bytes (Itoa z)).
Proof.
  intros (sign & ds & Hsign & Hds & E)%Itoa_spec. split; [apply bytes_is_byte|]. rewrite E. pose proof (digits_text_bytes _ _ Hds) as Hb.
  assert (Hs : sign = [] \/ sign = [45]) by tauto.
  rewrite bytes_of_bytes by (apply Forall_app_2; [destruct Hs as [-> | ->]; repeat constructor; unfold is_byte; lia|done]).
  split.
  - destruct Hds as (Hds & (c & ds' & -> & _) & _). apply Forall_cons in Hds as [Hc _].
    destruct Hs as [-> | ->]; eexists _, _; (split; [done|]); [by left|by right].
  - intros rest Hrest. rewrite <-(assoc_L (++)). by eapply scan_number_digits.
Qed.

Lemma Atoi_Itoa z : - 2 ^ 63 <= z < 2 ^ 63 -> Atoi (Itoa z) = Some z.
Proof.
  intros Hz. destruct (Itoa_spec z Hz) as (sign & ds & Hsign & Hds & ->). pose proof (digits_of_text _ _ Hds) as Hd.
  unfold Atoi. assert (Hr : (- 2 ^ 63 <=? z) && (z <? 2 ^ 63) = true) by lia.
  assert (E : exists v, v = z /\ match of_bytes (sign ++ ds) with
      | String c s' => if decide (c = "-"%char) then Z.opp <$> digits s' else if decide (c = "+"%char) then digits s' else digits (of_bytes (sign ++ ds))
      | EmptyString => None end = Some v).
  { destruct Hsign as [[-> Hz0]|[-> Hz0]].
    - rewrite Z.abs_eq in Hd by done. exists z. split; [done|]. destruct Hds as (Hds & (c & ds' & -> & _) & _).
      apply Forall_cons in Hds as [Hc _]. unfold is_digit in Hc. cbn [app].
      change (of_bytes (c :: ds')) with (String (Z_byte c) (of_bytes ds')) in *.
      assert (byte_Z (Z_byte c) = c) by (apply byte_Z_byte; lia).
      cbv beta iota. rewrite !decide_False; [done| |]; intros E; rewrite E in *; vm_compute in H; lia.
    - rewrite Z.abs_neq in Hd by lia. exists z. split; [done|]. cbn [app].
      change (of_bytes (45 :: ds)) with (String "-" (of_bytes ds)). cbv beta iota. rewrite decide_True by done. rewrite Hd. simpl. f_equal. lia. }
  destruct E as (v & -> & E). rewrite E. cbn [mbind option_bind]. by rewrite Hr.
Qed.

Lemma dec_int_Itoa z i : - 2 ^ 63 <= z < 2 ^ 63 -> dec_int (JNumber (bytes (Itoa z))) i = (z, true).
Proof. intros Hz. simpl. by rewrite of_bytes_bytes, Atoi_Itoa. Qed.
