(* ===== verification/Llm.v ===== *)
(** The clients of model providers ([internal/llm/llm.go]): the requests they
    send, what they make of the answers, and the choice of the provider.  The
    HTTP exchange is a parameter: a request is answered with a status and a
    body, or fails. *)
From Stdlib Require Import Ascii String.
From S2P Require Import Prelude GoStd GoStrings Float64 Json GoJson.

Local Open Scope Z_scope.

Record LLMMessage := mkLLMMessage { lm_Role : string; lm_Content : string }.
Record LLMRequest := mkLLMRequest { lr_Messages : list LLMMessage }.

Definition BuildLLMRequest (systemPrompt userContent : string) : LLMRequest :=
  mkLLMRequest [mkLLMMessage "system" systemPrompt; mkLLMMessage "user" userContent].

(** A POST request. *)
Record http_request := mkRequest { hr_URL : string; hr_Header : list (string * string); hr_Body : list Z }.

(** [Client], the interface every provider implements.  A vector is a list of
    float32 values. *)
Record Client := mkClient {
  Generate : LLMRequest -> result (string * Z);
  Embed : string -> result (list float64);
  EmbedBatch : list string -> result (list (list float64));
  ModelName : string;
}.

Definition dims : nat := 1536.
Definition zeros (n : nat) : list float64 := repeat (f_of_Z 0) n.

(** A vector shorter than the database's columns is filled up with zeros. *)
Definition pad (v : list float64) : list float64 :=
  if (length v <? dims)%nat then v ++ zeros (dims - length v) else v.

(** ** The answers *)

Definition dec_vector : json -> slice float64 -> slice float64 * bool := dec_slice (f_of_Z 0) dec_float32.

(** Unmarshal, its error ignored. *)
Definition decoded {A} (dec : json -> A -> A * bool) (body : string) (zero : A) : A := (Unmarshal dec body zero).1.

(** *** OpenAI and Azure *)

Record ChatAnswer := mkChatAnswer { ch_Choices : slice string; ch_TotalTokens : Z }.

Definition dec_choice : json -> string -> string * bool :=
  dec_struct [("message"%string, dec_struct [("content"%string, dec_string)])].
Definition dec_chat : json -> ChatAnswer -> ChatAnswer * bool :=
  dec_struct [
    ("choices"%string, fun j a => let '(c, ok) := dec_slice EmptyString dec_choice j (ch_Choices a) in
                                  (mkChatAnswer c (ch_TotalTokens a), ok));
    ("usage"%string, fun j a => let '(n, ok) := dec_struct [("total_tokens"%string, dec_int)] j (ch_TotalTokens a) in
                                (mkChatAnswer (ch_Choices a) n, ok))].

Record Datum := mkDatum { d_Index : Z; d_Embedding : slice float64 }.
Definition dec_datum : json -> Datum -> Datum * bool :=
  dec_struct [
    ("index"%string, fun j d => let '(i, ok) := dec_int j (d_Index d) in (mkDatum i (d_Embedding d), ok));
    ("embedding"%string, fun j d => let '(e, ok) := dec_vector j (d_Embedding d) in (mkDatum (d_Index d) e, ok))].
Definition dec_data : json -> slice Datum -> slice Datum * bool :=
  dec_struct [("data"%string, dec_slice (mkDatum 0 nil_slice) dec_datum)].

Definition chat_answer (body : string) : string * Z :=
  let a := decoded dec_chat body (mkChatAnswer nil_slice 0) in
  (match elems (ch_Choices a) with c :: _ => c | [] => "[]"%string end, ch_TotalTokens a).

(** Embed's answer; its items have no index. *)
Definition dec_embedding_only : json -> slice float64 -> slice float64 * bool := dec_struct [("embedding"%string, dec_vector)].
Definition embed_answer (body : string) : list float64 :=
  match elems (decoded (dec_struct [("data"%string, dec_slice nil_slice dec_embedding_only)]) body nil_slice) with
  | v :: _ => elems v
  | [] => zeros dims
  end.

(** The vector of an item goes to the place its index names, if that is below
    the length; a negative index is out of range. *)
Definition place (out : list (list float64)) (d : Datum) : result (list (list float64)) :=
  if d_Index d <? Z.of_nat (length out) then
    if d_Index d <? 0 then Err "panic: index out of range"%string
    else Ok (<[Z.to_nat (d_Index d) := elems (d_Embedding d)]> out)
  else Ok out.
Fixpoint place_all (out : list (list float64)) (l : list Datum) : result (list (list float64)) :=
  match l with [] => Ok out | d :: l => out ← place out d; place_all out l end.

Definition embed_batch_answer (texts : list string) (body : string) : result (list (list float64)) :=
  place_all (repeat [] (length texts)) (elems (decoded dec_data body nil_slice)).

(** *** Gemini *)

Record GeminiAnswer := mkGeminiAnswer { g_Candidates : slice (slice string); g_TotalTokenCount : Z }.
Definition dec_candidate : json -> slice string -> slice string * bool :=
  dec_struct [("content"%string, dec_struct [("parts"%string,
    dec_slice EmptyString (dec_struct [("text"%string, dec_string)]))])].
Definition dec_gemini : json -> GeminiAnswer -> GeminiAnswer * bool :=
  dec_struct [
    ("candidates"%string, fun j a => let '(c, ok) := dec_slice nil_slice dec_candidate j (g_Candidates a) in
                                     (mkGeminiAnswer c (g_TotalTokenCount a), ok));
    ("usageMetadata"%string, fun j a => let '(n, ok) := dec_struct [("totalTokenCount"%string, dec_int)] j (g_TotalTokenCount a) in
                                        (mkGeminiAnswer (g_Candidates a) n, ok))].

Definition gemini_answer (body : string) : string * Z :=
  let a := decoded dec_gemini body (mkGeminiAnswer nil_slice 0) in
  (match elems (g_Candidates a) with
   | c :: _ => match elems c with t :: _ => t | [] => "[]"%string end
   | [] => "[]"%string
   end, g_TotalTokenCount a).

Definition dec_values : json -> slice float64 -> slice float64 * bool := dec_struct [("values"%string, dec_vector)].
Definition gemini_embed_answer (body : string) : list float64 :=
  pad (elems (decoded (dec_struct [("embedding"%string, dec_values)]) body nil_slice)).
Definition gemini_embed_batch_answer (body : string) : list (list float64) :=
  (fun v => pad (elems v)) <$> elems (decoded (dec_struct [("embeddings"%string, dec_slice nil_slice dec_values)]) body nil_slice).

(** ** The requests

    Maps are written with their keys sorted, structs in the order of their
    fields. *)

Definition text_parts (text : string) : string * json := ("parts"%string, JArray [JObject [("text"%string, JString text)]]).

(** The roles of Gemini; the last system message is the instruction. *)
Definition gemini_content (m : LLMMessage) : json :=
  JObject [text_parts (lm_Content m);
           ("role"%string, JString (if decide (lm_Role m = "assistant"%string) then "model" else "user"))].
Definition is_system (m : LLMMessage) : bool := bool_decide (lm_Role m = "system"%string).
Definition gemini_contents (req : LLMRequest) : json :=
  match List.filter (fun m => negb (is_system m)) (lr_Messages req) with
  | [] => JNull                                      (* a nil slice *)
  | l => JArray (gemini_content <$> l)
  end.
Definition gemini_payload (req : LLMRequest) : json :=
  JObject ([("contents"%string, gemini_contents req);
            ("generationConfig"%string, JObject [("responseMimeType"%string, JString "application/json")])] ++
           match last (List.filter is_system (lr_Messages req)) with
           | Some m => [("systemInstruction"%string, JObject [text_parts (lm_Content m)])]
           | None => []
           end).

Definition chat_messages (req : LLMRequest) : json :=
  JArray ((fun m => JObject [("role"%string, JString (lm_Role m)); ("content"%string, JString (lm_Content m))]) <$> lr_Messages req).
Definition json_mode : string * json := ("response_format"%string, JObject [("type"%string, JString "json_object")]).
Definition text_array (texts : list string) : json := JArray (JString <$> texts).

Section Clients.
Context (Do : http_request -> result (Z * string)).

(** An exchange: any status but 200 is an error with the body as its text. *)
Definition post (what : string) (req : http_request) : result string :=
  '(status, body) ← Do req;
  if negb (status =? 200) then Err (what +:+ " error: " +:+ body)%string else Ok body.

Definition content_type : string * string := ("Content-Type", "application/json")%string.

Definition gemini_url (method key : string) : string :=
  "https://generativelanguage.googleapis.com/v1beta/models/" +:+ method +:+ "?key=" +:+ key.
Definition embedding_request (text : string) : json :=
  JObject [("content"%string, JObject [text_parts text]); ("model"%string, JString "models/text-embedding-004")].
Definition batch_request (text : string) : json :=
  JObject [("model"%string, JString "models/text-embedding-004"); ("content"%string, JObject [text_parts text])].

Definition GeminiClient (apiKey : string) : Client := {|
  Generate req :=
    body ← post "gemini generate" (mkRequest (gemini_url "gemini-2.5-flash-lite:generateContent" apiKey)
                                     [content_type] (encode (gemini_payload req)));
    Ok (gemini_answer body);
  Embed text :=
    body ← post "gemini embed" (mkRequest (gemini_url "text-embedding-004:embedContent" apiKey)
                                  [content_type] (encode (embedding_request text)));
    Ok (gemini_embed_answer body);
  EmbedBatch texts :=
    body ← post "gemini batch embed" (mkRequest (gemini_url "text-embedding-004:batchEmbedContents" apiKey)
                                  [content_type] (encode (JObject [("requests"%string, JArray (batch_request <$> texts))])));
    Ok (gemini_embed_batch_answer body);
  ModelName := "gemini-2.5-flash-lite";
|}.

Definition OpenAIClient (apiKey : string) : Client :=
  let header := [content_type; ("Authorization", "Bearer " +:+ apiKey)]%string in
  let embeddings what input :=
    post what (mkRequest "https://api.openai.com/v1/embeddings" header
                 (encode (JObject [("input"%string, input); ("model"%string, JString "text-embedding-3-small")]))) in {|
  Generate req :=
    body ← post "openai generate" (mkRequest "https://api.openai.com/v1/chat/completions" header
             (encode (JObject [("messages"%string, chat_messages req); ("model"%string, JString "gpt-4o-mini"); json_mode])));
    Ok (chat_answer body);
  Embed text := body ← embeddings "openai embed" (JString text); Ok (embed_answer body);
  EmbedBatch texts := body ← embeddings "openai batch embed" (text_array texts); embed_batch_answer texts body;
  ModelName := "gpt-4o-mini";
|}%string.

Definition azureOpenAIDefaultAPIVersion : string := "2024-02-01".

(** [strings.TrimRight(s, "/")] *)
Fixpoint trim_slashes (s : string) : string :=
  match s with
  | EmptyString => EmptyString
  | String c s =>
    match trim_slashes s with
    | EmptyString => if decide (c = "/"%char) then EmptyString else String c EmptyString
    | s' => String c s'
    end
  end.

Definition AzureOpenAIClient (endpoint apiKey chatDeployment embedDeployment apiVersion : string) : Client :=
  let apiVersion := if decide (apiVersion = EmptyString) then azureOpenAIDefaultAPIVersion else apiVersion in
  let url deployment path :=
    trim_slashes endpoint +:+ "/openai/deployments/" +:+ deployment +:+ "/" +:+ path +:+ "?api-version=" +:+ apiVersion in
  let header := [content_type; ("api-key", apiKey)]%string in
  let embeddings what input :=
    post what (mkRequest (url embedDeployment "embeddings") header (encode (JObject [("input"%string, input)]))) in {|
  Generate req :=
    body ← post "azure openai generate" (mkRequest (url chatDeployment "chat/completions") header
             (encode (JObject [("messages"%string, chat_messages req); json_mode])));
    Ok (chat_answer body);
  Embed text := body ← embeddings "azure openai embed" (JString text); Ok (embed_answer body);
  EmbedBatch texts := body ← embeddings "azure openai batch embed" (text_array texts); embed_batch_answer texts body;
  ModelName := chatDeployment;
|}%string.

(** *** The client without a network *)

(** The answers' texts; the double quotes are written as bytes. *)
Definition of_members (l : list string) : string :=
  "{" +:+ Join ((fun k => String dquote k +:+ String dquote ":[]") <$> l) "," +:+ "}".
Definition mockCognitiveResponse : string := of_members ["facts"; "events"; "persona_updates"]%string.
Definition mockExperienceResponse : string := of_members ["experiences"]%string.

Definition MockClient : Client := {|
  Generate req :=
    if existsb (fun m => Contains (lm_Content m) "experience" || Contains (lm_Content m) "behavior") (lr_Messages req)
    then Ok (mockExperienceResponse, 10) else Ok (mockCognitiveResponse, 10);
  Embed _ := Ok (zeros dims);
  EmbedBatch texts := Ok ((fun _ => zeros dims) <$> texts);
  ModelName := "mock";
|}.

(** ** NewClient

    The environment gives the empty string for a variable that is not set.
    [Err] is log.Fatal: the process ends. *)
Section Selection.
Context `{UnicodeCase} (Getenv : string -> string).

Definition newAzureClient : result Client :=
  let endpoint := Getenv "AZURE_OPENAI_ENDPOINT" in
  let key := Getenv "AZURE_OPENAI_KEY" in
  let chatDep := Getenv "AZURE_OPENAI_CHAT_DEPLOYMENT" in
  let embedDep := Getenv "AZURE_OPENAI_EMBED_DEPLOYMENT" in
  if bool_decide (EmptyString ∈ [endpoint; key; chatDep; embedDep])
  then Err "azure provider selected but one or more required env vars are missing"%string
  else Ok (AzureOpenAIClient endpoint key chatDep embedDep (Getenv "AZURE_OPENAI_API_VERSION")).

Definition NewClient : result Client :=
  let provider := ToLower (TrimSpace (Getenv "LLM_PROVIDER")) in
  let openai := Getenv "OPENAI_API_KEY" in
  let gemini := Getenv "GEMINI_API_KEY" in
  if decide (provider = "mock"%string) then Ok MockClient
  else if decide (provider = "azure"%string) then newAzureClient
  else if decide (provider = "openai"%string) then
    if decide (openai = EmptyString) then Err "LLM_PROVIDER=openai but OPENAI_API_KEY is not set"%string else Ok (OpenAIClient openai)
  else if decide (provider = "gemini"%string) then
    if decide (gemini = EmptyString) then Err "LLM_PROVIDER=gemini but GEMINI_API_KEY is not set"%string else Ok (GeminiClient gemini)
  else if decide (provider = EmptyString) then
    if decide (Getenv "AZURE_OPENAI_ENDPOINT" <> EmptyString) then newAzureClient
    else if decide (openai <> EmptyString) then Ok (OpenAIClient openai)
    else if decide (gemini <> EmptyString) then Ok (GeminiClient gemini)
    else Err "no LLM API key configured"%string
  else Err "LLM_PROVIDER is invalid"%string.
End Selection.
End Clients.

(** ** Lemmas *)

Lemma pad_spec v : (dims <= length (pad v))%nat /\ exists n, pad v = v ++ zeros n.
Proof.
  unfold pad. destruct (Nat.ltb_spec (length v) dims) as [Hlt|Hge].
  - split; [|by eexists]. unfold zeros. rewrite length_app, repeat_length. lia.
  - split; [done|]. exists 0%nat. by rewrite app_nil_r.
Qed.

Definition put (out : list (list float64)) (d : Datum) : list (list float64) :=
  <[Z.to_nat (d_Index d) := elems (d_Embedding d)]> out.

Lemma place_all_ok l out : Forall (fun d => 0 <= d_Index d) l -> place_all out l = Ok (foldl put out l).
Proof.
  revert out. induction l as [|d l IH]; intros out; [done|]. intros [Hd Hl]%Forall_cons. cbn [place_all foldl].
  assert (place out d = Ok (put out d)) as ->; [|cbn [mbind result_bind]; by apply IH].
  unfold place, put. rewrite (proj2 (Z.ltb_ge (d_Index d) 0)) by done.
  destruct (Z.ltb_spec (d_Index d) (Z.of_nat (length out))); [done|]. by rewrite list_insert_ge by lia.
Qed.

Lemma place_all_negative l out : Exists (fun d => d_Index d < 0) l -> exists e, place_all out l = Err e.
Proof.
  intros Hl. revert out. induction Hl as [d l Hd|d l _ IH]; intros out; cbn [place_all].
  - unfold place. rewrite (proj2 (Z.ltb_lt (d_Index d) 0)), (proj2 (Z.ltb_lt (d_Index d) (Z.of_nat (length out)))) by lia. by eexists.
  - destruct (place out d) as [out'|e]; [apply IH|by eexists].
Qed.

(** The vector of an index: that of its last item, or none. *)
Definition vector_of (i : nat) (l : list Datum) : list float64 :=
  match last (List.filter (fun d => bool_decide (d_Index d = Z.of_nat i)) l) with
  | Some d => elems (d_Embedding d) | None => [] end.

Lemma length_foldl_put l out : length (foldl put out l) = length out.
Proof. revert out. induction l as [|d l IH]; intros out; [done|]. cbn [foldl]. rewrite IH. apply length_insert. Qed.

Lemma foldl_put_lookup l n i : Forall (fun d => 0 <= d_Index d) l -> (i < n)%nat ->
  foldl put (repeat [] n) l !! i = Some (vector_of i l).
Proof.
  intros Hl Hi. induction l as [|d l IH] using rev_ind.
  - cbn. unfold vector_of. cbn. clear Hl. revert i Hi. induction n as [|n IH]; intros [|i] Hi; simpl; [lia|lia|done|apply IH; lia].
  - apply Forall_app in Hl as [Hl Hd]. apply Forall_cons in Hd as [Hd _].
    rewrite foldl_app. cbn [foldl]. unfold vector_of. rewrite List.filter_app. cbn [List.filter]. unfold put at 1.
    case_bool_decide as E.
    + rewrite E, Nat2Z.id, list_lookup_insert_eq; [by rewrite last_snoc|]. by rewrite length_foldl_put, repeat_length.
    + rewrite app_nil_r, list_lookup_insert_ne by lia. by apply IH.
Qed.

Lemma vector_of_unique l d : NoDup (d_Index <$> l) -> d ∈ l -> 0 <= d_Index d ->
  vector_of (Z.to_nat (d_Index d)) l = elems (d_Embedding d).
Proof.
  intros Hnd Hd Hpos. unfold vector_of. rewrite Z2Nat.id by done.
  assert (E : List.filter (fun x => bool_decide (d_Index x = d_Index d)) l = [d]); [|by rewrite E].
  induction l as [|x l IH]; [by apply not_elem_of_nil in Hd|]. apply NoDup_cons in Hnd as [Hx Hnd]. cbn [List.filter].
  apply elem_of_cons in Hd as [<-|Hd].
  - rewrite bool_decide_true by done. f_equal. apply filter_none, Forall_forall. intros y Hy. apply bool_decide_false.
    intros E. apply Hx. rewrite <-E. by apply list_elem_of_fmap_2.
  - rewrite bool_decide_false; [by apply IH|]. intros E. apply Hx. rewrite E. by apply list_elem_of_fmap_2.
Qed.

(** ** Properties *)

(** C19: the vectors of a batch are aligned with its texts.  However the provider
    orders its answer, the result has one vector for each text, and the text at
    [i] gets the vector of the (last) item with index [i], or none; items beyond
    the texts are dropped.  Only a negative index goes wrong: it panics. *)
Theorem EmbedBatch_aligned Do texts body c items :
  (forall req, Do req = Ok (200, body)) -> elems (decoded dec_data body nil_slice) = items ->
  (exists key, c = OpenAIClient Do key) \/ (exists ep key chat emb v, c = AzureOpenAIClient Do ep key chat emb v) ->
  if decide (Exists (fun d => d_Index d < 0) items) then exists e, EmbedBatch c texts = Err e
  else exists out, EmbedBatch c texts = Ok out /\ length out = length texts /\
    (forall i, (i < length texts)%nat -> out !! i = Some (vector_of i items)) /\
    (NoDup (d_Index <$> items) -> forall d, d ∈ items -> d_Index d < Z.of_nat (length texts) ->
       out !! Z.to_nat (d_Index d) = Some (elems (d_Embedding d))).
Proof.
  intros HDo Hitems Hc. assert (Hrun : EmbedBatch c texts = place_all (repeat [] (length texts)) items).
  { destruct Hc as [[key ->]|(ep & key & chat & emb & v & ->)]; cbn -[encode]; unfold post; rewrite HDo;
      cbn; unfold embed_batch_answer; by rewrite Hitems. }
  rewrite Hrun. case_decide as Hneg; [by apply place_all_negative|].
  apply not_Exists_Forall in Hneg; [|intros d; apply _].
  assert (Hpos : Forall (fun d => 0 <= d_Index d) items) by (eapply Forall_impl; [exact Hneg|simpl; lia]).
  eexists. split; [by apply place_all_ok|]. split; [by rewrite length_foldl_put, repeat_length|]. split.
  - intros i Hi. by apply foldl_put_lookup.
  - intros Hnd d Hd Hlt. rewrite Forall_forall in Hpos. pose proof (Hpos d Hd) as Hdp.
    rewrite foldl_put_lookup; [by rewrite vector_of_unique|by apply Forall_forall|lia].
Qed.

(** ** Examples *)

Module LlmSample.
(** The float32 of an integer. *)
Definition single (n : Z) : float64 := SpecFloat.binary_normalize 24 128 n 0 false.

(** Two items in the wrong order, and one too many. *)
Definition item (i : Z) (v : list Z) : json :=
  JObject [("index"%string, JNumber (bytes (Itoa i))); ("embedding"%string, JArray ((fun x => JNumber (bytes (Itoa x))) <$> v))].
Definition body : string := of_bytes (encode (JObject [("data"%string, JArray [item 1 [7]; item 0 [5; 6]; item 2 [9]])])).
Definition serve (req : http_request) : result (Z * string) := Ok (200, body).

Lemma EmbedBatch_aligned_witness :
  EmbedBatch (OpenAIClient serve "k") ["a"; "b"]%string = Ok [[single 5; single 6]; [single 7]].
Proof.
  pose proof (EmbedBatch_aligned serve ["a"; "b"]%string body (OpenAIClient serve "k") _ (fun _ => eq_refl) eq_refl
    (or_introl (ex_intro _ "k"%string eq_refl))) as H.
  destruct (decide _) as [Hn|_] in H; [exfalso; revert Hn; apply (bool_decide_unpack _); by vm_compute|].
  destruct H as (out & -> & Hlen & Hlook & _). f_equal. apply list_eq. intros [|[|i]].
  - rewrite Hlook by (vm_compute; lia). vm_compute. reflexivity.
  - rewrite Hlook by (vm_compute; lia). vm_compute. reflexivity.
  - apply lookup_ge_None. rewrite Hlen. simpl. lia.
Defined.
End LlmSample.
