(* ===== verification/Db.v ===== *)
(** The PostgreSQL side of the program: the tables of [migrations/*.sql] as
    lists of rows, the constraints the program's statements can violate, the
    row-level-security setting that [internal/repository/db.go] installs on
    every acquired connection ([internal/repository/tenant.go] carries it in
    the context), the texts a parameter can hold, and ORDER BY, the search
    operators and the walk of a vector index as interfaces. *)
From Stdlib Require Import Ascii String.
From S2P Require Import Prelude GoStd GoStrings Float64 Model.

Local Open Scope Z_scope.

(** ** ORDER BY

    PostgreSQL may return rows with equal sort keys in any order, so sorting is
    an interface: some permutation of the rows that the comparison orders. *)
Class OrderBy := {
  order_by {A : Type} : (A -> A -> bool) -> list A -> list A;
  order_by_perm {A : Type} (le : A -> A -> bool) l : order_by le l ≡ₚ l;
  order_by_sorted {A : Type} (le : A -> A -> bool) l :
    (forall x y z, le x y = true -> le y z = true -> le x z = true) ->
    (forall x y, le x y = true \/ le y x = true) ->
    StronglySorted (fun x y => le x y = true) (order_by le l);
}.

(** An implementation, for examples: merge sort. *)
Definition le_sort {A} (le : A -> A -> bool) (l : list A) : list A :=
  merge_sort (fun x y => Is_true (le x y)) l.

Definition merge_order_by : OrderBy.
Proof.
  refine {| order_by A le l := le_sort le l |}.
  - intros. apply merge_sort_Permutation.
  - intros A le l Htrans Htotal.
    assert (Hs : StronglySorted (fun x y => Is_true (le x y)) (le_sort le l)).
    { apply StronglySorted_merge_sort; hnf; intros; rewrite ?Is_true_true in *; eauto. }
    clear -Hs. induction Hs as [|x l' _ IH Hx]; constructor; [done|].
    eapply Forall_impl; [exact Hx|]. intros y Hy. by apply Is_true_true.
Defined.

(** LIMIT and OFFSET *)
Definition limit_rows {A} (n : Z) (l : list A) : list A := take (Z.to_nat n) l.
Definition offset_rows {A} (n : Z) (l : list A) : list A := drop (Z.to_nat n) l.

(** A LIMIT given as a parameter: a negative one is an error. *)
Definition checked_limit {A} (limit : Z) (l : list A) : result (list A) :=
  if limit <? 0 then Err "LIMIT must not be negative"%string else Ok (limit_rows limit l).

(** ** PostgreSQL's text and vector functions

    Full-text matching and ranking, trigram similarity, unaccent, the collation
    order and pgvector's cosine distance belong to PostgreSQL; only that the
    collation is a total order is used.  [vector_in] says whether pgvector accepts
    a text as a vector of the columns' 1536 dimensions.

    The HNSW indexes are approximate, and shared by the tenants of a table: a
    query ordered by [<=>] walks the index first and drops the rows its policy
    and its WHERE clause exclude from what the walk has reached.  [index_scan q
    column i] says whether the walk for [q] reaches row [i] of a table whose
    vectors are [column]; nothing is assumed of it. *)
Class PgSearch := {
  fts_match : string -> string -> bool;          (* to_tsvector(doc) @@ plainto_tsquery(q) *)
  ts_rank : string -> string -> float64;
  trgm_match : string -> string -> bool;         (* name % q *)
  unaccent : string -> string;
  cosine_distance : list float64 -> list float64 -> float64;   (* <=> *)
  vector_in : list float64 -> bool;
  index_scan : list float64 -> list (option (list float64)) -> nat -> bool;
  text_le : string -> string -> bool;
  text_le_trans x y z : text_le x y = true -> text_le y z = true -> text_le x z = true;
  text_le_total x y : text_le x y = true \/ text_le y x = true;
}.

(** An instance for examples. *)
Definition toy_search : PgSearch.
Proof.
  refine {| fts_match _ _ := false; ts_rank _ _ := f_of_Z 0; trgm_match _ _ := false; unaccent s := s;
            cosine_distance _ _ := f_of_Z 0; vector_in v := negb (bool_decide (v = [])); index_scan _ _ _ := true;
            text_le x y := Nat.leb (String.length x) (String.length y) |}.
  - intros x y z. rewrite !Nat.leb_le. lia.
  - intros x y. rewrite !Nat.leb_le. lia.
Defined.

Definition vector_error : error := "invalid vector"%string.
Definition vector_param `{PgSearch} (v : list float64) : result unit :=
  if vector_in v then Ok tt else Err vector_error.

(** The rows of a list whose positions satisfy [keep]. *)
Fixpoint keep_at {A} (keep : nat -> bool) (l : list A) : list A :=
  match l with
  | [] => []
  | x :: l' => (if keep 0%nat then [x] else []) ++ keep_at (fun i => keep (S i)) l'
  end.

(** The rows of a table the walk for [q] reaches, by their vectors. *)
Definition reached_rows `{PgSearch} {A} (vec : A -> option (list float64)) (q : list float64) (table : list A) : list A :=
  keep_at (index_scan q (vec <$> table)) table.

(** ** Text parameters

    A text parameter PostgreSQL cannot hold fails its statement. *)
Definition encoding_error : error := "invalid byte sequence for encoding UTF8"%string.
Definition text_params (l : list string) : result unit :=
  if decide (Forall storable l) then Ok tt else Err encoding_error.

Lemma text_params_Ok l : Forall storable l -> text_params l = Ok tt.
Proof. intros Hl. unfold text_params. by rewrite decide_True. Qed.
Lemma text_params_Ok_inv l u : text_params l = Ok u -> Forall storable l.
Proof. unfold text_params. by case_decide. Qed.
Lemma text_params_bind {A} l (k : result A) :
  (_ ← text_params l; k) = if decide (Forall storable l) then k else Err encoding_error.
Proof. unfold text_params. by case_decide. Qed.

(** ** Tables *)

(** [title] has no NOT NULL constraint and no default. *)
Record SessionRow := mkSessionRow {
  s_id : uuid;
  s_tenant : uuid;
  s_user : uuid;
  s_title : option string;
  s_meta : string;
  s_created : time;
  s_updated : time;
}.

Record MessageRow := mkMessageRow {
  m_msg : Message;
  m_embedding : option (list float64);
}.

Record EntityRow := mkEntityRow {
  em_id : uuid;
  em_tenant : uuid;
  em_user : uuid;
  em_session : uuid;
  em_message : uuid;
  em_name : string;
  em_type : string;
  em_attr : string;
  em_value : list Z;                 (* value_encrypted *)
  em_hash : string;                  (* value_hash *)
  em_valid_from : time;
  em_valid_until : option time;
  em_superseded_by : option uuid;
  em_confidence : float64;
  em_quote : string;
  em_embedding : option (list float64);
  em_created : time;
}.

Record MemoryRow := mkMemoryRow {
  mem_rec : MemoryRecord;
  mem_tenant : uuid;
  mem_user : uuid;
  mem_session : option uuid;
  mem_embedding : option (list float64);
}.

Record ExperienceRow := mkExperienceRow {
  xp_exp : Experience;
  xp_embedding : option (list float64);
  xp_sources : list uuid;            (* source_message_ids *)
}.

Record DB := mkDB {
  sessions : list SessionRow;
  messages : list MessageRow;
  entity_mentions : list EntityRow;
  memory_records : list MemoryRow;
  experiences : list ExperienceRow;
  llm_usage : list LLMUsage;
}.

Definition empty_db : DB := mkDB [] [] [] [] [] [].

Definition set_sessions f d := mkDB (f (sessions d)) (messages d) (entity_mentions d) (memory_records d) (experiences d) (llm_usage d).
Definition set_messages f d := mkDB (sessions d) (f (messages d)) (entity_mentions d) (memory_records d) (experiences d) (llm_usage d).
Definition set_entity_mentions f d := mkDB (sessions d) (messages d) (f (entity_mentions d)) (memory_records d) (experiences d) (llm_usage d).
Definition set_memory_records f d := mkDB (sessions d) (messages d) (entity_mentions d) (f (memory_records d)) (experiences d) (llm_usage d).
Definition set_experiences f d := mkDB (sessions d) (messages d) (entity_mentions d) (memory_records d) (f (experiences d)) (llm_usage d).
Definition set_llm_usage f d := mkDB (sessions d) (messages d) (entity_mentions d) (memory_records d) (experiences d) (f (llm_usage d)).

(** ** The tenant of a connection *)

(** A Go context, as far as the repositories read it: the value stored under
    [tenantIDKey], if any, whether it is done (cancelled or past its deadline),
    and whether the connection the pool gives for it has carried a tenant
    before, which matters for statements without a tenant only. *)
Record context := mkContext {
  ctx_tenant : option string;
  ctx_Done : bool;
  ctx_used : bool;
}.
Definition Background : context := mkContext None false false.
Definition WithTenantID (ctx : context) (tenantID : string) : context :=
  mkContext (Some tenantID) (ctx_Done ctx) (ctx_used ctx).
Definition TenantIDFromCtx (ctx : context) : string := default EmptyString (ctx_tenant ctx).

Definition live (ctx : context) : Prop := ctx_Done ctx = false.
#[export] Instance live_dec ctx : Decision (live ctx).
Proof. unfold live. apply _. Defined.

Definition syntax_error : error := "invalid input syntax for type uuid"%string.

Section Connection.
Context `{UuidLib}.

(** A text parameter compared with, or inserted into, a UUID column. *)
Definition to_uuid (s : string) : result uuid :=
  match pg_uuid s with Some u => Ok u | None => Err syntax_error end.

(** The pool gives no connection to a context that is done.  The hook
    [BeforeAcquire] puts the context's tenant into the setting app.tenant_id of
    the connection, or resets it: a setting that was never made reads as NULL
    ([None]), one that was made and reset as the empty text.  A connection whose
    set_config fails is not given out. *)
Definition Acquire (ctx : context) : result (option string) :=
  if ctx_Done ctx then Err "context canceled"%string
  else
    let tid := TenantIDFromCtx ctx in
    if decide (tid <> EmptyString) then _ ← text_params [tid]; Ok (Some tid)
    else Ok (if ctx_used ctx then Some EmptyString else None).

(** The policies cast the setting to a UUID when a statement runs: NULL is no
    tenant, and a text that is not a UUID, the empty one included, an error. *)
Definition app_tenant (setting : option string) : result (option uuid) :=
  match setting with None => Ok None | Some s => Some <$> to_uuid s end.

(** What a statement that reports its errors starts from. *)
Definition BeforeAcquire (ctx : context) : result (option uuid) := setting ← Acquire ctx; app_tenant setting.

(** Query followed by a loop over rows.Next() that does not look at
    rows.Err(): an error of the statement itself reads as the end of the rows
    (each statement here sorts first, so no row precedes it). *)
Definition Query {A} (ctx : context) (q : option uuid -> result (list A)) : result (list A) :=
  setting ← Acquire ctx;
  Ok (match (tid ← app_tenant setting; q tid) with Ok rows => rows | Err _ => [] end).

Lemma to_uuid_canonical u : canonical u -> to_uuid u = Ok u.
Proof. intros Hu. unfold to_uuid. by rewrite (pg_uuid_canonical u u). Qed.

Lemma to_uuid_storable s u : to_uuid s = Ok u -> storable s.
Proof. unfold to_uuid. destruct (pg_uuid s) eqn:E; [|done]. intros _. by eapply pg_uuid_storable. Qed.

Lemma to_uuid_empty u : to_uuid EmptyString <> Ok u.
Proof. unfold to_uuid. by rewrite pg_uuid_empty. Qed.

(** A connection acquired for a tenant is that tenant's. *)
Lemma Acquire_tenant ctx s o : ctx_tenant ctx = Some s -> Acquire ctx = Ok o ->
  o = Some s \/ s = EmptyString /\ o = None.
Proof.
  unfold Acquire, TenantIDFromCtx. intros ->. destruct (ctx_Done ctx); [done|]. simpl. rewrite text_params_bind.
  repeat case_decide; try done; [intros [= <-]; by left|].
  destruct (decide (s = EmptyString)) as [->|]; [|done]. destruct (ctx_used ctx); intros [= <-]; auto.
Qed.

Lemma Acquire_canonical ctx s : canonical s -> ctx_tenant ctx = Some s ->
  (exists e, Acquire ctx = Err e) \/ Acquire ctx = Ok (Some s).
Proof.
  intros Hs Hctx. destruct (Acquire ctx) as [o|e] eqn:E; [right|left; by eexists].
  apply (Acquire_tenant _ s) in E as [->|[-> _]]; [done| |done]. by destruct (canonical_not_empty EmptyString).
Qed.

Lemma Acquire_live ctx u : live ctx -> canonical u -> Acquire (WithTenantID ctx u) = Ok (Some u).
Proof.
  unfold live, Acquire, WithTenantID, TenantIDFromCtx. simpl. intros -> Hu.
  rewrite decide_True by by apply canonical_not_empty.
  rewrite text_params_Ok; [done|]. constructor; [by apply canonical_storable|constructor].
Qed.

Lemma app_tenant_canonical u : canonical u -> app_tenant (Some u) = Ok (Some u).
Proof. intros Hu. unfold app_tenant. by rewrite to_uuid_canonical. Qed.

(** What a statement run for a tenant's context reads as the setting: the
    tenant, when its text is one. *)
Lemma BeforeAcquire_tenant_id ctx s o : ctx_tenant ctx = Some s -> BeforeAcquire ctx = Ok o ->
  (o = None /\ s = EmptyString) \/ exists u, to_uuid s = Ok u /\ o = Some u.
Proof.
  intros Hs. unfold BeforeAcquire. intros (set & [->|[-> ->]]%(Acquire_tenant _ _ _ Hs) & Ho)%result_bind_Ok; simpl in Ho.
  - right. destruct (to_uuid s) as [u|]; [|done]. injection Ho as <-. eauto.
  - injection Ho as <-. by left.
Qed.

Lemma BeforeAcquire_canonical ctx u : live ctx -> canonical u -> BeforeAcquire (WithTenantID ctx u) = Ok (Some u).
Proof. intros Hl Hu. unfold BeforeAcquire. rewrite Acquire_live by done. by apply app_tenant_canonical. Qed.

Lemma Query_canonical {A} ctx u (q : option uuid -> result (list A)) : live ctx -> canonical u ->
  Query (WithTenantID ctx u) q = Ok (match q (Some u) with Ok rows => rows | Err _ => [] end).
Proof.
  intros Hl Hu. unfold Query. rewrite Acquire_live by done. cbn [mbind result_bind].
  by rewrite app_tenant_canonical.
Qed.
End Connection.

(** The policy [tenant_id = current_setting('app.tenant_id', true)::UUID]. *)
Definition policy (tid : option uuid) (tenant : uuid) : bool := bool_decide (tid = Some tenant).

(** The rows a policy lets a statement see. *)
Definition visible {A} (tid : option uuid) (tenant : A -> uuid) (l : list A) : list A :=
  List.filter (fun r => policy tid (tenant r)) l.

(** An UPDATE under a policy: rows out of its sight are left alone. *)
Definition update_visible {A} (tid : option uuid) (tenant : A -> uuid)
    (p : A -> bool) (f : A -> A) (l : list A) : list A :=
  (fun r => if policy tid (tenant r) && p r then f r else r) <$> l.

(** The tables FORCE ROW LEVEL SECURITY is set on, seen by a tenant. *)
Definition m_tenant (r : MessageRow) : uuid := msg_TenantID (m_msg r).

(** ** Lemmas *)

Lemma order_by_In `{OrderBy} {A} le (l : list A) x : x ∈ order_by le l <-> x ∈ l.
Proof. by rewrite (order_by_perm le l). Qed.

Lemma elem_of_limit {A} n (l : list A) x : x ∈ limit_rows n l -> x ∈ l.
Proof. unfold limit_rows. intros Hx. eapply elem_of_take in Hx as (i & Hi & _).
  by eapply list_elem_of_lookup_2. Qed.

Lemma elem_of_visible {A} tid (tenant : A -> uuid) l x :
  x ∈ visible tid tenant l <-> x ∈ l /\ tid = Some (tenant x).
Proof. unfold visible, policy. by rewrite elem_of_filter_bool, bool_decide_eq_true. Qed.

Lemma visible_app {A} tid (tenant : A -> uuid) l k :
  visible tid tenant (l ++ k) = visible tid tenant l ++ visible tid tenant k.
Proof. apply List.filter_app. Qed.

(** A query whose WHERE clause already compares the tenant does not depend on
    the policy, once the connection carries that tenant. *)
Lemma filter_visible {A} t (tenant : A -> uuid) (p : A -> bool) l :
  List.filter (fun r => bool_decide (tenant r = t) && p r) (visible (Some t) tenant l) =
  List.filter (fun r => bool_decide (tenant r = t) && p r) l.
Proof.
  unfold visible. induction l as [|x l IH]; simpl; [done|]. unfold policy at 1.
  case_bool_decide as Ht; simpl; rewrite IH; [done|].
  rewrite bool_decide_false by congruence. done.
Qed.

(** *** The rows a walk reaches *)

Lemma keep_at_sublist {A} keep (l : list A) : keep_at keep l `sublist_of` l.
Proof.
  revert keep. induction l as [|x l IH]; intros keep; [constructor|]. simpl.
  destruct (keep 0%nat); simpl; by constructor.
Qed.

Lemma keep_at_all {A} keep (l : list A) : (forall i, (i < length l)%nat -> keep i = true) -> keep_at keep l = l.
Proof.
  revert keep. induction l as [|x l IH]; intros keep Hk; [done|]. simpl. rewrite Hk by (simpl; lia). simpl. f_equal.
  apply IH. intros i Hi. apply Hk. simpl. lia.
Qed.

(** Rows that a tenant cannot tell apart, reached alike. *)
Lemma keep_at_visible {A} keep tid (tenant : A -> uuid) l k :
  Forall2 (fun x y => tenant x = tenant y /\ (tid = Some (tenant x) -> x = y)) l k ->
  visible tid tenant (keep_at keep l) = visible tid tenant (keep_at keep k).
Proof.
  intros Hlk. revert keep. induction Hlk as [|x y l k [Ht Hxy] _ IH]; intros keep; [done|]. simpl.
  unfold visible in *. rewrite !List.filter_app, IH. f_equal. destruct (keep 0%nat); [|done]. simpl.
  unfold policy. rewrite <-Ht. case_bool_decide as E; [|done]. by rewrite (Hxy E).
Qed.

Lemma reached_sublist `{PgSearch} {A} vec q (l : list A) : reached_rows vec q l `sublist_of` l.
Proof. apply keep_at_sublist. Qed.

Lemma elem_of_reached `{PgSearch} {A} vec q (l : list A) x : x ∈ reached_rows vec q l -> x ∈ l.
Proof. intros Hx. eapply elem_of_sublist; [done|apply reached_sublist]. Qed.

(** *** Sorting when the keys decide *)

(** [le] never calls two different rows of [l] equal. *)
Definition antisym_on {A} (le : A -> A -> bool) (l : list A) : Prop :=
  forall x y, x ∈ l -> y ∈ l -> le x y = true -> le y x = true -> x = y.

Section Sorting.
Context `{OrderBy} {A : Type} (le : A -> A -> bool).
Hypothesis le_trans : forall x y z, le x y = true -> le y z = true -> le x z = true.
Hypothesis le_total : forall x y, le x y = true \/ le y x = true.

Lemma order_by_unique l k : antisym_on le k -> l ≡ₚ k -> StronglySorted (fun x y => le x y = true) l ->
  l = order_by le k.
Proof.
  intros Hanti Hperm Hs.
  apply (StronglySorted_unique_strong (fun x y => le x y = true)).
  - intros x y Hx Hy. apply Hanti; [by rewrite <-Hperm|by rewrite <-(order_by_perm le k)].
  - done.
  - by apply order_by_sorted.
  - by rewrite order_by_perm.
Qed.

Lemma antisym_on_filter (p : A -> bool) l : antisym_on le l -> antisym_on le (List.filter p l).
Proof. intros Hl x y [Hx _]%elem_of_filter_bool [Hy _]%elem_of_filter_bool. by apply Hl. Qed.

(** Selecting and then sorting is sorting and then selecting. *)
Lemma order_by_filter p l : antisym_on le l ->
  order_by le (List.filter p l) = List.filter p (order_by le l).
Proof.
  intros Hl. symmetry. apply order_by_unique.
  - by apply antisym_on_filter.
  - apply filter_Permutation, order_by_perm.
  - by apply StronglySorted_filter, order_by_sorted.
Qed.
End Sorting.
