(* ===== verification/MessageRepo.v ===== *)
(** Messages and sessions: [internal/repository/message.go] and
    [session.go], and the message queries of [entity.go].  Each statement is a
    function on the tables, run under the connection's tenant; a function that
    runs two statements keeps the first one's effect when the second fails. *)
From Stdlib Require Import Ascii String.
From S2P Require Import Prelude GoStd GoStrings Float64 Model Db.

Local Open Scope Z_scope.

Definition rls_violation : error := "new row violates row-level security policy"%string.
Definition duplicate_key : error := "duplicate key value violates unique constraint"%string.
Definition fk_violation : error := "violates foreign key constraint"%string.
Definition check_violation : error := "new row violates check constraint"%string.

(** The CHECK on messages.role. *)
Definition valid_roles : list string := ["user"; "assistant"; "system"]%string.

(** ORDER BY created_at DESC, and ORDER BY updated_at DESC *)
Definition newest_first (a b : Message) : bool := msg_CreatedAt b <=? msg_CreatedAt a.
Definition recent_first (a b : SessionRow) : bool := s_updated b <=? s_updated a.

Section Repo.
Context `{UuidLib, OrderBy, PgSearch}.

(** *** MessageRepository *)

(** INSERT INTO sessions ... ON CONFLICT (id) DO NOTHING *)
Definition ensure_session (tid : option uuid) (msg : Message) (now : time) (d : DB) : DB * result unit :=
  if negb (policy tid (msg_TenantID msg)) then (d, Err rls_violation)
  else if existsb (fun s => bool_decide (s_id s = msg_SessionID msg)) (sessions d) then (d, Ok tt)
  else (set_sessions (fun l => l ++ [mkSessionRow (msg_SessionID msg) (msg_TenantID msg) (msg_UserID msg)
          None "{}"%string now now]) d, Ok tt).

(** INSERT INTO messages ...; created_at is the column's default.  The session's
    row is there already when a role or content PostgreSQL cannot hold fails the
    statement. *)
Definition insert_message_row (tid : option uuid) (msg : Message) (now : time) (d : DB) : DB * result unit :=
  if decide (~ Forall storable [msg_Role msg; msg_Content msg]) then (d, Err encoding_error)
  else if negb (policy tid (msg_TenantID msg)) then (d, Err rls_violation)
  else if negb (bool_decide (msg_Role msg ∈ valid_roles)) then (d, Err check_violation)
  else if existsb (fun r => bool_decide (msg_ID (m_msg r) = msg_ID msg)) (messages d) then
    (d, Err duplicate_key)
  else if negb (existsb (fun s => bool_decide (s_id s = msg_SessionID msg)) (sessions d)) then
    (d, Err fk_violation)
  else (set_messages (fun l => l ++ [mkMessageRow (mkMessage (msg_ID msg) (msg_TenantID msg)
          (msg_SessionID msg) (msg_UserID msg) (msg_Role msg) (msg_Content msg) (msg_TokenCount msg) now) None]) d,
        Ok tt).

Definition InsertMessage (ctx : context) (msg : Message) (now : time) (d : DB) : DB * result unit :=
  match BeforeAcquire ctx with
  | Err e => (d, Err e)
  | Ok tid =>
    let '(d1, r) := ensure_session tid msg now d in
    match r with
    | Err e => (d1, Err e)
    | Ok _ => insert_message_row tid msg now d1
    end
  end.

(** UPDATE messages SET embedding = $1 WHERE id = $2 *)
Definition UpdateEmbedding (ctx : context) (messageID : string) (embedding : list float64) (d : DB)
  : DB * result unit :=
  match (tid ← BeforeAcquire ctx; id ← to_uuid messageID; _ ← vector_param embedding; Ok (tid, id)) with
  | Err e => (d, Err e)
  | Ok (tid, id) =>
    (set_messages (update_visible tid m_tenant (fun r => bool_decide (msg_ID (m_msg r) = id))
       (fun r => mkMessageRow (m_msg r) (Some embedding))) d, Ok tt)
  end.

(** The messages a connection sees that satisfy a WHERE clause. *)
Definition select_messages (tid : option uuid) (p : Message -> bool) (d : DB) : list Message :=
  List.filter p (m_msg <$> visible tid m_tenant (messages d)).

Definition GetRecent (ctx : context) (tenantID userID : string) (limit : Z) (d : DB) : result (list Message) :=
  Query ctx (fun tid => t ← to_uuid tenantID; u ← to_uuid userID;
    checked_limit limit (order_by newest_first
      (select_messages tid (fun m => bool_decide (msg_TenantID m = t) && bool_decide (msg_UserID m = u)) d))).

(** The page size GetSessionHistory uses. *)
Definition clamp_limit (limit : Z) : Z := if (limit <=? 0) || (100 <? limit) then 50 else limit.

Definition in_session (t s : uuid) (m : Message) : bool :=
  bool_decide (msg_TenantID m = t) && bool_decide (msg_SessionID m = s).

(** (SELECT created_at FROM messages WHERE id = $3 AND tenant_id = $1) *)
Definition created_at_of (tid : option uuid) (t b : uuid) (d : DB) : option time :=
  msg_CreatedAt <$> head (select_messages tid
    (fun m => bool_decide (msg_ID m = b) && bool_decide (msg_TenantID m = t)) d).

Definition GetSessionHistory (ctx : context) (tenantID sessionID : string) (limit : Z) (beforeID : string)
    (d : DB) : result (list Message) :=
  let limit := clamp_limit limit in
  Query ctx (fun tid => t ← to_uuid tenantID; s ← to_uuid sessionID;
    if decide (beforeID = EmptyString) then
      Ok (limit_rows limit (order_by newest_first (select_messages tid (in_session t s) d)))
    else
      b ← to_uuid beforeID;
      match created_at_of tid t b d with
      | None => Ok []                  (* created_at < NULL is not true *)
      | Some ts =>
        Ok (limit_rows limit (order_by newest_first
              (select_messages tid (fun m => in_session t s m && (msg_CreatedAt m <? ts)) d)))
      end).

(** *** The message queries of EntityRepository *)

Definition of_user_session (t u s : uuid) (m : Message) : bool :=
  bool_decide (msg_TenantID m = t) && bool_decide (msg_UserID m = u) && bool_decide (msg_SessionID m = s).

Definition GetRecentMessages (ctx : context) (tenantID userID sessionID : string) (limit : Z) (d : DB)
  : result (list Message) :=
  Query ctx (fun tid => t ← to_uuid tenantID; u ← to_uuid userID; s ← to_uuid sessionID;
    checked_limit limit (order_by newest_first (select_messages tid (of_user_session t u s) d))).

Definition GetRecentMessagesUntil (ctx : context)
    (tenantID userID sessionID anchorMessageID : string) (limit : Z) (d : DB) : result (list Message) :=
  if decide (anchorMessageID = EmptyString) then GetRecentMessages ctx tenantID userID sessionID limit d
  else
    match
      tid ← BeforeAcquire ctx; a ← to_uuid anchorMessageID; t ← to_uuid tenantID;
      Ok (created_at_of tid t a d)
    with
    | Err _ | Ok None => GetRecentMessages ctx tenantID userID sessionID limit d
    | Ok (Some anchorTime) =>
      Query ctx (fun tid => t ← to_uuid tenantID; u ← to_uuid userID; s ← to_uuid sessionID;
        checked_limit limit (order_by newest_first (select_messages tid
          (fun m => of_user_session t u s m && (msg_CreatedAt m <=? anchorTime)) d)))
    end.

Definition GetMessage (ctx : context) (messageID : string) (d : DB) : result Message :=
  tid ← BeforeAcquire ctx; id ← to_uuid messageID;
  match head (select_messages tid (fun m => bool_decide (msg_ID m = id)) d) with
  | Some m => Ok m
  | None => Err "no rows in result set"%string
  end.

(** *** SessionRepository *)

Definition Create (ctx : context) (s : Session) (now : time) (d : DB) : DB * result unit :=
  match BeforeAcquire ctx with
  | Err e => (d, Err e)
  | Ok tid =>
    if decide (~ storable (ses_Title s)) then (d, Err encoding_error)
    else if negb (policy tid (ses_TenantID s)) then (d, Err rls_violation)
    else if existsb (fun r => bool_decide (s_id r = ses_ID s)) (sessions d) then (d, Err duplicate_key)
    else (set_sessions (fun l => l ++ [mkSessionRow (ses_ID s) (ses_TenantID s) (ses_UserID s)
            (Some (ses_Title s)) (ses_Meta s) now now]) d, Ok tt)
  end.

Definition session_limit (limit : Z) : Z := if (limit <=? 0) || (100 <? limit) then 20 else limit.

(** rows.Scan into a model.Session: a NULL title does not fit a Go string. *)
Definition scan_session (r : SessionRow) : result Session :=
  match s_title r with
  | Some title => Ok (mkSession (s_id r) (s_tenant r) (s_user r) title (s_meta r) (s_created r) (s_updated r))
  | None => Err "cannot scan NULL into *string"%string
  end.

(** The scan loop of a query: the first error ends it. *)
Fixpoint scan_all {A B} (scan : A -> result B) (rows : list A) : result (list B) :=
  match rows with
  | [] => Ok []
  | r :: rows' => x ← scan r; xs ← scan_all scan rows'; Ok (x :: xs)
  end.

Definition List (ctx : context) (tenantID userID : string) (limit offset : Z) (d : DB) : result (list Session) :=
  let limit := session_limit limit in
  rows ← Query ctx (fun tid => t ← to_uuid tenantID; u ← to_uuid userID;
    if offset <? 0 then Err "OFFSET must not be negative"%string else
    Ok (limit_rows limit (offset_rows offset (order_by recent_first
          (List.filter (fun s => bool_decide (s_tenant s = t) && bool_decide (s_user s = u))
             (visible tid s_tenant (sessions d)))))));
  scan_all scan_session rows.

(** DELETE FROM sessions; the messages of a deleted session go with it
    (ON DELETE CASCADE, which no policy restricts), and the statement fails
    when a fact still refers to one of them (entity_mentions.message_id). *)
Definition Delete (ctx : context) (tenantID sessionID : string) (d : DB) : DB * result bool :=
  match (tid ← BeforeAcquire ctx; s ← to_uuid sessionID; t ← to_uuid tenantID; Ok (tid, s, t)) with
  | Err e => (d, Err e)
  | Ok (tid, s, t) =>
    let doomed r := policy tid (s_tenant r) && bool_decide (s_id r = s) && bool_decide (s_tenant r = t) in
    if existsb doomed (sessions d) then
      let gone (r : MessageRow) := bool_decide (msg_SessionID (m_msg r) = s) in
      let referenced r := existsb (fun e => bool_decide (em_message e = msg_ID (m_msg r))) (entity_mentions d) in
      if existsb (fun r => gone r && referenced r) (messages d) then (d, Err fk_violation)
      else (set_messages (List.filter (fun r => negb (gone r)))
             (set_sessions (List.filter (fun r => negb (doomed r))) d), Ok true)
    else (d, Ok false)
  end.
End Repo.

(** ** Lemmas *)

Lemma newest_first_trans x y z :
  newest_first x y = true -> newest_first y z = true -> newest_first x z = true.
Proof. unfold newest_first. lia. Qed.
Lemma newest_first_total x y : newest_first x y = true \/ newest_first y x = true.
Proof. unfold newest_first. lia. Qed.
#[export] Hint Resolve newest_first_trans newest_first_total : cortexa.

Lemma clamp_limit_range limit : 1 <= clamp_limit limit <= 100.
Proof. unfold clamp_limit. destruct (_ || _) eqn:E; lia. Qed.

Lemma clamp_limit_id limit : 1 <= limit <= 100 -> clamp_limit limit = limit.
Proof. intros. unfold clamp_limit. destruct (_ || _) eqn:E; lia. Qed.

(** The messages of a session and the order they are listed in. *)
Definition session_messages (t s : uuid) (d : DB) : list Message :=
  List.filter (in_session t s) (m_msg <$> messages d).

Lemma select_in_session t s p d :
  select_messages (Some t) (fun m => in_session t s m && p m) d =
  List.filter p (session_messages t s d).
Proof.
  unfold select_messages, session_messages, visible, policy, m_tenant.
  induction (messages d) as [|r l IH]; [done|]. simpl.
  unfold in_session at 2. case_bool_decide as Ht; simpl in *; case_bool_decide; simplify_eq/=;
    rewrite ?IH; try done; unfold in_session at 1; repeat case_bool_decide; simpl; try done;
    repeat case_match; try done; by rewrite IH.
Qed.

Lemma select_in_session_all t s d :
  select_messages (Some t) (in_session t s) d = session_messages t s d.
Proof.
  transitivity (select_messages (Some t) (fun m => in_session t s m && true) d).
  - unfold select_messages. induction (m_msg <$> _) as [|m l IH]; simpl; [done|].
    by rewrite andb_true_r, IH.
  - rewrite select_in_session. by induction (session_messages t s d) as [|m l IH]; simpl; congruence.
Qed.

(** *** Pages of a session's history *)

Definition unique_ids (d : DB) : Prop := NoDup (msg_ID ∘ m_msg <$> messages d).
Definition distinct_times (l : list Message) : Prop := NoDup (msg_CreatedAt <$> l).

Lemma distinct_times_antisym l : distinct_times l -> antisym_on newest_first l.
Proof.
  unfold distinct_times. intros Hnd x y [i Hi]%list_elem_of_lookup [j Hj]%list_elem_of_lookup Hxy Hyx.
  assert (i = j); [|congruence]. eapply NoDup_lookup; [exact Hnd|..].
  - rewrite list_lookup_fmap, Hi. done.
  - rewrite list_lookup_fmap, Hj. simpl. f_equal. unfold newest_first in *. lia.
Qed.

Lemma created_at_of_unique t m d : unique_ids d -> m ∈ m_msg <$> messages d -> msg_TenantID m = t ->
  created_at_of (Some t) t (msg_ID m) d = Some (msg_CreatedAt m).
Proof.
  unfold unique_ids, created_at_of, select_messages, visible, policy, m_tenant.
  intros Hu Hm Ht. rewrite list_fmap_compose in Hu.
  revert Hu Hm. generalize (messages d) as l. induction l as [|r l IH]; intros Hu Hm; simpl in *.
  - by apply not_elem_of_nil in Hm.
  - apply NoDup_cons in Hu as [Hr Hu]. apply elem_of_cons in Hm as [->|Hm].
    + rewrite Ht, bool_decide_true by done. simpl. rewrite !bool_decide_true by done. done.
    + case_bool_decide; [|by apply IH]. simpl.
      rewrite bool_decide_false; [by apply IH|].
      intros E. apply Hr. rewrite E. by apply list_elem_of_fmap_2.
Qed.

Section History.
Context `{UuidLib, OrderBy}.

(** A session's messages in the order the API shows them. *)
Definition history (t s : uuid) (d : DB) : list Message :=
  order_by newest_first (session_messages t s d).

Lemma history_sorted t s d : StronglySorted (fun x y => newest_first x y = true) (history t s d).
Proof. apply order_by_sorted; eauto with cortexa. Qed.

Lemma distinct_times_perm l k : l ≡ₚ k -> distinct_times l -> distinct_times k.
Proof. unfold distinct_times. by intros ->. Qed.

Lemma history_In t s d m : m ∈ history t s d -> m ∈ m_msg <$> messages d /\ in_session t s m = true.
Proof. unfold history. rewrite order_by_In. apply elem_of_filter_bool. Qed.

Lemma GetSessionHistory_first ctx t s limit d : live ctx -> canonical t -> canonical s ->
  GetSessionHistory (WithTenantID ctx t) t s limit EmptyString d =
  Ok (limit_rows (clamp_limit limit) (history t s d)).
Proof.
  intros Hlive Ht Hs. unfold GetSessionHistory. rewrite Query_canonical, (to_uuid_canonical t), (to_uuid_canonical s) by done.
  cbn [mbind result_bind]. rewrite decide_True by done.
  unfold history. by rewrite select_in_session_all.
Qed.

End History.

(** *** Following the cursor *)

(** A client that asks for page after page, each time with the last message it
    has as [before_id], until a page is empty: the pages it reads. *)
Fixpoint walk `{UuidLib, OrderBy} (fuel : nat) (ctx : context) (t s : string) (limit : Z) (before : string) (d : DB)
  : result (list (list Message)) :=
  match fuel with
  | O => Ok []
  | S fuel =>
    page ← GetSessionHistory ctx t s limit before d;
    match last page with
    | None => Ok []
    | Some m => rest ← walk fuel ctx t s limit (msg_ID m) d; Ok (page :: rest)
    end
  end.

(** Messages older than the cursor's, and those as old as the last message of a
    full page. *)
Definition older (ts : option time) (m : Message) : bool :=
  match ts with None => true | Some ts => msg_CreatedAt m <? ts end.
Definition tied (limit : Z) (pages : list (list Message)) (m : Message) : Prop :=
  exists page c, page ∈ pages /\ length page = Z.to_nat (clamp_limit limit) /\ last page = Some c /\
    msg_CreatedAt c = msg_CreatedAt m.

Section Pages.
Context `{OrderBy}.
Local Abbreviation sorted := (StronglySorted (fun x y => newest_first x y = true)).

Lemma last_of_page (page rest : list Message) c : sorted (page ++ rest) -> last page = Some c ->
  Forall (fun m => msg_CreatedAt c <= msg_CreatedAt m) page /\ Forall (fun m => msg_CreatedAt m <= msg_CreatedAt c) rest.
Proof.
  intros Hs (p & ->)%last_Some. rewrite <-app_assoc in Hs. split.
  - apply Forall_app. split; [|by repeat constructor]. apply Forall_forall. intros m Hm.
    pose proof (StronglySorted_app_1_elem_of _ _ _ m c Hs Hm ltac:(set_solver)) as Hle. unfold newest_first in Hle. lia.
  - apply StronglySorted_app in Hs as (_ & _ & Hs). simpl in Hs. apply StronglySorted_inv in Hs as [_ Hs].
    eapply Forall_impl; [exact Hs|]. unfold newest_first. simpl. lia.
Qed.

(** What is left after a page that ends in [c]: the older messages, and those
    tied with [c]. *)
Lemma page_split ts n l c : let h := order_by newest_first (List.filter (older ts) l) in
  last (take n h) = Some c ->
  exists behind, List.filter (older ts) l ≡ₚ (take n h ++ List.filter (older (Some (msg_CreatedAt c))) l) ++ behind /\
    Forall (fun m => msg_CreatedAt c = msg_CreatedAt m) behind /\ (behind <> [] -> length (take n h) = n) /\
    Forall (fun m => msg_CreatedAt c <= msg_CreatedAt m) (take n h) /\ sorted (take n h) /\ c ∈ l.
Proof.
  intros h Hl. assert (Hs : sorted (take n h ++ drop n h)) by (rewrite take_drop; apply order_by_sorted; eauto with cortexa).
  destruct (last_of_page _ _ _ Hs Hl) as [Hpage Hrest].
  assert (Hp : List.filter (older ts) l ≡ₚ take n h ++ drop n h) by (rewrite take_drop; symmetry; apply order_by_perm).
  set (p := older (Some (msg_CreatedAt c))).
  assert (Hc : c ∈ List.filter (older ts) l).
  { rewrite Hp, elem_of_app. left. apply last_Some in Hl as (q & ->). set_solver. }
  apply elem_of_filter_bool in Hc as [Hc Hts].
  exists (List.filter (fun m => negb (p m)) (drop n h)). split_and!; [| | |done|by apply StronglySorted_app in Hs as (_ & ? & _)|done].
  - assert (Hq : List.filter p l ≡ₚ List.filter p (drop n h)).
    { transitivity (List.filter p (List.filter (older ts) l)).
      - rewrite filter_filter_and. match goal with |- ?a ≡ₚ ?b => assert (a = b) as -> end; [|done].
        apply List.filter_ext. intros m. unfold p, older in *. destruct ts; lia.
      - rewrite (filter_Permutation p _ _ Hp), List.filter_app, (filter_none p (take n h)); [done|].
        eapply Forall_impl; [exact Hpage|]. unfold p, older. simpl. lia. }
    rewrite Hp, Hq, <-app_assoc. f_equiv. clear. induction (drop n h) as [|m k IH]; [done|]. simpl.
    destruct (p m); simpl; [by f_equiv|]. rewrite IH at 1. apply Permutation_middle.
  - apply Forall_forall. intros m [Hm Hn]%elem_of_filter_bool. eapply Forall_forall in Hrest; [|exact Hm].
    unfold p, older in Hn. simpl in Hrest. lia.
  - intros Hne. rewrite length_take. apply Nat.min_l. destruct (decide (n <= length h)%nat); [done|].
    rewrite drop_ge in Hne by lia. done.
Qed.
End Pages.

Section Walk.
Context `{UuidLib, OrderBy} (ctx : context) (t s : uuid) (limit : Z) (d : DB).
Context (Hlive : live ctx) (Ht : canonical t) (Hs : canonical s) (Hu : unique_ids d).
Context (Hc : Forall (fun m => canonical (msg_ID m)) (session_messages t s d)).
Local Abbreviation sorted := (StronglySorted (fun x y => newest_first x y = true)).

Definition page_after (ts : option time) : list Message :=
  limit_rows (clamp_limit limit) (order_by newest_first (List.filter (older ts) (session_messages t s d))).

Lemma GetSessionHistory_older m : m ∈ session_messages t s d ->
  GetSessionHistory (WithTenantID ctx t) t s limit (msg_ID m) d = Ok (page_after (Some (msg_CreatedAt m))).
Proof.
  intros Hm. pose proof (proj1 (Forall_forall _ _) Hc m Hm) as Hid. unfold GetSessionHistory.
  rewrite Query_canonical, !to_uuid_canonical by done.
  cbn [mbind result_bind]. rewrite decide_False by by apply canonical_not_empty.
  apply elem_of_filter_bool in Hm as [Hin Hsess].
  unfold in_session in Hsess. apply andb_true_iff in Hsess as [Htm _]. apply bool_decide_eq_true in Htm.
  rewrite created_at_of_unique by done. by rewrite select_in_session.
Qed.

Lemma walk_reads n before ts :
  GetSessionHistory (WithTenantID ctx t) t s limit before d = Ok (page_after ts) ->
  (length (List.filter (older ts) (session_messages t s d)) < n)%nat ->
  exists pages missed, walk n (WithTenantID ctx t) t s limit before d = Ok pages /\ sorted (concat pages) /\
    concat pages ++ missed ≡ₚ List.filter (older ts) (session_messages t s d) /\ Forall (tied limit pages) missed.
Proof.
  revert before ts. induction n as [|n IH]; intros before ts Hpage Hn; [lia|]. cbn [walk]. rewrite Hpage. cbn [mbind result_bind].
  pose proof (clamp_limit_range limit) as Hlim. unfold page_after, limit_rows.
  set (k := Z.to_nat (clamp_limit limit)). set (l := session_messages t s d) in *.
  destruct (last _) as [c|] eqn:El.
  - destruct (page_split ts k l c El) as (behind & Hp & Htie & Hfull & Hge & Hsort & Hin).
    set (page := take k _) in *. assert (Hpos : (0 < length page)%nat) by (destruct page; [done|simpl; lia]).
    destruct (IH (msg_ID c) (Some (msg_CreatedAt c))) as (pages & missed & -> & Hso & Hperm & Hmiss).
    + by apply GetSessionHistory_older.
    + apply Permutation_length in Hp. rewrite !length_app in Hp. fold l. lia.
    + exists (page :: pages), (missed ++ behind). split_and!; [done| | |].
      * simpl. apply StronglySorted_app. split_and!; [|done|done]. intros x y Hx Hy.
        eapply Forall_forall in Hge; [|exact Hx]. assert (Hy' : y ∈ concat pages ++ missed) by set_solver.
        rewrite Hperm in Hy'. apply elem_of_filter_bool in Hy' as [_ Hy']. unfold newest_first, older in *. simpl in *. lia.
      * fold l in Hperm. rewrite Hp, <-Hperm. simpl. by rewrite <-!app_assoc.
      * apply Forall_app. split.
        -- eapply Forall_impl; [exact Hmiss|]. intros m (q & c' & Hq & ?). exists q, c'. split; [by right|done].
        -- destruct (decide (behind = [])) as [->|Hne]; [constructor|]. eapply Forall_impl; [exact Htie|].
           intros m Hm. exists page, c. split; [by left|]. split; [by apply Hfull|]. done.
  - exists [], []. split_and!; [done|constructor| |constructor]. apply last_None in El. apply (f_equal length) in El.
    rewrite length_take, (Permutation_length (order_by_perm _ _)) in El. simpl in El |- *.
    destruct (List.filter (older ts) l); [done|]. simpl in El. lia.
Qed.
End Walk.

(** *** Scanning rows *)

Lemma scan_all_Ok {A B} (scan : A -> result B) l l' : scan_all scan l = Ok l' <-> Forall2 (fun x y => scan x = Ok y) l l'.
Proof.
  revert l'. induction l as [|x l IH]; intros l'; simpl.
  - split; [intros [= <-]; constructor|]. by intros ->%Forall2_nil_inv_l.
  - rewrite result_bind_Ok. setoid_rewrite result_bind_Ok. setoid_rewrite IH. split.
    + intros (y & Hy & ys & Hys & [= <-]). by constructor.
    + intros (y & ys & Hy & Hys & ->)%Forall2_cons_inv_l. eauto.
Qed.

Lemma scan_all_succeeds {A B} (scan : A -> result B) l :
  Forall (fun x => exists y, scan x = Ok y) l -> exists l', scan_all scan l = Ok l'.
Proof.
  induction 1 as [|x l [y Hy] _ [l' IH]]; [by exists []|]. exists (y :: l'). simpl. by rewrite Hy; simpl; rewrite IH.
Qed.

Lemma scan_all_Err {A B} (scan : A -> result B) l x e : x ∈ l -> scan x = Err e -> exists e', scan_all scan l = Err e'.
Proof.
  intros Hx He. destruct (scan_all scan l) as [l'|e'] eqn:E; [|by eexists].
  apply scan_all_Ok in E. apply list_elem_of_lookup in Hx as [i Hi].
  destruct (Forall2_lookup_l _ _ _ _ _ E Hi) as (y & _ & Hy). congruence.
Qed.

(** *** Storing a message *)

Definition message_row (msg : Message) (now : time) : MessageRow :=
  mkMessageRow (mkMessage (msg_ID msg) (msg_TenantID msg) (msg_SessionID msg) (msg_UserID msg) (msg_Role msg)
    (msg_Content msg) (msg_TokenCount msg) now) None.
Definition auto_session (msg : Message) (now : time) : SessionRow :=
  mkSessionRow (msg_SessionID msg) (msg_TenantID msg) (msg_UserID msg) None "{}" now now.
Definition has_session (s : uuid) (d : DB) : Prop := s ∈ s_id <$> sessions d.
#[export] Instance has_session_dec s d : Decision (has_session s d).
Proof. unfold has_session. apply _. Defined.

Lemma existsb_fmap {A} (f : A -> uuid) (l : list A) x : existsb (fun r => bool_decide (f r = x)) l = bool_decide (x ∈ f <$> l).
Proof.
  apply eq_bool_prop_intro. rewrite bool_decide_spec, Is_true_true, existsb_exists, list_elem_of_fmap.
  setoid_rewrite bool_decide_eq_true. setoid_rewrite <-list_elem_of_In. naive_solver.
Qed.

Section Store.
Context `{UuidLib, OrderBy, PgSearch}.

(** What the statement asks of a message. *)
Definition accepted (msg : Message) (d : DB) : Prop :=
  msg_Role msg ∈ valid_roles /\ storable (msg_Content msg) /\ msg_ID msg ∉ msg_ID ∘ m_msg <$> messages d.

#[export] Instance accepted_dec msg d : Decision (accepted msg d).
Proof. unfold accepted. apply _. Defined.

Lemma valid_role_storable r : r ∈ valid_roles -> storable r.
Proof. revert r. apply Forall_forall, (bool_decide_unpack _). by vm_compute. Qed.

Lemma accepted_storable msg d : accepted msg d -> Forall storable [msg_Role msg; msg_Content msg].
Proof. intros (Hr & Hc & _). constructor; [by apply valid_role_storable|by constructor]. Qed.

Lemma InsertMessage_Ok ctx msg now d : live ctx -> canonical (msg_TenantID msg) -> accepted msg d ->
  InsertMessage (WithTenantID ctx (msg_TenantID msg)) msg now d =
  (set_messages (fun l => l ++ [message_row msg now])
     (set_sessions (fun l => l ++ if decide (has_session (msg_SessionID msg) d) then [] else [auto_session msg now]) d), Ok tt).
Proof.
  intros Hlive Ht Hacc. pose proof (accepted_storable _ _ Hacc) as Htext. destruct Hacc as (Hr & _ & Hid).
  unfold InsertMessage. rewrite BeforeAcquire_canonical by done.
  unfold ensure_session, insert_message_row, policy.
  destruct (decide (~ Forall storable [msg_Role msg; msg_Content msg])) as [Hn|_]; [by destruct (Hn Htext)|].
  rewrite bool_decide_true by done. cbn [negb]. rewrite existsb_fmap. fold (has_session (msg_SessionID msg) d).
  assert (Hid' : existsb (fun r => bool_decide (msg_ID (m_msg r) = msg_ID msg)) (messages d) = false)
    by by rewrite (existsb_fmap (msg_ID ∘ m_msg)), bool_decide_false.
  destruct (decide (has_session (msg_SessionID msg) d)) as [Hs|Hs].
  - rewrite bool_decide_true by done. rewrite bool_decide_true by done. cbn [negb]. rewrite Hid', existsb_fmap.
    rewrite bool_decide_true by done. cbn [negb]. unfold set_sessions. simpl. rewrite app_nil_r. by destruct d.
  - rewrite bool_decide_false by done. rewrite bool_decide_true by done. cbn [negb]. simpl messages. rewrite Hid', existsb_fmap.
    rewrite bool_decide_true; [done|]. simpl. rewrite fmap_app. set_solver.
Qed.

End Store.

(** ** Properties *)

Section Properties.
Context `{UuidLib, OrderBy, PgSearch}.

(** C22: following the cursor reads every message of the session at most
    once, newest first, whatever limit is asked for (out of range it counts as
    50), and the walk ends after at most one page per message.  A message is
    passed over only when its created_at is that of the last message of a full
    page, for the cursor compares created_at alone; with message times all
    different the pages are the whole sorted history. *)
Theorem GetSessionHistory_pages ctx t s limit d n :
  live ctx -> canonical t -> canonical s -> unique_ids d ->
  Forall (fun m => canonical (msg_ID m)) (session_messages t s d) ->
  (length (session_messages t s d) < n)%nat ->
  exists pages missed, walk n (WithTenantID ctx t) t s limit EmptyString d = Ok pages /\
    StronglySorted (fun x y => newest_first x y = true) (concat pages) /\
    concat pages ++ missed ≡ₚ session_messages t s d /\ Forall (tied limit pages) missed /\
    (distinct_times (session_messages t s d) -> concat pages = history t s d).
Proof.
  intros Hlive Ht Hs Hu Hc Hn.
  assert (El : List.filter (older None) (session_messages t s d) = session_messages t s d) by by apply filter_all, Forall_true.
  destruct (walk_reads ctx t s limit d Hlive Ht Hs Hu Hc n EmptyString None) as (pages & missed & Hw & Hso & Hp & Hm).
  - rewrite GetSessionHistory_first by done. unfold page_after. by rewrite El.
  - by rewrite El.
  - rewrite El in Hp. exists pages, missed. split_and!; try done. intros Hd. apply order_by_unique; eauto with cortexa.
    + by apply distinct_times_antisym.
    + rewrite <-Hp. unfold distinct_times in Hd. rewrite <-Hp, fmap_app in Hd. apply NoDup_app in Hd as (_ & Hd & _).
      destruct missed as [|m l]; [by rewrite app_nil_r|]. apply Forall_cons in Hm as [(page & c & Hpage & _ & Hl & E) _].
      destruct (Hd (msg_CreatedAt m)); [|by left]. rewrite <-E. apply list_elem_of_fmap_2, list_elem_of_In, in_concat.
      exists page. rewrite <-!list_elem_of_In. split; [done|]. apply last_Some in Hl as (q & ->). set_solver.
Qed.

(** A message newer than the session's others heads its history. *)
Lemma history_insert t s d msg now f : msg_TenantID msg = t -> msg_SessionID msg = s ->
  distinct_times (session_messages t s d) -> Forall (fun m => msg_CreatedAt m < now) (session_messages t s d) ->
  history t s (set_messages (fun l => l ++ [message_row msg now]) (set_sessions f d)) =
  m_msg (message_row msg now) :: history t s d.
Proof.
  intros Ht Hs Hd Hnew. set (stored := m_msg (message_row msg now)).
  assert (E : session_messages t s (set_messages (fun l => l ++ [message_row msg now]) (set_sessions f d)) =
    session_messages t s d ++ [stored]).
  { unfold session_messages. simpl. rewrite fmap_app, List.filter_app. f_equal. simpl.
    unfold in_session. simpl. by rewrite !bool_decide_true. }
  unfold history at 1. rewrite E. symmetry.
  assert (Hlt : forall m, m ∈ history t s d -> msg_CreatedAt m < now).
  { intros m Hm. unfold history in Hm. rewrite order_by_In in Hm. by eapply Forall_forall in Hnew. }
  apply order_by_unique.
  - exact newest_first_trans.
  - exact newest_first_total.
  - apply distinct_times_antisym. unfold distinct_times. rewrite fmap_app. apply NoDup_app. split_and!; [done| |apply NoDup_singleton].
    intros x (m & -> & Hm)%list_elem_of_fmap Hx%list_elem_of_singleton. eapply Forall_forall in Hnew; [|exact Hm]. simpl in *. lia.
  - transitivity (stored :: session_messages t s d); [constructor; apply order_by_perm|apply Permutation_cons_append].
  - constructor; [apply history_sorted|]. apply Forall_forall. intros m Hm%Hlt. unfold newest_first. simpl. by apply Z.leb_le, Z.lt_le_incl.
Qed.

Lemma InsertMessage_effect ctx msg now d : live ctx -> canonical (msg_TenantID msg) ->
  let '(d', r) := InsertMessage (WithTenantID ctx (msg_TenantID msg)) msg now d in
  (r = Ok tt <-> accepted msg d) /\
  messages d' = messages d ++ (if decide (accepted msg d) then [message_row msg now] else []) /\
  sessions d' = sessions d ++ (if decide (has_session (msg_SessionID msg) d) then [] else [auto_session msg now]) /\
  entity_mentions d' = entity_mentions d /\ memory_records d' = memory_records d.
Proof.
  intros Hlive Ht. destruct (decide (accepted msg d)) as [Hok|Hbad].
  { rewrite InsertMessage_Ok by done. by split_and!. }
  assert (Hno : forall d1, messages d1 = messages d ->
    exists e, insert_message_row (Some (msg_TenantID msg)) msg now d1 = (d1, Err e)).
  { intros d1 Em. unfold insert_message_row, policy. case_decide as Ht1; [by eexists|]. rewrite bool_decide_true by done. cbn [negb].
    case_bool_decide as Hr; [|by eexists]. rewrite Em, (existsb_fmap (msg_ID ∘ m_msg)). case_bool_decide as Hid; [by eexists|].
    exfalso. apply Hbad. apply Forall_cons in Ht1 as [_ [Hc _]%Forall_cons]. by split_and!. }
  unfold InsertMessage. rewrite BeforeAcquire_canonical by done. unfold ensure_session.
  change (policy (Some (msg_TenantID msg)) (msg_TenantID msg)) with (bool_decide (Some (msg_TenantID msg) = Some (msg_TenantID msg))).
  rewrite bool_decide_true by done. cbn [negb]. rewrite existsb_fmap. fold (has_session (msg_SessionID msg) d).
  destruct (decide (has_session (msg_SessionID msg) d)) as [Hs|Hs].
  - rewrite bool_decide_true by done. destruct (Hno d eq_refl) as [e ->]. rewrite !app_nil_r. by split_and!.
  - rewrite bool_decide_false by done.
    match goal with |- context [insert_message_row _ _ _ ?d1] => destruct (Hno d1 eq_refl) as [e ->] end.
    rewrite app_nil_r. by split_and!.
Qed.

(** Storing a message appends it, creates the session when there is none,
    and changes nothing else; a bad role, a content PostgreSQL cannot hold or a
    reused id is refused and stores no message, though the session is created
    even then. *)
Theorem InsertMessage_spec ctx msg now d : live ctx -> canonical (msg_TenantID msg) ->
  let '(d', r) := InsertMessage (WithTenantID ctx (msg_TenantID msg)) msg now d in
  (r = Ok tt <-> accepted msg d) /\
  messages d' = messages d ++ (if decide (accepted msg d) then [message_row msg now] else []) /\
  sessions d' = sessions d ++ (if decide (has_session (msg_SessionID msg) d) then [] else [auto_session msg now]) /\
  entity_mentions d' = entity_mentions d /\ memory_records d' = memory_records d.
Proof. apply InsertMessage_effect. Qed.

(** A session that a message created has no title, and one such session on
    the page makes List fail for its user: here, after InsertMessage creates
    it, for every limit that covers the user's sessions. *)
Theorem List_fails_on_auto_session ctx msg now d d' limit :
  live ctx -> canonical (msg_TenantID msg) -> canonical (msg_UserID msg) -> accepted msg d ->
  ~ has_session (msg_SessionID msg) d ->
  InsertMessage (WithTenantID ctx (msg_TenantID msg)) msg now d = (d', Ok tt) ->
  Z.of_nat (length (sessions d')) <= session_limit limit ->
  exists e, List (WithTenantID ctx (msg_TenantID msg)) (msg_TenantID msg) (msg_UserID msg) limit 0 d' = Err e.
Proof.
  intros Hlive Ht Hu Hacc Hs Hd Hlim. rewrite InsertMessage_Ok in Hd by done. injection Hd as <-.
  rewrite decide_False in Hlim |- * by done. unfold List.
  rewrite Query_canonical, (to_uuid_canonical (msg_TenantID msg)), (to_uuid_canonical (msg_UserID msg)) by done.
  cbn [mbind result_bind]. rewrite Z.ltb_irrefl. cbn [mbind result_bind]. unfold offset_rows. rewrite drop_0. unfold limit_rows. rewrite take_ge.
  - apply (scan_all_Err _ _ (auto_session msg now) "cannot scan NULL into *string"); [|done].
    rewrite order_by_In, elem_of_filter_bool, elem_of_visible. simpl. rewrite !bool_decide_true by done. set_solver.
  - simpl in Hlim. rewrite (Permutation_length (order_by_perm _ _)).
    etrans; [apply List.filter_length_le|]. unfold visible. etrans; [apply List.filter_length_le|]. simpl. lia.
Qed.

(** A session id is enough to write into another tenant's session: the
    message of tenant B is accepted under the session of tenant A, A does not
    see it, and A's Delete of the session destroys it (unless a fact refers to
    a message of the session, when nothing can be deleted). *)
Theorem Delete_cascades_across_tenants ctx a sess msg now d : live ctx -> canonical a -> canonical (msg_TenantID msg) ->
  msg_TenantID msg <> a -> sess ∈ sessions d -> s_tenant sess = a -> s_id sess = msg_SessionID msg -> canonical (s_id sess) ->
  accepted msg d -> entity_mentions d = [] ->
  exists d1 d2, InsertMessage (WithTenantID ctx (msg_TenantID msg)) msg now d = (d1, Ok tt) /\
    message_row msg now ∈ messages d1 /\
    session_messages a (s_id sess) d1 = session_messages a (s_id sess) d /\
    Delete (WithTenantID ctx a) a (s_id sess) d1 = (d2, Ok true) /\
    message_row msg now ∉ messages d2.
Proof.
  intros Hlive Ha Ht Hne Hsess Hown Hs Hcs Hacc Hem. rewrite InsertMessage_Ok by done.
  assert (Hhas : has_session (msg_SessionID msg) d) by (rewrite <-Hs; by apply list_elem_of_fmap_2).
  rewrite decide_True by done. eexists _, _. split; [done|]. split_and!.
  - simpl. set_solver.
  - unfold session_messages. simpl. rewrite fmap_app, List.filter_app. simpl.
    unfold in_session at 2. simpl. rewrite bool_decide_false by done. by rewrite app_nil_r.
  - unfold Delete. rewrite BeforeAcquire_canonical, (to_uuid_canonical (s_id sess)), (to_uuid_canonical a) by done.
    cbn [mbind result_bind]. match goal with |- (if ?b then _ else _) = _ => assert (b = true) as -> end.
    { apply existsb_exists. exists sess. unfold policy. rewrite Hown, !bool_decide_true by done. split; [|done].
      apply list_elem_of_In. simpl. set_solver. }
    simpl entity_mentions. rewrite Hem. match goal with |- (if ?b then _ else _) = _ => assert (b = false) as -> end; [|done].
    apply not_true_iff_false. rewrite existsb_exists. intros (r & _ & Hx). simpl in Hx. by rewrite andb_false_r in Hx.
  - simpl. rewrite elem_of_filter_bool. intros [_ Hx]. simpl in Hx. by rewrite Hs, bool_decide_true in Hx by done.
Qed.
End Properties.

(** ** Examples *)

Module MessageSample.
#[local] Existing Instances toy_uuid merge_order_by toy_search.

Definition msg (id t s : uuid) (at_ : time) : Message := mkMessage id t s "u" "user" "hello" 1 at_.
Definition session (id t : uuid) : SessionRow := mkSessionRow id t "u" (Some "chat"%string) "{}" 1 1.
Definition db : DB :=
  mkDB [session "s" "t"] [mkMessageRow (msg "m1" "t" "s" 1) None; mkMessageRow (msg "m2" "t" "s" 2) None;
                          mkMessageRow (msg "m3" "t" "s" 3) None] [] [] [] [].

Lemma GetSessionHistory_pages_witness :
  exists pages, walk 4 (WithTenantID Background "t") "t" "s" 2 "" db = Ok pages /\ concat pages = history "t" "s" db /\
    (length <$> pages) = [2; 1]%nat.
Proof.
  destruct (GetSessionHistory_pages Background "t" "s" 2 db 4) as (pages & missed & Hw & _ & _ & _ & Hd);
    [reflexivity|reflexivity|reflexivity|vm_compute; repeat constructor; set_solver|
     apply (bool_decide_unpack _); vm_compute; exact I|vm_compute; lia|].
  exists pages. split; [exact Hw|]. split; [apply Hd; vm_compute; repeat constructor; set_solver|].
  vm_compute in Hw. injection Hw as <-. reflexivity.
Defined.

(** Of two messages of one time a client with a page of one reads the first
    only. *)
Lemma tied_message_skipped :
  let d := mkDB [session "s" "t"] [mkMessageRow (msg "m1" "t" "s" 1) None; mkMessageRow (msg "m2" "t" "s" 1) None] [] [] [] [] in
  walk 3 (WithTenantID Background "t") "t" "s" 1 "" d = Ok [[msg "m1" "t" "s" 1]].
Proof. vm_compute. reflexivity. Qed.

Lemma InsertMessage_spec_witness :
  exists d', InsertMessage (WithTenantID Background "t") (msg "m4" "t" "new" 9) 9 db = (d', Ok tt) /\
    length (messages d') = 4%nat /\ length (sessions d') = 2%nat.
Proof.
  assert (Ht : canonical (msg_TenantID (msg "m4" "t" "new" 9))) by reflexivity.
  pose proof (InsertMessage_spec Background (msg "m4" "t" "new" 9) 9 db eq_refl Ht) as Hspec.
  simpl msg_TenantID in Hspec.
  destruct (InsertMessage (WithTenantID Background "t") (msg "m4" "t" "new" 9) 9 db) as [d' r] eqn:E.
  cbv zeta in Hspec. destruct Hspec as (Hr & Hm & Hs & _). exists d'. split; [|split].
  - f_equal. apply Hr, (bool_decide_unpack _). by vm_compute.
  - rewrite Hm. vm_compute. reflexivity.
  - rewrite Hs. vm_compute. reflexivity.
Defined.

Lemma List_fails_on_auto_session_witness :
  exists d' e, InsertMessage (WithTenantID Background "t") (msg "m4" "t" "new" 9) 9 db = (d', Ok tt) /\
    List (WithTenantID Background "t") "t" "u" 20 0 d' = Err e.
Proof.
  destruct (List_fails_on_auto_session Background (msg "m4" "t" "new" 9) 9 db
    (InsertMessage (WithTenantID Background "t") (msg "m4" "t" "new" 9) 9 db).1 20) as [e He];
    [reflexivity|reflexivity|reflexivity|apply (bool_decide_unpack _); by vm_compute|vm_compute; set_solver|reflexivity|vm_compute; discriminate|].
  eexists _, e. split; [reflexivity|exact He].
Defined.

Lemma Delete_cascades_across_tenants_witness :
  exists d1 d2, InsertMessage (WithTenantID Background "b") (msg "m4" "b" "s" 9) 9 db = (d1, Ok tt) /\
    message_row (msg "m4" "b" "s" 9) 9 ∈ messages d1 /\
    Delete (WithTenantID Background "t") "t" "s" d1 = (d2, Ok true) /\ message_row (msg "m4" "b" "s" 9) 9 ∉ messages d2.
Proof.
  destruct (Delete_cascades_across_tenants Background "t" (session "s" "t") (msg "m4" "b" "s" 9) 9 db)
    as (d1 & d2 & H1 & H2 & _ & H3 & H4);
    [reflexivity|reflexivity|reflexivity|discriminate|by left|reflexivity|reflexivity|reflexivity|
     apply (bool_decide_unpack _); by vm_compute|reflexivity|].
  exists d1, d2. split; [exact H1|]. split; [exact H2|]. split; [exact H3|exact H4].
Defined.
End MessageSample.
