(* ===== verification/EntityRepo.v ===== *)
(** Entity facts: [internal/repository/entity.go] (the fact table) and
    [profile.go], which derives a user's profile from it.  The single statement
    [upsertFactCTE] is one function on the table; the read queries are
    selection, sorting, LIMIT and decryption. *)
From Stdlib Require Import Ascii String.
From S2P Require Import Prelude GoStd GoStrings Float64 Model Security Db MessageRepo.

Local Open Scope Z_scope.

(** ** Comparisons for ORDER BY *)

(** ORDER BY a, b *)
Definition then_by {A} (le1 le2 : A -> A -> bool) (x y : A) : bool :=
  if le1 x y && le1 y x then le2 x y else le1 x y.

Definition by_confidence (x y : EntityRow) : bool := pg_le (em_confidence y) (em_confidence x).
Definition by_created_desc (x y : EntityRow) : bool := em_created y <=? em_created x.
Definition by_created_asc (x y : EntityRow) : bool := em_created x <=? em_created y.
Definition confidence_desc : EntityRow -> EntityRow -> bool := then_by by_confidence by_created_desc.

(** ** The fact table *)

(** A fact is current while valid_until IS NULL. *)
Definition is_current (r : EntityRow) : bool := bool_decide (em_valid_until r = None).
Definition fact_key (r : EntityRow) : uuid * uuid * string * string :=
  (em_tenant r, em_user r, em_name r, em_attr r).

Definition set_valid_until (v : option time) (r : EntityRow) : EntityRow :=
  mkEntityRow (em_id r) (em_tenant r) (em_user r) (em_session r) (em_message r) (em_name r)
    (em_type r) (em_attr r) (em_value r) (em_hash r) (em_valid_from r) v (em_superseded_by r)
    (em_confidence r) (em_quote r) (em_embedding r) (em_created r).
Definition set_em_embedding (v : option (list float64)) (r : EntityRow) : EntityRow :=
  mkEntityRow (em_id r) (em_tenant r) (em_user r) (em_session r) (em_message r) (em_name r)
    (em_type r) (em_attr r) (em_value r) (em_hash r) (em_valid_from r) (em_valid_until r)
    (em_superseded_by r) (em_confidence r) (em_quote r) v (em_created r).

(** The column default of confidence. *)
Definition default_confidence : float64 := f_of_Z 1.

(** pgx runs a batch in one implicit transaction: it takes effect as a whole,
    or not at all when a statement of it fails. *)
Fixpoint run_batch (stmts : list (DB -> result DB)) (d : DB) : result DB :=
  match stmts with
  | [] => Ok d
  | st :: rest => d' ← st d; run_batch rest d'
  end.
Definition SendBatch (stmts : list (DB -> result DB)) (d : DB) : DB :=
  match run_batch stmts d with Ok d' => d' | Err _ => d end.

(** What every statement of a batch keeps, the batch keeps. *)
Lemma SendBatch_ind (I : DB -> Prop) stmts d :
  Forall (fun st : DB -> result DB => forall d d', I d -> st d = Ok d' -> I d') stmts -> I d -> I (SendBatch stmts d).
Proof.
  intros Hst Hd. unfold SendBatch. destruct (run_batch stmts d) as [d'|] eqn:E; [|done]. revert d Hd E.
  induction Hst as [|st stmts Hst _ IH]; intros d Hd E; simpl in E; [by injection E as <-|].
  apply result_bind_Ok in E as (d1 & E1 & E). eauto.
Qed.

(** A batch of statements that change nothing, or fail. *)
(** A statement that does nothing, or fails. *)
Definition idle (st : DB -> result DB) (d : DB) : Prop := st d = Ok d \/ exists e, st d = Err e.

Lemma SendBatch_idle stmts d : Forall (fun st => idle st d) stmts -> SendBatch stmts d = d.
Proof.
  intros Hst. unfold SendBatch. enough (run_batch stmts d = Ok d \/ exists e, run_batch stmts d = Err e) as [-> |[e ->]] by done.
  induction Hst as [|st stmts [Hst|[e Hst]] _ IH]; [by left| |right; exists e]; simpl; rewrite Hst; [exact IH|done].
Qed.

Section Repo.
Context `{UuidLib, OrderBy, PgSearch, CryptoLib}.

(** LIMIT 1 without ORDER BY: any of the rows. *)
Definition any_row {A} (l : list A) : option A := head (order_by (fun _ _ => true) l).

(** WHERE tenant_id=$1 AND user_id=$2 AND entity_name=$3 AND attribute=$4 AND valid_until IS NULL *)
Definition current_fact (t u : uuid) (name attr : string) (r : EntityRow) : bool :=
  bool_decide (fact_key r = (t, u, name, attr)) && is_current r.

(** The row an insert into entity_mentions makes. *)
Definition fact_row (new_id : uuid) (now : time) (mp : MessagePayload) (f : ExtractedFact)
    (encVal : list Z) (valHash : string) (superseded_by : option uuid) : EntityRow :=
  mkEntityRow new_id (mp_TenantID mp) (mp_UserID mp) (mp_SessionID mp) (mp_MessageID mp)
    (xf_EntityName f) (xf_EntityType f) (xf_Attribute f) encVal valHash now None superseded_by
    default_confidence (xf_SourceQuote f) None now.

(** The text parameters of a statement that writes a fact; they are read before
    the statement runs. *)
Definition fact_texts (f : ExtractedFact) (valHash : string) : list string :=
  [xf_EntityName f; xf_EntityType f; xf_Attribute f; valHash; xf_SourceQuote f].

Definition row_texts (r : EntityRow) : list string := [em_name r; em_type r; em_attr r; em_hash r; em_quote r].

(** An insert: its texts, and the constraints of the table on a new row (policy,
    key, foreign key). *)
Definition insert_fact_row (tid : option uuid) (r : EntityRow) (d : DB) : result DB :=
  _ ← text_params (row_texts r);
  if negb (policy tid (em_tenant r)) then Err rls_violation
  else if existsb (fun e => bool_decide (em_id e = em_id r)) (entity_mentions d) then Err duplicate_key
  else if negb (existsb (fun m => bool_decide (msg_ID (m_msg m) = em_message r)) (messages d)) then
    Err fk_violation
  else Ok (set_entity_mentions (fun l => l ++ [r]) d).

(** The row the statement finds under the payload's key, among those whose ids
    are [seen]. *)
Definition found_fact (seen : list uuid) (tid : option uuid) (mp : MessagePayload) (f : ExtractedFact) (d : DB) : option EntityRow :=
  any_row (List.filter (fun r => current_fact (mp_TenantID mp) (mp_UserID mp) (xf_EntityName f) (xf_Attribute f) r &&
                                 bool_decide (em_id r ∈ seen))
    (visible tid em_tenant (entity_mentions d))).

(** The statement run beside others: it starts when the rows of the table are
    the ones [seen], and writes the table as it is once it has its lock.  FOR
    UPDATE makes it wait for a concurrent writer of the row it found and look at
    that row again, which no longer counts if it was closed; rows added
    meanwhile it does not see, and when it finds none there is nothing to wait
    for. *)
Definition upsertFactCTE_at (seen : list uuid) (tid : option uuid) (new_id : uuid) (now : time)
    (mp : MessagePayload) (f : ExtractedFact) (encVal : list Z) (valHash : string) (d : DB) : result DB :=
  _ ← text_params (fact_texts f valHash);
  let existing := found_fact seen tid mp f d in
  let to_supersede := match existing with
                      | Some e => if bool_decide (em_hash e <> valHash) then Some (em_id e) else None
                      | None => None
                      end in
  let invalidated := set_entity_mentions (update_visible tid em_tenant
        (fun r => bool_decide (Some (em_id r) = to_supersede)) (set_valid_until (Some now))) d in
  if match existing with Some e => bool_decide (em_hash e = valHash) | None => false end
  then Ok invalidated
  else insert_fact_row tid (fact_row new_id now mp f encVal valHash to_supersede) invalidated.

(** The statement run by itself. *)
Definition upsertFactCTE (tid : option uuid) (new_id : uuid) (now : time) (mp : MessagePayload)
    (f : ExtractedFact) (encVal : list Z) (valHash : string) (d : DB) : result DB :=
  upsertFactCTE_at (em_id <$> entity_mentions d) tid new_id now mp f encVal valHash d.

Definition UpsertFact (ctx : context) (new_id : uuid) (now : time) (mp : MessagePayload)
    (f : ExtractedFact) (encVal : list Z) (valHash : string) (d : DB) : result DB :=
  tid ← BeforeAcquire ctx; upsertFactCTE tid new_id now mp f encVal valHash d.

(** [items]: the facts with their ciphertexts and hashes, each with the id the
    database will generate for it.  Errors are logged, not returned. *)
Definition UpsertFactBatch (ctx : context) (now : time) (mp : MessagePayload)
    (items : list (uuid * ExtractedFact * list Z * string)) (d : DB) : DB * result unit :=
  match BeforeAcquire ctx with
  | Err _ => (d, Ok tt)
  | Ok tid =>
    (SendBatch ((fun '(id, f, enc, h) => upsertFactCTE tid id now mp f enc h) <$> items) d, Ok tt)
  end.

(** The batch run beside others: each item comes with the ids of the rows its
    statement starts from, besides the ones the batch has added ([own]). *)
Fixpoint upsert_stmts_at (tid : option uuid) (now : time) (mp : MessagePayload) (own : list uuid)
    (items : list (uuid * ExtractedFact * list Z * string * list uuid)) : list (DB -> result DB) :=
  match items with
  | [] => []
  | (id, f, enc, h, seen) :: rest =>
    upsertFactCTE_at (own ++ seen) tid id now mp f enc h :: upsert_stmts_at tid now mp (id :: own) rest
  end.
Definition UpsertFactBatch_at (ctx : context) (now : time) (mp : MessagePayload)
    (items : list (uuid * ExtractedFact * list Z * string * list uuid)) (d : DB) : DB * result unit :=
  match BeforeAcquire ctx with
  | Err _ => (d, Ok tt)
  | Ok tid => (SendBatch (upsert_stmts_at tid now mp [] items) d, Ok tt)
  end.

Definition InsertFact (ctx : context) (new_id : uuid) (now : time) (mp : MessagePayload)
    (f : ExtractedFact) (encVal : list Z) (valHash : string) (d : DB) : result DB :=
  tid ← BeforeAcquire ctx; insert_fact_row tid (fact_row new_id now mp f encVal valHash None) d.

(** Facts without an embedding in [embeddings], or an empty one, are skipped. *)
Definition UpdateFactEmbeddingsBatch (ctx : context) (tenantID userID : string)
    (facts : list ExtractedFact) (embeddings : list (list float64)) (d : DB) : DB * result unit :=
  match (tid ← BeforeAcquire ctx; t ← to_uuid tenantID; u ← to_uuid userID; Ok (tid, t, u)) with
  | Err _ => (d, Ok tt)
  | Ok (tid, t, u) =>
    let update (p : ExtractedFact * list float64) (d : DB) : result DB :=
      let '(f, e) := p in
      if bool_decide (e = []) then Ok d
      else _ ← text_params [xf_EntityName f; xf_Attribute f]; _ ← vector_param e; Ok (set_entity_mentions (update_visible tid em_tenant
                 (current_fact t u (xf_EntityName f) (xf_Attribute f)) (set_em_embedding (Some e))) d) in
    (SendBatch (update <$> zip facts embeddings) d, Ok tt)
  end.

(** *** Reading *)

(** scanEntityFacts: a value that cannot be decrypted is replaced. *)
Definition scanEntityFact (crypto : Crypto) (tenantID : string) (r : EntityRow) : EntityFact :=
  mkEntityFact (em_name r) (em_type r) (em_attr r)
    (match DecryptValue crypto (em_value r) tenantID with
     | Ok v => v | Err _ => "[encrypted]"%string end)
    (em_quote r) (em_confidence r).
Definition scanEntityFacts (crypto : Crypto) (tenantID : string) (rows : list EntityRow) : list EntityFact :=
  scanEntityFact crypto tenantID <$> rows.

(** WHERE tenant_id = $1 AND user_id = $2 AND valid_until IS NULL *)
Definition current_of (t u : uuid) (r : EntityRow) : bool :=
  bool_decide (em_tenant r = t) && bool_decide (em_user r = u) && is_current r.
Definition third_party (r : EntityRow) : bool := negb (bool_decide (em_type r = "self"%string)).

Definition select_facts (tid : option uuid) (p : EntityRow -> bool) (d : DB) : list EntityRow :=
  List.filter p (visible tid em_tenant (entity_mentions d)).

(** What every read of facts does around its query: key, connection, decryption. *)
Definition query_facts (key : string) (ctx : context) (tenantID userID : string)
    (query : option uuid -> uuid -> uuid -> result (list EntityRow)) : result (list EntityFact) :=
  crypto ← NewCrypto key;
  rows ← Query ctx (fun tid => t ← to_uuid tenantID; u ← to_uuid userID; query tid t u);
  Ok (scanEntityFacts crypto tenantID rows).

Definition QueryCurrent (key : string) (ctx : context) (tenantID userID sessionID : string) (d : DB) :=
  query_facts key ctx tenantID userID (fun tid t u =>
    Ok (order_by by_created_asc (select_facts tid (current_of t u) d))).

Definition SearchSelfFacts (key : string) (ctx : context) (tenantID userID : string) (d : DB) :=
  query_facts key ctx tenantID userID (fun tid t u =>
    Ok (order_by confidence_desc (select_facts tid (fun r => current_of t u r && negb (third_party r)) d))).

Definition FallbackFacts (key : string) (ctx : context) (tenantID userID : string) (limit : Z) (d : DB) :=
  query_facts key ctx tenantID userID (fun tid t u =>
    checked_limit limit (order_by confidence_desc
      (select_facts tid (fun r => current_of t u r && third_party r) d))).

Definition queryFactsFallback (crypto : Crypto) (ctx : context) (tenantID userID : string) (d : DB)
  : result (list EntityFact) :=
  rows ← Query ctx (fun tid => t ← to_uuid tenantID; u ← to_uuid userID;
    Ok (limit_rows 15 (order_by confidence_desc (select_facts tid (current_of t u) d))));
  Ok (scanEntityFacts crypto tenantID rows).

(** embedding <=> $3; the rows selected all have an embedding. *)
Definition distance (q : list float64) (r : EntityRow) : float64 :=
  match em_embedding r with Some e => cosine_distance e q | None => SpecFloat.S754_nan end.
Definition by_distance (q : list float64) (x y : EntityRow) : bool := pg_le (distance q x) (distance q y).
Definition embedded (r : EntityRow) : bool := negb (bool_decide (em_embedding r = None)).

(** The facts a query ordered by [<=>] can find: those the index reaches, among
    the facts of all tenants. *)
Definition reached_facts (q : list float64) (d : DB) : DB := set_entity_mentions (reached_rows em_embedding q) d.

Definition SearchByVector (key : string) (ctx : context) (tenantID userID : string)
    (embedding : list float64) (topK : Z) (d : DB) : result (list EntityFact * bool) :=
  crypto ← NewCrypto key;
  facts ← query_facts key ctx tenantID userID (fun tid t u =>
    _ ← vector_param embedding;
    checked_limit topK (order_by (by_distance embedding)
      (select_facts tid (fun r => current_of t u r && embedded r) (reached_facts embedding d))));
  match facts with
  | _ :: _ => Ok (facts, false)
  | [] => facts ← queryFactsFallback crypto ctx tenantID userID d; Ok (facts, true)
  end.

Definition SearchAllFactsByVector (key : string) (ctx : context) (tenantID userID : string)
    (embedding : list float64) (topK : Z) (d : DB) : result (list EntityFact) :=
  if decide (embedding = []) then Ok []
  else query_facts key ctx tenantID userID (fun tid t u =>
    _ ← vector_param embedding;
    checked_limit topK (order_by (by_distance embedding)
      (select_facts tid (fun r => current_of t u r && third_party r && embedded r) (reached_facts embedding d)))).

(** SELECT DISTINCT entity_name ... ORDER BY entity_name LIMIT 10 *)
Definition ResolveEntities (ctx : context) (tenantID userID query : string) (d : DB) : result (list string) :=
  Query ctx (fun tid => t ← to_uuid tenantID; u ← to_uuid userID; _ ← text_params [query];
    Ok (limit_rows 10 (order_by text_le (remove_dups (em_name <$> select_facts tid
          (fun r => current_of t u r && third_party r &&
             (fts_match (unaccent (em_name r)) (unaccent query) || trgm_match (em_name r) query)) d))))).

(** ROW_NUMBER() OVER (PARTITION BY entity_name ORDER BY rank) <= k, the groups
    in name order. *)
Definition top_per_name (rank : EntityRow -> EntityRow -> bool) (k : Z) (rows : list EntityRow)
  : list (list EntityRow) :=
  (fun name => limit_rows k (order_by rank (List.filter (fun r => bool_decide (em_name r = name)) rows)))
    <$> order_by text_le (remove_dups (em_name <$> rows)).

Definition rank_text (r : EntityRow) : string := (em_attr r +:+ " " +:+ em_quote r)%string.
Definition by_ts_rank (query : string) (x y : EntityRow) : bool :=
  pg_le (ts_rank (unaccent (rank_text y)) (unaccent query)) (ts_rank (unaccent (rank_text x)) (unaccent query)).

Definition QueryFactsByFTS (key : string) (ctx : context) (tenantID userID query : string)
    (entityNames : list string) (topKPerEntity : Z) (d : DB) : result (list EntityFact) :=
  if decide (entityNames = []) then Ok []
  else query_facts key ctx tenantID userID (fun tid t u =>
    _ ← text_params (query :: entityNames);
    Ok (concat (order_by by_confidence <$> top_per_name (then_by (by_ts_rank query) confidence_desc) topKPerEntity
      (select_facts tid (fun r => current_of t u r && third_party r && bool_decide (em_name r ∈ entityNames)) d)))).

Definition QueryFactsByVector (key : string) (ctx : context) (tenantID userID : string)
    (embedding : list float64) (entityNames : list string) (topKPerEntity : Z) (d : DB)
  : result (list EntityFact) :=
  if decide (entityNames = [] \/ embedding = []) then Ok []
  else query_facts key ctx tenantID userID (fun tid t u =>
    _ ← vector_param embedding; _ ← text_params entityNames;
    Ok (concat (top_per_name (then_by (by_distance embedding) confidence_desc) topKPerEntity
      (select_facts tid (fun r => current_of t u r && third_party r &&
         bool_decide (em_name r ∈ entityNames) && embedded r) (reached_facts embedding d))))).

(** GROUP BY entity_name ORDER BY COUNT( * ) DESC LIMIT $3 *)
Definition GetTopEntityNames (ctx : context) (tenantID userID : string) (limit : Z) (d : DB)
  : result (list string) :=
  Query ctx (fun tid => t ← to_uuid tenantID; u ← to_uuid userID;
    let names := em_name <$> select_facts tid
                   (fun r => bool_decide (em_tenant r = t) && bool_decide (em_user r = u)) d in
    let count n := length (List.filter (fun m => bool_decide (m = n)) names) in
    checked_limit limit (order_by (fun a b => Nat.leb (count b) (count a)) (remove_dups names))).

(** *** ProfileRepository.Get *)

Definition default_profile : UserProfile := mkUserProfile "User" [].

(** One row of the loop: (canonicalName, aliases) so far. *)
Definition profile_step `{UnicodeCase} (crypto : Crypto) (tenantID : string)
    (acc : string * list string) (r : EntityRow) : string * list string :=
  match DecryptValue crypto (em_value r) tenantID with
  | Err _ => acc
  | Ok val =>
    if decide (TrimSpace val = EmptyString) then acc
    else
      let attr := ToLower (em_attr r) in
      if decide (attr = "name"%string) then
        if decide (acc.1 = EmptyString) then (val, acc.2) else acc
      else if decide (attr = "nickname"%string \/ attr = "alias"%string) then (acc.1, acc.2 ++ [val])
      else acc
  end.

Definition ProfileGet `{UnicodeCase} (key : string) (ctx : context) (tenantID userID : string) (d : DB)
  : UserProfile :=
  match NewCrypto key with
  | Err _ => default_profile
  | Ok crypto =>
    match Query ctx (fun tid => t ← to_uuid tenantID; u ← to_uuid userID;
            Ok (order_by confidence_desc (select_facts tid (fun r => current_of t u r && negb (third_party r)) d))) with
    | Err _ => default_profile
    | Ok rows =>
      let '(name, aliases) := foldl (profile_step crypto tenantID) (EmptyString, []) rows in
      mkUserProfile (if decide (name = EmptyString) then "User"%string else name) aliases
    end
  end.
End Repo.

(** ** The fact table as a map

    What the statement promises: at most one current fact per key, and a map
    from keys to the hash of the current value in which an upsert is an insert. *)

Definition current_rows (d : DB) : list EntityRow := List.filter is_current (entity_mentions d).

Record facts_ok (d : DB) : Prop := {
  facts_unique_id : NoDup (em_id <$> entity_mentions d);
  facts_unique_key : NoDup (fact_key <$> current_rows d);
}.

Definition hash_entry (r : EntityRow) : (uuid * uuid * string * string) * string := (fact_key r, em_hash r).
Definition current_hashes (d : DB) : gmap (uuid * uuid * string * string) string :=
  list_to_map (hash_entry <$> current_rows d).

(** The key a fact is stored under for the user of a payload. *)
Definition payload_key (mp : MessagePayload) (f : ExtractedFact) : uuid * uuid * string * string :=
  (mp_TenantID mp, mp_UserID mp, xf_EntityName f, xf_Attribute f).

Lemma fst_hash_entry l : (hash_entry <$> l).*1 = fact_key <$> l.
Proof. rewrite <-list_fmap_compose. done. Qed.

Lemma current_hashes_lookup d k h : facts_ok d ->
  current_hashes d !! k = Some h <-> exists r, r ∈ current_rows d /\ fact_key r = k /\ em_hash r = h.
Proof.
  intros [_ Hk]. unfold current_hashes. rewrite <-elem_of_list_to_map by by rewrite fst_hash_entry.
  rewrite list_elem_of_fmap. unfold hash_entry. naive_solver.
Qed.

Lemma same_id d r r' : facts_ok d -> r ∈ entity_mentions d -> r' ∈ entity_mentions d ->
  em_id r = em_id r' -> r = r'.
Proof.
  intros [Hid _] [i Hi]%list_elem_of_lookup [j Hj]%list_elem_of_lookup E.
  assert (i = j); [|congruence]. eapply (NoDup_lookup _ _ _ (em_id r) Hid).
  - by rewrite list_lookup_fmap, Hi.
  - by rewrite list_lookup_fmap, Hj, E.
Qed.

Lemma same_key d r r' : facts_ok d -> r ∈ current_rows d -> r' ∈ current_rows d ->
  fact_key r = fact_key r' -> r = r'.
Proof.
  intros [_ Hid] [i Hi]%list_elem_of_lookup [j Hj]%list_elem_of_lookup E.
  assert (i = j); [|congruence]. eapply (NoDup_lookup _ _ _ (fact_key r) Hid).
  - by rewrite list_lookup_fmap, Hi.
  - by rewrite list_lookup_fmap, Hj, E.
Qed.

Lemma elem_of_current d r : r ∈ current_rows d <-> r ∈ entity_mentions d /\ em_valid_until r = None.
Proof. unfold current_rows, is_current. by rewrite elem_of_filter_bool, bool_decide_eq_true. Qed.

Section FactTable.
Context `{UuidLib, OrderBy, PgSearch, CryptoLib}.

Lemma any_row_Some {A} (l : list A) x : any_row l = Some x -> x ∈ l.
Proof.
  unfold any_row. intros Hx%head_Some_elem_of. by rewrite order_by_In in Hx.
Qed.
Lemma any_row_None {A} (l : list A) : any_row l = None -> l = [].
Proof.
  unfold any_row. intros Hx%head_None. apply Permutation_nil. rewrite <-Hx at 1. apply order_by_perm.
Qed.

(** The row it finds when nothing is written beside it. *)
Definition existing_fact (tid : option uuid) (mp : MessagePayload) (f : ExtractedFact) (d : DB) : option EntityRow :=
  any_row (List.filter (current_fact (mp_TenantID mp) (mp_UserID mp) (xf_EntityName f) (xf_Attribute f))
    (visible tid em_tenant (entity_mentions d))).

Lemma found_fact_all tid mp f d : found_fact (em_id <$> entity_mentions d) tid mp f d = existing_fact tid mp f d.
Proof.
  unfold found_fact, existing_fact. f_equal. apply filter_ext_in. intros r [Hr _]%list_elem_of_In%elem_of_visible.
  rewrite (bool_decide_true (em_id r ∈ _)) by by apply list_elem_of_fmap_2. by rewrite andb_true_r.
Qed.

Lemma existing_fact_Some tid mp f d e : existing_fact tid mp f d = Some e ->
  e ∈ current_rows d /\ fact_key e = payload_key mp f /\ tid = Some (em_tenant e).
Proof.
  intros Hx%any_row_Some. apply elem_of_filter_bool in Hx as [[Hin Htid]%elem_of_visible Hp].
  unfold current_fact in Hp. apply andb_true_iff in Hp as [Hk Hc].
  apply bool_decide_eq_true in Hk. unfold current_rows. by rewrite elem_of_filter_bool.
Qed.

Lemma existing_fact_None mp f d r : existing_fact (Some (mp_TenantID mp)) mp f d = None ->
  r ∈ current_rows d -> fact_key r <> payload_key mp f.
Proof.
  intros Hx%any_row_None Hr E. apply (not_elem_of_nil r). rewrite <-Hx.
  apply elem_of_filter_bool. unfold current_rows in Hr. apply elem_of_filter_bool in Hr as [Hr Hc].
  unfold current_fact. rewrite elem_of_visible, andb_true_iff, bool_decide_eq_true.
  repeat split; try done. unfold fact_key, payload_key in E. congruence.
Qed.

(** The row a fact under the payload's key is found as is the only one. *)
Lemma existing_fact_unique mp f d r : facts_ok d -> r ∈ current_rows d -> fact_key r = payload_key mp f ->
  existing_fact (Some (mp_TenantID mp)) mp f d = Some r.
Proof.
  intros Hok Hr Hk. destruct (existing_fact _ mp f d) as [e|] eqn:He.
  - apply existing_fact_Some in He as (He & Hk' & _). f_equal. eapply same_key; eauto. congruence.
  - by destruct (existing_fact_None _ _ _ _ He Hr).
Qed.

Lemma invalidate_none tid now l :
  update_visible tid em_tenant (fun r => bool_decide (Some (em_id r) = None)) (set_valid_until (Some now)) l = l.
Proof.
  unfold update_visible. rewrite <-(list_fmap_id l) at 2. apply list_fmap_ext.
  intros i r _. rewrite bool_decide_false, andb_false_r by done. done.
Qed.

Definition invalidate (tid : option uuid) (now : time) (e : EntityRow) : list EntityRow -> list EntityRow :=
  update_visible tid em_tenant (fun r => bool_decide (Some (em_id r) = Some (em_id e))) (set_valid_until (Some now)).

Lemma invalidate_ids tid now e l : em_id <$> invalidate tid now e l = em_id <$> l.
Proof.
  unfold invalidate, update_visible. rewrite <-list_fmap_compose. apply list_fmap_ext.
  intros i r _. simpl. by destruct (_ && _).
Qed.

(** Invalidating a row takes it, and nothing else, from the current rows. *)
Lemma invalidate_current now e d : facts_ok d -> e ∈ entity_mentions d ->
  List.filter is_current (invalidate (Some (em_tenant e)) now e (entity_mentions d)) =
  List.filter (fun r => negb (bool_decide (em_id r = em_id e))) (current_rows d).
Proof.
  intros Hok He. unfold current_rows.
  assert (Hall : Forall (fun r => em_id r = em_id e -> r = e) (entity_mentions d)).
  { apply Forall_forall. intros r Hr Hid. by eapply same_id. }
  clear He Hok. unfold invalidate, update_visible, policy.
  induction Hall as [|r l Hr Hall IH]; [done|]. simpl.
  destruct (decide (em_id r = em_id e)) as [Hid|Hid].
  - rewrite (Hr Hid) in *. rewrite !bool_decide_true by done. simpl.
    destruct (is_current e); simpl; rewrite ?IH; [|done]. by rewrite bool_decide_true by done.
  - rewrite (bool_decide_false (Some (em_id r) = _)), andb_false_r by (intros E; congruence).
    destruct (is_current r); simpl; [|done]. rewrite (bool_decide_false (em_id r = _)) by done. simpl. by f_equal.
Qed.

Lemma insert_fact_row_ok tid r d d' : insert_fact_row tid r d = Ok d' ->
  d' = set_entity_mentions (fun l => l ++ [r]) d /\ em_id r ∉ em_id <$> entity_mentions d.
Proof.
  unfold insert_fact_row. intros (_ & _ & Hi)%result_bind_Ok. destruct (policy _ _); [|done].
  destruct (existsb _ (entity_mentions d)) eqn:Hex; [done|]. destruct (existsb _ (messages d)); [|done]. injection Hi as <-. split; [done|].
  intros (e & E & He)%list_elem_of_fmap. apply not_true_iff_false in Hex. apply Hex.
  apply existsb_exists. exists e. rewrite bool_decide_eq_true, <-list_elem_of_In. done.
Qed.

(** The three cases of the statement, for a table with unique keys. *)
Inductive upsert_effect (new_id : uuid) (now : time) (mp : MessagePayload) (f : ExtractedFact)
    (encVal : list Z) (valHash : string) (l : list EntityRow) : list EntityRow -> Prop :=
  | upsert_same e : e ∈ l -> is_current e = true -> fact_key e = payload_key mp f -> em_hash e = valHash ->
      upsert_effect new_id now mp f encVal valHash l l
  | upsert_supersede e : e ∈ l -> is_current e = true -> fact_key e = payload_key mp f -> em_hash e <> valHash ->
      upsert_effect new_id now mp f encVal valHash l
        (invalidate (Some (mp_TenantID mp)) now e l ++ [fact_row new_id now mp f encVal valHash (Some (em_id e))])
  | upsert_fresh : Forall (fun r => is_current r = true -> fact_key r <> payload_key mp f) l ->
      upsert_effect new_id now mp f encVal valHash l
        (l ++ [fact_row new_id now mp f encVal valHash None]).

Lemma upsert_effect_intro new_id now mp f encVal valHash d d' :
  upsertFactCTE (Some (mp_TenantID mp)) new_id now mp f encVal valHash d = Ok d' ->
  upsert_effect new_id now mp f encVal valHash (entity_mentions d) (entity_mentions d') /\
  (entity_mentions d' = entity_mentions d \/ new_id ∉ em_id <$> entity_mentions d).
Proof.
  unfold upsertFactCTE, upsertFactCTE_at. cbv zeta. intros (_ & _ & Hup)%result_bind_Ok. revert Hup. rewrite found_fact_all.
  destruct (existing_fact _ mp f d) as [e|] eqn:He.
  - apply existing_fact_Some in He as ([Hin Hc]%elem_of_filter_bool & Hk & _).
    case_bool_decide as Hh.
    + rewrite bool_decide_false by (intros ?; done). intros [= <-]. simpl.
      rewrite invalidate_none. split; [by eapply upsert_same|by left].
    + rewrite bool_decide_true by done. intros [-> Hid]%insert_fact_row_ok.
      simpl in *. fold (invalidate (Some (mp_TenantID mp)) now e (entity_mentions d)) in *.
      rewrite invalidate_ids in Hid. split; [by eapply upsert_supersede|by right].
  - intros [-> Hid]%insert_fact_row_ok. simpl in *. rewrite invalidate_none in *.
    split; [|by right]. apply upsert_fresh. apply Forall_forall. intros r Hr Hc.
    eapply existing_fact_None; [done|]. by apply elem_of_filter_bool.
Qed.

Lemma current_rows_set g d : current_rows (set_entity_mentions g d) = List.filter is_current (g (entity_mentions d)).
Proof. done. Qed.

(** The current rows after the statement: those of other keys, and one. *)
Lemma upsert_effect_current new_id now mp f encVal valHash d l' :
  facts_ok d -> upsert_effect new_id now mp f encVal valHash (entity_mentions d) l' ->
  exists r, fact_key r = payload_key mp f /\ em_hash r = valHash /\
    (r ∈ current_rows d \/ exists sup, r = fact_row new_id now mp f encVal valHash sup) /\
    List.filter is_current l' ≡ₚ
    r :: List.filter (fun r => negb (bool_decide (fact_key r = payload_key mp f))) (current_rows d).
Proof.
  intros Hok Heff.
  assert (Hsplit : forall e, e ∈ current_rows d -> fact_key e = payload_key mp f ->
    List.filter (fun r => negb (bool_decide (fact_key r = payload_key mp f))) (current_rows d) =
    List.filter (fun r => negb (bool_decide (em_id r = em_id e))) (current_rows d)).
  { intros e He Hk. apply List.filter_ext_in. intros r Hr%list_elem_of_In. f_equal.
    apply bool_decide_ext. split; intros E; [by rewrite (same_key d r e) by (done || congruence)|].
    rewrite elem_of_current in Hr. apply elem_of_current in He.
    by rewrite (same_id d r e) by (done || naive_solver). }
  inversion Heff as [e Hin Hc Hk Hh|e Hin Hc Hk Hh|Hno]; subst.
  - assert (He : e ∈ current_rows d) by by apply elem_of_filter_bool.
    exists e. do 2 (split; [done|]). split; [by left|]. rewrite (Hsplit e) by done. fold (current_rows d).
    assert (Hnd : NoDup (em_id <$> current_rows d)) by apply NoDup_fmap_filter, Hok.
    clear -He Hnd. induction (current_rows d) as [|x l IH]; [by apply not_elem_of_nil in He|].
    apply NoDup_cons in Hnd as [Hx Hnd]. simpl.
    assert (Hrest : List.filter (fun r => negb (bool_decide (em_id r = em_id x))) l = l).
    { apply filter_all, Forall_forall. intros y Hy. rewrite bool_decide_false; [done|].
      intros E. apply Hx. rewrite <-E. by apply list_elem_of_fmap_2. }
    apply elem_of_cons in He as [->|He].
    + by rewrite bool_decide_true, Hrest by done.
    + rewrite bool_decide_false.
      * simpl. rewrite IH at 1 by done. constructor.
      * intros E. apply Hx. rewrite E. by apply list_elem_of_fmap_2.
  - eexists. split_and!; [| |right; by eexists|rewrite List.filter_app; simpl].
    3: { replace (mp_TenantID mp) with (em_tenant e) by (unfold fact_key, payload_key in Hk; congruence).
         rewrite invalidate_current by done. rewrite (Hsplit e); [|by apply elem_of_filter_bool|done].
         rewrite Permutation_app_comm. simpl. reflexivity. }
    all: done.
  - eexists. split_and!; [| |right; by eexists|rewrite List.filter_app; simpl].
    3: { fold (current_rows d). rewrite Permutation_app_comm. simpl. constructor. symmetry.
         rewrite filter_all; [done|]. apply Forall_forall. intros r [Hr Hc]%elem_of_filter_bool.
         rewrite Forall_forall in Hno. by rewrite bool_decide_false by by apply Hno. }
    all: done.
Qed.

Lemma upsert_effect_ids new_id now mp f encVal valHash l l' :
  upsert_effect new_id now mp f encVal valHash l l' -> NoDup (em_id <$> l) ->
  l' = l \/ new_id ∉ em_id <$> l -> NoDup (em_id <$> l').
Proof.
  intros Heff Hnd Hid. inversion Heff; subst; [done|..];
    (destruct Hid as [Hid|Hid]; [by rewrite Hid|]); rewrite fmap_app, ?invalidate_ids; simpl;
    apply NoDup_app; (split; [done|]); (split; [|apply NoDup_singleton]);
    intros x Hx ->%list_elem_of_singleton; done.
Qed.

Lemma upsert_effect_ok new_id now mp f encVal valHash d d' :
  facts_ok d -> upsert_effect new_id now mp f encVal valHash (entity_mentions d) (entity_mentions d') ->
  (entity_mentions d' = entity_mentions d \/ new_id ∉ em_id <$> entity_mentions d) ->
  facts_ok d' /\ current_hashes d' = <[payload_key mp f := valHash]> (current_hashes d).
Proof.
  intros Hok Heff Hid.
  destruct (upsert_effect_current _ _ _ _ _ _ _ _ Hok Heff) as (r & Hk & Hh & _ & Hperm).
  fold (current_rows d') in Hperm.
  assert (Hok' : facts_ok d').
  { split; [eapply upsert_effect_ids; eauto; apply Hok|]. rewrite Hperm. simpl. apply NoDup_cons. split.
    - intros (x & E & [_ Hx]%elem_of_filter_bool)%list_elem_of_fmap.
      rewrite <-E, Hk, bool_decide_true in Hx; done.
    - apply NoDup_fmap_filter, Hok. }
  assert (Hin : forall x, x ∈ current_rows d' <->
    x = r \/ x ∈ current_rows d /\ fact_key x <> payload_key mp f).
  { intros x. by rewrite Hperm, elem_of_cons, elem_of_filter_bool, negb_true_iff, bool_decide_eq_false. }
  split; [done|]. apply map_eq. intros k. apply option_eq. intros h.
  rewrite lookup_insert_Some, !current_hashes_lookup by done. setoid_rewrite Hin. split.
  - intros (x & [->|[Hx Hn]] & <- & <-); [by left|right]. split; [by apply not_eq_sym|by exists x].
  - intros [[<- <-]|[Hn (x & Hx & <- & <-)]]; [exists r; naive_solver|].
    exists x. split; [|done]. right. split; [done|]. by apply not_eq_sym.
Qed.

Lemma UpsertFact_Ok ctx new_id now mp f encVal valHash d :
  live ctx -> canonical (mp_TenantID mp) ->
  UpsertFact (WithTenantID ctx (mp_TenantID mp)) new_id now mp f encVal valHash d =
  upsertFactCTE (Some (mp_TenantID mp)) new_id now mp f encVal valHash d.
Proof. intros Hlive Ht. unfold UpsertFact. by rewrite BeforeAcquire_canonical. Qed.

(** What the statement needs to succeed: texts PostgreSQL can hold, a fresh id
    and an existing message. *)
Definition has_message (id : uuid) (d : DB) : Prop := id ∈ (fun m => msg_ID (m_msg m)) <$> messages d.

(** The texts of a fact; the hash of its value is hexadecimal. *)
Definition storable_fact (f : ExtractedFact) : Prop :=
  Forall storable [xf_EntityName f; xf_EntityType f; xf_Attribute f; xf_SourceQuote f].

#[export] Instance storable_fact_dec f : Decision (storable_fact f).
Proof. unfold storable_fact. apply _. Defined.

Lemma fact_texts_storable f : storable_fact f -> Forall storable (fact_texts f (ValueHash (xf_Value f))).
Proof.
  unfold storable_fact, fact_texts. rewrite !Forall_cons. intros (? & ? & ? & ? & _). split_and!; try done.
  apply plain_storable, hex_EncodeToString_plain, sha256_bytes.
Qed.

Lemma fact_texts_storable_inv f h : Forall storable (fact_texts f h) -> storable_fact f.
Proof. unfold storable_fact, fact_texts. rewrite !Forall_cons. tauto. Qed.

Lemma insert_fact_row_succeeds tid r d : tid = Some (em_tenant r) -> Forall storable (row_texts r) -> em_id r ∉ em_id <$> entity_mentions d -> has_message (em_message r) d ->
  insert_fact_row tid r d = Ok (set_entity_mentions (fun l => l ++ [r]) d).
Proof.
  intros -> Htext Hid (m & Em & Hm)%list_elem_of_fmap. unfold insert_fact_row, policy. rewrite text_params_Ok by done.
  cbn [mbind result_bind]. rewrite bool_decide_true by done. simpl.
  destruct (existsb _ (entity_mentions d)) eqn:E.
  { apply existsb_exists in E as (e & He%list_elem_of_In & Ee). apply bool_decide_eq_true in Ee.
    destruct Hid. rewrite <-Ee. by apply list_elem_of_fmap_2. }
  destruct (existsb _ (messages d)) eqn:E'; [done|].
  apply not_true_iff_false in E'. destruct E'. apply existsb_exists. exists m.
  by rewrite bool_decide_true, <-list_elem_of_In by done.
Qed.

Lemma upsertFactCTE_succeeds new_id now mp f encVal valHash d : Forall storable (fact_texts f valHash) ->
  new_id ∉ em_id <$> entity_mentions d -> has_message (mp_MessageID mp) d ->
  exists d', upsertFactCTE (Some (mp_TenantID mp)) new_id now mp f encVal valHash d = Ok d' /\
    messages d' = messages d /\
    (em_id <$> entity_mentions d') ⊆ new_id :: (em_id <$> entity_mentions d).
Proof.
  intros Htext Hid Hm. unfold upsertFactCTE, upsertFactCTE_at. rewrite text_params_Ok by done.
  cbn [mbind result_bind]. cbv zeta. rewrite found_fact_all.
  assert (Hids : forall g, em_id <$> update_visible (Some (mp_TenantID mp)) em_tenant g (set_valid_until (Some now))
      (entity_mentions d) = em_id <$> entity_mentions d).
  { intros g. unfold update_visible. rewrite <-list_fmap_compose. apply list_fmap_ext.
    intros i r _. simpl. by destruct (_ && _). }
  case_match; [|rewrite insert_fact_row_succeeds].
  - eexists. split; [done|]. split; [done|]. simpl. rewrite Hids. set_solver.
  - eexists. split; [done|]. split; [done|]. simpl. rewrite fmap_app, Hids. simpl. set_solver.
  - done.
  - done.
  - simpl. by rewrite Hids.
  - done.
Qed.

Lemma upsertFactCTE_hashes new_id now mp f encVal valHash d d' : facts_ok d ->
  upsertFactCTE (Some (mp_TenantID mp)) new_id now mp f encVal valHash d = Ok d' ->
  facts_ok d' /\ current_hashes d' = <[payload_key mp f := valHash]> (current_hashes d).
Proof. intros Hok [Heff Hid]%upsert_effect_intro. by eapply upsert_effect_ok. Qed.

(** *** Batches *)

(** The payload's facts, as the inserts a batch makes. *)
Definition insert_items (mp : MessagePayload) (items : list (uuid * ExtractedFact * list Z * string))
    (m : gmap (uuid * uuid * string * string) string) : gmap (uuid * uuid * string * string) string :=
  foldl (fun m '(_, f, _, h) => <[payload_key mp f := h]> m) m items.

Definition upsert_stmts (now : time) (mp : MessagePayload) (items : list (uuid * ExtractedFact * list Z * string))
  : list (DB -> result DB) :=
  (fun '(id, f, enc, h) => upsertFactCTE (Some (mp_TenantID mp)) id now mp f enc h) <$> items.

Lemma run_batch_upserts now mp items d d' : facts_ok d -> run_batch (upsert_stmts now mp items) d = Ok d' ->
  facts_ok d' /\ current_hashes d' = insert_items mp items (current_hashes d).
Proof.
  revert d. induction items as [|[[[id f] enc] h] items IH]; intros d Hok; simpl; [by intros [= <-]|].
  intros (d1 & Hd1 & Hrun)%result_bind_Ok.
  apply upsertFactCTE_hashes in Hd1 as [Hok1 <-]; [|done]. by apply IH.
Qed.

Definition item_texts (x : uuid * ExtractedFact * list Z * string) : list string := fact_texts x.1.1.2 x.2.

Lemma upsertFactCTE_at_storable seen tid new_id now mp f encVal valHash d d' :
  upsertFactCTE_at seen tid new_id now mp f encVal valHash d = Ok d' -> Forall storable (fact_texts f valHash).
Proof. unfold upsertFactCTE_at. intros (u & Hu & _)%result_bind_Ok. by eapply text_params_Ok_inv. Qed.

Lemma run_batch_storable now mp items d d' : run_batch (upsert_stmts now mp items) d = Ok d' ->
  Forall (fun x => Forall storable (item_texts x)) items.
Proof.
  revert d. induction items as [|[[[id f] enc] h] items IH]; intros d; simpl; [constructor|].
  intros (d1 & Hd1%upsertFactCTE_at_storable & Hrun)%result_bind_Ok. constructor; [done|by eapply IH].
Qed.

Lemma run_batch_upserts_succeeds now mp items d : Forall (fun x => Forall storable (item_texts x)) items ->
  NoDup ((fun x => x.1.1.1) <$> items) ->
  Forall (fun x => x.1.1.1 ∉ em_id <$> entity_mentions d) items -> has_message (mp_MessageID mp) d ->
  exists d', run_batch (upsert_stmts now mp items) d = Ok d'.
Proof.
  revert d. induction items as [|[[[id f] enc] h] items IH]; intros d Htext Hnd Hfresh Hm; simpl in *; [by eexists|].
  apply NoDup_cons in Hnd as [Hid Hnd]. apply Forall_cons in Hfresh as [Hfid Hfresh].
  apply Forall_cons in Htext as [Hft Htext].
  destruct (upsertFactCTE_succeeds id now mp f enc h d Hft Hfid Hm) as (d1 & -> & Hmsg & Hids).
  cbn [mbind result_bind]. apply IH; [done|done| |by unfold has_message; rewrite Hmsg].
  rewrite Forall_forall in *. intros x Hx Hin%Hids.
  apply elem_of_cons in Hin as [E|Hin]; [|by apply (Hfresh x)].
  apply Hid, list_elem_of_fmap. by exists x.
Qed.

(** A statement leaves the current rows of other keys, and stores a new value. *)
Lemma upsertFactCTE_keeps new_id now mp f encVal valHash d d' r : facts_ok d ->
  upsertFactCTE (Some (mp_TenantID mp)) new_id now mp f encVal valHash d = Ok d' ->
  r ∈ current_rows d -> fact_key r <> payload_key mp f -> r ∈ current_rows d'.
Proof.
  intros Hok [Heff _]%upsert_effect_intro Hr Hk.
  destruct (upsert_effect_current _ _ _ _ _ _ _ _ Hok Heff) as (r' & _ & _ & _ & Hperm). fold (current_rows d') in Hperm.
  rewrite Hperm. right. apply elem_of_filter_bool. split; [done|]. by rewrite bool_decide_false.
Qed.

Lemma upsertFactCTE_stores new_id now mp f encVal valHash d d' : facts_ok d ->
  upsertFactCTE (Some (mp_TenantID mp)) new_id now mp f encVal valHash d = Ok d' ->
  current_hashes d !! payload_key mp f <> Some valHash ->
  exists sup, fact_row new_id now mp f encVal valHash sup ∈ current_rows d'.
Proof.
  intros Hok [Heff _]%upsert_effect_intro Hnew.
  destruct (upsert_effect_current _ _ _ _ _ _ _ _ Hok Heff) as (r & Hk & Hh & Hr & Hperm). fold (current_rows d') in Hperm.
  destruct Hr as [Hr|[sup ->]]; [destruct Hnew; apply current_hashes_lookup; eauto|]. exists sup. rewrite Hperm. by left.
Qed.

Lemma run_batch_keeps now mp items d d' r : facts_ok d -> run_batch (upsert_stmts now mp items) d = Ok d' ->
  r ∈ current_rows d -> fact_key r ∉ (fun x => payload_key mp x.1.1.2) <$> items -> r ∈ current_rows d'.
Proof.
  revert d. induction items as [|[[[id f] enc] h] items IH]; intros d Hok; simpl; [by intros [= <-]|].
  intros (d1 & Hd1 & Hrun)%result_bind_Ok Hr [Hk Hks]%not_elem_of_cons.
  eapply IH; [by eapply upsertFactCTE_hashes|done| |done]. by eapply upsertFactCTE_keeps.
Qed.

Lemma run_batch_stores now mp items d d' id f enc h : facts_ok d -> run_batch (upsert_stmts now mp items) d = Ok d' ->
  NoDup ((fun x => payload_key mp x.1.1.2) <$> items) -> (id, f, enc, h) ∈ items ->
  current_hashes d !! payload_key mp f <> Some h -> exists sup, fact_row id now mp f enc h sup ∈ current_rows d'.
Proof.
  revert d. induction items as [|[[[id1 f1] enc1] h1] items IH]; intros d Hok; simpl; [by intros _ _ Hin%not_elem_of_nil|].
  intros (d1 & Hd1 & Hrun)%result_bind_Ok [Hk Hnd]%NoDup_cons Hin Hnew.
  pose proof (upsertFactCTE_hashes _ _ _ _ _ _ _ _ Hok Hd1) as [Hok1 Eh]. apply elem_of_cons in Hin as [[= -> -> -> ->]|Hin].
  - destruct (upsertFactCTE_stores _ _ _ _ _ _ _ _ Hok Hd1 Hnew) as [sup Hr]. exists sup. by eapply run_batch_keeps.
  - eapply IH; [done..|]. rewrite Eh, lookup_insert_ne; [done|]. intros E. apply Hk, list_elem_of_fmap. by exists (id, f, enc, h).
Qed.

(** *** What other tenants see *)

Lemma visible_other {A} tid t' (tenant : A -> uuid) p g l : tid <> Some t' -> (forall r, tenant (g r) = tenant r) ->
  visible (Some t') tenant (update_visible tid tenant p g l) = visible (Some t') tenant l.
Proof.
  intros Ht Hg. unfold visible, update_visible, policy.
  induction l as [|r l IH]; [done|]. rewrite fmap_cons. cbn [List.filter].
  destruct (decide (tid = Some (tenant r))) as [->|E].
  - rewrite (bool_decide_false (Some t' = Some (tenant r))) by congruence.
    destruct (_ && _); [rewrite Hg|]; by rewrite bool_decide_false by congruence.
  - rewrite (bool_decide_false (tid = _)) by congruence. simpl. by rewrite IH.
Qed.

Lemma upsertFactCTE_other snap t t' new_id now mp f encVal valHash d d' : t <> t' ->
  upsertFactCTE_at snap (Some t) new_id now mp f encVal valHash d = Ok d' ->
  visible (Some t') em_tenant (entity_mentions d') = visible (Some t') em_tenant (entity_mentions d).
Proof.
  intros Ht. unfold upsertFactCTE_at. cbv zeta. intros (_ & _ & Hup)%result_bind_Ok. revert Hup.
  set (e := found_fact _ _ _ _ _). clearbody e. case_match; [intros [= <-]; apply visible_other; [congruence|done]|].
  intros Hi. destruct (policy (Some t) (mp_TenantID mp)) eqn:Hp.
  - apply insert_fact_row_ok in Hi as [-> _]. unfold policy in Hp. apply bool_decide_eq_true in Hp. injection Hp as Hp.
    simpl. rewrite visible_app, visible_other by first [congruence|done]. unfold visible at 2, policy. simpl.
    rewrite bool_decide_false by congruence. apply app_nil_r.
  - unfold insert_fact_row in Hi. apply result_bind_Ok in Hi as (_ & _ & Hi). simpl in Hi. by rewrite Hp in Hi.
Qed.

(** The statement succeeds only under the tenant of its payload. *)
Lemma upsertFactCTE_tid tid new_id now mp f encVal valHash d d' :
  upsertFactCTE tid new_id now mp f encVal valHash d = Ok d' -> tid = Some (mp_TenantID mp).
Proof.
  unfold upsertFactCTE, upsertFactCTE_at. cbv zeta. intros (_ & _ & Hup)%result_bind_Ok. revert Hup. rewrite found_fact_all.
  assert (Hins : forall r d1, insert_fact_row tid (fact_row new_id now mp f encVal valHash r) d1 = Ok d' ->
    tid = Some (mp_TenantID mp)).
  { intros r d1 (_ & _ & Hi)%result_bind_Ok. revert Hi. unfold policy. simpl. by case_bool_decide. }
  destruct (existing_fact tid mp f d) as [e|] eqn:He; [|apply Hins].
  apply existing_fact_Some in He as (_ & Hk & ->). intros _. unfold fact_key, payload_key in Hk. congruence.
Qed.

(** It touches no other table. *)
Definition facts_only (d d' : DB) : Prop := d' = set_entity_mentions (fun _ => entity_mentions d') d.

Lemma facts_only_refl d : facts_only d d.
Proof. by destruct d. Qed.
Lemma facts_only_trans d1 d2 d3 : facts_only d1 d2 -> facts_only d2 d3 -> facts_only d1 d3.
Proof. unfold facts_only. intros ->. by intros ->. Qed.
Lemma facts_only_set g d : facts_only d (set_entity_mentions g d).
Proof. done. Qed.

Lemma insert_fact_row_facts_only tid r d d' : insert_fact_row tid r d = Ok d' -> facts_only d d'.
Proof. by intros [-> _]%insert_fact_row_ok. Qed.

Lemma upsertFactCTE_facts_only snap tid new_id now mp f encVal valHash d d' :
  upsertFactCTE_at snap tid new_id now mp f encVal valHash d = Ok d' -> facts_only d d'.
Proof.
  unfold upsertFactCTE_at. cbv zeta. intros (_ & _ & Hup)%result_bind_Ok. revert Hup. case_match; [by intros [= <-]|]. intros Hd%insert_fact_row_facts_only.
  eapply facts_only_trans; [|exact Hd]. apply facts_only_set.
Qed.

(** What holds of every row, and of the rows the statement makes, still holds. *)
Lemma upsertFactCTE_rows (P : EntityRow -> Prop) snap tid new_id now mp f encVal valHash d d' :
  (forall r u, P r -> P (set_valid_until u r)) ->
  (forall sup, P (fact_row new_id now mp f encVal valHash sup)) ->
  upsertFactCTE_at snap tid new_id now mp f encVal valHash d = Ok d' ->
  Forall P (entity_mentions d) -> Forall P (entity_mentions d').
Proof.
  intros Hset Hrow Hd Hall. revert Hd. unfold upsertFactCTE_at. cbv zeta. intros (_ & _ & Hup)%result_bind_Ok. revert Hup. set (e := found_fact _ _ _ _ _). clearbody e.
  assert (Hupd : forall p, Forall P (update_visible tid em_tenant p (set_valid_until (Some now)) (entity_mentions d))).
  { intros p. unfold update_visible. apply Forall_fmap. eapply Forall_impl; [exact Hall|]. intros r Hr. simpl.
    case_match; [by apply Hset|done]. }
  case_match; [intros [= <-]; by apply Hupd|]. intros [-> _]%insert_fact_row_ok. simpl.
  apply Forall_app_2; [apply Hupd|]. by constructor.
Qed.

(** A fact whose value is the current one: nothing changes, even if a text of
    the fact fails the statement. *)
Lemma upsertFactCTE_idle new_id now mp f encVal valHash d : facts_ok d ->
  current_hashes d !! payload_key mp f = Some valHash ->
  idle (upsertFactCTE (Some (mp_TenantID mp)) new_id now mp f encVal valHash) d.
Proof.
  intros Hok (e & He & Hk & Hh)%current_hashes_lookup; [|done].
  unfold idle, upsertFactCTE, upsertFactCTE_at. rewrite text_params_bind. case_decide; [left|right; by eexists]. cbv zeta. rewrite found_fact_all.
  rewrite (existing_fact_unique mp f d e) by done. rewrite (bool_decide_true (em_hash e = valHash)) by done.
  rewrite bool_decide_false by (intros ?; done). unfold set_entity_mentions. rewrite invalidate_none. by destruct d.
Qed.

(** *** Stored facts *)

(** The fact a row holds, once its value is decrypted; every row of a valid
    table holds a fact the validator accepts, with the hash of its value. *)
Definition fact_of (v : string) (r : EntityRow) : ExtractedFact :=
  mkExtractedFact (em_name r) (em_type r) (em_attr r) v (em_quote r).
Definition stored_valid (crypto : Crypto) (r : EntityRow) : Prop :=
  exists v, DecryptValue crypto (em_value r) (em_tenant r) = Ok v /\ em_hash r = ValueHash v /\
    ValidateExtractedFact (fact_of v r) = None.

Lemma fact_row_valid crypto new_id now mp f nonce encVal sup : length nonce = NonceSize ->
  ValidateExtractedFact f = None -> EncryptValue crypto (Ok nonce) (xf_Value f) (mp_TenantID mp) = Ok encVal ->
  stored_valid crypto (fact_row new_id now mp f encVal (ValueHash (xf_Value f)) sup).
Proof.
  intros Hn Hf He. destruct (DecryptValue_EncryptValue crypto nonce (xf_Value f) (mp_TenantID mp) Hn) as (ct & E & _ & Hd).
  exists (xf_Value f). split_and!; [|done|by destruct f]. simpl. congruence.
Qed.

(** A write of the table under a tenant's connection: other tables stay, and so
    do the rows other tenants see. *)
Record fact_write (tid : option uuid) (d d' : DB) : Prop := {
  fw_only : facts_only d d';
  fw_other t' : tid <> Some t' ->
    visible (Some t') em_tenant (entity_mentions d') = visible (Some t') em_tenant (entity_mentions d);
}.

Lemma fact_write_refl tid d : fact_write tid d d.
Proof. split; [apply facts_only_refl|done]. Qed.
Lemma fact_write_trans tid d1 d2 d3 : fact_write tid d1 d2 -> fact_write tid d2 d3 -> fact_write tid d1 d3.
Proof.
  intros [H12 O12] [H23 O23]. split; [by eapply facts_only_trans|]. intros t' Ht. by rewrite O23, O12.
Qed.

Lemma SendBatch_fact_write tid stmts d :
  Forall (fun st : DB -> result DB => forall d d', st d = Ok d' -> fact_write tid d d') stmts ->
  fact_write tid d (SendBatch stmts d).
Proof.
  intros Hst. apply (SendBatch_ind (fact_write tid d)); [|apply fact_write_refl].
  eapply Forall_impl; [exact Hst|]. intros st Hok d1 d2 Hd1 Hd2. eapply fact_write_trans; eauto.
Qed.

(** [tid]: the tenant of the connections the context is given, if any. *)
Lemma UpsertFactBatch_write ctx now mp items d tid : (forall o, BeforeAcquire ctx = Ok o -> o = tid) ->
  fact_write tid d (UpsertFactBatch ctx now mp items d).1.
Proof.
  intros Htid. unfold UpsertFactBatch. destruct (BeforeAcquire ctx) as [o|]; [|apply fact_write_refl].
  rewrite (Htid o eq_refl). simpl. apply SendBatch_fact_write, Forall_fmap, Forall_true.
  intros [[[id f] enc] h] d1 d2 Hd. pose proof Hd as E%upsertFactCTE_tid. rewrite E in Hd.
  split; [by eapply upsertFactCTE_facts_only|]. intros t' Hne.
  eapply upsertFactCTE_other; [|exact Hd]. congruence.
Qed.

Lemma UpdateFactEmbeddingsBatch_ind (I : DB -> Prop) ctx t u facts embeddings d :
  (forall o p e d, BeforeAcquire ctx = Ok o -> (forall r, p r = true -> is_current r = true) -> I d ->
     I (set_entity_mentions (update_visible o em_tenant p (set_em_embedding (Some e))) d)) ->
  I d -> I (UpdateFactEmbeddingsBatch ctx t u facts embeddings d).1.
Proof.
  intros Hupd Hd. unfold UpdateFactEmbeddingsBatch. destruct (BeforeAcquire ctx) as [o|] eqn:Eo; [|done]. simpl.
  destruct (to_uuid t); [|done]. destruct (to_uuid u); [|done]. apply (SendBatch_ind I); [|done].
  apply Forall_fmap, Forall_true. intros [f e] d1 d2 Hd1. simpl. case_bool_decide; [by intros [= <-]|].
  intros (? & _ & (? & _ & [= <-])%result_bind_Ok)%result_bind_Ok. apply Hupd; [done| |done]. by intros r [_ ?]%andb_true_iff.
Qed.

Lemma UpdateFactEmbeddingsBatch_write ctx t u facts embeddings d tid : (forall o, BeforeAcquire ctx = Ok o -> o = tid) ->
  fact_write tid d (UpdateFactEmbeddingsBatch ctx t u facts embeddings d).1.
Proof.
  intros Htid. apply (UpdateFactEmbeddingsBatch_ind (fact_write tid d)); [|apply fact_write_refl].
  intros o p e d1 Ho _ Hd1. rewrite (Htid o Ho). eapply fact_write_trans; [exact Hd1|]. split; [apply facts_only_set|].
  intros t' Hne. by apply visible_other.
Qed.

(** Rows but for their embeddings. *)
Definition bare (r : EntityRow) : EntityRow := set_em_embedding None r.

Lemma bare_update o p e l : bare <$> update_visible o em_tenant p (set_em_embedding (Some e)) l = bare <$> l.
Proof. unfold update_visible. rewrite <-list_fmap_compose. apply list_fmap_ext. intros i r _. simpl. by case_match. Qed.

Lemma UpdateFactEmbeddingsBatch_bare ctx t u facts embeddings d :
  bare <$> entity_mentions (UpdateFactEmbeddingsBatch ctx t u facts embeddings d).1 = bare <$> entity_mentions d.
Proof.
  apply (UpdateFactEmbeddingsBatch_ind (fun d' => bare <$> entity_mentions d' = bare <$> entity_mentions d)); [|done].
  intros o p e d1 _ _ <-. apply bare_update.
Qed.

(** The invariant and the map do not depend on the embeddings. *)
Lemma current_rows_bare d : bare <$> current_rows d = List.filter is_current (bare <$> entity_mentions d).
Proof. unfold current_rows. rewrite filter_fmap. done. Qed.

Lemma facts_ok_bare d d' : bare <$> entity_mentions d' = bare <$> entity_mentions d -> facts_ok d ->
  facts_ok d' /\ current_hashes d' = current_hashes d.
Proof.
  intros E [Hid Hk].
  assert (Ec : bare <$> current_rows d' = bare <$> current_rows d) by (rewrite !current_rows_bare; by f_equal).
  assert (Ef : forall {B} (g : EntityRow -> B) (l : list EntityRow), (forall r, g (bare r) = g r) -> g <$> l = g <$> (bare <$> l)).
  { intros B g l Hg. rewrite <-list_fmap_compose. apply list_fmap_ext. intros i r _. symmetry. apply Hg. }
  split; [split|].
  - rewrite (Ef _ em_id), E, <-(Ef _ em_id) by done. done.
  - rewrite (Ef _ fact_key), Ec, <-(Ef _ fact_key) by done. done.
  - unfold current_hashes. rewrite (Ef _ hash_entry), Ec, <-(Ef _ hash_entry) by done. done.
Qed.

Lemma current_bare d d' r : bare <$> entity_mentions d' = bare <$> entity_mentions d -> r ∈ current_rows d ->
  exists r', r' ∈ current_rows d' /\ bare r' = bare r.
Proof.
  intros E Hr. apply (list_elem_of_fmap_2 bare) in Hr. rewrite current_rows_bare, <-E, <-current_rows_bare in Hr.
  apply list_elem_of_fmap in Hr as (r' & Er & Hr'). by exists r'.
Qed.

(** *** Reading a fact back *)

Lemma scanEntityFact_value c t r v : DecryptValue c (em_value r) t = Ok v ->
  scanEntityFact c t r = mkEntityFact (em_name r) (em_type r) (em_attr r) v (em_quote r) (em_confidence r).
Proof. intros Hv. unfold scanEntityFact. by rewrite Hv. Qed.

Lemma QueryCurrent_Ok key c ctx t u s d : NewCrypto key = Ok c -> live ctx -> canonical t -> canonical u ->
  QueryCurrent key (WithTenantID ctx t) t u s d =
  Ok (scanEntityFacts c t (order_by by_created_asc (select_facts (Some t) (current_of t u) d))).
Proof.
  intros Hc Hlive Ht Hu. unfold QueryCurrent, query_facts.
  rewrite Hc, Query_canonical, (to_uuid_canonical t), (to_uuid_canonical u) by done. done.
Qed.

Lemma SearchSelfFacts_Ok key c ctx t u d : NewCrypto key = Ok c -> live ctx -> ctx_tenant ctx = Some t -> canonical t -> canonical u ->
  SearchSelfFacts key ctx t u d =
  Ok (scanEntityFacts c t (order_by confidence_desc (select_facts (Some t) (fun r => current_of t u r && negb (third_party r)) d))).
Proof.
  intros Hc Hlive Hctx Ht Hu. replace ctx with (WithTenantID ctx t) by (destruct ctx; simpl in *; by subst).
  unfold SearchSelfFacts, query_facts. by rewrite Hc, Query_canonical, (to_uuid_canonical t), (to_uuid_canonical u) by done.
Qed.

(** What a user reads under a key are the current rows of that key. *)
Lemma selected_fact c mp f d r l : fact_key r = payload_key mp f ->
  current_rows d ≡ₚ r :: List.filter (fun r => negb (bool_decide (fact_key r = payload_key mp f))) l ->
  List.filter (fun x => bool_decide (ef_EntityName x = xf_EntityName f /\ ef_Attribute x = xf_Attribute f))
    (scanEntityFacts c (mp_TenantID mp) (order_by by_created_asc
      (select_facts (Some (mp_TenantID mp)) (current_of (mp_TenantID mp) (mp_UserID mp)) d))) ≡ₚ
  [scanEntityFact c (mp_TenantID mp) r].
Proof.
  intros Hr Hperm. unfold scanEntityFacts, select_facts, visible. rewrite filter_fmap.
  rewrite (filter_Permutation _ _ _ (order_by_perm _ _)), !filter_filter_and.
  rewrite (List.filter_ext _ (fun x => is_current x && bool_decide (fact_key x = payload_key mp f))).
  - rewrite <-filter_filter_and. fold (current_rows d). rewrite (filter_Permutation _ _ _ Hperm).
    cbn [List.filter]. rewrite bool_decide_true by done. rewrite filter_none; [done|].
    apply Forall_forall. intros x [_ Hx]%elem_of_filter_bool. by apply negb_true_iff in Hx.
  - intros x. unfold policy, current_of, scanEntityFact, fact_key, payload_key. simpl.
    apply eq_bool_prop_intro. rewrite !andb_True, !bool_decide_spec.
    split; intros; destruct_and?; simplify_eq/=; split_and!; congruence.
Qed.

(** *** Properties *)

(** C16: upserting a fact whose texts PostgreSQL can hold (UTF-8 without
    U+0000) is a map insert; any other fact is refused and changes nothing. *)
Theorem UpsertFact_refines_insert ctx new_id now mp f encVal valHash d :
  live ctx -> canonical (mp_TenantID mp) -> facts_ok d ->
  new_id ∉ em_id <$> entity_mentions d -> has_message (mp_MessageID mp) d ->
  (Forall storable (fact_texts f valHash) ->
   exists d', UpsertFact (WithTenantID ctx (mp_TenantID mp)) new_id now mp f encVal valHash d = Ok d' /\
     facts_ok d' /\ current_hashes d' = <[payload_key mp f := valHash]> (current_hashes d)) /\
  (~ Forall storable (fact_texts f valHash) ->
   UpsertFact (WithTenantID ctx (mp_TenantID mp)) new_id now mp f encVal valHash d = Err encoding_error).
Proof.
  intros Hlive Ht Hok Hid Hm. rewrite UpsertFact_Ok by done. split; intros Htext.
  - destruct (upsertFactCTE_succeeds new_id now mp f encVal valHash d Htext Hid Hm) as (d' & Hd' & _).
    exists d'. split; [done|]. by eapply upsertFactCTE_hashes.
  - unfold upsertFactCTE, upsertFactCTE_at. by rewrite text_params_bind, decide_False.
Qed.

(** The history of a value is kept. *)
Theorem UpsertFact_supersedes ctx new_id now mp f encVal valHash d e :
  live ctx -> canonical (mp_TenantID mp) -> facts_ok d -> e ∈ current_rows d -> fact_key e = payload_key mp f ->
  Forall storable (fact_texts f valHash) -> new_id ∉ em_id <$> entity_mentions d -> has_message (mp_MessageID mp) d ->
  UpsertFact (WithTenantID ctx (mp_TenantID mp)) new_id now mp f encVal valHash d =
  Ok (if decide (em_hash e = valHash) then d else
      set_entity_mentions (fun l =>
        ((fun r => if decide (em_id r = em_id e) then set_valid_until (Some now) r else r) <$> l) ++
        [fact_row new_id now mp f encVal valHash (Some (em_id e))]) d).
Proof.
  intros Hlive Ht Hok He Hk Htext Hid Hm. rewrite UpsertFact_Ok by done.
  unfold upsertFactCTE, upsertFactCTE_at. rewrite text_params_Ok by done. cbn [mbind result_bind]. cbv zeta. rewrite found_fact_all.
  rewrite (existing_fact_unique mp f d e) by done. destruct (decide (em_hash e = valHash)) as [Eh|Eh].
  - rewrite (bool_decide_true (em_hash e = valHash)) by done. unfold set_entity_mentions.
    rewrite bool_decide_false by (intros ?; done). rewrite invalidate_none. by destruct d.
  - rewrite (bool_decide_false (em_hash e = valHash)), bool_decide_true by done.
    fold (invalidate (Some (mp_TenantID mp)) now e).
    rewrite insert_fact_row_succeeds; [|done|done|by simpl; rewrite invalidate_ids|done].
    unfold set_entity_mentions. simpl. do 3 f_equal. unfold invalidate, update_visible, policy.
    apply list_fmap_ext. intros i r Hr%list_elem_of_lookup_2. case_decide as E.
    + assert (r = e) as -> by (apply elem_of_current in He; eapply same_id; naive_solver).
      rewrite !bool_decide_true; [done|done|]. unfold fact_key, payload_key in Hk. congruence.
    + by rewrite (bool_decide_false (Some (em_id r) = _)), andb_false_r by congruence.
Qed.

(** A batch is all or nothing, and when it runs it is the sequence of its
    inserts; one fact whose text PostgreSQL cannot hold undoes all of it. *)
Theorem UpsertFactBatch_atomic ctx now mp items d :
  live ctx -> canonical (mp_TenantID mp) -> facts_ok d ->
  exists d', UpsertFactBatch (WithTenantID ctx (mp_TenantID mp)) now mp items d = (d', Ok tt) /\
    facts_ok d' /\
    (d' = d \/ current_hashes d' = insert_items mp items (current_hashes d)) /\
    (~ Forall (fun x => Forall storable (item_texts x)) items -> d' = d) /\
    (Forall (fun x => Forall storable (item_texts x)) items -> NoDup ((fun x => x.1.1.1) <$> items) ->
     Forall (fun x => x.1.1.1 ∉ em_id <$> entity_mentions d) items -> has_message (mp_MessageID mp) d ->
     current_hashes d' = insert_items mp items (current_hashes d)).
Proof.
  intros Hlive Ht Hok. unfold UpsertFactBatch. rewrite BeforeAcquire_canonical by done.
  fold (upsert_stmts now mp items). unfold SendBatch.
  destruct (run_batch (upsert_stmts now mp items) d) as [d'|e] eqn:Hrun.
  - pose proof (run_batch_storable _ _ _ _ _ Hrun) as Htext.
    apply run_batch_upserts in Hrun as [Hok' Hm]; [|done]. exists d'. split_and!; auto. by intros [].
  - exists d. split_and!; try done; [by left|]. intros Htext Hnd Hfresh Hm.
    destruct (run_batch_upserts_succeeds now mp items d Htext Hnd Hfresh Hm) as [d' E]. congruence.
Qed.

(** Two overlapping statements for a new key both insert. *)
Theorem UpsertFact_race id1 id2 now1 now2 mp f enc1 enc2 h1 h2 d :
  Forall storable (fact_texts f h1) -> Forall storable (fact_texts f h2) -> facts_ok d -> (forall r, r ∈ current_rows d -> fact_key r <> payload_key mp f) ->
  id1 <> id2 -> id1 ∉ em_id <$> entity_mentions d -> id2 ∉ em_id <$> entity_mentions d ->
  has_message (mp_MessageID mp) d ->
  exists d1 d2,
    upsertFactCTE (Some (mp_TenantID mp)) id1 now1 mp f enc1 h1 d = Ok d1 /\
    upsertFactCTE_at (em_id <$> entity_mentions d) (Some (mp_TenantID mp)) id2 now2 mp f enc2 h2 d1 = Ok d2 /\
    facts_ok d1 /\ ~ facts_ok d2 /\
    length (List.filter (fun r => bool_decide (fact_key r = payload_key mp f)) (current_rows d2)) = 2%nat.
Proof.
  intros Htext1 Htext2 Hok Hno Hne Hid1 Hid2 Hm.
  assert (He : existing_fact (Some (mp_TenantID mp)) mp f d = None).
  { destruct (existing_fact _ mp f d) as [e|] eqn:E; [|done].
    apply existing_fact_Some in E as (Hin & Hk & _). by destruct (Hno e). }
  set (r1 := fact_row id1 now1 mp f enc1 h1 None). set (r2 := fact_row id2 now2 mp f enc2 h2 None).
  set (d1 := set_entity_mentions (fun l => l ++ [r1]) d). set (d2 := set_entity_mentions (fun l => l ++ [r2]) d1).
  assert (Hup1 : upsertFactCTE (Some (mp_TenantID mp)) id1 now1 mp f enc1 h1 d = Ok d1).
  { unfold upsertFactCTE, upsertFactCTE_at. rewrite text_params_Ok by done. cbn [mbind result_bind]. cbv zeta.
    rewrite found_fact_all, He.
    unfold set_entity_mentions at 1. rewrite invalidate_none. rewrite insert_fact_row_succeeds by done. done. }
  assert (Hunseen : found_fact (em_id <$> entity_mentions d) (Some (mp_TenantID mp)) mp f d1 = None).
  { rewrite <-found_fact_all in He. unfold found_fact in *. simpl.
    rewrite visible_app, List.filter_app, (filter_none _ (visible _ _ [r1])); [by rewrite app_nil_r|].
    apply Forall_forall. intros r [->%list_elem_of_singleton _]%elem_of_visible.
    rewrite (bool_decide_false (em_id r1 ∈ _)) by done. apply andb_false_r. }
  assert (Hup2 : upsertFactCTE_at (em_id <$> entity_mentions d) (Some (mp_TenantID mp)) id2 now2 mp f enc2 h2 d1 = Ok d2).
  { unfold upsertFactCTE_at. rewrite text_params_Ok by done. cbn [mbind result_bind]. cbv zeta. rewrite Hunseen.
    unfold set_entity_mentions at 1. rewrite invalidate_none. rewrite insert_fact_row_succeeds; [done|done|done| |done].
    simpl. rewrite fmap_app. simpl. set_solver. }
  assert (Hf : List.filter (fun r => bool_decide (fact_key r = payload_key mp f)) (current_rows d2) = [r1; r2]).
  { unfold d2, d1. rewrite current_rows_set. simpl. rewrite !List.filter_app. simpl.
    fold (current_rows d). rewrite filter_none; [by rewrite !bool_decide_true by done|].
    apply Forall_forall. intros r Hr. by apply bool_decide_eq_false, Hno. }
  exists d1, d2. split_and!; [done|done|by eapply upsertFactCTE_hashes| |by rewrite Hf].
  intros [_ Hnd]. apply (NoDup_fmap_filter _ (fun r => bool_decide (fact_key r = payload_key mp f))) in Hnd.
  rewrite Hf in Hnd. simpl in Hnd. apply NoDup_cons in Hnd as [Hnd _]. set_solver.
Qed.

(** C17: a fact whose texts PostgreSQL can hold is stored when it is new, read
    back by its user, and by nobody of another tenant. *)
Theorem UpsertFact_QueryCurrent ctx key c nonce new_id now mp f encVal d :
  live ctx -> canonical (mp_TenantID mp) -> canonical (mp_UserID mp) -> facts_ok d ->
  storable_fact f -> new_id ∉ em_id <$> entity_mentions d -> has_message (mp_MessageID mp) d ->
  NewCrypto key = Ok c -> length nonce = NonceSize ->
  EncryptValue c (Ok nonce) (xf_Value f) (mp_TenantID mp) = Ok encVal ->
  current_hashes d !! payload_key mp f <> Some (ValueHash (xf_Value f)) ->
  exists d' facts,
    UpsertFact (WithTenantID ctx (mp_TenantID mp)) new_id now mp f encVal (ValueHash (xf_Value f)) d = Ok d' /\
    QueryCurrent key (WithTenantID ctx (mp_TenantID mp)) (mp_TenantID mp) (mp_UserID mp) EmptyString d' = Ok facts /\
    List.filter (fun x => bool_decide (ef_EntityName x = xf_EntityName f /\ ef_Attribute x = xf_Attribute f)) facts =
      [mkEntityFact (xf_EntityName f) (xf_EntityType f) (xf_Attribute f) (xf_Value f)
         (xf_SourceQuote f) default_confidence] /\
    (forall t' u' s, t' <> mp_TenantID mp -> canonical t' -> canonical u' ->
       QueryCurrent key (WithTenantID ctx t') t' u' s d' = QueryCurrent key (WithTenantID ctx t') t' u' s d).
Proof.
  intros Hlive Ht Hu Hok Htext Hid Hm Hkey Hn Henc Hnew. rewrite UpsertFact_Ok by done.
  destruct (upsertFactCTE_succeeds new_id now mp f encVal (ValueHash (xf_Value f)) d (fact_texts_storable f Htext) Hid Hm) as (d' & Hd' & _).
  exists d'. rewrite (QueryCurrent_Ok key c) by done. eexists. split_and!; [done|done| |].
  - apply upsert_effect_intro in Hd' as [Heff _].
    destruct (upsert_effect_current _ _ _ _ _ _ _ _ Hok Heff) as (r & Hk & Hh & Hr & Hperm).
    destruct Hr as [Hr|[sup ->]]; [destruct Hnew; apply current_hashes_lookup; eauto|].
    fold (current_rows d') in Hperm. apply Permutation_singleton_r.
    rewrite (selected_fact _ _ _ _ _ _ Hk Hperm). simpl. rewrite scanEntityFact_value with (v := xf_Value f); [done|].
    simpl. destruct (DecryptValue_EncryptValue c nonce (xf_Value f) (mp_TenantID mp) Hn) as (ct & E & _ & Hd).
    congruence.
  - intros t' u' s Ht' Hct' Hcu'. rewrite !(QueryCurrent_Ok key c) by done. unfold select_facts.
    by rewrite (upsertFactCTE_other _ _ _ _ _ _ _ _ _ _ _ (not_eq_sym Ht') Hd').
Qed.
End FactTable.

(** ** Examples *)

Module Sample.
#[local] Existing Instances toy_uuid merge_order_by toy_search toy_crypto.

Definition payload : MessagePayload := mkMessagePayload "m1" "u" "t" "s".
Definition job : ExtractedFact := mkExtractedFact "Nam" "person" "job" "pilot" "Nam is a pilot".
Definition home : ExtractedFact := mkExtractedFact "Nam" "person" "location" "Hue" "Nam lives in Hue".
Definition message : Message := mkMessage "m1" "t" "s" "u" "user" "Nam is a pilot" 4 10.
Definition db : DB :=
  mkDB [] [mkMessageRow message None] [fact_row "e0" 5 payload job [] "h0" None] [] [] [].

Lemma db_ok : facts_ok db.
Proof. split; vm_compute; repeat constructor; set_solver. Qed.
Lemma db_message : has_message "m1" db.
Proof. by left. Qed.

(** A quote with U+0000 in it, as JSON's \u0000 brings one. *)
Definition bad_quote : ExtractedFact := mkExtractedFact "Nam" "person" "location" "Hue" (String "000"%char EmptyString).

Lemma UpsertFact_refines_insert_witness :
  (exists d', UpsertFact (WithTenantID Background "t") "e1" 20 payload home [1] "h1" db = Ok d' /\
    facts_ok d' /\
    current_hashes d' = <[("t", "u", "Nam", "location")%string := "h1"%string]> (current_hashes db)) /\
  UpsertFact (WithTenantID Background "t") "e1" 20 payload bad_quote [1] "h1" db = Err encoding_error.
Proof.
  split.
  - apply (UpsertFact_refines_insert Background "e1" 20 payload home [1] "h1" db);
      [reflexivity|reflexivity|exact db_ok|vm_compute; set_solver|exact db_message|
       apply (bool_decide_unpack _); vm_compute; exact I].
  - apply (UpsertFact_refines_insert Background "e1" 20 payload bad_quote [1] "h1" db);
      [reflexivity|reflexivity|exact db_ok|vm_compute; set_solver|exact db_message|].
    apply (bool_decide_unpack _); vm_compute; exact I.
Defined.

Lemma UpsertFact_supersedes_witness :
  UpsertFact (WithTenantID Background "t") "e1" 20 payload job [1] "h1" db =
  Ok (set_entity_mentions (fun _ =>
        [set_valid_until (Some 20) (fact_row "e0" 5 payload job [] "h0" None);
         fact_row "e1" 20 payload job [1] "h1" (Some "e0"%string)]) db).
Proof.
  apply (UpsertFact_supersedes Background "e1" 20 payload job [1] "h1" db (fact_row "e0" 5 payload job [] "h0" None));
    [reflexivity|reflexivity|exact db_ok|by left|reflexivity|apply (bool_decide_unpack _); vm_compute; exact I|
     vm_compute; set_solver|exact db_message].
Defined.

Lemma UpsertFactBatch_atomic_witness :
  exists d', UpsertFactBatch (WithTenantID Background "t") 20 payload
      [("e1", job, [1], "h1"); ("e2", home, [2], "h2")]%string db = (d', Ok tt) /\
    current_hashes d' = <[payload_key payload home := "h2"%string]>
      (<[payload_key payload job := "h1"%string]> (current_hashes db)).
Proof.
  destruct (UpsertFactBatch_atomic Background 20 payload
      [("e1", job, [1], "h1"); ("e2", home, [2], "h2")]%string db) as (d' & E & _ & _ & _ & Hd').
  - reflexivity.
  - reflexivity.
  - exact db_ok.
  - exists d'. split; [exact E|]. apply Hd'; [apply (bool_decide_unpack _); vm_compute; exact I| | |exact db_message];
      vm_compute; repeat constructor; set_solver.
Defined.

Lemma UpsertFact_race_witness :
  exists d1 d2,
    upsertFactCTE (Some "t"%string) "e1" 20 payload home [1] "h1" db = Ok d1 /\
    upsertFactCTE_at (em_id <$> entity_mentions db) (Some "t"%string) "e2" 21 payload home [2] "h1" d1 = Ok d2 /\
    ~ facts_ok d2.
Proof.
  destruct (UpsertFact_race "e1" "e2" 20 21 payload home [1] [2] "h1" "h1" db) as (d1 & d2 & E1 & E2 & _ & Hno & _);
    [apply (bool_decide_unpack _); vm_compute; exact I|apply (bool_decide_unpack _); vm_compute; exact I|
     exact db_ok| |discriminate|vm_compute; set_solver|vm_compute; set_solver|exact db_message|].
  - intros r Hr%list_elem_of_singleton. subst. discriminate.
  - exists d1, d2. split; [exact E1|]. split; [exact E2|exact Hno].
Defined.

Definition key : string :=
  "00112233445566778899aabbccddeeff00112233445566778899aabbccddeeff".

Lemma UpsertFact_QueryCurrent_witness :
  exists c encVal d' facts, EncryptValue c (Ok (replicate 12 1)) "Hue" "t" = Ok encVal /\
    UpsertFact (WithTenantID Background "t") "e1" 20 payload home encVal (ValueHash "Hue") db = Ok d' /\
    QueryCurrent key (WithTenantID Background "t") "t" "u" "" d' = Ok facts /\
    List.filter (fun x => bool_decide (ef_EntityName x = "Nam" /\ ef_Attribute x = "location")%string) facts =
      [mkEntityFact "Nam" "person" "location" "Hue" "Nam lives in Hue" default_confidence].
Proof.
  destruct (NewCrypto key) as [c|] eqn:Ec; [|discriminate].
  destruct (EncryptValue c (Ok (replicate 12 1)) "Hue" "t") as [encVal|] eqn:Ee;
    [|vm_compute in Ec; injection Ec as <-; discriminate].
  destruct (UpsertFact_QueryCurrent Background key c (replicate 12 1) "e1" 20 payload home encVal db)
    as (d' & facts & H1 & H2 & H3 & _);
    [reflexivity|reflexivity|reflexivity|exact db_ok|apply (bool_decide_unpack _); vm_compute; exact I|
     vm_compute; set_solver|exact db_message|exact Ec|reflexivity|exact Ee|
     vm_compute; discriminate|].
  exists c, encVal, d', facts. split; [exact Ee|]. split; [exact H1|]. split; [exact H2|exact H3].
Defined.
End Sample.
