(* ===== verification/History.v ===== *)
(** The history the table of facts keeps ([repository/entity.go]): what the
    upsert statement does to it beside other writers, and the chains of closed
    rows it makes. *)
From Stdlib Require Import Ascii String.
From S2P Require Import Prelude GoStd GoStrings Model Security Db EntityRepo.

Local Open Scope Z_scope.

(** A row names the row it replaced in [superseded_by].  Every row so named is
    closed and held another value under the same key; every closed row is named,
    and by one row only: the rows of a key form chains from their first values
    to the current ones. *)
Record history (l : list EntityRow) : Prop := {
  h_replaced r i : r ∈ l -> em_superseded_by r = Some i ->
    exists r0, r0 ∈ l /\ em_id r0 = i /\ is_current r0 = false /\ fact_key r0 = fact_key r /\ em_hash r0 <> em_hash r;
  h_closed r : r ∈ l -> is_current r = false -> em_id r ∈ omap em_superseded_by l;
  h_once : NoDup (omap em_superseded_by l);
}.

Lemma bare_row (l l' : list EntityRow) r : bare <$> l' = bare <$> l -> r ∈ l -> exists r', r' ∈ l' /\ bare r' = bare r.
Proof. intros E Hr. apply (list_elem_of_fmap_2 bare) in Hr. rewrite <-E in Hr. apply list_elem_of_fmap in Hr as (r' & ? & ?). eauto. Qed.

Lemma bare_eq {A} (g : EntityRow -> A) r r' : (forall r, g (bare r) = g r) -> bare r' = bare r -> g r' = g r.
Proof. intros Hg E. by rewrite <-(Hg r'), E. Qed.

Lemma fmap_bare {A} (g : EntityRow -> A) (l l' : list EntityRow) : (forall r, g (bare r) = g r) -> bare <$> l' = bare <$> l -> g <$> l' = g <$> l.
Proof.
  intros Hg E. assert (Hb : forall k : list EntityRow, g <$> k = g <$> (bare <$> k)).
  { intros k. rewrite <-list_fmap_compose. apply list_fmap_ext. intros i r _. symmetry. apply Hg. }
  by rewrite (Hb l'), E, <-Hb.
Qed.

Lemma omap_superseded_bare (l : list EntityRow) : omap em_superseded_by (bare <$> l) = omap em_superseded_by l.
Proof. induction l as [|r l IH]; [done|]. rewrite fmap_cons. cbn [omap list_omap]. by rewrite IH. Qed.

(** Vectors do not matter to it. *)
Lemma history_bare (l l' : list EntityRow) : bare <$> l' = bare <$> l -> history l -> history l'.
Proof.
  intros E [Hr Hc Ho]. rewrite <-(omap_superseded_bare l), <-E, omap_superseded_bare in Hc, Ho. split; [| |done].
  - intros r' i Hr' Hi. destruct (bare_row l' l r' (eq_sym E) Hr') as (r & Hin & Eb).
    rewrite <-(bare_eq em_superseded_by _ _ (fun _ => eq_refl) Eb) in Hi.
    destruct (Hr r i Hin Hi) as (r0 & H0 & Ei & Ec & Ek & Eh). destruct (bare_row l l' r0 E H0) as (r0' & H0' & Eb0).
    exists r0'. rewrite (bare_eq em_id _ _ (fun _ => eq_refl) Eb0), (bare_eq is_current _ _ (fun _ => eq_refl) Eb0),
      (bare_eq fact_key _ _ (fun _ => eq_refl) Eb0), (bare_eq em_hash _ _ (fun _ => eq_refl) Eb0).
    by rewrite <-(bare_eq fact_key _ _ (fun _ => eq_refl) Eb), <-(bare_eq em_hash _ _ (fun _ => eq_refl) Eb).
  - intros r' Hr' Hcur. destruct (bare_row l' l r' (eq_sym E) Hr') as (r & Hin & Eb).
    rewrite <-(bare_eq em_id _ _ (fun _ => eq_refl) Eb). apply Hc; [done|].
    by rewrite (bare_eq is_current _ _ (fun _ => eq_refl) Eb).
Qed.

Section History.
Context `{UuidLib, OrderBy, PgSearch, CryptoLib}.

(** ** The statement, whatever it saw *)

Lemma found_fact_Some seen tid mp f d e : found_fact seen tid mp f d = Some e ->
  e ∈ current_rows d /\ fact_key e = payload_key mp f /\ tid = Some (em_tenant e).
Proof.
  intros Hx%any_row_Some. apply elem_of_filter_bool in Hx as [[Hin Htid]%elem_of_visible [Hp _]%andb_true_iff].
  unfold current_fact in Hp. apply andb_true_iff in Hp as [Hk%bool_decide_eq_true Hc].
  unfold current_rows. by rewrite elem_of_filter_bool.
Qed.

(** It finds what the statement run alone finds when it sees every row. *)
Lemma found_fact_seen seen tid mp f d : (em_id <$> entity_mentions d) ⊆ seen -> found_fact seen tid mp f d = existing_fact tid mp f d.
Proof.
  intros Hs. rewrite <-found_fact_all. unfold found_fact. f_equal. apply List.filter_ext_in.
  intros r [Hr _]%list_elem_of_In%elem_of_visible. apply (list_elem_of_fmap_2 em_id) in Hr.
  by rewrite !bool_decide_true by auto.
Qed.

Lemma upsertFactCTE_at_all seen tid id now mp f enc h d : (em_id <$> entity_mentions d) ⊆ seen ->
  upsertFactCTE_at seen tid id now mp f enc h d = upsertFactCTE tid id now mp f enc h d.
Proof. intros Hs. unfold upsertFactCTE, upsertFactCTE_at. by rewrite found_fact_seen, found_fact_all. Qed.

(** The row it closes, and the table then. *)
Definition closing (tid : option uuid) (now : time) (sup : option EntityRow) (l : list EntityRow) : list EntityRow :=
  match sup with Some e => invalidate tid now e l | None => l end.

Lemma upsertFactCTE_at_cases seen tid id now mp f enc h d d' : upsertFactCTE_at seen tid id now mp f enc h d = Ok d' ->
  tid = Some (mp_TenantID mp) /\
  (d' = d \/
   exists sup, d' = set_entity_mentions (fun l => closing tid now sup l ++ [fact_row id now mp f enc h (em_id <$> sup)]) d /\
     (id ∉ em_id <$> entity_mentions d) /\ has_message (mp_MessageID mp) d /\
     forall e, sup = Some e -> e ∈ current_rows d /\ fact_key e = payload_key mp f /\ em_hash e <> h).
Proof.
  unfold upsertFactCTE_at. cbv zeta. intros (_ & _ & Hup)%result_bind_Ok. revert Hup.
  assert (Hins : forall sup, insert_fact_row tid (fact_row id now mp f enc h (em_id <$> sup))
      (set_entity_mentions (closing tid now sup) d) = Ok d' ->
    tid = Some (mp_TenantID mp) /\
    d' = set_entity_mentions (fun l => closing tid now sup l ++ [fact_row id now mp f enc h (em_id <$> sup)]) d /\
    (id ∉ em_id <$> entity_mentions d) /\ has_message (mp_MessageID mp) d).
  { intros sup Hi. pose proof (insert_fact_row_ok _ _ _ _ Hi) as [-> Hid].
    unfold insert_fact_row, policy in Hi. apply result_bind_Ok in Hi as (_ & _ & Hi). simpl in Hi. case_bool_decide; [|done]. simpl in Hi.
    destruct (existsb _ (closing _ _ _ _)); [done|]. destruct (existsb _ (messages d)) eqn:Em; [|done]. clear Hi.
    apply existsb_exists in Em as (m & Hm%list_elem_of_In & E%bool_decide_eq_true).
    split_and!; [done|done| |apply list_elem_of_fmap; eauto].
    destruct sup; simpl in Hid; by rewrite ?invalidate_ids in Hid. }
  destruct (found_fact seen tid mp f d) as [e|] eqn:Ef.
  - apply found_fact_Some in Ef as (He & Hk & Ht). destruct (bool_decide (em_hash e = h)) eqn:Eh.
    + apply bool_decide_eq_true in Eh. rewrite bool_decide_false by (intros ?; done). unfold set_entity_mentions.
      rewrite invalidate_none. intros [= <-]. split; [unfold fact_key, payload_key in Hk; congruence|left; by destruct d].
    + apply bool_decide_eq_false in Eh. rewrite bool_decide_true by done.
      intros (Ht' & Hd & Hid & Hm)%(Hins (Some e)). split; [done|]. right. exists (Some e). split_and!; [done..|]. by intros ? [= <-].
  - unfold set_entity_mentions at 1. rewrite invalidate_none. change (mkDB _ _ _ _ _ _) with (set_entity_mentions (closing tid now None) d).
    intros (Ht' & Hd & Hid & Hm)%(Hins None). split; [done|]. right. by exists None.
Qed.

(** A batch whose statements all see the table as it is does what it does alone. *)
Lemma upsertFactCTE_at_grows seen tid id now mp f enc h d d' : upsertFactCTE_at seen tid id now mp f enc h d = Ok d' ->
  (em_id <$> entity_mentions d') ⊆ id :: (em_id <$> entity_mentions d).
Proof.
  intros [_ [-> |(sup & -> & _)]]%upsertFactCTE_at_cases; [set_solver|]. simpl.
  assert (Ei : em_id <$> closing tid now sup (entity_mentions d) = em_id <$> entity_mentions d) by (destruct sup; [apply invalidate_ids|done]).
  rewrite fmap_app, Ei. simpl. set_solver.
Qed.

Lemma upsert_stmts_at_alone tid now mp own items seen d : (em_id <$> entity_mentions d) ⊆ own ++ seen ->
  run_batch (upsert_stmts_at tid now mp own ((fun x => (x, seen)) <$> items)) d =
  run_batch ((fun '(id, f, enc, h) => upsertFactCTE tid id now mp f enc h) <$> items) d.
Proof.
  revert own d. induction items as [|[[[id f] enc] h] items IH]; intros own d Hs; [done|].
  rewrite !fmap_cons. cbn [upsert_stmts_at run_batch]. rewrite upsertFactCTE_at_all by done.
  destruct (upsertFactCTE tid id now mp f enc h d) as [d1|] eqn:E; [|done]. cbn [mbind result_bind]. apply IH.
  apply upsertFactCTE_at_grows in E. set_solver.
Qed.

Lemma UpsertFactBatch_at_alone ctx now mp items d :
  UpsertFactBatch_at ctx now mp ((fun x => (x, em_id <$> entity_mentions d)) <$> items) d = UpsertFactBatch ctx now mp items d.
Proof.
  unfold UpsertFactBatch_at, UpsertFactBatch. destruct (BeforeAcquire ctx) as [tid|]; [|done]. unfold SendBatch.
  by rewrite upsert_stmts_at_alone.
Qed.

(** ** What it does to a table with unique ids *)

Lemma invalidate_closes now e l : NoDup (em_id <$> l) -> e ∈ l ->
  invalidate (Some (em_tenant e)) now e l = (fun r => if decide (em_id r = em_id e) then set_valid_until (Some now) r else r) <$> l.
Proof.
  intros Hnd He. unfold invalidate, update_visible, policy. apply list_fmap_ext. intros i r Hr%list_elem_of_lookup_2.
  case_decide as E.
  - rewrite (NoDup_fmap_eq em_id l r e) by done. by rewrite !bool_decide_true.
  - by rewrite (bool_decide_false (Some (em_id r) = _)), andb_false_r by congruence.
Qed.

Lemma omap_superseded_closes now e (l : list EntityRow) :
  omap em_superseded_by ((fun r => if decide (em_id r = em_id e) then set_valid_until (Some now) r else r) <$> l) = omap em_superseded_by l.
Proof.
  induction l as [|r l IH]; [done|]. rewrite fmap_cons. cbn [omap list_omap]. rewrite IH. by case_decide.
Qed.

Lemma history_add l r : history l -> em_superseded_by r = None -> is_current r = true -> history (l ++ [r]).
Proof.
  intros [Hr Hc Ho] Hs Hcur. assert (Eo : omap em_superseded_by (l ++ [r]) = omap em_superseded_by l).
  { rewrite omap_app. simpl. rewrite Hs. apply app_nil_r. }
  split; [| |by rewrite Eo].
  - intros r' i [Hr'| ->%list_elem_of_singleton]%elem_of_app; [|congruence]. intros (r0 & Hr0 & ?)%Hr; [|done].
    exists r0. split; [apply elem_of_app; by left|done].
  - rewrite Eo. intros r' [Hr'| ->%list_elem_of_singleton]%elem_of_app; [auto|congruence].
Qed.

Lemma history_supersede l r e now : history l -> NoDup (em_id <$> l) -> e ∈ l -> is_current e = true ->
  em_superseded_by r = Some (em_id e) -> is_current r = true -> fact_key e = fact_key r -> em_hash e <> em_hash r ->
  history (invalidate (Some (em_tenant e)) now e l ++ [r]).
Proof.
  intros [Hr Hc Ho] Hnd He Hcur Hs Hrc Hk Hh. rewrite invalidate_closes by done.
  set (g := fun r => if decide (em_id r = em_id e) then set_valid_until (Some now) r else r).
  assert (Eo : omap em_superseded_by ((g <$> l) ++ [r]) = omap em_superseded_by l ++ [em_id e]).
  { rewrite omap_app. unfold g. rewrite omap_superseded_closes. simpl. by rewrite Hs. }
  assert (Hin : forall r0, r0 ∈ l -> g r0 ∈ (g <$> l) ++ [r]) by (intros r0 Hr0; apply elem_of_app; left; by apply list_elem_of_fmap_2).
  assert (Hsame : forall r0, em_id (g r0) = em_id r0 /\ fact_key (g r0) = fact_key r0 /\ em_hash (g r0) = em_hash r0)
    by (intros r0; unfold g; by case_decide).
  split; rewrite ?Eo.
  - intros r' i [(r1 & -> & Hr1)%list_elem_of_fmap| ->%list_elem_of_singleton]%elem_of_app Hi.
    + assert (em_superseded_by r1 = Some i) as Hi1 by (revert Hi; unfold g; by case_decide).
      destruct (Hr r1 i Hr1 Hi1) as (r0 & Hr0 & Ei & Ec & Ek & Eh). exists (g r0).
      destruct (Hsame r0) as (-> & -> & ->), (Hsame r1) as (_ & -> & ->). split_and!; [by apply Hin|done| |done..].
      unfold g. by case_decide.
    + exists (g e). destruct (Hsame e) as (-> & -> & ->). split_and!; [by apply Hin|congruence| |done..].
      unfold g. by rewrite decide_True.
  - intros r' [(r1 & -> & Hr1)%list_elem_of_fmap| ->%list_elem_of_singleton]%elem_of_app Hcl; [|congruence].
    apply elem_of_app. destruct (Hsame r1) as (-> & _). destruct (decide (em_id r1 = em_id e)) as [->|Hne]; [right; by left|].
    left. apply Hc; [done|]. revert Hcl. unfold g. by rewrite decide_False.
  - apply NoDup_app. split; [done|]. split; [|apply NoDup_singleton].
    intros i Hi ->%list_elem_of_singleton. apply list_elem_of_omap in Hi as (r1 & Hr1 & Hi).
    destruct (Hr r1 _ Hr1 Hi) as (r0 & Hr0 & Ei & Ec & _). rewrite (NoDup_fmap_eq em_id l r0 e) in Ec by done. congruence.
Qed.

(** Whatever the statement saw when it started, it keeps the history. *)
Lemma upsertFactCTE_at_history seen tid id now mp f enc h d d' : NoDup (em_id <$> entity_mentions d) ->
  upsertFactCTE_at seen tid id now mp f enc h d = Ok d' -> history (entity_mentions d) -> history (entity_mentions d').
Proof.
  intros Hnd [-> [-> |(sup & -> & Hid & Hm & Hsup)]]%upsertFactCTE_at_cases Hh; [done|]. simpl. destruct sup as [e|].
  - destruct (Hsup e eq_refl) as ([He Hc]%elem_of_filter_bool & Hk & Hne).
    assert (mp_TenantID mp = em_tenant e) as -> by (unfold fact_key, payload_key in Hk; congruence).
    by apply history_supersede.
  - by apply history_add.
Qed.

Lemma upsertFactCTE_at_ids seen tid id now mp f enc h d d' : upsertFactCTE_at seen tid id now mp f enc h d = Ok d' ->
  NoDup (em_id <$> entity_mentions d) -> NoDup (em_id <$> entity_mentions d').
Proof.
  intros [-> [-> |(sup & -> & Hid & _)]]%upsertFactCTE_at_cases Hnd; [done|]. simpl.
  assert (Ei : em_id <$> closing (Some (mp_TenantID mp)) now sup (entity_mentions d) = em_id <$> entity_mentions d)
    by (destruct sup; [apply invalidate_ids|done]).
  rewrite fmap_app, Ei. apply NoDup_app. split; [done|]. split; [|apply NoDup_singleton]. by intros i Hi ->%list_elem_of_singleton.
Qed.
End History.
