(* ===== verification/MemoryRepo.v ===== *)
(** Memory records ([internal/repository/memory.go]): persona traits and life
    events, their vector search and its cold-start fallback, the feedback that
    moves a record's importance and the decay that lowers it. *)
From Stdlib Require Import Ascii String.
From S2P Require Import Prelude GoStd GoStrings Float64 Model Json Db MessageRepo EntityRepo.

Local Open Scope Z_scope.

(** ** Rows *)

Definition set_rec (f : MemoryRecord -> MemoryRecord) (r : MemoryRow) : MemoryRow :=
  mkMemoryRow (f (mem_rec r)) (mem_tenant r) (mem_user r) (mem_session r) (mem_embedding r).
Definition set_mem_embedding (e : option (list float64)) (r : MemoryRow) : MemoryRow :=
  mkMemoryRow (mem_rec r) (mem_tenant r) (mem_user r) (mem_session r) e.

Definition mem_type (r : MemoryRow) : string := mr_Type (mem_rec r).
Definition mem_importance (r : MemoryRow) : float64 := mr_Importance (mem_rec r).

Definition set_importance (i : float64) (m : MemoryRecord) : MemoryRecord :=
  mkMemoryRecord (mr_ID m) (mr_Type m) (mr_Payload m) i (mr_AccessCount m) (mr_LastAccessedAt m) (mr_CreatedAt m).

(** Column INT: adding one can leave the range. *)
Definition int4_incr (n : Z) : result Z :=
  if n <? 2 ^ 31 - 1 then Ok (n + 1) else Err "integer out of range"%string.

Definition mem_rec_desc (x y : MemoryRow) : bool := mr_CreatedAt (mem_rec y) <=? mr_CreatedAt (mem_rec x).
Definition importance_desc : MemoryRow -> MemoryRow -> bool :=
  then_by (fun x y => pg_le (mem_importance y) (mem_importance x)) mem_rec_desc.

(** An UPDATE whose new values can be in error: the first error is the
    statement's, and nothing changes. *)
Fixpoint try_update {A} (p : A -> bool) (f : A -> result A) (l : list A) : result (list A) :=
  match l with
  | [] => Ok []
  | r :: l' =>
    r' ← (if p r then f r else Ok r);
    rest ← try_update p f l'; Ok (r' :: rest)
  end.

Definition week : Z := 7 * day.

Section Memory.
Context `{UuidLib, OrderBy, PgSearch, Jsonb}.

(** The role the pool connects as is subject to the policies unless it has the
    attribute BYPASSRLS (or is a superuser). *)
Context (bypassrls : bool).
(** PostgreSQL gives the parameter of [1 - $1] the type of its other operand,
    integer; this is how pgx encodes a float64 for it. *)
Context (pgx_int4 : float64 -> result Z).

(** The columns the queries read; last_accessed_at is not one of them. *)
Definition scan_memory (r : MemoryRow) : MemoryRecord :=
  let m := mem_rec r in
  mkMemoryRecord (mr_ID m) (mr_Type m) (mr_Payload m) (mr_Importance m) (mr_AccessCount m) None (mr_CreatedAt m).

Definition scan_memories (rows : list MemoryRow) : list MemoryRecord := scan_memory <$> rows.

Definition memory_of (t u : uuid) (ty : string) (r : MemoryRow) : bool :=
  bool_decide (mem_tenant r = t) && bool_decide (mem_user r = u) && bool_decide (mem_type r = ty).

Definition select_memories (tid : option uuid) (p : MemoryRow -> bool) (d : DB) : list MemoryRow :=
  List.filter p (visible tid mem_tenant (memory_records d)).

Definition memoryFallback (ctx : context) (tenantID userID memType : string) (limit : Z) (d : DB)
  : result (list MemoryRecord) :=
  tid ← BeforeAcquire ctx; t ← to_uuid tenantID; u ← to_uuid userID; _ ← text_params [memType];
  rows ← checked_limit limit (order_by importance_desc (select_memories tid (memory_of t u memType) d));
  Ok (scan_memories rows).

(** The same query with the type persona. *)
Definition GetPersona (ctx : context) (tenantID userID : string) (limit : Z) (d : DB) : result (list MemoryRecord) :=
  tid ← BeforeAcquire ctx; t ← to_uuid tenantID; u ← to_uuid userID;
  rows ← checked_limit limit (order_by importance_desc (select_memories tid (memory_of t u "persona") d));
  Ok (scan_memories rows).

(** *** Inserting *)

Definition no_rows : error := "no rows in result set"%string.

Definition new_memory (id : uuid) (now : time) (t u s : uuid) (ty payload : string) (importance : float64) : MemoryRow :=
  mkMemoryRow (mkMemoryRecord id ty payload importance 0 None now) t u (Some s) None.

Definition insert_memory_row (tid : option uuid) (r : MemoryRow) (d : DB) : result DB :=
  if negb (policy tid (mem_tenant r)) then Err rls_violation
  else if existsb (fun e => bool_decide (mr_ID (mem_rec e) = mr_ID (mem_rec r))) (memory_records d) then Err duplicate_key
  else Ok (set_memory_records (fun l => l ++ [r]) d).

Definition trait_payload (trait : string) : string := json_object [("trait"%string, trait)].

(** The WHERE of the NOT EXISTS: the same trait is already there. *)
Definition has_trait (t u : uuid) (trait : string) (r : MemoryRow) : bool :=
  memory_of t u "persona" r && bool_decide (jsonb_text (mr_Payload (mem_rec r)) "trait" = Some trait).

(** One statement of UpsertPersona, for a trimmed trait. *)
Definition insert_trait (ctx : context) (tenantID userID sessionID : string) (id : uuid) (now : time)
    (trait : string) (d : DB) : result DB :=
  tid ← BeforeAcquire ctx; t ← to_uuid tenantID; u ← to_uuid userID; s ← to_uuid sessionID; _ ← text_params [trait];
  match jsonb_in (trait_payload trait) with
  | None => Err "invalid input syntax for type json"%string
  | Some payload =>
    if existsb (has_trait t u trait) (visible tid mem_tenant (memory_records d)) then Err no_rows
    else insert_memory_row tid (new_memory id now t u s "persona" payload (f_of_Z 1)) d
  end.

(** [newTraits] come with the id and the time the database will give the row of
    each.  A trait whose statement fails is skipped; the ids returned are those
    of the rows inserted. *)
Fixpoint UpsertPersona (ctx : context) (tenantID userID sessionID : string)
    (newTraits : list (uuid * time * string)) (d : DB) : DB * list uuid :=
  match newTraits with
  | [] => (d, [])
  | (id, now, trait) :: rest =>
    let trait := TrimSpace trait in
    if decide (trait = EmptyString) then UpsertPersona ctx tenantID userID sessionID rest d
    else
      match insert_trait ctx tenantID userID sessionID id now trait d with
      | Err _ => UpsertPersona ctx tenantID userID sessionID rest d
      | Ok d' =>
        let '(d'', ids) := UpsertPersona ctx tenantID userID sessionID rest d' in (d'', id :: ids)
      end
  end.

Definition UpdatePersonaEmbeddingsBatch (ctx : context) (tenantID : string) (ids : list uuid)
    (embeddings : list (list float64)) (d : DB) : DB * result unit :=
  let items := zip ids embeddings in
  if decide (items = []) then (d, Ok tt)
  else
    match (tid ← BeforeAcquire ctx; t ← to_uuid tenantID; Ok (tid, t)) with
    | Err _ => (d, Ok tt)
    | Ok (tid, t) =>
      let update (p : uuid * list float64) (d : DB) : result DB :=
        i ← to_uuid p.1; _ ← vector_param p.2;
        Ok (set_memory_records (update_visible tid mem_tenant
              (fun r => bool_decide (mr_ID (mem_rec r) = i) && bool_decide (mem_tenant r = t))
              (set_mem_embedding (Some p.2))) d) in
      (SendBatch (update <$> items) d, Ok tt)
    end.

(** The importance of a new life event. *)
Definition event_importance : float64 := f_lit 8 10.

(** The statement of UpsertEvent and UpsertEventBatch. *)
Definition upsert_event (tid : option uuid) (tenantID userID sessionID : string) (id : uuid) (now : time)
    (payload : string) (d : DB) : result DB :=
  t ← to_uuid tenantID; u ← to_uuid userID; s ← to_uuid sessionID;
  match jsonb_in payload with
  | None => Err "invalid input syntax for type json"%string
  | Some p =>
    if existsb (fun r => memory_of t u "life_event" r && bool_decide (mr_Payload (mem_rec r) = p))
         (visible tid mem_tenant (memory_records d)) then Ok d
    else insert_memory_row tid (new_memory id now t u s "life_event" p event_importance) d
  end.

Definition UpsertEvent (ctx : context) (tenantID userID sessionID : string) (id : uuid) (now : time)
    (payload : string) (d : DB) : result DB :=
  tid ← BeforeAcquire ctx; upsert_event tid tenantID userID sessionID id now payload d.

Definition UpsertEventBatch (ctx : context) (tenantID userID sessionID : string)
    (payloads : list (uuid * time * string)) (d : DB) : DB * result unit :=
  match BeforeAcquire ctx with
  | Err _ => (d, Ok tt)
  | Ok tid => (SendBatch ((fun '(id, now, p) => upsert_event tid tenantID userID sessionID id now p) <$> payloads) d, Ok tt)
  end.

Definition InsertEvent (ctx : context) (tenantID userID sessionID : string) (id : uuid) (now : time)
    (payload : string) (d : DB) : result DB :=
  tid ← BeforeAcquire ctx; t ← to_uuid tenantID; u ← to_uuid userID; s ← to_uuid sessionID;
  match jsonb_in payload with
  | None => Err "invalid input syntax for type json"%string
  | Some p => insert_memory_row tid (new_memory id now t u s "life_event" p event_importance) d
  end.

(** *** Upcoming events *)

(** NULLIF(payload->>'date', 'unspecified')::timestamptz *)
Definition event_date (r : MemoryRow) : result (option time) :=
  match jsonb_text (mr_Payload (mem_rec r)) "date" with
  | None => Ok None
  | Some s =>
    if decide (s = "unspecified"%string) then Ok None
    else match timestamptz_in s with
         | Some t => Ok (Some t)
         | None => Err "invalid input syntax for type timestamp with time zone"%string
         end
  end.

Definition dated (r : MemoryRow) : result (MemoryRow * option time) := dt ← event_date r; Ok (r, dt).

(** The two keys of the ORDER BY. *)
Definition event_rank (query : string) (x : MemoryRow * option time) : float64 :=
  if decide (query <> EmptyString)
  then ts_rank (unaccent (default EmptyString (jsonb_text (mr_Payload (mem_rec x.1)) "event_name"))) (unaccent query)
  else f_of_Z 0.
Definition event_gap (now : time) (x : MemoryRow * option time) : Z :=
  Z.abs (default (mr_CreatedAt (mem_rec x.1)) x.2 - now).
Definition by_event (query : string) (now : time) : MemoryRow * option time -> MemoryRow * option time -> bool :=
  then_by (fun x y => pg_le (event_rank query y) (event_rank query x)) (fun x y => event_gap now x <=? event_gap now y).

Definition recent_event (now : time) (x : MemoryRow * option time) : bool :=
  match x.2 with None => true | Some t => now - week <=? t end.

Definition GetUpcomingEvents (ctx : context) (tenantID userID query : string) (limit : Z) (now : time) (d : DB)
  : result (list MemoryRecord) :=
  rows ← Query ctx (fun tid => t ← to_uuid tenantID; u ← to_uuid userID; _ ← text_params [query];
    events ← scan_all dated (select_memories tid (memory_of t u "life_event") d);
    checked_limit limit (order_by (by_event query now) (List.filter (recent_event now) events)));
  Ok (scan_memories rows.*1).

(** *** Vector search *)

Definition mem_distance (q : list float64) (r : MemoryRow) : float64 :=
  match mem_embedding r with Some e => cosine_distance e q | None => SpecFloat.S754_nan end.
Definition by_mem_distance (q : list float64) (x y : MemoryRow) : bool := pg_le (mem_distance q x) (mem_distance q y).

(** The records a query ordered by [<=>] can find: those the index reaches,
    among the records of all tenants. *)
Definition reached_memories (q : list float64) (d : DB) : DB := set_memory_records (reached_rows mem_embedding q) d.

(** ROW_NUMBER() OVER (PARTITION BY type ORDER BY embedding <=> $3) <= $5, for
    one type. *)
Definition nearest_of_type (tid : option uuid) (t u : uuid) (q : list float64) (k : Z) (d : DB) (ty : string)
  : list MemoryRecord :=
  scan_memories (limit_rows k (order_by (by_mem_distance q)
    (select_memories tid (fun r => memory_of t u ty r && negb (bool_decide (mem_embedding r = None)))
       (reached_memories q d)))).

(** A type without records has no entry in the result. *)
Definition put_records (ty : string) (l : list MemoryRecord) (m : gmap string (list MemoryRecord))
  : gmap string (list MemoryRecord) := if decide (l = []) then m else <[ty := l]> m.

Definition SearchByVectorPerType (ctx : context) (tenantID userID : string) (embedding : list float64)
    (types : list string) (topKPerType : Z) (d : DB) : result (gmap string (list MemoryRecord)) :=
  tid ← BeforeAcquire ctx; t ← to_uuid tenantID; u ← to_uuid userID; _ ← vector_param embedding; _ ← text_params types;
  let found := foldr (fun ty => put_records ty (nearest_of_type tid t u embedding topKPerType d ty)) ∅ types in
  if decide (found = ∅) then
    Ok (foldl (fun m ty =>
          match memoryFallback ctx tenantID userID ty topKPerType d with
          | Ok l => put_records ty l m
          | Err _ => m
          end) ∅ types)
  else Ok found.

(** *** Importance *)

Definition floor_importance : float64 := f_lit 1 100.
Definition feedback_delta (positive : bool) : float64 := if positive then f_lit 1 10 else SpecFloat.SFopp (f_lit 1 10).
Definition adjust_importance (positive : bool) (i : float64) : float64 :=
  LEAST (f_of_Z 1) (GREATEST floor_importance (fadd i (feedback_delta positive))).

Definition feedback_row (positive : bool) (now : time) (r : MemoryRow) : result MemoryRow :=
  n ← int4_incr (mr_AccessCount (mem_rec r));
  Ok (set_rec (fun m => mkMemoryRecord (mr_ID m) (mr_Type m) (mr_Payload m)
        (adjust_importance positive (mr_Importance m)) n (Some now) (mr_CreatedAt m)) r).

Definition RecordFeedback (ctx : context) (tenantID userID itemID : string) (positive : bool) (now : time) (d : DB)
  : result DB :=
  tid ← BeforeAcquire ctx; t ← to_uuid tenantID; u ← to_uuid userID; i ← to_uuid itemID;
  l ← try_update (fun r => policy tid (mem_tenant r) && (bool_decide (mem_tenant r = t) &&
        bool_decide (mem_user r = u) && bool_decide (mr_ID (mem_rec r) = i)))
      (feedback_row positive now) (memory_records d);
  Ok (set_memory_records (fun _ => l) d).

(** The types the maintenance job ages. *)
Definition decaying_types : list string := ["life_event"; "user_character"; "persona"; "persona_context"]%string.

Definition stale (now : time) (olderThanDays : Z) (r : MemoryRow) : bool :=
  bool_decide (mem_type r ∈ decaying_types) &&
  match mr_LastAccessedAt (mem_rec r) with
  | None => true
  | Some t => t <? now - olderThanDays * day
  end.

(** SET LOCAL row_security = off does not lift a policy: a statement a policy
    would filter fails instead. *)
Definition DecayImportance (ctx : context) (rate : float64) (olderThanDays : Z) (now : time) (d : DB)
  : result (DB * Z) :=
  _ ← Acquire ctx;
  if negb bypassrls then Err "query would be affected by row-level security policy"%string
  else
    k ← pgx_int4 rate;
    let age r := if stale now olderThanDays r
                 then set_rec (set_importance (GREATEST floor_importance (fmul (mem_importance r) (f_of_Z (1 - k))))) r
                 else r in
    Ok (set_memory_records (fmap age) d, Z.of_nat (length (List.filter (stale now olderThanDays) (memory_records d)))).
End Memory.

(** ** Lemmas *)

Lemma try_update_Ok {A} (p : A -> bool) f (l l' : list A) : try_update p f l = Ok l' ->
  Forall2 (fun r r' => if p r then f r = Ok r' else r' = r) l l'.
Proof.
  revert l'. induction l as [|r l IH]; intros l' Hl; simpl in Hl; [injection Hl as <-; constructor|].
  apply result_bind_Ok in Hl as (r' & Hr & (rest & Hrest & Hl)%result_bind_Ok). injection Hl as <-.
  constructor; [|by apply IH]. destruct (p r); [done|congruence].
Qed.

Lemma try_update_succeeds {A} (p : A -> bool) f (l : list A) :
  Forall (fun r => p r = true -> exists r', f r = Ok r') l -> exists l', try_update p f l = Ok l'.
Proof.
  induction 1 as [|r l Hr _ [l' IH]]; [by eexists|]. simpl. destruct (p r) eqn:Ep.
  - destruct Hr as [r' ->]; [done|]. cbn [mbind result_bind]. rewrite IH. by eexists.
  - cbn [mbind result_bind]. rewrite IH. by eexists.
Qed.

Section MemoryLemmas.
Context `{UuidLib, OrderBy, PgSearch, Jsonb}.

(** No trait of a user is recorded twice. *)
Definition same_trait (t u : uuid) (trait : string) (d : DB) : list MemoryRow :=
  List.filter (has_trait t u trait) (memory_records d).
Definition traits_unique (d : DB) : Prop :=
  forall t u trait, (length (same_trait t u trait d) <= 1)%nat.

Lemma has_trait_tenant t u trait r : has_trait t u trait r = true -> mem_tenant r = t.
Proof. unfold has_trait, memory_of. rewrite !andb_true_iff, !bool_decide_eq_true. tauto. Qed.

(** The trait is looked for among the rows the connection sees. *)
Lemma existsb_has_trait t u trait d :
  existsb (has_trait t u trait) (visible (Some t) mem_tenant (memory_records d)) = true <->
  same_trait t u trait d <> [].
Proof.
  rewrite existsb_exists. split.
  - intros (r & [Hr _]%list_elem_of_In%elem_of_visible & Ht) E.
    apply (not_elem_of_nil r). rewrite <-E. by apply elem_of_filter_bool.
  - destruct (same_trait t u trait d) as [|r l] eqn:E; [done|]. intros _. exists r.
    assert (Hr : r ∈ same_trait t u trait d) by (rewrite E; by left).
    apply elem_of_filter_bool in Hr as [Hr Ht]. split; [|done].
    apply list_elem_of_In, elem_of_visible. by rewrite (has_trait_tenant _ _ _ _ Ht).
Qed.

Lemma insert_memory_row_ok tid r d d' : insert_memory_row tid r d = Ok d' ->
  d' = set_memory_records (fun l => l ++ [r]) d.
Proof. unfold insert_memory_row. intros. by repeat case_match; simplify_eq. Qed.

Lemma insert_trait_ok ctx t u s id now trait d d' : live ctx -> canonical t -> canonical u -> canonical s -> storable trait ->
  insert_trait (WithTenantID ctx t) t u s id now trait d = Ok d' ->
  same_trait t u trait d = [] /\
  exists r, d' = set_memory_records (fun l => l ++ [r]) d /\ mr_ID (mem_rec r) = id /\
    forall t' u' trait', has_trait t' u' trait' r = bool_decide (t' = t /\ u' = u /\ trait' = trait).
Proof.
  intros Hlive Ht Hu Hs Htrait. unfold insert_trait.
  rewrite BeforeAcquire_canonical, (to_uuid_canonical t), (to_uuid_canonical u), (to_uuid_canonical s) by done.
  rewrite (text_params_Ok [trait]) by by constructor. cbn [mbind result_bind]. destruct (jsonb_in_member "trait" trait) as (payload & Hin & Hget); [by vm_compute; repeat constructor|done|].
  unfold trait_payload. rewrite Hin. destruct (existsb _ _) eqn:E; [done|]. intros Hd.
  split.
  - destruct (same_trait t u trait d) eqn:E'; [done|]. exfalso. revert E. apply not_false_iff_true, existsb_has_trait. by rewrite E'.
  - eexists. split; [by eapply insert_memory_row_ok|]. split; [done|].
    intros t' u' trait'. unfold has_trait, memory_of, mem_type. simpl. rewrite Hget.
    apply eq_bool_prop_intro. rewrite !andb_True, !bool_decide_spec. naive_solver.
Qed.

Lemma insert_trait_twice ctx t u s id now trait d : live ctx -> canonical t -> canonical u -> canonical s -> storable trait ->
  same_trait t u trait d <> [] -> insert_trait (WithTenantID ctx t) t u s id now trait d = Err no_rows.
Proof.
  intros Hlive Ht Hu Hs Htrait Hin. unfold insert_trait.
  rewrite BeforeAcquire_canonical, (to_uuid_canonical t), (to_uuid_canonical u), (to_uuid_canonical s) by done.
  rewrite (text_params_Ok [trait]) by by constructor. cbn [mbind result_bind]. destruct (jsonb_in_member "trait" trait) as (payload & Hj & _); [by vm_compute; repeat constructor|done|].
  unfold trait_payload. rewrite Hj. apply existsb_has_trait in Hin. by rewrite Hin.
Qed.

Lemma insert_trait_fresh ctx t u s id now trait d : live ctx -> canonical t -> canonical u -> canonical s -> storable trait ->
  id ∉ mr_ID ∘ mem_rec <$> memory_records d -> same_trait t u trait d = [] ->
  exists d', insert_trait (WithTenantID ctx t) t u s id now trait d = Ok d'.
Proof.
  intros Hlive Ht Hu Hs Htrait Hid Hno. unfold insert_trait.
  rewrite BeforeAcquire_canonical, (to_uuid_canonical t), (to_uuid_canonical u), (to_uuid_canonical s) by done.
  rewrite (text_params_Ok [trait]) by by constructor. cbn [mbind result_bind]. destruct (jsonb_in_member "trait" trait) as (payload & Hj & _); [by vm_compute; repeat constructor|done|].
  unfold trait_payload. rewrite Hj. destruct (existsb (has_trait _ _ _) _) eqn:E; [by apply existsb_has_trait in E|].
  unfold insert_memory_row, policy. simpl. rewrite bool_decide_true by done. simpl.
  destruct (existsb _ (memory_records d)) eqn:E'; [|by eexists].
  apply existsb_exists in E' as (e & He%list_elem_of_In & Ee). apply bool_decide_eq_true in Ee. destruct Hid.
  rewrite <-Ee. apply (list_elem_of_fmap_2 (mr_ID ∘ mem_rec)). done.
Qed.

Lemma same_trait_app t u trait r d :
  same_trait t u trait (set_memory_records (fun l => l ++ [r]) d) =
  same_trait t u trait d ++ (if has_trait t u trait r then [r] else []).
Proof. unfold same_trait. simpl. by rewrite List.filter_app. Qed.

Lemma insert_trait_unique ctx t u s id now trait d d' : live ctx -> canonical t -> canonical u -> canonical s -> storable trait ->
  insert_trait (WithTenantID ctx t) t u s id now trait d = Ok d' -> traits_unique d -> traits_unique d'.
Proof.
  intros Hlive Ht Hu Hs Htr (Hno & r & -> & _ & Hr)%insert_trait_ok Hd t' u' trait'; try done.
  rewrite same_trait_app, Hr. case_bool_decide as E; [|rewrite app_nil_r; apply Hd].
  destruct E as (-> & -> & ->). rewrite Hno. simpl. lia.
Qed.

Lemma insert_trait_keeps ctx t u s id now trait d d' t' u' trait' : live ctx -> canonical t -> canonical u -> canonical s -> storable trait ->
  insert_trait (WithTenantID ctx t) t u s id now trait d = Ok d' ->
  same_trait t' u' trait' d <> [] -> same_trait t' u' trait' d' <> [].
Proof.
  intros Hlive Ht Hu Hs Htr (Hno & r & -> & _ & Hr)%insert_trait_ok Hin; try done.
  rewrite same_trait_app. by intros [? _]%app_nil.
Qed.

(** A list of traits that are all there already inserts nothing. *)
Lemma UpsertPersona_idle ctx t u s items d : live ctx -> canonical t -> canonical u -> canonical s ->
  Forall (fun x => storable (TrimSpace x.2) /\
    (TrimSpace x.2 <> EmptyString -> same_trait t u (TrimSpace x.2) d <> [])) items ->
  UpsertPersona (WithTenantID ctx t) t u s items d = (d, []).
Proof.
  intros Hlive Ht Hu Hs. induction 1 as [|[[id now] trait] items [Hst Hin] _ IH]; [done|]. simpl in *.
  case_decide as E; [done|]. rewrite insert_trait_twice by auto. done.
Qed.

Lemma UpsertPersona_ind ctx t u s items : live ctx -> canonical t -> canonical u -> canonical s ->
  Forall (fun x => storable (TrimSpace x.2)) items -> forall d d' ids,
  UpsertPersona (WithTenantID ctx t) t u s items d = (d', ids) ->
  (traits_unique d -> traits_unique d') /\
  (forall t' u' trait', same_trait t' u' trait' d <> [] -> same_trait t' u' trait' d' <> []) /\
  (exists rows, memory_records d' = memory_records d ++ rows /\ mr_ID ∘ mem_rec <$> rows = ids) /\
  ids ⊆ (fun x => x.1.1) <$> items.
Proof.
  intros Hlive Ht Hu Hs. induction 1 as [|[[id now] trait] items Hst _ IH]; intros d d' ids Hd; simpl in *.
  { injection Hd as <- <-. split_and!; [done..| |set_solver]. exists []. by rewrite app_nil_r. }
  case_decide as E.
  { apply IH in Hd as (? & ? & ? & ?). split_and!; [done..|]. set_solver. }
  destruct (insert_trait _ _ _ _ _ _ _ _) as [d1|e] eqn:Ei.
  2: { apply IH in Hd as (? & ? & ? & ?). split_and!; [done..|]. set_solver. }
  destruct (UpsertPersona _ _ _ _ _ d1) as [d2 ids2] eqn:Ed. injection Hd as <- <-.
  apply IH in Ed as (Hu2 & Hk2 & (rows & Hrows & Hids) & Hsub).
  pose proof Ei as (Hno & r & -> & Hid & _)%insert_trait_ok; try done. split_and!.
  - intros Hd. apply Hu2. eapply insert_trait_unique; [..|exact Ei|done]; done.
  - intros t' u' trait' Hin. apply Hk2. eapply insert_trait_keeps; [..|exact Ei|done]; done.
  - exists (r :: rows). rewrite Hrows. simpl. rewrite <-(assoc_L (++)). split; [done|]. by rewrite <-Hids, <-Hid.
  - set_solver.
Qed.

Lemma UpsertPersona_complete ctx t u s items : live ctx -> canonical t -> canonical u -> canonical s ->
  Forall (fun x => storable (TrimSpace x.2)) items -> forall d d' ids,
  NoDup ((fun x => x.1.1) <$> items) ->
  Forall (fun x => x.1.1 ∉ mr_ID ∘ mem_rec <$> memory_records d) items ->
  UpsertPersona (WithTenantID ctx t) t u s items d = (d', ids) ->
  Forall (fun x => TrimSpace x.2 <> EmptyString -> same_trait t u (TrimSpace x.2) d' <> []) items.
Proof.
  intros Hlive Ht Hu Hs. induction 1 as [|[[id now] trait] items Hst Hitems IH]; intros d d' ids Hnd Hfresh Hd; simpl in *; [constructor|].
  apply NoDup_cons in Hnd as [Hnid Hnd]. apply Forall_cons in Hfresh as [Hid Hfresh]. simpl in Hid.
  case_decide as E; [by constructor; [|eapply IH]|].
  destruct (insert_trait _ _ _ _ _ _ _ _) as [d1|e] eqn:Ei.
  - destruct (UpsertPersona _ _ _ _ _ d1) as [d2 ids2] eqn:Ed. injection Hd as <- <-.
    pose proof Ei as (Hno & r & -> & Hrid & Hr)%insert_trait_ok; try done.
    constructor; simpl.
    + intros _. eapply (UpsertPersona_ind ctx t u s items); try done.
      rewrite same_trait_app, Hr, bool_decide_true by done. by intros [_ ?]%app_nil.
    + eapply IH; [done| |exact Ed]. rewrite Forall_forall in *. intros x Hx. simpl. rewrite fmap_app, elem_of_app.
      intros [Hin|Hin]; [by apply (Hfresh x)|]. apply Hnid. apply list_elem_of_singleton in Hin.
      apply list_elem_of_fmap. exists x. simpl in Hin. by rewrite Hin, Hrid.
  - constructor; simpl; [|by eapply IH]. intros _.
    eapply (UpsertPersona_ind ctx t u s items); try done.
    intros Hno. destruct (insert_trait_fresh ctx t u s id now (TrimSpace trait) d) as [d1 Hd1]; try done. congruence.
Qed.

(** *** What the writes leave alone *)

Definition memories_only (d d' : DB) : Prop := d' = set_memory_records (fun _ => memory_records d') d.

Lemma memories_only_refl d : memories_only d d.
Proof. by destruct d. Qed.
Lemma memories_only_trans d1 d2 d3 : memories_only d1 d2 -> memories_only d2 d3 -> memories_only d1 d3.
Proof. unfold memories_only. intros ->. by intros ->. Qed.

(** A write of this table under a tenant's connection: other tables stay, and
    so do the rows other tenants see. *)
Record memory_write (tid : option uuid) (d d' : DB) : Prop := {
  mw_only : memories_only d d';
  mw_other t' : tid <> Some t' ->
    visible (Some t') mem_tenant (memory_records d') = visible (Some t') mem_tenant (memory_records d);
}.

Lemma memory_write_refl tid d : memory_write tid d d.
Proof. split; [apply memories_only_refl|done]. Qed.
Lemma memory_write_trans tid d1 d2 d3 : memory_write tid d1 d2 -> memory_write tid d2 d3 -> memory_write tid d1 d3.
Proof.
  intros [H12 O12] [H23 O23]. split; [by eapply memories_only_trans|]. intros t' Ht. by rewrite O23, O12.
Qed.

Lemma insert_memory_row_write tid r d d' : insert_memory_row tid r d = Ok d' -> memory_write tid d d'.
Proof.
  intros Hi. pose proof Hi as ->%insert_memory_row_ok. split; [done|]. intros t' Ht. simpl.
  unfold insert_memory_row, policy in Hi. case_bool_decide as Hp; [|done]. rewrite visible_app.
  unfold visible at 2, policy. simpl. rewrite bool_decide_false by congruence. apply app_nil_r.
Qed.

Lemma update_memories_write tid p g d : (forall r, mem_tenant (g r) = mem_tenant r) ->
  memory_write tid d (set_memory_records (update_visible tid mem_tenant p g) d).
Proof. intros Hg. split; [done|]. intros t' Ht. by apply visible_other. Qed.

Lemma SendBatch_memory_write tid stmts d :
  Forall (fun st : DB -> result DB => forall d d', st d = Ok d' -> memory_write tid d d') stmts ->
  memory_write tid d (SendBatch stmts d).
Proof.
  intros Hst. apply (SendBatch_ind (memory_write tid d)); [|apply memory_write_refl].
  eapply Forall_impl; [exact Hst|]. intros st Hok d1 d2 Hd1 Hd2. eapply memory_write_trans; eauto.
Qed.

Lemma upsert_event_write tid t u s id now payload d d' :
  upsert_event tid t u s id now payload d = Ok d' -> memory_write tid d d'.
Proof.
  unfold upsert_event. intros (? & _ & (? & _ & (? & _ & Hd)%result_bind_Ok)%result_bind_Ok)%result_bind_Ok.
  destruct (jsonb_in payload); [|done]. case_match; [injection Hd as <-; apply memory_write_refl|].
  by eapply insert_memory_row_write.
Qed.

(** [tid]: the tenant of the connections the context is given, if any. *)
Lemma UpsertEventBatch_write ctx t u s items d tid : (forall o, BeforeAcquire ctx = Ok o -> o = tid) ->
  memory_write tid d (UpsertEventBatch ctx t u s items d).1.
Proof.
  intros Htid. unfold UpsertEventBatch. destruct (BeforeAcquire ctx) as [o|]; [|apply memory_write_refl].
  rewrite (Htid o eq_refl). simpl. apply SendBatch_memory_write, Forall_fmap, Forall_true.
  intros [[id now] p] d1 d2. apply upsert_event_write.
Qed.

Lemma insert_trait_write ctx t u s id now trait d d' tid : (forall o, BeforeAcquire ctx = Ok o -> o = tid) ->
  insert_trait ctx t u s id now trait d = Ok d' -> memory_write tid d d'.
Proof.
  intros Htid. unfold insert_trait.
  intros (o & Ho & (? & _ & (? & _ & (? & _ & (? & _ & Hd)%result_bind_Ok)%result_bind_Ok)%result_bind_Ok)%result_bind_Ok)%result_bind_Ok.
  rewrite (Htid o Ho) in Hd. destruct (jsonb_in _); [|done]. case_match; [done|]. by eapply insert_memory_row_write.
Qed.

Lemma UpsertPersona_write ctx t u s items d tid : (forall o, BeforeAcquire ctx = Ok o -> o = tid) ->
  memory_write tid d (UpsertPersona ctx t u s items d).1.
Proof.
  intros Htid. revert d. induction items as [|[[id now] trait] items IH]; intros d; simpl; [apply memory_write_refl|].
  case_decide; [apply IH|]. destruct (insert_trait _ _ _ _ _ _ _ _) as [d1|] eqn:Ei; [|apply IH].
  specialize (IH d1). destruct (UpsertPersona ctx t u s items d1) as [d2 ids]. simpl in *.
  eapply memory_write_trans; [|exact IH]. by eapply insert_trait_write.
Qed.

Lemma UpdatePersonaEmbeddingsBatch_write ctx t ids embeddings d tid : (forall o, BeforeAcquire ctx = Ok o -> o = tid) ->
  memory_write tid d (UpdatePersonaEmbeddingsBatch ctx t ids embeddings d).1.
Proof.
  intros Htid. unfold UpdatePersonaEmbeddingsBatch. case_decide; [apply memory_write_refl|].
  destruct (BeforeAcquire ctx) as [o|]; simpl; [|apply memory_write_refl]. destruct (to_uuid t); simpl; [|apply memory_write_refl].
  rewrite (Htid o eq_refl). apply SendBatch_memory_write, Forall_fmap, Forall_true. intros [i v] d1 d2.
  simpl. intros (? & _ & (? & _ & [= <-])%result_bind_Ok)%result_bind_Ok. by apply update_memories_write.
Qed.

(** *** What is recorded stays recorded

    Rows are only added, and only their embeddings change. *)
Definition erased (r : MemoryRow) : MemoryRow := set_mem_embedding None r.
Definition grows (d d' : DB) : Prop :=
  forall r, r ∈ memory_records d -> exists r', r' ∈ memory_records d' /\ erased r' = erased r.

Lemma grows_trans d1 d2 d3 : grows d1 d2 -> grows d2 d3 -> grows d1 d3.
Proof. intros H12 H23 r (r' & Hr' & <-)%H12. by apply H23. Qed.
Lemma grows_erased d d' : erased <$> memory_records d' = erased <$> memory_records d -> grows d d'.
Proof.
  intros E r Hr. apply (list_elem_of_fmap_2 erased) in Hr. rewrite <-E in Hr. apply list_elem_of_fmap in Hr as (r' & ? & ?). eauto.
Qed.
Lemma grows_app d d' rows : memory_records d' = memory_records d ++ rows -> grows d d'.
Proof. intros E r Hr. exists r. rewrite E, elem_of_app. auto. Qed.

Lemma same_trait_grows t u trait d d' : grows d d' -> same_trait t u trait d <> [] -> same_trait t u trait d' <> [].
Proof.
  intros Hg Hin. destruct (same_trait t u trait d) as [|r l] eqn:E; [done|].
  assert (Hr : r ∈ same_trait t u trait d) by (rewrite E; by left). apply elem_of_filter_bool in Hr as [Hr Ht].
  destruct (Hg r Hr) as (r' & Hr' & Ee). intros E'. apply (not_elem_of_nil r'). rewrite <-E'. apply elem_of_filter_bool.
  split; [done|]. destruct r, r'. unfold erased, set_mem_embedding in Ee. simpl in Ee. injection Ee as -> -> -> ->. exact Ht.
Qed.

Lemma UpdatePersonaEmbeddingsBatch_erased ctx t ids embeddings d :
  erased <$> memory_records (UpdatePersonaEmbeddingsBatch ctx t ids embeddings d).1 = erased <$> memory_records d.
Proof.
  unfold UpdatePersonaEmbeddingsBatch. case_decide; [done|].
  destruct (BeforeAcquire ctx) as [o|]; simpl; [|done]. destruct (to_uuid t); simpl; [|done].
  apply (SendBatch_ind (fun d' => erased <$> memory_records d' = erased <$> memory_records d)); [|done].
  apply Forall_fmap, Forall_true. intros [i v] d1 d2 E. simpl. intros (? & _ & (? & _ & [= <-])%result_bind_Ok)%result_bind_Ok.
  rewrite <-E. simpl. unfold update_visible. rewrite <-list_fmap_compose. apply list_fmap_ext. intros k r _. simpl. by case_match.
Qed.

(** *** Events *)

Definition has_event (t u : uuid) (p : string) (r : MemoryRow) : bool :=
  memory_of t u "life_event" r && bool_decide (mr_Payload (mem_rec r) = p).
Definition recorded_event (t u : uuid) (p : string) (d : DB) : Prop :=
  exists r, r ∈ memory_records d /\ has_event t u p r = true.

Lemma recorded_event_grows t u p d d' : grows d d' -> recorded_event t u p d -> recorded_event t u p d'.
Proof.
  intros Hg (r & (r' & Hr' & Ee)%Hg & Hp). exists r'. split; [done|].
  destruct r, r'. unfold erased, set_mem_embedding in Ee. simpl in Ee. injection Ee as -> -> -> ->. exact Hp.
Qed.

Lemma existsb_has_event t u p d :
  existsb (has_event t u p) (visible (Some t) mem_tenant (memory_records d)) = true <-> recorded_event t u p d.
Proof.
  rewrite existsb_exists. split.
  - intros (r & [Hr _]%list_elem_of_In%elem_of_visible & Hp). by exists r.
  - intros (r & Hr & Hp). exists r. split; [|done]. apply list_elem_of_In, elem_of_visible. split; [done|].
    unfold has_event, memory_of in Hp. rewrite !andb_true_iff, !bool_decide_eq_true in Hp. by destruct Hp as [[[-> _] _] _].
Qed.

Section Events.
Context (t u s : uuid) (Ht : canonical t) (Hu : canonical u) (Hs : canonical s).

Lemma upsert_event_bad id now payload d : jsonb_in payload = None -> exists e, upsert_event (Some t) t u s id now payload d = Err e.
Proof.
  intros Hj. unfold upsert_event. rewrite (to_uuid_canonical t), (to_uuid_canonical u), (to_uuid_canonical s) by done.
  cbn [mbind result_bind]. rewrite Hj. by eexists.
Qed.

Lemma upsert_event_recorded id now payload p d : jsonb_in payload = Some p -> recorded_event t u p d ->
  upsert_event (Some t) t u s id now payload d = Ok d.
Proof.
  intros Hj Hp%existsb_has_event. unfold upsert_event.
  rewrite (to_uuid_canonical t), (to_uuid_canonical u), (to_uuid_canonical s) by done. cbn [mbind result_bind].
  rewrite Hj. fold (has_event t u p). by rewrite Hp.
Qed.

Lemma upsert_event_new id now payload p d : jsonb_in payload = Some p -> id ∉ mr_ID ∘ mem_rec <$> memory_records d ->
  exists d', upsert_event (Some t) t u s id now payload d = Ok d' /\ recorded_event t u p d' /\ grows d d' /\
    (mr_ID ∘ mem_rec <$> memory_records d') ⊆ id :: (mr_ID ∘ mem_rec <$> memory_records d).
Proof.
  intros Hj Hid. destruct (existsb (has_event t u p) (visible (Some t) mem_tenant (memory_records d))) eqn:E.
  { apply existsb_has_event in E. exists d. split; [by eapply upsert_event_recorded|]. split; [done|].
    split; [|set_solver]. by apply grows_erased. }
  unfold upsert_event. rewrite (to_uuid_canonical t), (to_uuid_canonical u), (to_uuid_canonical s) by done.
  cbn [mbind result_bind]. rewrite Hj. fold (has_event t u p). rewrite E. unfold insert_memory_row, policy. simpl.
  rewrite bool_decide_true by done. simpl.
  destruct (existsb _ (memory_records d)) eqn:E'.
  { apply existsb_exists in E' as (e & He%list_elem_of_In & Ee). apply bool_decide_eq_true in Ee. destruct Hid.
    rewrite <-Ee. apply (list_elem_of_fmap_2 (mr_ID ∘ mem_rec)). done. }
  eexists. split; [done|]. split_and!.
  - eexists. simpl. rewrite elem_of_app, list_elem_of_singleton. split; [by right|].
    unfold has_event, memory_of, mem_type. simpl. by rewrite !bool_decide_true by done.
  - by eapply grows_app.
  - simpl. rewrite fmap_app. simpl. set_solver.
Qed.

Definition event_stmts (items : list (uuid * time * string)) : list (DB -> result DB) :=
  (fun '(id, now, p) => upsert_event (Some t) t u s id now p) <$> items.

(** A batch with a payload the database does not take is refused whole. *)
Lemma event_stmts_bad items d x : x ∈ items -> jsonb_in x.2 = None -> SendBatch (event_stmts items) d = d.
Proof.
  intros Hx Hj. unfold SendBatch. enough (forall d, exists e, run_batch (event_stmts items) d = Err e) as He
    by (by destruct (He d) as [e ->]). clear d.
  induction items as [|[[id now] p] items IH]; [by apply not_elem_of_nil in Hx|]. intros d. simpl.
  apply elem_of_cons in Hx as [->|Hx].
  - destruct (upsert_event_bad id now p d) as [e ->]; [done|]. by eexists.
  - destruct (upsert_event _ _ _ _ _ _ _ _) as [d1|e]; [by apply IH|by eexists].
Qed.

Lemma event_stmts_record items : forall d,
  NoDup ((fun x => x.1.1) <$> items) -> Forall (fun x => x.1.1 ∉ mr_ID ∘ mem_rec <$> memory_records d) items ->
  Forall (fun x => jsonb_in x.2 <> None) items ->
  grows d (SendBatch (event_stmts items) d) /\
  Forall (fun x => exists p, jsonb_in x.2 = Some p /\ recorded_event t u p (SendBatch (event_stmts items) d)) items.
Proof.
  enough (He : forall d, NoDup ((fun x => x.1.1) <$> items) ->
    Forall (fun x => x.1.1 ∉ mr_ID ∘ mem_rec <$> memory_records d) items -> Forall (fun x => jsonb_in x.2 <> None) items ->
    exists d', run_batch (event_stmts items) d = Ok d' /\ grows d d' /\
      Forall (fun x => exists p, jsonb_in x.2 = Some p /\ recorded_event t u p d') items).
  { intros d Hnd Hf Hj. unfold SendBatch. destruct (He d Hnd Hf Hj) as (d' & -> & Hg & Hp). done. }
  induction items as [|[[id now] payload] items IH]; intros d Hnd Hf Hj; simpl in *.
  { exists d. split_and!; [done|by apply grows_erased|constructor]. }
  apply NoDup_cons in Hnd as [Hid Hnd]. apply Forall_cons in Hf as [Hfid Hf]. apply Forall_cons in Hj as [Hp Hj].
  simpl in Hp. destruct (jsonb_in payload) as [p|] eqn:Ep; [|done].
  destruct (upsert_event_new id now payload p d Ep Hfid) as (d1 & -> & Hr1 & Hg1 & Hids). cbn [mbind result_bind].
  destruct (IH d1 Hnd) as (d2 & E2 & Hg2 & Hr2); [|done|].
  { rewrite Forall_forall in *. intros x Hx Hin%Hids. apply elem_of_cons in Hin as [E|Hin]; [|by apply (Hf x)].
    apply Hid, list_elem_of_fmap. by exists x. }
  exists d2. split; [done|]. split; [by eapply grows_trans|]. constructor; [|done].
  exists p. split; [done|]. by eapply recorded_event_grows.
Qed.

(** The same payloads once more, in any order, change nothing. *)
Lemma UpsertEventBatch_again ctx items items' d d' : live ctx ->
  NoDup ((fun x => x.1.1) <$> items) -> Forall (fun x => x.1.1 ∉ mr_ID ∘ mem_rec <$> memory_records d) items ->
  items'.*2 ≡ₚ items.*2 -> grows (UpsertEventBatch (WithTenantID ctx t) t u s items d).1 d' ->
  UpsertEventBatch (WithTenantID ctx t) t u s items' d' = (d', Ok tt).
Proof.
  intros Hlive Hnd Hf Hperm. unfold UpsertEventBatch. rewrite BeforeAcquire_canonical by done. simpl.
  fold (event_stmts items). fold (event_stmts items'). intros Hg. f_equal.
  destruct (decide (Forall (fun x => jsonb_in x.2 <> None) items)) as [Hj|Hj].
  - destruct (event_stmts_record items d Hnd Hf Hj) as [_ Hrec]. apply SendBatch_idle, Forall_fmap, Forall_forall.
    intros [[id now] payload] Hx. apply (list_elem_of_fmap_2 snd) in Hx. rewrite Hperm in Hx.
    apply list_elem_of_fmap in Hx as (y & E & Hy). simpl in E. rewrite Forall_forall in Hrec.
    destruct (Hrec y Hy) as (p & Ep & Hp). rewrite <-E in Ep. left. eapply upsert_event_recorded; [exact Ep|].
    by eapply recorded_event_grows.
  - apply not_Forall_Exists in Hj; [|apply _]. apply Exists_exists in Hj as (x & Hx & Hj).
    apply (list_elem_of_fmap_2 snd) in Hx. rewrite <-Hperm in Hx. apply list_elem_of_fmap in Hx as (y & E & Hy).
    apply (event_stmts_bad items' d' y Hy). rewrite <-E. destruct (jsonb_in x.2) eqn:Ej; [|done]. exfalso. apply Hj. by rewrite Ej.
Qed.
End Events.
End MemoryLemmas.

(** ** Properties *)

Section Properties.
Context `{UuidLib, OrderBy, PgSearch, Jsonb}.

(** Recording persona traits is a set union: afterwards every non-blank
    trait of the request is recorded for the user, no trait of a user is
    recorded twice, every row that was there is still there, the ids returned
    are those of the new rows, and repeating the request adds nothing. *)
Theorem UpsertPersona_set_union ctx t u s items d d' ids :
  live ctx -> canonical t -> canonical u -> canonical s ->
  Forall (fun x => storable (TrimSpace x.2)) items ->
  NoDup ((fun x => x.1.1) <$> items) ->
  Forall (fun x => x.1.1 ∉ mr_ID ∘ mem_rec <$> memory_records d) items ->
  traits_unique d ->
  UpsertPersona (WithTenantID ctx t) t u s items d = (d', ids) ->
  traits_unique d' /\
  Forall (fun x => TrimSpace x.2 <> EmptyString ->
    length (same_trait t u (TrimSpace x.2) d') = 1%nat) items /\
  (exists rows, memory_records d' = memory_records d ++ rows /\ mr_ID ∘ mem_rec <$> rows = ids) /\
  (forall items', items'.*2 = items.*2 ->
     UpsertPersona (WithTenantID ctx t) t u s items' d' = (d', [])).
Proof.
  intros Hlive Ht Hu Hs Hst Hnd Hfresh Huniq Hd.
  pose proof (UpsertPersona_complete ctx t u s items Hlive Ht Hu Hs Hst d d' ids Hnd Hfresh Hd) as Hin.
  destruct (UpsertPersona_ind ctx t u s items Hlive Ht Hu Hs Hst d d' ids Hd) as (Huniq' & _ & Hrows & _).
  specialize (Huniq' Huniq). split_and!; [done| |done|].
  - eapply Forall_impl; [exact Hin|]. intros x Hx Hne. specialize (Hx Hne).
    specialize (Huniq' t u (TrimSpace x.2)). destruct (same_trait _ _ _ _) as [|? [|]]; simpl in *; [done|done|lia].
  - intros items' E. apply UpsertPersona_idle; [done..|].
    assert (Hall : Forall (fun trait => storable (TrimSpace trait) /\
      (TrimSpace trait <> EmptyString -> same_trait t u (TrimSpace trait) d' <> [])) items'.*2).
    { rewrite E. apply Forall_fmap. rewrite Forall_forall in *. intros x Hx. split; [by apply Hst|by apply Hin]. }
    by apply Forall_fmap in Hall.
Qed.

(** Feedback changes the named record of the user only, counts it, and
    leaves its importance between 0.01 and 1 whatever it was; it fails only
    when the counter of the record is at the end of its range. *)
Theorem RecordFeedback_spec ctx t u i positive now d : live ctx -> canonical t -> canonical u -> canonical i ->
  (forall d', RecordFeedback (WithTenantID ctx t) t u i positive now d = Ok d' ->
     Forall2 (fun r r' =>
       if bool_decide (mem_tenant r = t /\ mem_user r = u /\ mr_ID (mem_rec r) = i) then
         mr_AccessCount (mem_rec r') = mr_AccessCount (mem_rec r) + 1 /\
         mr_LastAccessedAt (mem_rec r') = Some now /\
         mem_importance r' = adjust_importance positive (mem_importance r) /\
         pg_le floor_importance (mem_importance r') = true /\ pg_le (mem_importance r') (f_of_Z 1) = true
       else r' = r) (memory_records d) (memory_records d')) /\
  (Forall (fun r => mr_AccessCount (mem_rec r) < 2 ^ 31 - 1) (memory_records d) ->
   exists d', RecordFeedback (WithTenantID ctx t) t u i positive now d = Ok d').
Proof.
  intros Hlive Ht Hu Hi. unfold RecordFeedback.
  rewrite BeforeAcquire_canonical, (to_uuid_canonical t), (to_uuid_canonical u), (to_uuid_canonical i) by done.
  cbn [mbind result_bind]. split.
  - intros d' (l & Hl & [= <-])%result_bind_Ok. apply try_update_Ok in Hl. eapply Forall2_impl; [exact Hl|].
    intros r r'. unfold policy. cbn beta.
    replace (bool_decide (Some t = Some (mem_tenant r)) && _) with
      (bool_decide (mem_tenant r = t /\ mem_user r = u /\ mr_ID (mem_rec r) = i)).
    2: { apply eq_bool_prop_intro. rewrite !andb_True, !bool_decide_spec. split; intros; destruct_and?; split_and?; congruence. }
    case_bool_decide; [|done]. unfold feedback_row, int4_incr. case_match; [|done]. intros [= <-].
    split_and!; [done..| |]; apply clamp_range; by vm_compute.
  - intros Hc. destruct (try_update_succeeds (fun r => policy (Some t) (mem_tenant r) && (bool_decide (mem_tenant r = t) &&
        bool_decide (mem_user r = u) && bool_decide (mr_ID (mem_rec r) = i))) (feedback_row positive now) (memory_records d)) as [l' ->].
    + eapply Forall_impl; [exact Hc|]. intros r Hr _. unfold feedback_row, int4_incr.
      rewrite (proj2 (Z.ltb_lt _ _)) by done. by eexists.
    + by eexists.
Qed.

(** One life event whose date PostgreSQL cannot read hides all events of
    the user: the statement then fails and the result is empty, without an
    error, whatever is asked.  When every date can be
    read it returns at most [limit] of the user's events, each undated or no
    older than a week. *)
Theorem GetUpcomingEvents_spec ctx t u query limit now d : live ctx -> canonical t -> canonical u -> storable query -> 0 <= limit ->
  (forall r s, r ∈ memory_records d -> memory_of t u "life_event" r = true ->
     jsonb_text (mr_Payload (mem_rec r)) "date" = Some s -> s <> "unspecified"%string -> timestamptz_in s = None ->
     GetUpcomingEvents (WithTenantID ctx t) t u query limit now d = Ok []) /\
  ((forall r, r ∈ memory_records d -> memory_of t u "life_event" r = true -> exists dt, event_date r = Ok dt) ->
   exists l, GetUpcomingEvents (WithTenantID ctx t) t u query limit now d = Ok l /\
     Z.of_nat (length l) <= limit /\
     Forall (fun m => exists r dt, r ∈ memory_records d /\ memory_of t u "life_event" r = true /\
       m = scan_memory r /\ event_date r = Ok dt /\ from_option (fun x => now - week <= x) True dt) l).
Proof.
  intros Hlive Ht Hu Hquery Hlim. unfold GetUpcomingEvents.
  rewrite Query_canonical, (to_uuid_canonical t), (to_uuid_canonical u), text_params_Ok by (done || by constructor).
  cbn [mbind result_bind].
  assert (Hsel : forall r, r ∈ select_memories (Some t) (memory_of t u "life_event") d <->
    r ∈ memory_records d /\ memory_of t u "life_event" r = true).
  { intros r. unfold select_memories. rewrite elem_of_filter_bool, elem_of_visible. unfold memory_of.
    rewrite !andb_true_iff, !bool_decide_eq_true. naive_solver. }
  split.
  - intros r s Hr Hm Hdate Hs Hp. destruct (scan_all_Err dated (select_memories (Some t) (memory_of t u "life_event") d) r
      "invalid input syntax for type timestamp with time zone") as [e ->]; [by apply Hsel| |done].
    unfold dated, event_date. by rewrite Hdate, decide_False, Hp.
  - intros Hall. destruct (scan_all_succeeds dated (select_memories (Some t) (memory_of t u "life_event") d)) as [events Es].
    { apply Forall_forall. intros r [Hr Hm]%Hsel. destruct (Hall r Hr Hm) as [dt Hdt]. exists (r, dt).
      unfold dated. by rewrite Hdt. }
    rewrite Es. cbn [mbind result_bind].
    unfold checked_limit. rewrite (proj2 (Z.ltb_ge _ _)) by done. cbn [mbind result_bind].
    eexists. split; [done|]. unfold scan_memories. split.
    + rewrite !length_fmap. unfold limit_rows. rewrite length_take. lia.
    + apply Forall_fmap, Forall_fmap, Forall_forall. intros [r dt] Hx%elem_of_limit.
      rewrite order_by_In in Hx. apply elem_of_filter_bool in Hx as [Hx Hrec].
      apply scan_all_Ok in Es. apply list_elem_of_lookup in Hx as [i Hi].
      destruct (Forall2_lookup_r _ _ _ _ _ Es Hi) as (r' & Hr' & Hd).
      unfold dated in Hd. apply result_bind_Ok in Hd as (dt' & Hdt & [= -> ->]).
      apply list_elem_of_lookup_2, Hsel in Hr' as [Hr' Hm]. exists r, dt. split_and!; try done.
      unfold recent_event in Hrec. destruct dt; simpl in *; [lia|done].
Qed.

(** The decay job runs only as a role the policies do not restrict; it then
    counts and ages exactly the stale records, and never below 0.01.  Its rate
    reaches the database as an integer: with the integer 0 no record of
    importance 1, 0.8 or 0.5 changes. *)
Theorem DecayImportance_spec bypassrls pgx_int4 rate days now d :
  (bypassrls = false -> exists e, DecayImportance bypassrls pgx_int4 Background rate days now d = Err e) /\
  (forall d' n, DecayImportance bypassrls pgx_int4 Background rate days now d = Ok (d', n) ->
     bypassrls = true /\ exists k, pgx_int4 rate = Ok k /\
     n = Z.of_nat (length (List.filter (stale now days) (memory_records d))) /\
     Forall2 (fun r r' =>
       if stale now days r then
         mem_importance r' = GREATEST floor_importance (fmul (mem_importance r) (f_of_Z (1 - k))) /\
         pg_le floor_importance (mem_importance r') = true /\
         (k = 0 -> mem_importance r ∈ [f_of_Z 1; event_importance; f_lit 1 2] -> r' = r)
       else r' = r) (memory_records d) (memory_records d')).
Proof.
  unfold DecayImportance, BeforeAcquire, Acquire. simpl. split; [intros ->; by eexists|].
  intros d' n. destruct bypassrls; [|done]. destruct (pgx_int4 rate) as [k|]; [|done]. intros [= <- <-].
  split; [done|]. exists k. split_and!; [done..|].
  cbn [set_memory_records memory_records]. apply Forall2_fmap_r, Forall_Forall2_diag, Forall_true.
  intros r. unfold compose. cbn beta. destruct (stale now days r); [|done]. split_and!; [done|exact (GREATEST_ge_l floor_importance _)|].
  intros -> Hin. assert (E : GREATEST floor_importance (fmul (mem_importance r) (f_of_Z (1 - 0))) = mem_importance r).
  { revert Hin. unfold mem_importance. rewrite !elem_of_cons. intros [-> | [-> | [-> | Hn]]]; [by vm_compute..|].
    by apply not_elem_of_nil in Hn. }
  rewrite E. by destruct r as [[] ? ? ? ?].
Qed.
End Properties.

(** ** Examples *)

Module MemorySample.
#[local] Existing Instances toy_uuid merge_order_by toy_search toy_jsonb.

Definition traits : list (uuid * time * string) := [("p1", 1, " kind "); ("p2", 2, "  "); ("p3", 3, "kind")]%string.

Lemma UpsertPersona_set_union_witness :
  let '(d', ids) := UpsertPersona (WithTenantID Background "t") "t" "u" "s" traits empty_db in
  ids = ["p1"]%string /\ length (same_trait "t" "u" "kind" d') = 1%nat /\
  UpsertPersona (WithTenantID Background "t") "t" "u" "s" traits d' = (d', []).
Proof.
  destruct (UpsertPersona (WithTenantID Background "t") "t" "u" "s" traits empty_db) as [d' ids] eqn:E.
  destruct (UpsertPersona_set_union Background "t" "u" "s" traits empty_db d' ids) as (_ & H1 & _ & H2);
    [reflexivity|reflexivity|reflexivity|reflexivity| | | | |exact E|].
  - repeat constructor; vm_compute; repeat constructor; discriminate.
  - vm_compute. repeat constructor; set_solver.
  - vm_compute. repeat constructor; set_solver.
  - intros ? ? ?. vm_compute. lia.
  - split; [vm_compute in E; by injection E as _ <-|]. split; [|apply H2; reflexivity].
    inversion H1 as [|x l Hx _]; subst. apply Hx. vm_compute. discriminate.
Defined.

Definition event (id : uuid) (date : string) : MemoryRow :=
  new_memory id 5 "t" "u" "s" "life_event"
    (json_object [("date", date); ("event_name", "trip")]%string) event_importance.
Definition events_db (date : string) : DB := mkDB [] [] [] [event "e1" "unspecified"; event "e2" date] [] [].

Lemma RecordFeedback_spec_witness :
  exists d', RecordFeedback (WithTenantID Background "t") "t" "u" "e1" false 9 (events_db "7") = Ok d' /\
    Forall (fun r => mr_ID (mem_rec r) = "e1"%string -> mr_AccessCount (mem_rec r) = 1) (memory_records d').
Proof.
  destruct (RecordFeedback_spec Background "t" "u" "e1" false 9 (events_db "7")) as [Hspec Hok];
    [reflexivity|reflexivity|reflexivity|reflexivity|].
  destruct Hok as [d' Hd']; [repeat constructor|]. exists d'. split; [exact Hd'|].
  specialize (Hspec d' Hd'). inversion Hspec as [|r r' l l' Hr Hl E1 E2]; subst.
  inversion Hl as [|r2 r2' l2 l2' Hr2 Hl2 E3 E4]; subst. inversion Hl2; subst.
  constructor; [intros _; apply Hr|]. constructor; [|constructor].
  change (r2' = event "e2" "7") in Hr2. rewrite Hr2. discriminate.
Defined.

Lemma GetUpcomingEvents_spec_witness :
  GetUpcomingEvents (WithTenantID Background "t") "t" "u" "" 5 9 (events_db "next week") = Ok [] /\
  (exists l, GetUpcomingEvents (WithTenantID Background "t") "t" "u" "" 5 9 (events_db "7") = Ok l /\
     Z.of_nat (length l) <= 5).
Proof.
  split.
  - destruct (GetUpcomingEvents_spec Background "t" "u" "" 5 9 (events_db "next week")) as [Hbad _];
      [reflexivity|reflexivity|reflexivity|by apply plain_storable|lia|].
    apply (Hbad (event "e2" "next week") "next week"%string);
      [by right; left|reflexivity|reflexivity|discriminate|reflexivity].
  - destruct (GetUpcomingEvents_spec Background "t" "u" "" 5 9 (events_db "7")) as [_ Hgood];
      [reflexivity|reflexivity|reflexivity|by apply plain_storable|lia|].
    destruct Hgood as (l & Hl & Hlen & _).
    + intros r Hr _. repeat (apply elem_of_cons in Hr as [->|Hr]; [vm_compute; by eexists|]).
      by apply not_elem_of_nil in Hr.
    + exists l. split; [exact Hl|exact Hlen].
Defined.
End MemorySample.
