(* ===== verification/ExperienceRepo.v ===== *)
(** Learned experiences ([internal/repository/experience.go]) and the token
    accounting of [usage.go].  The two tables have no row-level policy; every
    statement selects its tenant itself. *)
From Stdlib Require Import Ascii String.
From S2P Require Import Prelude GoStd GoStrings Float64 Model Json Db MessageRepo EntityRepo MemoryRepo.

Local Open Scope Z_scope.

(** ** Rows *)

Definition set_exp (f : Experience -> Experience) (r : ExperienceRow) : ExperienceRow :=
  mkExperienceRow (f (xp_exp r)) (xp_embedding r) (xp_sources r).

Definition with_quality (e : Experience) (confidence : float64) (usage success : Z) (active : bool) (now : time)
  : Experience :=
  mkExperience (exp_ID e) (exp_TenantID e) (exp_UserID e) (exp_Description e) (exp_Steps e) (exp_SourceSessionID e)
    confidence usage success active (exp_CreatedAt e) now.

Definition exp_is (t u i : uuid) (r : ExperienceRow) : bool :=
  bool_decide (exp_TenantID (xp_exp r) = t) && bool_decide (exp_UserID (xp_exp r) = u) &&
  bool_decide (exp_ID (xp_exp r) = i).

(** json.Marshal of a vector: NaN and the infinities have no JSON form. *)
Definition finite (x : float64) : bool :=
  match x with SpecFloat.S754_nan | SpecFloat.S754_infinity _ => false | _ => true end.
Definition marshal_vector (v : list float64) : result unit :=
  if forallb finite v then Ok tt else Err "json: unsupported value"%string.

(** json.Marshal of a []string; [None] is the nil slice. *)
Definition marshal_steps (steps : option (list string)) : string :=
  match steps with Some l => json_strings l | None => "null"%string end.

(** The quality of a new experience and the constants of its updates. *)
Definition new_confidence : float64 := f_lit 1 2.
Definition merge_confidence (c : float64) : float64 := LEAST (f_of_Z 1) (fadd c (f_lit 5 100)).
Definition penalised (c : float64) : float64 := fsub c (f_lit 15 100).
Definition inactive_below : float64 := f_lit 1 10.

Section Experiences.
Context `{UuidLib, OrderBy, PgSearch, Jsonb}.

Definition exp_distance (q : list float64) (r : ExperienceRow) : float64 :=
  match xp_embedding r with Some e => cosine_distance e q | None => SpecFloat.S754_nan end.
Definition by_exp_distance (q : list float64) (x y : ExperienceRow) : bool := pg_le (exp_distance q x) (exp_distance q y).

(** WHERE tenant_id = $1 AND user_id = $2 AND is_active = true *)
Definition active_of (t u : uuid) (r : ExperienceRow) : bool :=
  bool_decide (exp_TenantID (xp_exp r) = t) && bool_decide (exp_UserID (xp_exp r) = u) && exp_IsActive (xp_exp r).
Definition triggered (r : ExperienceRow) : bool := negb (bool_decide (xp_embedding r = None)).

(** The experiences a query ordered by [<=>] can find: those the index reaches,
    among the experiences of all tenants. *)
Definition reached_experiences (q : list float64) (d : DB) : list ExperienceRow := reached_rows xp_embedding q (experiences d).

Definition UpsertExperience (ctx : context) (tenantID userID : string) (sessionID messageID : uuid)
    (description : string) (steps : option (list string)) (embedding : list float64) (similarID : option uuid)
    (new_id : uuid) (now : time) (d : DB) : result DB :=
  _ ← marshal_vector embedding; _ ← Acquire ctx; t ← to_uuid tenantID; _ ← text_params [description];
  match jsonb_in (marshal_steps steps) with
  | None => Err "invalid input syntax for type json"%string
  | Some steps =>
    _ ← vector_param embedding;
    match similarID with
    | Some similar =>
      Ok (set_experiences (fmap (fun r =>
            if bool_decide (exp_ID (xp_exp r) = similar) && bool_decide (exp_TenantID (xp_exp r) = t) then
              let e := xp_exp r in
              mkExperienceRow (mkExperience (exp_ID e) (exp_TenantID e) (exp_UserID e) description steps (Some sessionID)
                  (merge_confidence (exp_Confidence e)) (exp_UsageCount e) (exp_SuccessCount e) (exp_IsActive e)
                  (exp_CreatedAt e) now)
                (Some embedding) (xp_sources r ++ [messageID])
            else r)) d)
    | None =>
      u ← to_uuid userID;
      if existsb (fun r => bool_decide (exp_ID (xp_exp r) = new_id)) (experiences d) then Err duplicate_key
      else Ok (set_experiences (fun l => l ++ [mkExperienceRow
             (mkExperience new_id t u description steps (Some sessionID) new_confidence 0 0 true now now)
             (Some embedding) [messageID]]) d)
    end
  end.

(** The error of the query is dropped: it reads as no match. *)
Definition SearchSimilar (ctx : context) (tenantID userID : string) (embedding : list float64)
    (threshold : float64) (d : DB) : result (option Experience * float64) :=
  _ ← marshal_vector embedding;
  match (_ ← Acquire ctx; t ← to_uuid tenantID; u ← to_uuid userID; _ ← vector_param embedding;
         Ok (head (order_by (by_exp_distance embedding)
               (List.filter (fun r => active_of t u r && triggered r) (reached_experiences embedding d))))) with
  | Err _ | Ok None => Ok (None, f_of_Z 0)
  | Ok (Some r) =>
    let sim := fsub (f_of_Z 1) (exp_distance embedding r) in
    if flt sim threshold then Ok (None, sim) else Ok (Some (xp_exp r), sim)
  end.

(** As [Query], on a table without policies. *)
Definition Query_unrestricted {A} (ctx : context) (q : result (list A)) : result (list A) :=
  _ ← Acquire ctx; Ok (match q with Ok rows => rows | Err _ => [] end).

Definition experiences_of (rows : list ExperienceRow) : list Experience := xp_exp <$> rows.

Definition SearchByVector (ctx : context) (tenantID userID : string) (embedding : list float64) (topK : Z)
    (minConfidence : float64) (d : DB) : result (list Experience) :=
  _ ← marshal_vector embedding;
  rows ← Query_unrestricted ctx (t ← to_uuid tenantID; u ← to_uuid userID; _ ← vector_param embedding;
    checked_limit topK (order_by (by_exp_distance embedding)
      (List.filter (fun r => active_of t u r && pg_le minConfidence (exp_Confidence (xp_exp r)) && triggered r)
         (reached_experiences embedding d))));
  Ok (experiences_of rows).

Definition ListByUser (ctx : context) (tenantID userID : string) (d : DB) : result (list Experience) :=
  rows ← Query_unrestricted ctx (t ← to_uuid tenantID; u ← to_uuid userID;
    Ok (order_by (fun x y => pg_le (exp_Confidence (xp_exp y)) (exp_Confidence (xp_exp x)))
          (List.filter (active_of t u) (experiences d))));
  Ok (experiences_of rows).

Definition update_experiences (p : ExperienceRow -> bool) (f : Experience -> result Experience) (d : DB) : result DB :=
  l ← try_update p (fun r => e ← f (xp_exp r); Ok (set_exp (fun _ => e) r)) (experiences d);
  Ok (set_experiences (fun _ => l) d).

Definition RecordUsage (ctx : context) (tenantID experienceID : string) (now : time) (d : DB) : result DB :=
  _ ← Acquire ctx; t ← to_uuid tenantID; i ← to_uuid experienceID;
  update_experiences
    (fun r => bool_decide (exp_TenantID (xp_exp r) = t) && bool_decide (exp_ID (xp_exp r) = i))
    (fun e => n ← int4_incr (exp_UsageCount e);
              Ok (with_quality e (exp_Confidence e) n (exp_SuccessCount e) (exp_IsActive e) now)) d.

(** CAST(success_count + 1 AS FLOAT) / NULLIF(usage_count + 1, 0); LEAST
    ignores a NULL. *)
Definition success_rate (success usage : Z) : float64 :=
  if usage =? 0 then f_of_Z 1 else LEAST (f_of_Z 1) (fdiv (f_of_Z success) (f_of_Z usage)).

Definition reward (now : time) (e : Experience) : result Experience :=
  s ← int4_incr (exp_SuccessCount e); n ← int4_incr (exp_UsageCount e);
  Ok (with_quality e (success_rate s n) (exp_UsageCount e) s (exp_IsActive e) now).

Definition penalise (now : time) (e : Experience) : Experience :=
  let c := penalised (exp_Confidence e) in
  with_quality e (GREATEST floor_importance c) (exp_UsageCount e) (exp_SuccessCount e)
    (if pg_lt c inactive_below then false else exp_IsActive e) now.

Definition RecordFeedback (ctx : context) (tenantID userID experienceID : string) (positive : bool) (now : time)
    (d : DB) : result DB :=
  _ ← Acquire ctx; t ← to_uuid tenantID; u ← to_uuid userID; i ← to_uuid experienceID;
  update_experiences (exp_is t u i)
    (if positive then reward now else fun e => Ok (penalise now e)) d.

Definition deactivated (now : time) (e : Experience) : Experience :=
  with_quality e (exp_Confidence e) (exp_UsageCount e) (exp_SuccessCount e) false now.

Definition Deactivate (ctx : context) (tenantID userID experienceID : string) (now : time) (d : DB) : result DB :=
  _ ← Acquire ctx; t ← to_uuid tenantID; u ← to_uuid userID; i ← to_uuid experienceID;
  update_experiences (exp_is t u i) (fun e => Ok (deactivated now e)) d.

(** *** LLMUsageRepository.Record; the row's id is a fresh UUID. *)
Definition Record (ctx : context) (u : LLMUsage) (d : DB) : result DB :=
  _ ← Acquire ctx; _ ← text_params [lu_Feature u; lu_Model u];
  if (- 2 ^ 31 <=? lu_TotalTokens u) && (lu_TotalTokens u <? 2 ^ 31)
  then Ok (set_llm_usage (fun l => l ++ [u]) d) else Err "integer out of range"%string.
End Experiences.

(** ** Lemmas *)

(** What every operation on a row keeps. *)
Definition same_owner (e e' : Experience) : Prop :=
  exp_ID e' = exp_ID e /\ exp_TenantID e' = exp_TenantID e /\ exp_UserID e' = exp_UserID e.

Lemma update_experiences_ok p f d d' : update_experiences p f d = Ok d' ->
  Forall2 (fun r r' => if p r then exists e, f (xp_exp r) = Ok e /\ r' = set_exp (fun _ => e) r else r' = r)
    (experiences d) (experiences d').
Proof.
  unfold update_experiences. intros (l & Hl%try_update_Ok & [= <-])%result_bind_Ok.
  eapply Forall2_impl; [exact Hl|]. intros r r'. cbn beta. destruct (p r); [|done].
  intros (e & He & [= <-])%result_bind_Ok. eauto.
Qed.

Lemma update_experiences_total p f d :
  update_experiences p (fun e => Ok (f e)) d =
  Ok (set_experiences (fmap (fun r => if p r then set_exp f r else r)) d).
Proof.
  unfold update_experiences. assert (E : forall l, try_update p (fun r => e ← Ok (f (xp_exp r)); Ok (set_exp (fun _ => e) r)) l =
    Ok ((fun r => if p r then set_exp f r else r) <$> l)).
  { induction l as [|r l IH]; [done|]. simpl in IH |- *. rewrite IH. by destruct (p r). }
  by rewrite E.
Qed.

Lemma Query_unrestricted_Ok {A} ctx (q : result (list A)) rows :
  Query_unrestricted ctx q = Ok rows -> rows = [] \/ q = Ok rows.
Proof. unfold Query_unrestricted. intros (? & _ & Hq)%result_bind_Ok. destruct q; injection Hq as <-; auto. Qed.

Section ExperienceLemmas.
Context `{UuidLib, OrderBy, PgSearch, Jsonb}.

(** The statements that write the table, with any arguments. *)
Inductive exp_step (d d' : DB) : Prop :=
  | step_upsert ctx t u s m desc steps emb similar id now :
      UpsertExperience ctx t u s m desc steps emb similar id now d = Ok d' -> exp_step d d'
  | step_usage ctx t i now : RecordUsage ctx t i now d = Ok d' -> exp_step d d'
  | step_feedback ctx t u i positive now : RecordFeedback ctx t u i positive now d = Ok d' -> exp_step d d'
  | step_deactivate ctx t u i now : Deactivate ctx t u i now d = Ok d' -> exp_step d d'.

(** The experience [i] exists and is switched off. *)
Definition retired (i : uuid) (d : DB) : Prop :=
  i ∈ (fun r => exp_ID (xp_exp r)) <$> experiences d /\
  Forall (fun r => exp_ID (xp_exp r) = i -> exp_IsActive (xp_exp r) = false) (experiences d).

(** Whatever a statement does to a row, it keeps the id and activates nothing. *)
Definition tame (r r' : ExperienceRow) : Prop :=
  exp_ID (xp_exp r') = exp_ID (xp_exp r) /\
  (exp_IsActive (xp_exp r) = false -> exp_IsActive (xp_exp r') = false).

Lemma tame_refl r : tame r r.
Proof. done. Qed.

Lemma exp_step_rows d d' : exp_step d d' ->
  exists l new, experiences d' = l ++ new /\ Forall2 tame (experiences d) l /\
    Forall (fun r => exp_ID (xp_exp r) ∉ (fun r => exp_ID (xp_exp r)) <$> experiences d) new.
Proof.
  assert (Hupd : forall p f, (forall e e', f e = Ok e' -> exp_ID e' = exp_ID e /\
      (exp_IsActive e = false -> exp_IsActive e' = false)) -> update_experiences p f d = Ok d' ->
    exists l new, experiences d' = l ++ new /\ Forall2 tame (experiences d) l /\
      Forall (fun r => exp_ID (xp_exp r) ∉ (fun r => exp_ID (xp_exp r)) <$> experiences d) new).
  { intros p f Hf Hd%update_experiences_ok. exists (experiences d'), []. rewrite app_nil_r. split_and!; [done| |done].
    eapply Forall2_impl; [exact Hd|]. intros r r'. cbn beta. destruct (p r); [|by intros ->].
    intros (e & He & ->). by apply Hf. }
  intros [ctx t u s m desc steps emb similar id now Hd|ctx t i now Hd|ctx t u i positive now Hd|ctx t u i now Hd].
  - unfold UpsertExperience in Hd. do 4 (apply result_bind_Ok in Hd as (? & _ & Hd)).
    case_match; [|done]. apply result_bind_Ok in Hd as (? & _ & Hd). destruct similar as [similar|].
    + injection Hd as <-. simpl. eexists _, []. rewrite app_nil_r. split_and!; [done| |done].
      apply Forall2_fmap_r, Forall_Forall2_diag, Forall_true. intros r. unfold compose. by destruct (_ && _).
    + apply result_bind_Ok in Hd as (u' & _ & Hd). destruct (existsb _ _) eqn:E; [done|]. injection Hd as <-. simpl.
      eexists _, _. split_and!; [done|by apply Forall_Forall2_diag, Forall_true, tame_refl|].
      constructor; [|constructor]. simpl. intros (r & Hr & Hin)%list_elem_of_fmap.
      apply not_true_iff_false in E. apply E, existsb_exists. exists r.
      rewrite bool_decide_eq_true. by rewrite <-list_elem_of_In.
  - unfold RecordUsage in Hd. do 3 (apply result_bind_Ok in Hd as (? & _ & Hd)). eapply Hupd, Hd.
    intros e e' (n & _ & [= <-])%result_bind_Ok. done.
  - unfold RecordFeedback in Hd. do 4 (apply result_bind_Ok in Hd as (? & _ & Hd)). eapply Hupd, Hd.
    intros e e'. destruct positive.
    + intros (n & _ & (k & _ & [= <-])%result_bind_Ok)%result_bind_Ok. done.
    + intros [= <-]. split; [done|]. simpl. by destruct (pg_lt _ _).
  - unfold Deactivate in Hd. do 4 (apply result_bind_Ok in Hd as (? & _ & Hd)). eapply Hupd, Hd.
    by intros e e' [= <-].
Qed.

Lemma retired_step i d d' : exp_step d d' -> retired i d -> retired i d'.
Proof.
  intros (l & new & E & Hl & Hnew)%exp_step_rows [Hin Hoff]. unfold retired. rewrite E. split.
  - rewrite fmap_app, elem_of_app. left. apply list_elem_of_fmap in Hin as (r & -> & Hr).
    apply list_elem_of_lookup in Hr as [k Hk]. destruct (Forall2_lookup_l _ _ _ _ _ Hl Hk) as (r' & Hr' & <- & _).
    apply list_elem_of_fmap. exists r'. split; [done|]. by eapply list_elem_of_lookup_2.
  - apply Forall_app_2.
    + rewrite Forall_forall in Hoff. apply Forall_forall. intros r' [k Hk]%list_elem_of_lookup Hi.
      destruct (Forall2_lookup_r _ _ _ _ _ Hl Hk) as (r & Hr & Hid & Hact). apply Hact, Hoff; [|congruence].
      by eapply list_elem_of_lookup_2.
    + eapply Forall_impl; [exact Hnew|]. intros r Hr Hi. destruct Hr. by rewrite Hi.
Qed.

Lemma retired_reach i d d' : rtc exp_step d d' -> retired i d -> retired i d'.
Proof. induction 1; [done|]. eauto using retired_step. Qed.

(** A retired experience is in no result. *)
Lemma retired_not_active i d t u r : retired i d -> r ∈ experiences d -> active_of t u r = true -> exp_ID (xp_exp r) <> i.
Proof.
  intros [_ Hoff] Hr Ha Hi. rewrite Forall_forall in Hoff. specialize (Hoff r Hr Hi).
  unfold active_of in Ha. rewrite !andb_true_iff in Ha. destruct Ha as [_ Ha]. congruence.
Qed.

Lemma by_exp_distance_trans q x y z : by_exp_distance q x y = true -> by_exp_distance q y z = true -> by_exp_distance q x z = true.
Proof. apply pg_le_trans. Qed.
Lemma by_exp_distance_total q x y : by_exp_distance q x y = true \/ by_exp_distance q y x = true.
Proof. apply pg_le_total. Qed.

(** The head of a sorted result is a least element. *)
Lemma head_order_by {A} (le : A -> A -> bool) (l : list A) x :
  (forall x y z, le x y = true -> le y z = true -> le x z = true) ->
  (forall x y, le x y = true \/ le y x = true) ->
  head (order_by le l) = Some x -> x ∈ l /\ forall y, y ∈ l -> le x y = true.
Proof.
  intros Htr Htot Hx. pose proof (order_by_sorted le l Htr Htot) as Hs.
  destruct (order_by le l) as [|a k] eqn:E; [done|]. injection Hx as ->.
  assert (Hin : forall y, y ∈ l <-> y ∈ x :: k) by (intros y; rewrite <-E; by rewrite order_by_In).
  split; [apply Hin; by left|]. intros y Hy%Hin. apply elem_of_cons in Hy as [->|Hy].
  - by destruct (Htot x x).
  - apply StronglySorted_inv in Hs as [_ Hs]. rewrite Forall_forall in Hs. by apply Hs.
Qed.

(** Negative feedback repeated. *)
Fixpoint penalties (ctx : context) (t u i : string) (now : time) (n : nat) (d : DB) : result DB :=
  match n with
  | O => Ok d
  | S n => d' ← RecordFeedback ctx t u i false now d; penalties ctx t u i now n d'
  end.

Lemma penalties_Ok ctx t u i now n d : live ctx -> canonical t -> canonical u -> canonical i ->
  penalties (WithTenantID ctx t) t u i now n d =
  Ok (set_experiences (fmap (fun r => if exp_is t u i r then set_exp (Nat.iter n (penalise now)) r else r)) d).
Proof.
  intros Hlive Ht Hu Hi. revert d. induction n as [|n IH]; intros d; cbn [penalties].
  - unfold set_experiences. rewrite (list_fmap_ext _ id), list_fmap_id; [by destruct d|].
    intros k r _. destruct (exp_is t u i r); [|done]. by destruct r.
  - unfold RecordFeedback. rewrite Acquire_live, (to_uuid_canonical t), (to_uuid_canonical u), (to_uuid_canonical i) by done.
    cbn [mbind result_bind]. rewrite update_experiences_total. cbn [mbind result_bind]. rewrite IH. f_equal. unfold set_experiences. simpl. f_equal.
    rewrite <-list_fmap_compose. apply list_fmap_ext. intros k r _. unfold compose.
    destruct (exp_is t u i r) eqn:E; [|by rewrite E]. change (exp_is t u i (set_exp (penalise now) r)) with (exp_is t u i r).
    rewrite E. unfold set_exp. simpl. f_equal. symmetry. exact (Nat.iter_succ_r n (penalise now) (xp_exp r)).
Qed.
End ExperienceLemmas.

(** ** Properties *)

Section ExperienceProperties.
Context `{UuidLib, OrderBy, PgSearch, Jsonb}.

(** Deactivation is final. After Deactivate of an existing experience of
    the user (ids unique), whatever sequence of statements follows, no read of
    any user or tenant returns that experience. *)
Theorem Deactivate_final ctx t u i now d r : live ctx -> canonical t -> canonical u -> canonical i ->
  r ∈ experiences d -> exp_is t u i r = true -> NoDup ((fun r => exp_ID (xp_exp r)) <$> experiences d) ->
  exists d1, Deactivate (WithTenantID ctx t) t u i now d = Ok d1 /\
  forall d', rtc exp_step d1 d' ->
    (forall ctx' t' u' l, ListByUser ctx' t' u' d' = Ok l -> Forall (fun e => exp_ID e <> i) l) /\
    (forall ctx' t' u' q k c l, SearchByVector ctx' t' u' q k c d' = Ok l -> Forall (fun e => exp_ID e <> i) l) /\
    (forall ctx' t' u' q th e sim, SearchSimilar ctx' t' u' q th d' = Ok (Some e, sim) -> exp_ID e <> i).
Proof.
  intros Hlive Ht Hu Hi Hr Hown Hnd. unfold Deactivate.
  rewrite Acquire_live, (to_uuid_canonical t), (to_uuid_canonical u), (to_uuid_canonical i) by done.
  cbn [mbind result_bind]. rewrite update_experiences_total. eexists. split; [done|].
  intros d' Hd'. assert (Hret : retired i d').
  { eapply retired_reach; [exact Hd'|]. unfold retired. simpl. rewrite <-list_fmap_compose.
    assert (Hid : exp_ID (xp_exp r) = i) by (unfold exp_is in Hown; rewrite !andb_true_iff, !bool_decide_eq_true in Hown; tauto).
    split.
    - rewrite (list_fmap_ext _ (fun r => exp_ID (xp_exp r))).
      + apply list_elem_of_fmap. eauto.
      + intros k x _. unfold compose. by destruct (exp_is t u i x).
    - apply Forall_fmap, Forall_forall. intros x Hx. unfold compose. destruct (exp_is t u i x) eqn:E; [done|].
      intros Hxi. exfalso. assert (x = r) as ->; [|congruence].
      apply list_elem_of_lookup in Hx as [a Ha]. apply list_elem_of_lookup in Hr as [b Hb].
      assert (a = b); [|congruence]. eapply (NoDup_lookup _ _ _ i Hnd); rewrite list_lookup_fmap, ?Ha, ?Hb; simpl; congruence. }
  split_and!.
  - unfold ListByUser. intros ctx' t' u' l (rows & Hq & [= <-])%result_bind_Ok.
    apply Query_unrestricted_Ok in Hq as [->|Hq]; [constructor|].
    do 2 (apply result_bind_Ok in Hq as (? & _ & Hq)). injection Hq as <-.
    apply Forall_fmap, Forall_forall. intros y Hy. rewrite order_by_In in Hy. apply elem_of_filter_bool in Hy as [Hy Ha].
    by eapply retired_not_active.
  - unfold SearchByVector. intros ctx' t' u' q k c l (? & _ & (rows & Hq & [= <-])%result_bind_Ok)%result_bind_Ok.
    apply Query_unrestricted_Ok in Hq as [->|Hq]; [constructor|].
    do 3 (apply result_bind_Ok in Hq as (? & _ & Hq)). unfold checked_limit in Hq. case_match; [done|].
    injection Hq as <-. apply Forall_fmap, Forall_forall. intros y Hy%elem_of_limit. rewrite order_by_In in Hy.
    apply elem_of_filter_bool in Hy as [Hy%elem_of_reached Ha]. rewrite !andb_true_iff in Ha. destruct Ha as [[Ha _] _].
    by eapply retired_not_active.
  - unfold SearchSimilar. intros ctx' t' u' q th e sim (? & _ & Hs)%result_bind_Ok.
    case_match eqn:E; [|done]. case_match; [|done]. case_match; [done|]. injection Hs as <- _. subst.
    do 4 (apply result_bind_Ok in E as (? & _ & E)). injection E as E.
    apply head_order_by in E as [Hy _]; [|apply by_exp_distance_trans|apply by_exp_distance_total].
    apply elem_of_filter_bool in Hy as [Hy%elem_of_reached Ha]. apply andb_true_iff in Ha as [Ha _]. by eapply retired_not_active.
Qed.

(** Negative feedback takes 0.15 of confidence each time and deactivates
    below 0.1: the third in a row does it for an experience of the initial
    confidence 0.5, but an experience of confidence 1 stays active until the
    sixth; other rows are not touched. *)
Theorem RecordFeedback_negative_streak ctx t u i now n d : live ctx -> canonical t -> canonical u -> canonical i ->
  exists d', penalties (WithTenantID ctx t) t u i now n d = Ok d' /\
    Forall2 (fun r r' =>
      if exp_is t u i r then
        (exp_IsActive (xp_exp r) = true -> exp_Confidence (xp_exp r) = new_confidence -> (n <= 3)%nat ->
           exp_IsActive (xp_exp r') = bool_decide (n < 3)%nat) /\
        (exp_IsActive (xp_exp r) = true -> exp_Confidence (xp_exp r) = f_of_Z 1 -> (n <= 6)%nat ->
           exp_IsActive (xp_exp r') = bool_decide (n < 6)%nat)
      else r' = r) (experiences d) (experiences d').
Proof.
  intros Hlive Ht Hu Hi. rewrite penalties_Ok by done. eexists. split; [done|].
  simpl. apply Forall2_fmap_r, Forall_Forall2_diag, Forall_true. intros r. unfold compose. cbn beta.
  destruct (exp_is t u i r); [|done]. destruct r as [e emb src]. unfold set_exp. cbn [xp_exp].
  destruct e as [id tn us ds st ss c us' sc act cr up]. cbn [exp_IsActive exp_Confidence].
  split; intros -> -> Hn.
  - do 4 (destruct n as [|n]; [by vm_compute|]). lia.
  - do 7 (destruct n as [|n]; [by vm_compute|]). lia.
Qed.

(** SearchSimilar returns the nearest of the user's active embedded
    experiences that the index reaches, and only when its similarity is not below the threshold; when
    it returns none although there are some, even the nearest is below. *)
Theorem SearchSimilar_nearest ctx t u q threshold d : live ctx -> canonical t -> canonical u ->
  forallb finite q = true -> vector_in q = true ->
  let candidates := List.filter (fun r => active_of t u r && triggered r) (reached_experiences q d) in
  exists res sim, SearchSimilar (WithTenantID ctx t) t u q threshold d = Ok (res, sim) /\
    (candidates = [] -> res = None) /\
    (candidates <> [] -> exists r, r ∈ candidates /\ sim = fsub (f_of_Z 1) (exp_distance q r) /\
       (forall r', r' ∈ candidates -> pg_le (exp_distance q r) (exp_distance q r') = true) /\
       res = if flt sim threshold then None else Some (xp_exp r)).
Proof.
  intros Hlive Ht Hu Hq Hv candidates. unfold SearchSimilar, marshal_vector, vector_param. rewrite Hq, Hv.
  rewrite Acquire_live, (to_uuid_canonical t), (to_uuid_canonical u) by done. cbn [mbind result_bind].
  fold candidates. destruct (head (order_by (by_exp_distance q) candidates)) as [r|] eqn:E.
  - apply head_order_by in E as [Hr Hmin]; [|apply by_exp_distance_trans|apply by_exp_distance_total].
    exists (if flt (fsub (f_of_Z 1) (exp_distance q r)) threshold then None else Some (xp_exp r)),
      (fsub (f_of_Z 1) (exp_distance q r)). split; [by case_match|]. split.
    + intros Hc. rewrite Hc in Hr. by apply not_elem_of_nil in Hr.
    + intros _. exists r. split_and!; [done|done|exact Hmin|]. done.
  - apply head_None in E. exists None, (f_of_Z 0). split; [done|]. split; [done|].
    intros Hne. destruct Hne. pose proof (order_by_perm (by_exp_distance q) candidates) as Hp.
    rewrite E in Hp. by apply Permutation_nil.
Qed.
End ExperienceProperties.

(** ** Examples *)

Module ExperienceSample.
#[local] Existing Instances toy_uuid merge_order_by toy_search toy_jsonb.

Definition row (id : uuid) : ExperienceRow :=
  mkExperienceRow (mkExperience id "t" "u" "deploys on Friday" "[]" None new_confidence 0 0 true 1 1) (Some [f_of_Z 1]) [].
Definition db : DB := mkDB [] [] [] [] [row "x1"; row "x2"] [].

Lemma Deactivate_final_witness :
  exists d1, Deactivate (WithTenantID Background "t") "t" "u" "x1" 9 db = Ok d1 /\
  forall d', rtc exp_step d1 d' -> forall ctx' t' u' l, ListByUser ctx' t' u' d' = Ok l -> Forall (fun e => exp_ID e <> "x1"%string) l.
Proof.
  destruct (Deactivate_final Background "t" "u" "x1" 9 db (row "x1")) as (d1 & H1 & H2);
    [reflexivity|reflexivity|reflexivity|reflexivity|by left|reflexivity|vm_compute; repeat constructor; set_solver|].
  exists d1. split; [exact H1|]. intros d' Hd'. apply (H2 d' Hd').
Defined.

Lemma RecordFeedback_negative_streak_witness :
  exists d', penalties (WithTenantID Background "t") "t" "u" "x1" 9 3 db = Ok d' /\
    exp_IsActive <$> (xp_exp <$> experiences d') = [false; true].
Proof.
  destruct (RecordFeedback_negative_streak Background "t" "u" "x1" 9 3 db) as (d' & H1 & H2);
    [reflexivity|reflexivity|reflexivity|reflexivity|]. exists d'. split; [exact H1|].
  inversion H2 as [|r r' l l' Hr Hl E1 E2]; subst. inversion Hl as [|r2 r2' l2 l2' Hr2 Hl2 E3 E4]; subst. inversion Hl2; subst.
  destruct Hr as [Hr _]. change (r2' = row "x2") in Hr2. rewrite Hr2. simpl.
  rewrite Hr by (reflexivity || lia). reflexivity.
Defined.

Lemma SearchSimilar_nearest_witness :
  exists res sim, SearchSimilar (WithTenantID Background "t") "t" "u" [f_of_Z 1] (f_lit 85 100) db = Ok (res, sim) /\
    exists r, r ∈ experiences db /\ res = if flt sim (f_lit 85 100) then None else Some (xp_exp r).
Proof.
  destruct (SearchSimilar_nearest Background "t" "u" [f_of_Z 1] (f_lit 85 100) db) as (res & sim & H1 & _ & H3);
    [reflexivity|reflexivity|reflexivity|reflexivity|reflexivity|]. exists res, sim. split; [exact H1|].
  destruct H3 as (r & Hr & _ & _ & E); [vm_compute; discriminate|]. exists r.
  split; [|exact E]. apply elem_of_filter_bool in Hr. apply Hr.
Defined.
End ExperienceSample.
