(* ===== verification/VectorRepo.v ===== *)
(** Message search ([internal/repository/vector.go]): nearest neighbours,
    full-text search, and their fusion by reciprocal rank. *)
From Stdlib Require Import Ascii String.
From S2P Require Import Prelude GoStd GoStrings Float64 Model Db MessageRepo.

Local Open Scope Z_scope.

Record VectorQuery := mkVectorQuery {
  q_TenantID : string;
  q_UserID : string;
  q_QueryText : string;
  q_Embedding : list float64;
  q_TopK : Z;
}.

Definition rrfK : Z := 60.
Definition rank_score (rank : nat) : float64 := fdiv (f_of_Z 1) (f_of_Z (rrfK + Z.of_nat rank + 1)).

Definition set_score (s : float64) (c : SemanticMessage) : SemanticMessage :=
  mkSemanticMessage (sm_ID c) (sm_Content c) (sm_CosineSim c) s (sm_Importance c) (sm_CreatedAt c).

(** The loops of rrfMerge: [scores[c.ID] += 1/(rrfK+rank+1)], a missing entry
    counting as zero, and the chunks by id. *)
Fixpoint add_scores (rank : nat) (l : list SemanticMessage) (scores : gmap uuid float64) : gmap uuid float64 :=
  match l with
  | [] => scores
  | c :: l' =>
    add_scores (S rank) l' (<[sm_ID c := fadd (default (f_of_Z 0) (scores !! sm_ID c)) (rank_score rank)]> scores)
  end.

Definition put_vec (m : gmap uuid SemanticMessage) (c : SemanticMessage) : gmap uuid SemanticMessage := <[sm_ID c := c]> m.
Definition put_fts (m : gmap uuid SemanticMessage) (c : SemanticMessage) : gmap uuid SemanticMessage :=
  match m !! sm_ID c with Some _ => m | None => <[sm_ID c := c]> m end.

Definition fused_scores (vecChunks ftsChunks : list SemanticMessage) : gmap uuid float64 :=
  add_scores 0 ftsChunks (add_scores 0 vecChunks ∅).
Definition fused_chunks (vecChunks ftsChunks : list SemanticMessage) : gmap uuid SemanticMessage :=
  foldl put_fts (foldl put_vec ∅ vecChunks) ftsChunks.

(** Descending score; scores are numbers, on which [pg_le] is [<=]. *)
Definition by_score (x y : SemanticMessage) : bool := pg_le (sm_Score y) (sm_Score x).

Section Vector.
Context `{UuidLib, OrderBy, PgSearch}.

(** [sort.Slice] gives some order by score of the map's entries. *)
Definition rrfMerge (vecChunks ftsChunks : list SemanticMessage) (topK : Z) : list SemanticMessage :=
  let scores := fused_scores vecChunks ftsChunks in
  let merged := order_by by_score
    ((fun '(id, c) => set_score (default (f_of_Z 0) (scores !! id)) c) <$> map_to_list (fused_chunks vecChunks ftsChunks)) in
  if topK <? Z.of_nat (length merged) then take (Z.to_nat topK) merged else merged.

(** *** The two queries *)

Definition user_rows (tid : option uuid) (t u : uuid) (d : DB) : list MessageRow :=
  List.filter (fun r => bool_decide (msg_TenantID (m_msg r) = t) && bool_decide (msg_UserID (m_msg r) = u))
    (visible tid m_tenant (messages d)).

Definition msg_distance (q : list float64) (r : MessageRow) : float64 :=
  match m_embedding r with Some e => cosine_distance e q | None => SpecFloat.S754_nan end.

Definition chunk (sim : float64) (r : MessageRow) : SemanticMessage :=
  mkSemanticMessage (msg_ID (m_msg r)) (msg_Content (m_msg r)) sim (f_of_Z 0) (f_of_Z 1) (msg_CreatedAt (m_msg r)).

Definition chunks (sim : MessageRow -> float64) (rows : list MessageRow) : list SemanticMessage :=
  (fun r => chunk (sim r) r) <$> rows.

(** The messages a query ordered by [<=>] can find: those the index reaches,
    among the messages of all tenants. *)
Definition reached_messages (q : list float64) (d : DB) : DB := set_messages (reached_rows m_embedding q) d.

(** Search, and the first goroutine of SearchHybrid. *)
Definition Search (ctx : context) (q : VectorQuery) (d : DB) : result (list SemanticMessage) :=
  rows ← Query ctx (fun tid => t ← to_uuid (q_TenantID q); u ← to_uuid (q_UserID q);
    _ ← vector_param (q_Embedding q);
    checked_limit (q_TopK q)
      (order_by (fun x y => pg_le (msg_distance (q_Embedding q) x) (msg_distance (q_Embedding q) y))
         (List.filter (fun r => negb (bool_decide (m_embedding r = None)))
            (user_rows tid t u (reached_messages (q_Embedding q) d)))));
  Ok (chunks (fun r => fsub (f_of_Z 1) (msg_distance (q_Embedding q) r)) rows).

(** The second goroutine. *)
Definition SearchText (ctx : context) (q : VectorQuery) (d : DB) : result (list SemanticMessage) :=
  if decide (q_QueryText q = EmptyString) then Ok []
  else
    let rank r := ts_rank (msg_Content (m_msg r)) (q_QueryText q) in
    rows ← Query ctx (fun tid => t ← to_uuid (q_TenantID q); u ← to_uuid (q_UserID q); _ ← text_params [q_QueryText q];
      checked_limit (q_TopK q) (order_by (fun x y => pg_le (rank y) (rank x))
        (List.filter (fun r => fts_match (msg_Content (m_msg r)) (q_QueryText q)) (user_rows tid t u d))));
    Ok (chunks rank rows).

(** One failed search counts as an empty one; two fail the call. *)
Definition SearchHybrid (ctx : context) (q : VectorQuery) (d : DB) : result (list SemanticMessage) :=
  match Search ctx q d, SearchText ctx q d with
  | Err e, Err _ => Err e
  | vec, fts =>
    Ok (rrfMerge (match vec with Ok l => l | Err _ => [] end) (match fts with Ok l => l | Err _ => [] end) (q_TopK q))
  end.
End Vector.

(** ** Lemmas *)

(** Rank of an id in a list. *)
Fixpoint rank_of (id : uuid) (l : list SemanticMessage) : option nat :=
  match l with
  | [] => None
  | c :: l' => if decide (sm_ID c = id) then Some 0%nat else S <$> rank_of id l'
  end.

(** What an id gains from its rank. *)
Definition gain (s : float64) (rank : option nat) : float64 :=
  match rank with Some r => fadd s (rank_score r) | None => s end.

(** The fused score of an id: zero plus its reciprocal ranks. *)
Definition rrf_score (vec fts : list SemanticMessage) (id : uuid) : float64 :=
  gain (gain (f_of_Z 0) (rank_of id vec)) (rank_of id fts).

Lemma rank_of_None id l : rank_of id l = None <-> id ∉ sm_ID <$> l.
Proof.
  induction l as [|c l IH]; simpl; [set_solver|]. case_decide; [set_solver|].
  rewrite fmap_None, IH. set_solver.
Qed.

Lemma rank_of_lt id l r : rank_of id l = Some r -> (r < length l)%nat /\ sm_ID <$> l !! r = Some id.
Proof.
  revert r. induction l as [|c l IH]; intros r; simpl; [done|]. case_decide as E.
  - intros [= <-]. simpl. split; [lia|congruence].
  - intros (k & Hk & ->)%fmap_Some. destruct (IH k Hk). split; [lia|done].
Qed.

Lemma add_scores_lookup id rank l scores : NoDup (sm_ID <$> l) ->
  default (f_of_Z 0) (add_scores rank l scores !! id) =
  gain (default (f_of_Z 0) (scores !! id)) ((fun r => rank + r)%nat <$> rank_of id l).
Proof.
  revert rank scores. induction l as [|c l IH]; intros rank scores Hnd; simpl; [done|].
  apply NoDup_cons in Hnd as [Hc Hnd]. rewrite IH by done. case_decide as E.
  - subst. rewrite lookup_insert_eq. apply rank_of_None in Hc. rewrite Hc. simpl. by rewrite Nat.add_0_r.
  - rewrite lookup_insert_ne by done. rewrite <-option_fmap_compose. f_equal.
    apply option_fmap_ext. intros r. unfold compose. lia.
Qed.

Lemma fused_score vec fts id : NoDup (sm_ID <$> vec) -> NoDup (sm_ID <$> fts) ->
  default (f_of_Z 0) (fused_scores vec fts !! id) = rrf_score vec fts id.
Proof.
  intros Hv Hf. unfold fused_scores, rrf_score. rewrite !add_scores_lookup by done. rewrite lookup_empty. simpl.
  by rewrite !option_fmap_id.
Qed.

Definition well_keyed (m : gmap uuid SemanticMessage) : Prop := forall id c, m !! id = Some c -> sm_ID c = id.

Lemma put_vec_lookup l m id : well_keyed m ->
  well_keyed (foldl put_vec m l) /\
  (is_Some (foldl put_vec m l !! id) <-> is_Some (m !! id) \/ id ∈ sm_ID <$> l).
Proof.
  revert m. induction l as [|c l IH]; intros m Hm; simpl; [set_solver|].
  destruct (IH (put_vec m c)) as [Hk ->].
  - intros id' c'. unfold put_vec. rewrite lookup_insert_Some. intros [[<- <-]|[_ Hc]]; [done|by apply Hm].
  - split; [done|]. unfold put_vec. rewrite lookup_insert_is_Some, elem_of_cons.
    destruct (decide (sm_ID c = id)); naive_solver.
Qed.

Lemma put_fts_lookup l m id : well_keyed m ->
  well_keyed (foldl put_fts m l) /\
  (is_Some (foldl put_fts m l !! id) <-> is_Some (m !! id) \/ id ∈ sm_ID <$> l).
Proof.
  revert m. induction l as [|c l IH]; intros m Hm; simpl; [set_solver|].
  destruct (IH (put_fts m c)) as [Hk ->].
  - intros id' c'. unfold put_fts. case_match; [apply Hm|].
    rewrite lookup_insert_Some. intros [[<- <-]|[_ Hc]]; [done|by apply Hm].
  - split; [done|]. unfold put_fts. rewrite elem_of_cons. destruct (m !! sm_ID c) eqn:E.
    + split; [naive_solver|]. intros [?|[->|?]]; eauto.
    + rewrite lookup_insert_is_Some. destruct (decide (sm_ID c = id)); naive_solver.
Qed.

Lemma fused_chunks_spec vec fts id :
  well_keyed (fused_chunks vec fts) /\
  (is_Some (fused_chunks vec fts !! id) <-> id ∈ sm_ID <$> vec \/ id ∈ sm_ID <$> fts).
Proof.
  unfold fused_chunks. assert (Hempty : well_keyed ∅) by by intros ? ?; rewrite lookup_empty.
  destruct (put_vec_lookup vec ∅ id Hempty) as [Hk Hv]. destruct (put_fts_lookup fts _ id Hk) as [Hk' ->].
  split; [done|]. rewrite Hv, lookup_empty. split; [|naive_solver]. intros [[[? ?]|?]|?]; naive_solver.
Qed.

Lemma by_score_trans x y z : by_score x y = true -> by_score y z = true -> by_score x z = true.
Proof. unfold by_score. eauto using pg_le_trans. Qed.
Lemma by_score_total x y : by_score x y = true \/ by_score y x = true.
Proof. unfold by_score. destruct (pg_le_total (sm_Score x) (sm_Score y)); auto. Qed.

Section Merge.
Context `{OrderBy}.

(** All entries, before the cut. *)
Definition all_merged (vec fts : list SemanticMessage) : list SemanticMessage :=
  order_by by_score
    ((fun '(id, c) => set_score (default (f_of_Z 0) (fused_scores vec fts !! id)) c) <$> map_to_list (fused_chunks vec fts)).

Lemma rrfMerge_take vec fts topK : 0 <= topK -> rrfMerge vec fts topK = take (Z.to_nat topK) (all_merged vec fts).
Proof.
  intros Hk. unfold rrfMerge. fold (all_merged vec fts). destruct (Z.ltb_spec topK (Z.of_nat (length (all_merged vec fts)))); [done|].
  rewrite take_ge; [done|lia].
Qed.

Lemma all_merged_sorted vec fts : StronglySorted (fun x y => by_score x y = true) (all_merged vec fts).
Proof. apply order_by_sorted; [apply by_score_trans|apply by_score_total]. Qed.

Lemma all_merged_In vec fts x : NoDup (sm_ID <$> vec) -> NoDup (sm_ID <$> fts) -> x ∈ all_merged vec fts ->
  sm_Score x = rrf_score vec fts (sm_ID x) /\ (sm_ID x ∈ sm_ID <$> vec \/ sm_ID x ∈ sm_ID <$> fts).
Proof.
  intros Hv Hf. unfold all_merged. rewrite order_by_In, list_elem_of_fmap.
  intros ([id c] & -> & Hc%elem_of_map_to_list). destruct (fused_chunks_spec vec fts id) as [Hk Hin].
  simpl. rewrite fused_score, (Hk id c Hc) by done. split; [done|]. apply Hin. eauto.
Qed.

Lemma all_merged_ids vec fts : sm_ID <$> all_merged vec fts ≡ₚ (map_to_list (fused_chunks vec fts)).*1.
Proof.
  unfold all_merged. rewrite order_by_perm, <-list_fmap_compose.
  rewrite (list_fmap_ext _ fst); [done|]. intros i [id c] Hi%list_elem_of_lookup_2. simpl.
  apply elem_of_map_to_list in Hi. by apply (fused_chunks_spec vec fts id).
Qed.

Lemma all_merged_complete vec fts id : id ∈ sm_ID <$> vec \/ id ∈ sm_ID <$> fts -> id ∈ sm_ID <$> all_merged vec fts.
Proof.
  intros Hin. rewrite all_merged_ids. apply fused_chunks_spec in Hin as [c Hc].
  apply list_elem_of_fmap. exists (id, c). by rewrite elem_of_map_to_list.
Qed.
End Merge.

(** Scores of an item found by both searches at ranks below 61, and of one
    found by only one at a rank below 200. *)
Definition ranks : list float64 := rank_score <$> seq 0 61.
Definition first_gains : list float64 := fadd (f_of_Z 0) <$> ranks.

Lemma rank_In r : (r <= 60)%nat -> rank_score r ∈ ranks.
Proof. intros. apply list_elem_of_fmap. exists r. split; [done|]. apply elem_of_seq. lia. Qed.

Lemma both_sums : forallb (fun a => forallb (fun b =>
  is_num (fadd a b) && negb (pg_le (fadd a b) (gain (f_of_Z 0) (Some 0%nat)))) ranks) first_gains = true.
Proof. vm_cast_no_check (eq_refl true). Qed.

Lemma one_sums : forallb (fun r => pg_le (gain (f_of_Z 0) (Some r)) (gain (f_of_Z 0) (Some 0%nat))) (seq 0 200) = true.
Proof. vm_cast_no_check (eq_refl true). Qed.

Lemma both_beats_one r1 r2 r : (r1 <= 60)%nat -> (r2 <= 60)%nat -> (r < 200)%nat ->
  let both := gain (gain (f_of_Z 0) (Some r1)) (Some r2) in
  is_num both = true /\ pg_le both (gain (f_of_Z 0) (Some r)) = false.
Proof.
  intros H1 H2 Hr both. pose proof both_sums as Hall. pose proof one_sums as Hone.
  rewrite forallb_forall in Hall, Hone.
  specialize (Hall (gain (f_of_Z 0) (Some r1))). rewrite forallb_forall in Hall.
  assert (Hb : is_num both && negb (pg_le both (gain (f_of_Z 0) (Some 0%nat))) = true).
  { apply Hall; apply list_elem_of_In; [|by apply rank_In].
    apply (list_elem_of_fmap_2 (fadd (f_of_Z 0))). by apply rank_In. }
  apply andb_true_iff in Hb as [Hnum Hb]. split; [done|].
  specialize (Hone r). rewrite in_seq in Hone. specialize (Hone ltac:(lia)).
  apply negb_true_iff, not_true_iff_false in Hb. apply not_true_iff_false. intros E. apply Hb. by eapply pg_le_trans.
Qed.

(** ** Properties *)

Section VectorProperties.
Context `{UuidLib, OrderBy, PgSearch}.

(** RrfMerge returns min(topK, number of distinct items) different items,
    each scored with the sum of its reciprocal ranks 1/(60+rank), best first;
    and every item of the two lists that is missing scores at most as much as
    every item returned. *)
Theorem rrfMerge_top_k vec fts topK : 0 <= topK -> NoDup (sm_ID <$> vec) -> NoDup (sm_ID <$> fts) ->
  let out := rrfMerge vec fts topK in
  NoDup (sm_ID <$> out) /\
  Z.of_nat (length out) = Z.min topK (Z.of_nat (length (remove_dups ((sm_ID <$> vec) ++ (sm_ID <$> fts))))) /\
  (forall x, x ∈ out -> sm_Score x = rrf_score vec fts (sm_ID x) /\ (sm_ID x ∈ sm_ID <$> vec \/ sm_ID x ∈ sm_ID <$> fts)) /\
  StronglySorted (fun x y => pg_le (sm_Score y) (sm_Score x) = true) out /\
  (forall id x, id ∈ sm_ID <$> vec \/ id ∈ sm_ID <$> fts -> id ∉ sm_ID <$> out -> x ∈ out ->
     pg_le (rrf_score vec fts id) (sm_Score x) = true).
Proof.
  intros Hk Hv Hf out. unfold out. clear out. rewrite rrfMerge_take by done.
  set (all := all_merged vec fts). pose proof (all_merged_sorted vec fts) as Hs. fold all in Hs.
  assert (Hnd : NoDup (sm_ID <$> all)) by (unfold all; rewrite all_merged_ids; apply NoDup_fst_map_to_list).
  assert (Hlen : length all = length (remove_dups ((sm_ID <$> vec) ++ (sm_ID <$> fts)))).
  { rewrite <-(length_fmap sm_ID). apply Permutation_length, NoDup_Permutation; [done|apply NoDup_remove_dups|].
    intros id. rewrite elem_of_remove_dups, elem_of_app. split; [|apply all_merged_complete].
    intros (x & -> & Hx)%list_elem_of_fmap. by apply all_merged_In in Hx as [_ ?]. }
  rewrite <-(take_drop (Z.to_nat topK) all) in Hs, Hnd. split_and!.
  - rewrite fmap_app in Hnd. by apply NoDup_app in Hnd as [? _].
  - rewrite length_take. lia.
  - intros x Hx. apply all_merged_In; [done..|]. fold all. rewrite <-(take_drop (Z.to_nat topK) all), elem_of_app. by left.
  - by apply StronglySorted_app_1_l in Hs.
  - intros id x Hid Hno Hx. apply all_merged_complete in Hid as (y & -> & Hy)%list_elem_of_fmap.
    destruct (all_merged_In vec fts y Hv Hf Hy) as [<- _]. fold all in Hy.
    rewrite <-(take_drop (Z.to_nat topK) all), elem_of_app in Hy. destruct Hy as [Hy|Hy].
    + destruct Hno. by apply list_elem_of_fmap_2.
    + rewrite take_drop in Hs. change (by_score x y = true). exact (sorted_take_drop _ _ _ _ _ Hs Hx Hy).
Qed.

(** Agreement of the two searches wins: an item that both return among
    their first 61 scores strictly more than any item only one of them returns,
    even first; so when the latter is in the merged list the former is too, at
    an earlier position. *)
Theorem rrfMerge_both_first vec fts topK id1 id2 r1 r2 r : 0 <= topK -> NoDup (sm_ID <$> vec) -> NoDup (sm_ID <$> fts) ->
  rank_of id1 vec = Some r1 -> rank_of id1 fts = Some r2 -> (r1 <= 60)%nat -> (r2 <= 60)%nat -> (r < 200)%nat ->
  (rank_of id2 vec = Some r /\ rank_of id2 fts = None) \/ (rank_of id2 vec = None /\ rank_of id2 fts = Some r) ->
  flt (rrf_score vec fts id2) (rrf_score vec fts id1) = true /\
  forall j, (sm_ID <$> rrfMerge vec fts topK) !! j = Some id2 ->
    exists i, (i < j)%nat /\ (sm_ID <$> rrfMerge vec fts topK) !! i = Some id1.
Proof.
  intros Hk Hv Hf Hk1 Hk2 Hr1 Hr2 Hr H12.
  assert (E2 : rrf_score vec fts id2 = gain (f_of_Z 0) (Some r)) by (unfold rrf_score; by destruct H12 as [[-> ->]|[-> ->]]).
  assert (Hlt : is_num (rrf_score vec fts id1) = true /\ pg_le (rrf_score vec fts id1) (rrf_score vec fts id2) = false).
  { rewrite E2. unfold rrf_score. rewrite Hk1, Hk2. by apply both_beats_one. }
  destruct Hlt as [Hnum Hlt]. split; [by apply pg_le_false_flt|]. intros j. rewrite rrfMerge_take by done.
  set (all := all_merged vec fts). rewrite fmap_take, lookup_take_Some. intros [Hj Hjk].
  apply list_lookup_fmap_Some in Hj as (x & -> & Hx).
  assert (Hin : id1 ∈ sm_ID <$> vec).
  { apply rank_of_lt in Hk1 as [_ Hk1]. rewrite <-list_lookup_fmap in Hk1. by eapply list_elem_of_lookup_2. }
  assert (Hi : id1 ∈ sm_ID <$> all) by (apply all_merged_complete; by left).
  apply list_elem_of_fmap in Hi as (y & -> & [i Hi]%list_elem_of_lookup).
  destruct (all_merged_In vec fts x Hv Hf) as [Ex _]; [by eapply list_elem_of_lookup_2|].
  destruct (all_merged_In vec fts y Hv Hf) as [Ey _]; [by eapply list_elem_of_lookup_2|].
  assert (Hij : (i < j)%nat).
  { apply Nat.nle_gt. intros Hle. destruct (Nat.eq_dec i j) as [->|Hne].
    - assert (x = y) as -> by congruence. by rewrite pg_le_refl in Hlt.
    - pose proof (sorted_lookup _ all j i x y (all_merged_sorted vec fts) ltac:(lia) Hx Hi) as Hle'.
      unfold by_score in Hle'. congruence. }
  exists i. split; [done|]. rewrite lookup_take_Some, list_lookup_fmap, Hi. split; [done|lia].
Qed.
End VectorProperties.

(** ** Examples *)

Module VectorSample.
#[local] Existing Instances merge_order_by.

Definition hit (id : uuid) : SemanticMessage := mkSemanticMessage id "text" (f_of_Z 0) (f_of_Z 0) (f_of_Z 1) 0.

Lemma rrfMerge_top_k_witness :
  (sm_ID <$> rrfMerge [hit "a"; hit "b"] [hit "b"; hit "c"] 1) = ["b"%string] /\
  length (rrfMerge [hit "a"; hit "b"] [hit "b"; hit "c"] 1) = 1%nat.
Proof.
  destruct (rrfMerge_top_k [hit "a"; hit "b"] [hit "b"; hit "c"] 1) as (_ & Hlen & _);
    [lia|vm_compute; repeat constructor; set_solver|vm_compute; repeat constructor; set_solver|].
  split; [vm_compute; reflexivity|]. apply Nat2Z.inj. rewrite Hlen. vm_compute. reflexivity.
Defined.

Lemma rrfMerge_both_first_witness :
  flt (rrf_score [hit "a"; hit "b"] [hit "c"; hit "b"] "a") (rrf_score [hit "a"; hit "b"] [hit "c"; hit "b"] "b") = true.
Proof.
  destruct (rrfMerge_both_first [hit "a"; hit "b"] [hit "c"; hit "b"] 3 "b" "a" 1 1 0) as [Hlt _];
    [lia|vm_compute; repeat constructor; set_solver|vm_compute; repeat constructor; set_solver|
     reflexivity|reflexivity|lia|lia|lia|left; split; reflexivity|exact Hlt].
Defined.
End VectorSample.
