(* ===== verification/Redis.v ===== *)
(** Redis, as the program uses it: an interface whose laws state the documented
    effect of each command on the key space, and what a failed round trip may
    have left behind. *)
From Stdlib Require Import Ascii String.
From S2P Require Import Prelude GoStd GoStrings Float64 Model.

Local Open Scope Z_scope.

(** ** The key space *)

(** An id of a stream entry: milliseconds and sequence number. *)
Definition stream_id : Type := Z * Z.

Definition id_lt (a b : stream_id) : bool := (a.1 <? b.1) || ((a.1 =? b.1) && (a.2 <? b.2)).

(** A batch job, the payload the program adds to a stream as JSON. *)
Record BatchPayload := mkBatchPayload {
  bp_TenantID : string;
  bp_UserID : string;
  bp_SessionID : string;
  bp_BatchSize : Z;
  bp_LastMessageID : string;
}.

#[export] Instance BatchPayload_eq_dec : EqDecision BatchPayload.
Proof. solve_decision. Defined.

(** The two fields of a stream entry: the job and how often it was retried. *)
Record job := mkJob { job_payload : BatchPayload; job_retries : string }.

#[export] Instance job_eq_dec : EqDecision job.
Proof. solve_decision. Defined.

(** A value: a string holding an integer, another string, a list of cached
    messages (newest first; each is kept as its JSON text), a sorted set, a
    stream with its last id. *)
Inductive value :=
  | VInt (n : Z)
  | VText (s : string)
  | VList (l : list Message)
  | VZSet (l : list (string * Z))
  | VStream (last : stream_id) (l : list (stream_id * job)).

(** A key's value and the time it expires at. *)
Abbreviation keyspace := (gmap string (value * option time)) (only parsing).

Definition alive (now : time) (e : value * option time) : bool :=
  match e.2 with None => true | Some deadline => now <? deadline end.

Definition lookup_key (now : time) (k : string) (ks : keyspace) : option (value * option time) :=
  e ← ks !! k; if alive now e then Some e else None.

(** The value alone. *)
Definition get_value (now : time) (k : string) (ks : keyspace) : option value := fst <$> lookup_key now k ks.

(** Overwriting a value keeps the time to live of a key that is there. *)
Definition put_value (now : time) (k : string) (v : value) (ks : keyspace) : keyspace :=
  <[k := (v, lookup_key now k ks ≫= snd)]> ks.

(** ** Commands *)

Inductive cmd :=
  | EXISTS (k : string)
  | LPUSH (k : string) (m : Message)
  | RPUSH (k : string) (m : Message)
  | LTRIM (k : string) (start stop : Z)
  | LRANGE (k : string) (start stop : Z)
  | EXPIRE (k : string) (ttl : time)
  | INCR (k : string)
  | GET (k : string)
  | DEL (k : string)
  | ZADD (k : string) (score : Z) (member : string)
  | ZREM (k : string) (member : string)
  | ZRANGEBYSCORE (k : string) (max offset count : Z)
  | SETNX (k : string) (v : string) (ttl : time)
  | XADD (k : string) (maxlen : Z) (p : job).

Inductive reply :=
  | RInt (n : Z)
  | RMessages (l : list Message)
  | RMembers (l : list string)
  | RValue (v : option value)
  | RId (i : stream_id)
  | ROk
  | RErr (e : error).

Definition wrongtype : error := "WRONGTYPE Operation against a key holding the wrong kind of value"%string.

(** The elements of a list between two indexes, a negative one counting from
    the end. *)
Definition lrange {A} (start stop : Z) (l : list A) : list A :=
  let n := Z.of_nat (length l) in
  let s := if start <? 0 then Z.max 0 (n + start) else start in
  let e := if stop <? 0 then n + stop else stop in
  if e <? s then [] else take (Z.to_nat (e - s + 1)) (drop (Z.to_nat s) l).

(** An empty list or set is no key. *)
Definition put_list (now : time) (k : string) (l : list Message) (ks : keyspace) : keyspace :=
  if decide (l = []) then delete k ks else put_value now k (VList l) ks.
Definition put_zset (now : time) (k : string) (l : list (string * Z)) (ks : keyspace) : keyspace :=
  if decide (l = []) then delete k ks else put_value now k (VZSet l) ks.

(** Sets are kept in score order, members of one score in byte order. *)
Definition zle (a b : string * Z) : bool := (a.2 <? b.2) || ((a.2 =? b.2) && String.leb a.1 b.1).
Fixpoint zinsert (x : string * Z) (l : list (string * Z)) : list (string * Z) :=
  match l with
  | [] => [x]
  | y :: l' => if zle x y then x :: l else y :: zinsert x l'
  end.
Definition zremove (member : string) (l : list (string * Z)) : list (string * Z) :=
  List.filter (fun x => negb (bool_decide (x.1 = member))) l.
Definition zadd (member : string) (score : Z) (l : list (string * Z)) : list (string * Z) :=
  zinsert (member, score) (zremove member l).

(** LIMIT offset count of ZRANGEBYSCORE: a negative count is no limit. *)
Definition zlimit {A} (offset count : Z) (l : list A) : list A :=
  if offset <? 0 then []
  else let l := drop (Z.to_nat offset) l in if count <? 0 then l else take (Z.to_nat count) l.

Definition next_id (now : time) (last : stream_id) : stream_id :=
  let ms := now / 1000 in if last.1 <? ms then (ms, 0) else (last.1, last.2 + 1).

Section Commands.
(** MAXLEN ~ n: how much an approximate trimming removes is up to Redis. *)
Context (approx_trim : Z -> list (stream_id * job) -> list (stream_id * job)).

Definition run1 (now : time) (c : cmd) (ks : keyspace) : keyspace * reply :=
  match c with
  | EXISTS k => (ks, RInt (if get_value now k ks is Some _ then 1 else 0))
  | LPUSH k m =>
    match get_value now k ks with
    | None => (put_value now k (VList [m]) ks, RInt 1)
    | Some (VList l) => (put_value now k (VList (m :: l)) ks, RInt (Z.of_nat (length l) + 1))
    | Some _ => (ks, RErr wrongtype)
    end
  | RPUSH k m =>
    match get_value now k ks with
    | None => (put_value now k (VList [m]) ks, RInt 1)
    | Some (VList l) => (put_value now k (VList (l ++ [m])) ks, RInt (Z.of_nat (length l) + 1))
    | Some _ => (ks, RErr wrongtype)
    end
  | LTRIM k a b =>
    match get_value now k ks with
    | None => (ks, ROk)
    | Some (VList l) => (put_list now k (lrange a b l) ks, ROk)
    | Some _ => (ks, RErr wrongtype)
    end
  | LRANGE k a b =>
    match get_value now k ks with
    | None => (ks, RMessages [])
    | Some (VList l) => (ks, RMessages (lrange a b l))
    | Some _ => (ks, RErr wrongtype)
    end
  | EXPIRE k ttl =>
    match get_value now k ks with
    | None => (ks, RInt 0)
    | Some v => (<[k := (v, Some (now + ttl))]> ks, RInt 1)
    end
  | INCR k =>
    match get_value now k ks with
    | None => (put_value now k (VInt 1) ks, RInt 1)
    | Some (VInt n) =>
      if n <? 2 ^ 63 - 1 then (put_value now k (VInt (n + 1)) ks, RInt (n + 1))
      else (ks, RErr "ERR increment or decrement would overflow"%string)
    | Some (VText _) => (ks, RErr "ERR value is not an integer or out of range"%string)
    | Some _ => (ks, RErr wrongtype)
    end
  | GET k =>
    match get_value now k ks with
    | None => (ks, RValue None)
    | Some (VInt n) => (ks, RValue (Some (VInt n)))
    | Some (VText s) => (ks, RValue (Some (VText s)))
    | Some _ => (ks, RErr wrongtype)
    end
  | DEL k => (delete k ks, RInt (if get_value now k ks is Some _ then 1 else 0))
  | ZADD k score m =>
    match get_value now k ks with
    | None => (put_value now k (VZSet [(m, score)]) ks, RInt 1)
    | Some (VZSet l) => (put_value now k (VZSet (zadd m score l)) ks,
                         RInt (if decide (m ∈ l.*1) then 0 else 1))
    | Some _ => (ks, RErr wrongtype)
    end
  | ZREM k m =>
    match get_value now k ks with
    | None => (ks, RInt 0)
    | Some (VZSet l) => (put_zset now k (zremove m l) ks, RInt (if decide (m ∈ l.*1) then 1 else 0))
    | Some _ => (ks, RErr wrongtype)
    end
  | ZRANGEBYSCORE k max offset count =>
    match get_value now k ks with
    | None => (ks, RMembers [])
    | Some (VZSet l) => (ks, RMembers (zlimit offset count (List.filter (fun x => x.2 <=? max) l).*1))
    | Some _ => (ks, RErr wrongtype)
    end
  | SETNX k v ttl =>
    match get_value now k ks with
    | None => (<[k := (VText v, Some (now + ttl))]> ks, RInt 1)
    | Some _ => (ks, RInt 0)
    end
  | XADD k maxlen p =>
    match get_value now k ks with
    | None => let i := next_id now (0, 0) in
              (put_value now k (VStream i (approx_trim maxlen [(i, p)])) ks, RId i)
    | Some (VStream last l) =>
      let i := next_id now last in
      (put_value now k (VStream i (approx_trim maxlen (l ++ [(i, p)]))) ks, RId i)
    | Some _ => (ks, RErr wrongtype)
    end
  end.

Fixpoint run (now : time) (cs : list cmd) (ks : keyspace) : keyspace * list reply :=
  match cs with
  | [] => (ks, [])
  | c :: cs =>
    let '(ks1, r) := run1 now c ks in
    let '(ks2, rs) := run now cs ks1 in (ks2, r :: rs)
  end.
End Commands.

(** ** The server

    [exec] sends a pipeline.  When the answer arrives all commands have been
    run, in order; when it does not, any prefix of them may have been. *)
Class Redis := {
  store : Type;
  view : store -> keyspace;
  approx_trim : Z -> list (stream_id * job) -> list (stream_id * job);
  exec : time -> list cmd -> store -> store * result (list reply);
  exec_answered now cs s s' rs : exec now cs s = (s', Ok rs) -> run approx_trim now cs (view s) = (view s', rs);
  exec_failed now cs s s' e : exec now cs s = (s', Err e) ->
    exists n, view s' = (run approx_trim now (take n cs) (view s)).1;
  (* at least maxlen entries, the newest, are kept *)
  approx_trim_spec maxlen l : exists n, approx_trim maxlen l = drop n l /\
    Z.min maxlen (Z.of_nat (length l)) <= Z.of_nat (length (drop n l));
}.

(** A server without a network, for examples; it never trims, and answers
    while [up]. *)
Definition local_redis (up : bool) : Redis.
Proof.
  refine {| store := keyspace; view s := s; approx_trim _ l := l;
            exec now cs s := if up then (fun '(s', rs) => (s', Ok rs)) (run (fun _ l => l) now cs s)
                             else (s, Err "connection refused"%string) |}.
  - intros now cs s s' rs. destruct up; [|done]. destruct (run _ _ _ _). intros [= <- <-]. done.
  - intros now cs s s' e. destruct up; [by destruct (run _ _ _ _)|]. intros [= <- _]. by exists 0%nat.
  - intros maxlen l. exists 0%nat. rewrite drop_0. split; [done|lia].
Defined.

(** Pipeline.Exec and the single commands: the first error among the replies
    is the call's error. *)
Definition first_error (rs : list reply) : option error :=
  head (omap (fun r => match r with RErr e => Some e | _ => None end) rs).

Definition Pipeline `{Redis} (done : bool) (now : time) (cs : list cmd) (s : store) : store * result (list reply) :=
  if done then (s, Err "context canceled"%string)
  else
    match exec now cs s with
    | (s', Ok rs) => (s', match first_error rs with Some e => Err e | None => Ok rs end)
    | (s', Err e) => (s', Err e)
    end.

(** ** Lemmas *)

Lemma lookup_key_insert now k e ks : lookup_key now k (<[k := e]> ks) = if alive now e then Some e else None.
Proof. unfold lookup_key. by rewrite lookup_insert_eq. Qed.
Lemma lookup_key_insert_ne now k k' e ks : k <> k' -> lookup_key now k' (<[k := e]> ks) = lookup_key now k' ks.
Proof. intros. unfold lookup_key. by rewrite lookup_insert_ne. Qed.

Lemma alive_lookup now k e ks : lookup_key now k ks = Some e -> alive now e = true.
Proof. unfold lookup_key. destruct (ks !! k) as [e'|]; simpl; [|done]. destruct (alive now e') eqn:E; [|done]. by intros [= <-]. Qed.

Lemma get_put_value now k v ks : get_value now k (put_value now k v ks) = Some v.
Proof.
  unfold get_value, put_value. rewrite lookup_key_insert.
  assert (Ha : alive now (v, lookup_key now k ks ≫= snd) = true); [|by rewrite Ha].
  destruct (lookup_key now k ks) as [e|] eqn:E; simpl; [|done]. apply alive_lookup in E. by destruct e.
Qed.
Lemma get_put_value_ne now k k' v ks : k <> k' -> get_value now k' (put_value now k v ks) = get_value now k' ks.
Proof. intros. unfold get_value, put_value. by rewrite lookup_key_insert_ne. Qed.
Lemma get_insert_live now k v d ks : now < d -> get_value now k (<[k := (v, Some d)]> ks) = Some v.
Proof. intros. unfold get_value. rewrite lookup_key_insert. unfold alive. simpl. by rewrite (proj2 (Z.ltb_lt _ _)). Qed.
Lemma get_insert_ne now k k' e ks : k <> k' -> get_value now k' (<[k := e]> ks) = get_value now k' ks.
Proof. intros. unfold get_value. by rewrite lookup_key_insert_ne. Qed.
Lemma get_delete now k ks : get_value now k (delete k ks) = None.
Proof. unfold get_value, lookup_key. by rewrite lookup_delete_eq. Qed.
Lemma get_delete_ne now k k' ks : k <> k' -> get_value now k' (delete k ks) = get_value now k' ks.
Proof. intros. unfold get_value, lookup_key. by rewrite lookup_delete_ne. Qed.

Lemma lrange_prefix {A} n (l : list A) : 0 <= n -> lrange 0 n l = take (Z.to_nat (n + 1)) l.
Proof.
  intros Hn. unfold lrange. rewrite (proj2 (Z.ltb_ge 0 0)), (proj2 (Z.ltb_ge n 0)) by lia.
  rewrite (proj2 (Z.ltb_ge n 0)) by lia. by rewrite Z.sub_0_r, drop_0.
Qed.

Lemma zinsert_perm x l : zinsert x l ≡ₚ x :: l.
Proof. induction l as [|y l IH]; simpl; [done|]. destruct (zle x y); [done|]. rewrite IH. constructor. Qed.
