(* ===== verification/Cache.v ===== *)
(** The message cache and the batching counters in Redis
    ([internal/repository/cache.go]).  A session has a list of its last 50
    messages, a counter of user messages not yet extracted, and an entry in the
    set of active sessions; a tenant has the stream of its batch jobs. *)
From Stdlib Require Import Ascii String.
From S2P Require Import Prelude GoStd GoStrings Float64 Model Db MessageRepo Redis.

Local Open Scope Z_scope.

Definition msgs_key (tenantID sessionID : string) : string := tenantID +:+ ":sess:" +:+ sessionID +:+ ":msgs".
Definition cog_key (tenantID sessionID : string) : string := tenantID +:+ ":sess:" +:+ sessionID +:+ ":cog_batch".
Definition active_key : string := "global:active_sessions".
Definition stream_key (tenantID : string) : string := tenantID +:+ ":stream:cognitive".
Definition member (tenantID sessionID : string) : string := tenantID +:+ ":" +:+ sessionID.

Definition unix (now : time) : Z := now / second.

Section Cache.
Context `{UuidLib, OrderBy, PgSearch, Redis}.

(** LTRIM key 0 49 and EXPIRE key 2h *)
Definition keep_recent (key : string) : list cmd := [LTRIM key 0 49; EXPIRE key (2 * hour)].

Definition reloadAndAppend (ctx : context) (now : time) (d : DB) (key tenantID sessionID : string)
    (msgs : list Message) (s : store) : store * result unit :=
  let existing := match GetSessionHistory ctx tenantID sessionID 50 EmptyString d with Ok l => l | Err _ => [] end in
  let '(s', r) := Pipeline (ctx_Done ctx) now
        ((RPUSH key <$> existing) ++ (LPUSH key <$> msgs) ++ keep_recent key) s in
  (s', _ ← r; Ok tt).

Definition AppendMessages (ctx : context) (now : time) (d : DB) (tenantID sessionID : string)
    (msgs : list Message) (s : store) : store * result unit :=
  let key := msgs_key tenantID sessionID in
  match Pipeline (ctx_Done ctx) now [EXISTS key] s with
  | (s', Err e) => (s', Err e)
  | (s', Ok [RInt 0]) => reloadAndAppend ctx now d key tenantID sessionID msgs s'
  | (s', Ok _) =>
    let '(s'', r) := Pipeline (ctx_Done ctx) now ((LPUSH key <$> msgs) ++ keep_recent key) s' in
    (s'', _ ← r; Ok tt)
  end.

Definition IncrementCognitiveBatch (ctx : context) (now : time) (tenantID sessionID : string) (s : store)
  : store * result Z :=
  let key := cog_key tenantID sessionID in
  match Pipeline (ctx_Done ctx) now
          [INCR key; EXPIRE key day; ZADD active_key (unix now) (member tenantID sessionID)] s with
  | (s', Ok (RInt n :: _)) => (s', Ok n)
  | (s', Ok _) => (s', Ok 0)
  | (s', Err e) => (s', Err e)
  end.

Definition GetCognitiveBatchCount (ctx : context) (now : time) (tenantID sessionID : string) (s : store)
  : store * result Z :=
  match Pipeline (ctx_Done ctx) now [GET (cog_key tenantID sessionID)] s with
  | (s', Ok [RValue (Some (VInt n))]) => (s', Ok n)
  | (s', Ok [RValue (Some (VText t))]) =>
    (s', match Atoi t with Some n => Ok n | None => Err "strconv.ParseInt: invalid syntax"%string end)
  | (s', Ok _) => (s', Ok 0)                       (* redis.Nil *)
  | (s', Err e) => (s', Err e)
  end.

Definition ResetCognitiveBatch (ctx : context) (now : time) (tenantID sessionID : string) (s : store)
  : store * result unit :=
  let '(s', r) := Pipeline (ctx_Done ctx) now
        [DEL (cog_key tenantID sessionID); ZREM active_key (member tenantID sessionID)] s in
  (s', _ ← r; Ok tt).

Definition GetInactiveSessions (ctx : context) (now olderThan : time) (limit : Z) (s : store)
  : store * result (list string) :=
  match Pipeline (ctx_Done ctx) now [ZRANGEBYSCORE active_key (unix (now - olderThan)) 0 limit] s with
  | (s', Ok [RMembers l]) => (s', Ok l)
  | (s', Ok _) => (s', Ok [])
  | (s', Err e) => (s', Err e)
  end.

Definition RemoveSessionActivity (ctx : context) (now : time) (tenantID sessionID : string) (s : store)
  : store * result unit :=
  let '(s', r) := Pipeline (ctx_Done ctx) now [ZREM active_key (member tenantID sessionID)] s in
  (s', _ ← r; Ok tt).

Definition TryLock (ctx : context) (now : time) (key : string) (ttl : time) (s : store) : store * result bool :=
  match Pipeline (ctx_Done ctx) now [SETNX key "locked" ttl] s with
  | (s', Ok [RInt 1]) => (s', Ok true)
  | (s', Ok _) => (s', Ok false)
  | (s', Err e) => (s', Err e)
  end.

Definition XAddCognitiveBatch (ctx : context) (now : time) (tenantID : string) (p : BatchPayload) (s : store)
  : store * result unit :=
  let '(s', r) := Pipeline (ctx_Done ctx) now [XADD (stream_key tenantID) 10000 (mkJob p "0")] s in
  (s', _ ← r; Ok tt).

Definition GetRawMessages (ctx : context) (now : time) (d : DB) (tenantID sessionID : string) (count : Z) (s : store)
  : store * result (list Message) :=
  match Pipeline (ctx_Done ctx) now [LRANGE (msgs_key tenantID sessionID) 0 (count - 1)] s with
  | (s', Err e) => (s', Err e)
  | (s', Ok [RMessages (m :: l)]) => (s', Ok (m :: l))
  | (s', Ok _) => (s', GetSessionHistory ctx tenantID sessionID count EmptyString d)
  end.

(** The index of the last entry with the anchor's id. *)
Fixpoint anchor_index (anchor : string) (l : list Message) : option nat :=
  match l with
  | [] => None
  | m :: l' =>
    match anchor_index anchor l' with
    | Some i => Some (S i)
    | None => if decide (msg_ID m = anchor) then Some 0%nat else None
    end
  end.

(** [all[anchorIdx:end]]; a negative count makes the slice expression panic. *)
Definition GetRawMessagesUntil (ctx : context) (now : time) (d : DB) (tenantID sessionID anchorMsgID : string)
    (count : Z) (s : store) : store * result (list Message) :=
  if decide (anchorMsgID = EmptyString) then GetRawMessages ctx now d tenantID sessionID count s
  else
    match Pipeline (ctx_Done ctx) now [LRANGE (msgs_key tenantID sessionID) 0 49] s with
    | (s', Err e) => (s', Err e)
    | (s', Ok [RMessages all]) =>
      match anchor_index anchorMsgID all with
      | None => (s', Ok [])
      | Some i =>
        if count <? 0 then (s', Err "panic: slice bounds out of range"%string)
        else (s', Ok (take (Z.to_nat count) (drop i all)))
      end
    | (s', Ok _) => (s', Ok [])
    end.
End Cache.

(** ** Keys *)

Lemma list_ascii_app a b :
  list_ascii_of_string (a +:+ b) = list_ascii_of_string a ++ list_ascii_of_string b.
Proof. induction a as [|c a IH]; simpl; [done|]. by rewrite IH. Qed.

Lemma snoc_inj a b c d : a +:+ String c "" = b +:+ String d "" -> c = d.
Proof.
  intros E. apply (f_equal list_ascii_of_string) in E. rewrite !list_ascii_app in E.
  by apply app_inj_tail in E as [_ E].
Qed.

Lemma cog_key_msgs t s t' s' : cog_key t s <> msgs_key t' s'.
Proof.
  unfold cog_key, msgs_key. change ":cog_batch" with (":cog_batc" +:+ "h"). change ":msgs" with (":msg" +:+ "s").
  rewrite <-!string_app_assoc. intros E%snoc_inj. discriminate.
Qed.

Lemma sess_key_active t x : no_byte ":" t -> t +:+ ":sess:" +:+ x <> active_key.
Proof.
  intros Ht E. change active_key with ("global" +:+ String ":" "active_sessions") in E.
  change (t +:+ String ":" ("sess:" +:+ x) = "global" +:+ String ":" "active_sessions") in E.
  apply app_sep_inj in E as [_ E]; [discriminate|done|by vm_compute; repeat constructor].
Qed.

Lemma stream_key_sess t t' x : no_byte ":" t -> no_byte ":" t' -> stream_key t <> t' +:+ ":sess:" +:+ x.
Proof.
  intros Ht Ht' E. change (t +:+ String ":" "stream:cognitive" = t' +:+ String ":" ("sess:" +:+ x)) in E.
  apply app_sep_inj in E as [_ E]; [discriminate|done|done].
Qed.

Lemma stream_key_active t : no_byte ":" t -> stream_key t <> active_key.
Proof.
  intros Ht E. change (t +:+ String ":" "stream:cognitive" = "global" +:+ String ":" "active_sessions") in E.
  apply app_sep_inj in E as [_ E]; [discriminate|done|by vm_compute; repeat constructor].
Qed.

Lemma msgs_key_apart t s : no_byte ":" t ->
  msgs_key t s <> cog_key t s /\ msgs_key t s <> active_key /\ msgs_key t s <> stream_key t.
Proof.
  intros Ht. split_and!; [apply not_eq_sym, cog_key_msgs|by apply sess_key_active|].
  by apply not_eq_sym, stream_key_sess.
Qed.

(** ** What a pipeline leaves alone *)

Definition cmd_key (c : cmd) : string :=
  match c with
  | EXISTS k | LPUSH k _ | RPUSH k _ | LTRIM k _ _ | LRANGE k _ _ | EXPIRE k _ | INCR k | GET k | DEL k
  | ZADD k _ _ | ZREM k _ | ZRANGEBYSCORE k _ _ _ | SETNX k _ _ | XADD k _ _ => k
  end.

Lemma run1_frame trim now c k ks : cmd_key c <> k -> (run1 trim now c ks).1 !! k = ks !! k.
Proof.
  intros Hk. destruct c; simpl in *; repeat case_match; simpl; try done;
    unfold put_list, put_zset, put_value; repeat case_decide; by rewrite ?lookup_delete_ne, ?lookup_insert_ne.
Qed.

Lemma run_frame trim now cs k ks : Forall (fun c => cmd_key c <> k) cs -> (run trim now cs ks).1 !! k = ks !! k.
Proof.
  intros Hcs. revert ks. induction Hcs as [|c cs Hc _ IH]; intros ks; [done|]. simpl.
  pose proof (run1_frame trim now c k ks Hc) as E. destruct (run1 trim now c ks) as [ks1 r]. simpl in E.
  specialize (IH ks1). destruct (run trim now cs ks1) as [ks2 rs]. simpl in *. congruence.
Qed.

Section CacheLemmas.
Context `{UuidLib, OrderBy, PgSearch, Redis}.

(** Whatever happens to a pipeline, the keys it does not name stay. *)
Lemma Pipeline_frame done now cs k s s' r : Forall (fun c => cmd_key c <> k) cs ->
  Pipeline done now cs s = (s', r) -> view s' !! k = view s !! k.
Proof.
  intros Hcs. unfold Pipeline. destruct done; [by intros [= <- _]|].
  destruct (exec now cs s) as [s1 [rs|e]] eqn:E; intros [= <- _].
  - apply exec_answered in E. pose proof (run_frame approx_trim now cs k (view s) Hcs) as Hf. by rewrite E in Hf.
  - apply exec_failed in E as [n ->]. apply run_frame. by apply Forall_take.
Qed.

(** A server that answers. *)
Definition reliable : Prop := forall now cs s, exists s' rs, exec now cs s = (s', Ok rs).

Lemma Pipeline_run now cs s : reliable ->
  exists s', Pipeline false now cs s =
    (s', match first_error (run approx_trim now cs (view s)).2 with
         | Some e => Err e | None => Ok (run approx_trim now cs (view s)).2 end) /\
    view s' = (run approx_trim now cs (view s)).1.
Proof.
  intros Hrel. destruct (Hrel now cs s) as (s' & rs & E). exists s'. unfold Pipeline. rewrite E.
  apply exec_answered in E. by rewrite E.
Qed.

Lemma AppendMessages_frame ctx now d t s msgs st k : msgs_key t s <> k ->
  view (AppendMessages ctx now d t s msgs st).1 !! k = view st !! k.
Proof.
  intros Hk. unfold AppendMessages.
  assert (Htail : Forall (fun c => cmd_key c <> k) ((LPUSH (msgs_key t s) <$> msgs) ++ keep_recent (msgs_key t s))).
  { apply Forall_app_2; [by apply Forall_fmap, Forall_true|by repeat constructor]. }
  destruct (Pipeline _ now [EXISTS (msgs_key t s)] st) as [s1 r1] eqn:E1.
  assert (F1 : view s1 !! k = view st !! k) by (eapply Pipeline_frame; [|exact E1]; by repeat constructor).
  assert (Hhit : view (let '(s'', r) := Pipeline (ctx_Done ctx) now ((LPUSH (msgs_key t s) <$> msgs) ++ keep_recent (msgs_key t s)) s1 in
    (s'', _ ← r; Ok tt)).1 !! k = view st !! k).
  { destruct (Pipeline _ now (_ ++ _) s1) as [s2 r2] eqn:E2. simpl. rewrite <-F1. by eapply Pipeline_frame. }
  assert (Hmiss : view (reloadAndAppend ctx now d (msgs_key t s) t s msgs s1).1 !! k = view st !! k).
  { clear Hhit. unfold reloadAndAppend. destruct (Pipeline _ now (_ ++ _) s1) as [s2 r2] eqn:E2. simpl. rewrite <-F1.
    eapply Pipeline_frame; [|exact E2]. apply Forall_app_2; [by apply Forall_fmap, Forall_true|done]. }
  destruct r1 as [rs|e]; [|exact F1].
  destruct rs as [|[[|p|p]| | | | | |] [|? ?]]; try exact Hhit; exact Hmiss.
Qed.

(** *** The list of a session *)

Lemma run_app trim now cs cs' ks :
  (run trim now (cs ++ cs') ks).1 = (run trim now cs' (run trim now cs ks).1).1.
Proof.
  revert ks. induction cs as [|c cs IH]; intros ks; [done|]. simpl.
  destruct (run1 trim now c ks) as [ks1 r]. specialize (IH ks1).
  destruct (run trim now (cs ++ cs') ks1), (run trim now cs ks1). exact IH.
Qed.

Lemma run_rpush trim now k l ms ks : get_value now k ks = Some (VList ms) ->
  get_value now k (run trim now (RPUSH k <$> l) ks).1 = Some (VList (ms ++ l)).
Proof.
  revert ks ms. induction l as [|m l IH]; intros ks ms Hk; [by rewrite app_nil_r|].
  cbn [fmap list_fmap run run1]. rewrite Hk. specialize (IH (put_value now k (VList (ms ++ [m])) ks) (ms ++ [m])).
  rewrite get_put_value in IH. specialize (IH eq_refl). change (list_fmap Message cmd (RPUSH k) l) with (RPUSH k <$> l).
  destruct (run _ _ (RPUSH k <$> l) _). simpl in *. by rewrite IH, <-(assoc_L (++)).
Qed.

Lemma run_lpush trim now k l ms ks : get_value now k ks = Some (VList ms) ->
  get_value now k (run trim now (LPUSH k <$> l) ks).1 = Some (VList (reverse l ++ ms)).
Proof.
  revert ks ms. induction l as [|m l IH]; intros ks ms Hk; [done|].
  cbn [fmap list_fmap run run1]. rewrite Hk. specialize (IH (put_value now k (VList (m :: ms)) ks) (m :: ms)).
  rewrite get_put_value in IH. specialize (IH eq_refl). change (list_fmap Message cmd (LPUSH k) l) with (LPUSH k <$> l).
  destruct (run _ _ (LPUSH k <$> l) _). simpl in *. by rewrite IH, reverse_cons, <-(assoc_L (++)).
Qed.

Lemma run_keep trim now k ms ks : get_value now k ks = Some (VList ms) -> ms <> [] ->
  (run trim now (keep_recent k) ks).1 !! k = Some (VList (take 50 ms), Some (now + 2 * hour)).
Proof.
  intros Hk Hne. unfold keep_recent. cbn [run run1]. rewrite Hk, lrange_prefix by lia.
  change (Z.to_nat (49 + 1)) with 50%nat. unfold put_list. rewrite decide_False by by destruct ms.
  rewrite get_put_value. simpl. by rewrite lookup_insert_eq.
Qed.

(** The first push makes the list. *)
Lemma run_push_fresh trim now k (c : Message -> cmd) m ks : (c = LPUSH k \/ c = RPUSH k) -> get_value now k ks = None ->
  get_value now k (run1 trim now (c m) ks).1 = Some (VList [m]).
Proof. intros [-> | ->] Hk; simpl; rewrite Hk; apply get_put_value. Qed.

Lemma run_appends trim now k l new ms ks : get_value now k ks = Some (VList ms) -> new <> [] \/ ms <> [] ->
  l = LPUSH k <$> new ->
  (run trim now (l ++ keep_recent k) ks).1 !! k = Some (VList (take 50 (reverse new ++ ms)), Some (now + 2 * hour)).
Proof.
  intros Hk Hne ->. rewrite run_app. eapply run_keep; [by apply run_lpush|].
  intros [E1 E2]%app_nil. destruct Hne as [Hne|Hne]; [|done]. apply Hne.
  by rewrite <-(reverse_involutive new), E1.
Qed.

Lemma run_reload trim now k old new ks : get_value now k ks = None -> new <> [] ->
  (run trim now ((RPUSH k <$> old) ++ (LPUSH k <$> new) ++ keep_recent k) ks).1 !! k =
  Some (VList (take 50 (reverse new ++ old)), Some (now + 2 * hour)).
Proof.
  intros Hk Hne. rewrite run_app. destruct old as [|m old].
  - destruct new as [|m new]; [done|]. cbn [fmap list_fmap run fst app].
    pose proof (run_push_fresh trim now k (LPUSH k) m ks (or_introl eq_refl) Hk) as Hm.
    destruct (run1 trim now (LPUSH k m) ks) as [ks1 r]. simpl in Hm.
    pose proof (run_appends trim now k _ new [m] ks1 Hm ltac:(by right) eq_refl) as E.
    change (list_fmap Message cmd (LPUSH k) new) with (LPUSH k <$> new).
    destruct (run trim now ((LPUSH k <$> new) ++ keep_recent k) ks1). simpl in *.
    by rewrite E, reverse_cons, app_nil_r.
  - assert (Hold : get_value now k (run trim now (RPUSH k <$> m :: old) ks).1 = Some (VList (m :: old))).
    { cbn [fmap list_fmap run]. pose proof (run_push_fresh trim now k (RPUSH k) m ks (or_intror eq_refl) Hk) as Hm.
      destruct (run1 trim now (RPUSH k m) ks) as [ks1 r]. simpl in Hm.
      pose proof (run_rpush trim now k old [m] ks1 Hm) as E.
      change (list_fmap Message cmd (RPUSH k) old) with (RPUSH k <$> old).
      by destruct (run trim now (RPUSH k <$> old) ks1). }
    eapply run_appends; [exact Hold|by left|done].
Qed.

Lemma Pipeline_EXISTS now k st : reliable ->
  exists s', Pipeline false now [EXISTS k] st = (s', Ok [RInt (if get_value now k (view st) is Some _ then 1 else 0)]) /\
    view s' = view st.
Proof. intros Hrel. destruct (Pipeline_run now [EXISTS k] st Hrel) as (s' & E & Hv). exists s'. by rewrite E. Qed.

Lemma Pipeline_LRANGE now k st a b ms : reliable -> get_value now k (view st) = Some (VList ms) ->
  exists s', Pipeline false now [LRANGE k a b] st = (s', Ok [RMessages (lrange a b ms)]) /\ view s' = view st.
Proof.
  intros Hrel Hk. destruct (Pipeline_run now [LRANGE k a b] st Hrel) as (s' & E & Hv). exists s'.
  cbn [run run1] in E, Hv. rewrite Hk in E, Hv. by rewrite E.
Qed.

Lemma anchor_index_lookup l i m : NoDup (msg_ID <$> l) -> l !! i = Some m -> anchor_index (msg_ID m) l = Some i.
Proof.
  revert i. induction l as [|x l IH]; intros i Hnd Hi; [done|]. simpl in *. apply NoDup_cons in Hnd as [Hx Hnd].
  destruct i as [|i]; simpl in Hi.
  - injection Hi as ->. assert (E : anchor_index (msg_ID m) l = None).
    { clear -Hx. induction l as [|y l IH]; simpl; [done|]. simpl in Hx. apply not_elem_of_cons in Hx as [Hne Hx].
      rewrite IH by done. by rewrite decide_False by congruence. }
    rewrite E. by rewrite decide_True.
  - by rewrite (IH i).
Qed.

(** The messages up to the time of the [i]-th are the rest of the list. *)
Lemma until_is_drop l i m :
  StronglySorted (fun x y => newest_first x y = true) l -> distinct_times l -> l !! i = Some m ->
  List.filter (fun x => msg_CreatedAt x <=? msg_CreatedAt m) l = drop i l.
Proof.
  intros Hs Hd. revert i. unfold distinct_times in Hd.
  induction Hs as [|x l Hs IH Hx]; intros i Hi; [done|].
  simpl in Hd. apply NoDup_cons in Hd as [Hxd Hd]. rewrite Forall_forall in Hx.
  destruct i as [|i]; simpl in *.
  - injection Hi as ->. rewrite Z.leb_refl. f_equal. apply filter_all, Forall_forall.
    intros y Hy. exact (Hx y Hy).
  - assert (Hm : m ∈ l) by by eapply list_elem_of_lookup_2.
    specialize (Hx m Hm). unfold newest_first in Hx.
    rewrite (proj2 (Z.leb_gt _ _)); [by apply IH|].
    assert (msg_CreatedAt x <> msg_CreatedAt m); [|lia].
    intros E. apply Hxd. rewrite E. by apply list_elem_of_fmap_2.
Qed.

Lemma select_of_user t u s p d : Forall (fun m => msg_UserID m = u) (session_messages t s d) ->
  select_messages (Some t) (fun m => of_user_session t u s m && p m) d = List.filter p (session_messages t s d).
Proof.
  intros Hu. rewrite <-(select_in_session t s p d). unfold select_messages.
  apply List.filter_ext_in. intros m Hm%list_elem_of_In. f_equal. unfold of_user_session, in_session.
  apply eq_bool_prop_intro. rewrite !andb_True, !bool_decide_spec. split; [naive_solver|].
  intros [Ht Hs]. split_and!; try done. rewrite Forall_forall in Hu. apply Hu. unfold session_messages.
  apply elem_of_filter_bool. split.
  - apply list_elem_of_fmap in Hm as (r & -> & [Hr _]%elem_of_visible). by apply list_elem_of_fmap_2.
  - unfold in_session. by rewrite !bool_decide_true.
Qed.

(** *** The batching state

    The counter of a session, the set of active sessions and the jobs of a
    tenant's stream, as long as their keys hold what the program puts there. *)

Definition counter (now : time) (t s : string) (ks : keyspace) : option Z :=
  match get_value now (cog_key t s) ks with
  | None => Some 0
  | Some (VInt n) => Some n
  | Some _ => None
  end.

Definition active (ks : keyspace) : option (list (string * Z)) :=
  match ks !! active_key with
  | None => Some []
  | Some (VZSet l, None) => Some l
  | Some _ => None
  end.

Definition jobs (t : string) (ks : keyspace) : option (list job) :=
  match ks !! stream_key t with
  | None => Some []
  | Some (VStream _ l, None) => Some l.*2
  | Some _ => None
  end.

Lemma counter_frame now t s ks ks' : ks' !! cog_key t s = ks !! cog_key t s -> counter now t s ks' = counter now t s ks.
Proof. intros E. unfold counter, get_value, lookup_key. by rewrite E. Qed.
Lemma active_frame ks ks' : ks' !! active_key = ks !! active_key -> active ks' = active ks.
Proof. intros E. unfold active. by rewrite E. Qed.
Lemma jobs_frame t ks ks' : ks' !! stream_key t = ks !! stream_key t -> jobs t ks' = jobs t ks.
Proof. intros E. unfold jobs. by rewrite E. Qed.

Lemma get_value_active now ks a : active ks = Some a ->
  (get_value now active_key ks = None /\ ks !! active_key = None /\ a = []) \/
  (get_value now active_key ks = Some (VZSet a) /\ ks !! active_key = Some (VZSet a, None)).
Proof.
  unfold active, get_value, lookup_key. destruct (ks !! active_key) as [[[] [?|]]|]; intros [= ?]; subst; [right|left]; done.
Qed.

Lemma active_insert ks a : active (<[active_key := (VZSet a, None)]> ks) = Some a.
Proof. unfold active. by rewrite lookup_insert_eq. Qed.

Lemma put_value_live now k v ks e : ks !! k = Some (e, None) -> put_value now k v ks = <[k := (v, None)]> ks.
Proof. intros E. unfold put_value, lookup_key. by rewrite E. Qed.
Lemma put_value_absent now k v ks : ks !! k = None -> put_value now k v ks = <[k := (v, None)]> ks.
Proof. intros E. unfold put_value, lookup_key. by rewrite E. Qed.

Lemma run1_ZADD trim now m score ks a : active ks = Some a ->
  exists n, run1 trim now (ZADD active_key score m) ks = (<[active_key := (VZSet (zadd m score a), None)]> ks, RInt n).
Proof.
  intros Ha. simpl. destruct (get_value_active now ks a Ha) as [(-> & E & ->)|(-> & E)]; eexists.
  - by rewrite put_value_absent.
  - by erewrite put_value_live.
Qed.

Lemma run1_ZREM trim now m ks a : active ks = Some a ->
  exists ks' n, run1 trim now (ZREM active_key m) ks = (ks', RInt n) /\ active ks' = Some (zremove m a).
Proof.
  intros Ha. simpl. destruct (get_value_active now ks a Ha) as [(-> & E & ->)|(-> & E)]; eexists _, _; split; try done.
  unfold put_zset. case_decide as Hn.
  - unfold active. by rewrite lookup_delete_eq, Hn.
  - erewrite put_value_live by done. apply active_insert.
Qed.

Lemma trim_short maxlen l : Z.of_nat (length l) <= maxlen -> approx_trim maxlen l = l.
Proof.
  intros Hl. destruct (approx_trim_spec maxlen l) as (n & -> & Hn). rewrite length_drop in Hn.
  assert (n = 0%nat \/ l = []) as [-> | ->]; [|done|by rewrite drop_nil]. destruct l; [by right|left]. simpl in *. lia.
Qed.

Lemma IncrementCognitiveBatch_run ctx now t s st c a : reliable -> live ctx -> no_byte ":" t ->
  counter now t s (view st) = Some c -> c < 2 ^ 63 - 1 -> active (view st) = Some a ->
  exists st', IncrementCognitiveBatch ctx now t s st = (st', Ok (c + 1)) /\
    view st' !! cog_key t s = Some (VInt (c + 1), Some (now + day)) /\
    active (view st') = Some (zadd (member t s) (unix now) a) /\
    (forall k, k <> cog_key t s -> k <> active_key -> view st' !! k = view st !! k).
Proof.
  intros Hrel Hlive Ht Hc Hmax Ha. unfold IncrementCognitiveBatch. rewrite Hlive.
  destruct (Pipeline_run now [INCR (cog_key t s); EXPIRE (cog_key t s) day;
    ZADD active_key (unix now) (member t s)] st Hrel) as (st' & E & Hv). rewrite E. clear E.
  assert (Hk : cog_key t s <> active_key) by by apply sess_key_active.
  assert (Hi : run1 approx_trim now (INCR (cog_key t s)) (view st) =
    (put_value now (cog_key t s) (VInt (c + 1)) (view st), RInt (c + 1))).
  { simpl. unfold counter in Hc. destruct (get_value now (cog_key t s) (view st)) as [[]|]; simplify_eq; [|done].
    by rewrite (proj2 (Z.ltb_lt _ _)). }
  assert (He : run1 approx_trim now (EXPIRE (cog_key t s) day) (put_value now (cog_key t s) (VInt (c + 1)) (view st)) =
    (<[cog_key t s := (VInt (c + 1), Some (now + day))]> (view st), RInt 1)).
  { simpl. rewrite get_put_value. unfold put_value. by rewrite insert_insert_eq. }
  destruct (run1_ZADD approx_trim now (member t s) (unix now)
    (<[cog_key t s := (VInt (c + 1), Some (now + day))]> (view st)) a) as [n Hz].
  { rewrite <-Ha. apply active_frame. by rewrite lookup_insert_ne. }
  cbn [run] in *. rewrite Hi, He, Hz in *. exists st'. simpl in Hv. split; [done|]. rewrite Hv. split_and!.
  - by rewrite lookup_insert_ne, lookup_insert_eq.
  - apply active_insert.
  - intros k Hk1 Hk2. by rewrite !lookup_insert_ne.
Qed.

(** Resetting a session's counter and then publishing a job, the step all
    three publishers end with. *)
Lemma publish_run ctx now t s p st a js : reliable -> live ctx -> no_byte ":" t ->
  active (view st) = Some a -> jobs t (view st) = Some js -> Z.of_nat (length js) < 10000 ->
  let st' := (XAddCognitiveBatch ctx now t p (ResetCognitiveBatch ctx now t s st).1).1 in
  view st' !! cog_key t s = None /\
  active (view st') = Some (zremove (member t s) a) /\
  jobs t (view st') = Some (js ++ [mkJob p "0"]) /\
  (forall k, k <> cog_key t s -> k <> active_key -> k <> stream_key t -> view st' !! k = view st !! k).
Proof.
  intros Hrel Hlive Ht Ha Hj Hlen st'. unfold st', ResetCognitiveBatch, XAddCognitiveBatch. rewrite Hlive.
  assert (Hk1 : cog_key t s <> active_key) by by apply sess_key_active.
  assert (Hk2 : stream_key t <> cog_key t s) by by apply stream_key_sess.
  assert (Hk3 : stream_key t <> active_key) by by apply stream_key_active.
  destruct (Pipeline_run now [DEL (cog_key t s); ZREM active_key (member t s)] st Hrel) as (st1 & E1 & Hv1).
  destruct (Pipeline_run now [XADD (stream_key t) 10000 (mkJob p "0")] st1 Hrel) as (st2 & E2 & Hv2).
  destruct (run1_ZREM approx_trim now (member t s) (delete (cog_key t s) (view st)) a) as (ks1 & n & Hz & Ha1).
  { rewrite <-Ha. apply active_frame. by rewrite lookup_delete_ne. }
  pose proof (run1_frame approx_trim now (ZREM active_key (member t s))) as Hf. simpl cmd_key in Hf.
  cbn [run] in E1, Hv1. change (run1 approx_trim now (DEL (cog_key t s)) (view st)) with
    (delete (cog_key t s) (view st), RInt (if get_value now (cog_key t s) (view st) is Some _ then 1 else 0)) in E1, Hv1.
  cbv beta iota in E1, Hv1. rewrite Hz in E1, Hv1. cbn [fst snd] in Hv1. rewrite E1. cbn [fst]. rewrite E2. cbn [fst].
  assert (Hf1 : forall k, active_key <> k -> view st1 !! k = delete (cog_key t s) (view st) !! k).
  { intros k Hk. rewrite Hv1. specialize (Hf k (delete (cog_key t s) (view st)) Hk). by rewrite Hz in Hf. }
  assert (Hj1 : jobs t (view st1) = Some js).
  { rewrite <-Hj. apply jobs_frame. rewrite Hf1 by done. by rewrite lookup_delete_ne. }
  assert (exists last l, view st2 = <[stream_key t := (VStream last l, None)]> (view st1) /\ l.*2 = js ++ [mkJob p "0"])
    as (last & l & Hst2 & Hl).
  { rewrite Hv2. cbn [run run1]. unfold jobs in Hj1. unfold get_value, lookup_key.
    destruct (view st1 !! stream_key t) as [[[] [?|]]|] eqn:E; simpl; simplify_eq.
    - rewrite length_fmap in Hlen. erewrite put_value_live by done.
      eexists _, _. split; [done|]. rewrite trim_short; [by rewrite fmap_app|]. rewrite length_app. simpl. lia.
    - rewrite put_value_absent by done. eexists _, _. split; [done|]. by rewrite trim_short. }
  rewrite Hst2. split_and!.
  - rewrite lookup_insert_ne by done. rewrite Hf1 by done. apply lookup_delete_eq.
  - rewrite (active_frame (view st1)) by (by rewrite lookup_insert_ne). by rewrite Hv1.
  - unfold jobs. by rewrite lookup_insert_eq, Hl.
  - intros k H1k H2k H3k. rewrite lookup_insert_ne by done. rewrite Hf1 by done. by rewrite lookup_delete_ne.
Qed.
End CacheLemmas.

(** ** Properties *)

Section CacheProperties.
Context `{UuidLib, OrderBy, PgSearch, Redis}.

Lemma AppendMessages_cold ctx now d t s msgs st : reliable -> live ctx -> canonical t -> canonical s -> msgs <> [] ->
  get_value now (msgs_key t s) (view st) = None ->
  view (AppendMessages (WithTenantID ctx t) now d t s msgs st).1 !! msgs_key t s =
    Some (VList (take 50 (reverse msgs ++ take 50 (history t s d))), Some (now + 2 * hour)).
Proof.
  intros Hrel Hlive Ht Hs Hne Hms. unfold AppendMessages. simpl ctx_Done. rewrite Hlive.
  destruct (Pipeline_EXISTS now (msgs_key t s) st Hrel) as (s1 & -> & Hv1). rewrite Hms.
  unfold reloadAndAppend. rewrite GetSessionHistory_first by done. simpl ctx_Done. rewrite Hlive.
  change (limit_rows (clamp_limit 50) (history t s d)) with (take 50 (history t s d)).
  destruct (Pipeline_run now ((RPUSH (msgs_key t s) <$> take 50 (history t s d)) ++
    (LPUSH (msgs_key t s) <$> msgs) ++ keep_recent (msgs_key t s)) s1 Hrel) as (s2 & -> & Hv2).
  simpl. rewrite Hv2, Hv1. by apply run_reload.
Qed.

(** Appending to a session's cache leaves its newest 50 messages, newest
    first, for two hours: the new ones on top of the cached list or, when
    there is none, on top of the newest 50 of the database; no other key
    changes. *)
Theorem AppendMessages_window ctx now d t s msgs st : reliable -> live ctx -> canonical t -> canonical s -> msgs <> [] ->
  let st' := (AppendMessages (WithTenantID ctx t) now d t s msgs st).1 in
  let kept l := Some (VList (take 50 (reverse msgs ++ l)), Some (now + 2 * hour)) in
  (forall ms, get_value now (msgs_key t s) (view st) = Some (VList ms) -> view st' !! msgs_key t s = kept ms) /\
  (get_value now (msgs_key t s) (view st) = None -> view st' !! msgs_key t s = kept (take 50 (history t s d))) /\
  (forall k, k <> msgs_key t s -> view st' !! k = view st !! k).
Proof.
  intros Hrel Hlive Ht Hs Hne st' kept. unfold st', kept. split_and!; [| |intros k Hk; by apply AppendMessages_frame].
  - intros ms Hms. unfold AppendMessages. simpl ctx_Done. rewrite Hlive.
    destruct (Pipeline_EXISTS now (msgs_key t s) st Hrel) as (s1 & -> & Hv1). rewrite Hms.
    destruct (Pipeline_run now ((LPUSH (msgs_key t s) <$> msgs) ++ keep_recent (msgs_key t s)) s1 Hrel) as (s2 & -> & Hv2).
    simpl. rewrite Hv2, Hv1. eapply run_appends; [exact Hms|by left|done].
  - by apply AppendMessages_cold.
Qed.

Lemma history_NoDup t s d : unique_ids d -> distinct_times (session_messages t s d) -> NoDup (msg_ID <$> history t s d).
Proof.
  intros Huniq Hdist. assert (Hhd : distinct_times (history t s d)) by (eapply distinct_times_perm; [symmetry; apply order_by_perm|done]).
  apply (NoDup_fmap_1 msg_CreatedAt) in Hhd. eapply NoDup_fmap_2_strong; [|exact Hhd].
  intros x y Hx Hy E. apply history_In in Hx as [Hx _], Hy as [Hy _]. unfold unique_ids in Huniq.
  rewrite list_fmap_compose in Huniq. by apply (NoDup_fmap_eq msg_ID (m_msg <$> messages d)).
Qed.

(** The window before an anchor, in a cached list. *)
Lemma cached_window ctx now d t s a l i count st : reliable -> live ctx -> a <> EmptyString ->
  get_value now (msgs_key t s) (view st) = Some (VList l) -> anchor_index a (take 50 l) = Some i -> 0 <= count ->
  (GetRawMessagesUntil ctx now d t s a count st).2 = Ok (take (Z.to_nat count) (drop i (take 50 l))).
Proof.
  intros Hrel Hlive Ha Hcache Hi Hc. unfold GetRawMessagesUntil. rewrite decide_False by done. rewrite Hlive.
  destruct (Pipeline_LRANGE now (msgs_key t s) st 0 49 _ Hrel Hcache) as (s1 & -> & _).
  rewrite lrange_prefix by lia. change (Z.to_nat (49 + 1)) with 50%nat. rewrite Hi. cbn [snd].
  by rewrite (proj2 (Z.ltb_ge _ _)) by lia.
Qed.

(** In a cache that mirrors the newest 50 messages. *)
Lemma mirrored_window ctx now d t s m i count st : reliable -> live ctx -> canonical (msg_ID m) ->
  unique_ids d -> distinct_times (session_messages t s d) ->
  get_value now (msgs_key t s) (view st) = Some (VList (take 50 (history t s d))) ->
  history t s d !! i = Some m -> 0 <= count -> Z.of_nat i + count <= 50 -> (i < 50)%nat ->
  (GetRawMessagesUntil (WithTenantID ctx t) now d t s (msg_ID m) count st).2 = Ok (take (Z.to_nat count) (drop i (history t s d))).
Proof.
  intros Hrel Hlive Hm Huniq Hdist Hcache Hi Hc Hwin H50.
  rewrite (cached_window _ now d t s _ _ i count st Hrel) with (3 := Hcache); [|done|by apply canonical_not_empty| |done].
  - rewrite take_take, Nat.min_id. f_equal. rewrite skipn_firstn_comm, take_take. rewrite Nat.min_l by lia. done.
  - rewrite take_take, Nat.min_id. apply anchor_index_lookup; [|rewrite lookup_take_Some; split; [done|lia]].
    rewrite fmap_take. eapply sublist_NoDup; [|apply sublist_take]. by apply history_NoDup.
Qed.

(** The same window in the database. *)
Lemma database_window ctx d t u s m i count : live ctx -> canonical t -> canonical u -> canonical s -> canonical (msg_ID m) ->
  unique_ids d -> distinct_times (session_messages t s d) ->
  Forall (fun x => msg_UserID x = u) (session_messages t s d) -> history t s d !! i = Some m -> 0 <= count ->
  GetRecentMessagesUntil (WithTenantID ctx t) t u s (msg_ID m) count d = Ok (take (Z.to_nat count) (drop i (history t s d))).
Proof.
  intros Hlive Ht Hu Hs Hm Huniq Hdist Huser Hi Hc.
  pose proof (list_elem_of_lookup_2 _ _ _ Hi) as [Hin Hsess]%history_In.
  unfold in_session in Hsess. apply andb_true_iff in Hsess as [Htm _]. apply bool_decide_eq_true in Htm.
  assert (Hhd : distinct_times (history t s d)) by (eapply distinct_times_perm; [symmetry; apply order_by_perm|done]).
  unfold GetRecentMessagesUntil. rewrite decide_False by by apply canonical_not_empty.
  rewrite BeforeAcquire_canonical, ?(to_uuid_canonical (msg_ID m)), ?(to_uuid_canonical t) by done.
  cbn [mbind result_bind]. rewrite created_at_of_unique by done.
  rewrite Query_canonical, ?(to_uuid_canonical t), ?(to_uuid_canonical u), ?(to_uuid_canonical s) by done.
  cbn [mbind result_bind]. rewrite (select_of_user t u s (fun x => msg_CreatedAt x <=? msg_CreatedAt m)) by done.
  unfold checked_limit, limit_rows. rewrite (proj2 (Z.ltb_ge _ _)) by lia.
  rewrite order_by_filter by eauto using distinct_times_antisym with cortexa.
  fold (history t s d). by rewrite until_is_drop with (i := i) by (done || apply history_sorted).
Qed.

(** C32: while the cache mirrors the newest 50 messages of a session and the
    window asked for lies inside it, the batch window read from the cache is
    the one the database query gives: the anchor and the messages before it. *)
Theorem GetRawMessagesUntil_matches_database ctx now d t u s st i m count :
  reliable -> live ctx -> canonical t -> canonical u -> canonical s -> canonical (msg_ID m) ->
  unique_ids d -> distinct_times (session_messages t s d) ->
  Forall (fun x => msg_UserID x = u) (session_messages t s d) ->
  get_value now (msgs_key t s) (view st) = Some (VList (take 50 (history t s d))) ->
  history t s d !! i = Some m -> 0 < count -> Z.of_nat i + count <= 50 ->
  let window := Ok (take (Z.to_nat count) (drop i (history t s d))) in
  (GetRawMessagesUntil (WithTenantID ctx t) now d t s (msg_ID m) count st).2 = window /\
  GetRecentMessagesUntil (WithTenantID ctx t) t u s (msg_ID m) count d = window.
Proof.
  intros Hrel Hlive Ht Hu Hs Hm Huniq Hdist Huser Hcache Hi Hc Hwin window. split; [|apply database_window; done || lia].
  apply mirrored_window; done || lia.
Qed.
End CacheProperties.

(** ** Examples *)

Module CacheSample.
#[local] Existing Instances toy_uuid merge_order_by toy_search.
#[local] Instance server : Redis := local_redis true.

Definition msg (id t s : uuid) (at_ : time) : Message := mkMessage id t s "u" "user" "hello" 1 at_.
Definition db : DB :=
  mkDB [mkSessionRow "s" "t" "u" (Some "chat"%string) "{}" 1 1]
       [mkMessageRow (msg "m1" "t" "s" 1) None; mkMessageRow (msg "m2" "t" "s" 2) None;
        mkMessageRow (msg "m3" "t" "s" 3) None] [] [] [] [].

Lemma server_reliable : reliable.
Proof.
  intros now cs s. change (exec now cs s) with ((fun '(s', rs) => (s', Ok rs)) (run (fun _ l => l) now cs s) : store * result (list reply)).
  destruct (run _ now cs s) as [s' rs]. by exists s', rs.
Defined.

Lemma AppendMessages_window_witness :
  get_value 9 (msgs_key "t" "s") (AppendMessages (WithTenantID Background "t") 9 db "t" "s" [msg "m4" "t" "s" 4] ∅).1 =
    Some (VList (msg "m4" "t" "s" 4 :: history "t" "s" db)).
Proof.
  destruct (AppendMessages_window Background 9 db "t" "s" [msg "m4" "t" "s" 4] ∅) as (_ & Hcold & _);
    [apply server_reliable|reflexivity|reflexivity|reflexivity|discriminate|].
  specialize (Hcold eq_refl). change (view ?x) with x in Hcold.
  etransitivity; [exact (f_equal (fun e => fst <$> (e ≫= fun e => if alive 9 e then Some e else None)) Hcold)|].
  vm_cast_no_check (@eq_refl (option value) (Some (VList (msg "m4" "t" "s" 4 :: history "t" "s" db)))).
Defined.

Definition warm : store := ({[ msgs_key "t" "s" := (VList (history "t" "s" db), None) ]} : gmap string (value * option time)).

Lemma GetRawMessagesUntil_matches_database_witness :
  (GetRawMessagesUntil (WithTenantID Background "t") 9 db "t" "s" "m2" 2 warm).2 =
  GetRecentMessagesUntil (WithTenantID Background "t") "t" "u" "s" "m2" 2 db.
Proof.
  destruct (GetRawMessagesUntil_matches_database Background 9 db "t" "u" "s" warm 1 (msg "m2" "t" "s" 2) 2)
    as [H1 H2]; [apply server_reliable|reflexivity|reflexivity|reflexivity|reflexivity|reflexivity| | | | | | | |].
  - vm_compute. repeat constructor; set_solver.
  - vm_compute. repeat constructor; set_solver.
  - vm_compute. repeat constructor.
  - reflexivity.
  - reflexivity.
  - lia.
  - lia.
  - etransitivity; [exact H1|symmetry; exact H2].
Defined.
End CacheSample.
