(* ===== verification/Tenancy.v ===== *)
(** Tenant isolation of the read queries: what a query returns to a tenant is a
    function of that tenant's own rows, because its statement runs under the
    tenant's row-level policy or selects the tenant itself; a query ordered by
    vector distance also depends on which of these rows the walk of the index
    reaches, and the index is shared.  Each lemma says so of one query; the
    retriever's isolation theorem puts them together. *)
From Stdlib Require Import Ascii String.
From S2P Require Import Prelude GoStd GoStrings Float64 Model Security Json Db MessageRepo EntityRepo MemoryRepo ExperienceRepo.

Local Open Scope Z_scope.

(** Two databases that differ in other tenants' rows only. *)
Record same_tenant (t : uuid) (d d' : DB) : Prop := {
  same_messages : visible (Some t) m_tenant (messages d) = visible (Some t) m_tenant (messages d');
  same_facts : visible (Some t) em_tenant (entity_mentions d) = visible (Some t) em_tenant (entity_mentions d');
  same_memories : visible (Some t) mem_tenant (memory_records d) = visible (Some t) mem_tenant (memory_records d');
  same_experiences : List.filter (fun r => bool_decide (exp_TenantID (xp_exp r) = t)) (experiences d) =
                     List.filter (fun r => bool_decide (exp_TenantID (xp_exp r) = t)) (experiences d');
}.

Definition own_experiences (t : uuid) (l : list ExperienceRow) : list ExperienceRow :=
  List.filter (fun r => bool_decide (exp_TenantID (xp_exp r) = t)) l.

(** The walks of the vector indexes reach the same rows of the tenant. *)
Record same_reach `{PgSearch} (t : uuid) (d d' : DB) : Prop := {
  reach_facts v : visible (Some t) em_tenant (entity_mentions (reached_facts v d)) =
                  visible (Some t) em_tenant (entity_mentions (reached_facts v d'));
  reach_memories v : visible (Some t) mem_tenant (memory_records (reached_memories v d)) =
                     visible (Some t) mem_tenant (memory_records (reached_memories v d'));
  reach_experiences v : own_experiences t (reached_experiences v d) = own_experiences t (reached_experiences v d');
}.

(** Rows of other tenants may differ in everything but their vectors. *)
Definition alike {A} (t : uuid) (tenant : A -> uuid) (vec : A -> option (list float64)) (x y : A) : Prop :=
  tenant x = tenant y /\ vec x = vec y /\ (tenant x = t -> x = y).

Record same_vectors (t : uuid) (d d' : DB) : Prop := {
  vector_facts : Forall2 (alike t em_tenant em_embedding) (entity_mentions d) (entity_mentions d');
  vector_memories : Forall2 (alike t mem_tenant mem_embedding) (memory_records d) (memory_records d');
  vector_experiences :
    Forall2 (alike t (fun r => exp_TenantID (xp_exp r)) xp_embedding) (experiences d) (experiences d');
}.

Lemma reached_alike `{PgSearch} {A} t (tenant : A -> uuid) vec q l k : Forall2 (alike t tenant vec) l k ->
  visible (Some t) tenant (reached_rows vec q l) = visible (Some t) tenant (reached_rows vec q k).
Proof.
  intros Hlk. unfold reached_rows. replace (vec <$> k) with (vec <$> l).
  - apply keep_at_visible. eapply Forall2_impl; [exact Hlk|]. intros x y (Et & _ & Exy). split; [done|]. intros [= E]. by apply Exy.
  - induction Hlk as [|x y l k (_ & Ev & _) _ IH]; [done|]. by rewrite !fmap_cons, Ev, IH.
Qed.

Lemma own_experiences_visible t l : own_experiences t l = visible (Some t) (fun r => exp_TenantID (xp_exp r)) l.
Proof. apply List.filter_ext. intros r. unfold policy. apply bool_decide_ext. naive_solver. Qed.

(** What other tenants write into their rows cannot change what is reached, ... *)
Lemma same_vectors_reach `{PgSearch} t d d' : same_vectors t d d' -> same_reach t d d'.
Proof.
  intros [Hf Hm Hx]. split; intros v; [by apply reached_alike..|]. rewrite !own_experiences_visible. by apply reached_alike.
Qed.

(** ... and nothing can when the walks reach every row. *)
Lemma exact_reach `{PgSearch} t d d' : (forall q column i, index_scan q column i = true) -> same_tenant t d d' -> same_reach t d d'.
Proof.
  intros Hall [_ Hf Hm Hx]. assert (E : forall A (vec : A -> _) q l, reached_rows vec q l = l) by (intros; by apply keep_at_all).
  split; intros v; [unfold reached_facts; simpl|unfold reached_memories; simpl|unfold reached_experiences]; by rewrite !E.
Qed.

Section Tenancy.
Context `{UuidLib, OrderBy, PgSearch, CryptoLib, Jsonb}.
Context (t : uuid) (Ht : canonical t) (ctx : context) (Hctx : ctx_tenant ctx = Some t).
Context (d d' : DB) (Hsame : same_tenant t d d').

Lemma Query_tenant {A} (q q' : option uuid -> result (list A)) : q (Some t) = q' (Some t) -> Query ctx q = Query ctx q'.
Proof.
  intros Hq. unfold Query. destruct (Acquire_canonical ctx t Ht Hctx) as [[e ->]| ->]; [done|]. cbn [mbind result_bind].
  rewrite app_tenant_canonical by done. cbn [mbind result_bind]. by rewrite Hq.
Qed.

Lemma BeforeAcquire_tenant {A} (q q' : option uuid -> result A) : q (Some t) = q' (Some t) ->
  (tid ← BeforeAcquire ctx; q tid) = (tid ← BeforeAcquire ctx; q' tid).
Proof.
  intros Hq. unfold BeforeAcquire. destruct (Acquire_canonical ctx t Ht Hctx) as [[e ->]| ->]; [done|]. cbn [mbind result_bind].
  rewrite app_tenant_canonical by done. exact Hq.
Qed.

Lemma select_facts_tenant p : select_facts (Some t) p d = select_facts (Some t) p d'.
Proof. unfold select_facts. by rewrite (same_facts t d d' Hsame). Qed.
Lemma select_memories_tenant p : select_memories (Some t) p d = select_memories (Some t) p d'.
Proof. unfold select_memories. by rewrite (same_memories t d d' Hsame). Qed.
Lemma select_messages_tenant p : select_messages (Some t) p d = select_messages (Some t) p d'.
Proof. unfold select_messages. by rewrite (same_messages t d d' Hsame). Qed.

Lemma query_facts_tenant key tenantID userID q q' : (forall t' u, q (Some t) t' u = q' (Some t) t' u) ->
  query_facts key ctx tenantID userID q = query_facts key ctx tenantID userID q'.
Proof.
  intros Hq. unfold query_facts. destruct (NewCrypto key); [|done]. cbn [mbind result_bind]. f_equal. apply Query_tenant.
  destruct (to_uuid tenantID); [|done]. destruct (to_uuid userID); [|done]. apply Hq.
Qed.

(** Past the parameters both sides read alike. *)
Local Ltac params := repeat match goal with
  | |- context [text_params ?x] => destruct (text_params x); cbn [mbind result_bind]; [|done]
  | |- context [to_uuid ?x] => destruct (to_uuid x); cbn [mbind result_bind]; [|done]
  end.
Local Ltac by_facts := apply query_facts_tenant; intros; by rewrite select_facts_tenant.

Lemma SearchSelfFacts_tenant key tenantID userID :
  SearchSelfFacts key ctx tenantID userID d = SearchSelfFacts key ctx tenantID userID d'.
Proof. by_facts. Qed.
Lemma FallbackFacts_tenant key tenantID userID n :
  FallbackFacts key ctx tenantID userID n d = FallbackFacts key ctx tenantID userID n d'.
Proof. by_facts. Qed.
Lemma QueryFactsByFTS_tenant key tenantID userID query names k :
  QueryFactsByFTS key ctx tenantID userID query names k d = QueryFactsByFTS key ctx tenantID userID query names k d'.
Proof. unfold QueryFactsByFTS. case_decide; [done|]. by_facts. Qed.
Lemma ResolveEntities_tenant tenantID userID query :
  ResolveEntities ctx tenantID userID query d = ResolveEntities ctx tenantID userID query d'.
Proof. apply Query_tenant. params. by rewrite select_facts_tenant. Qed.

Lemma memoryFallback_tenant tenantID userID ty n :
  memoryFallback ctx tenantID userID ty n d = memoryFallback ctx tenantID userID ty n d'.
Proof. apply BeforeAcquire_tenant. params. by rewrite select_memories_tenant. Qed.
Lemma GetPersona_tenant tenantID userID n : GetPersona ctx tenantID userID n d = GetPersona ctx tenantID userID n d'.
Proof. apply BeforeAcquire_tenant. params. by rewrite select_memories_tenant. Qed.
Lemma GetUpcomingEvents_tenant tenantID userID query n now :
  GetUpcomingEvents ctx tenantID userID query n now d = GetUpcomingEvents ctx tenantID userID query n now d'.
Proof. unfold GetUpcomingEvents. f_equal. apply Query_tenant. params. by rewrite select_memories_tenant. Qed.

Lemma GetSessionHistory_tenant tenantID sessionID limit beforeID :
  GetSessionHistory ctx tenantID sessionID limit beforeID d = GetSessionHistory ctx tenantID sessionID limit beforeID d'.
Proof.
  unfold GetSessionHistory. apply Query_tenant. unfold created_at_of. params. case_decide; [by rewrite select_messages_tenant|].
  params. rewrite select_messages_tenant. case_match; [|done]. by rewrite select_messages_tenant.
Qed.

(** *** Queries by vector *)

Context (Hreach : same_reach t d d').

Lemma select_reached_facts p v : select_facts (Some t) p (reached_facts v d) = select_facts (Some t) p (reached_facts v d').
Proof. unfold select_facts. by rewrite (reach_facts t d d' Hreach). Qed.
Lemma select_reached_memories p v :
  select_memories (Some t) p (reached_memories v d) = select_memories (Some t) p (reached_memories v d').
Proof. unfold select_memories. by rewrite (reach_memories t d d' Hreach). Qed.

Lemma SearchAllFactsByVector_tenant key tenantID userID v k :
  SearchAllFactsByVector key ctx tenantID userID v k d = SearchAllFactsByVector key ctx tenantID userID v k d'.
Proof. unfold SearchAllFactsByVector. case_decide; [done|]. apply query_facts_tenant. intros. by rewrite select_reached_facts. Qed.
Lemma QueryFactsByVector_tenant key tenantID userID v names k :
  QueryFactsByVector key ctx tenantID userID v names k d = QueryFactsByVector key ctx tenantID userID v names k d'.
Proof. unfold QueryFactsByVector. case_decide; [done|]. apply query_facts_tenant. intros. by rewrite select_reached_facts. Qed.

Lemma SearchByVectorPerType_tenant tenantID userID v types k :
  SearchByVectorPerType ctx tenantID userID v types k d = SearchByVectorPerType ctx tenantID userID v types k d'.
Proof.
  apply BeforeAcquire_tenant. destruct (to_uuid tenantID); [|done]. destruct (to_uuid userID); [|done].
  destruct (vector_param v); [|done]. cbn [mbind result_bind]. params.
  assert (E : forall a b ty, nearest_of_type (Some t) a b v k d ty = nearest_of_type (Some t) a b v k d' ty)
    by (intros; unfold nearest_of_type; by rewrite select_reached_memories).
  assert (Ef : forall a b, foldr (fun ty => put_records ty (nearest_of_type (Some t) a b v k d ty)) ∅ types =
    foldr (fun ty => put_records ty (nearest_of_type (Some t) a b v k d' ty)) ∅ types).
  { intros. induction types as [|ty l IH]; [done|]. simpl. by rewrite IH, E. }
  rewrite Ef. case_decide as Hf; [|done]. apply (f_equal Ok). generalize (∅ : gmap string (list MemoryRecord)).
  clear Ef Hf. induction types as [|ty l IH]; intros m; [done|]. simpl. rewrite memoryFallback_tenant. apply IH.
Qed.

Lemma SearchExperiences_tenant userID v k c :
  ExperienceRepo.SearchByVector ctx t userID v k c d = ExperienceRepo.SearchByVector ctx t userID v k c d'.
Proof.
  unfold ExperienceRepo.SearchByVector. destruct (marshal_vector v); [|done]. cbn [mbind result_bind]. f_equal.
  unfold Query_unrestricted. destruct (Acquire ctx); [|done]. cbn [mbind result_bind]. do 2 f_equal.
  rewrite (to_uuid_canonical t Ht). cbn [mbind result_bind]. destruct (to_uuid userID) as [u|]; [|done]. cbn [mbind result_bind].
  destruct (vector_param v); [|done]. cbn [mbind result_bind].
  assert (E : forall p, (forall r, p r = true -> exp_TenantID (xp_exp r) = t) ->
    List.filter p (reached_experiences v d) = List.filter p (reached_experiences v d')).
  { intros p Hp. eapply filter_through; [|apply (reach_experiences t d d' Hreach)]. intros r Hr. by apply bool_decide_eq_true, Hp. }
  rewrite E; [done|]. intros r Hr. unfold active_of in Hr. rewrite !andb_true_iff, !bool_decide_eq_true in Hr. tauto.
Qed.

End Tenancy.
