(* ===== verification/Retriever.v ===== *)
(** The context retriever ([internal/service/retriever.go]).  GetContext starts
    one task per kind of memory and merges what arrives before a deadline.
    Each task is a function of the rows its queries find and of the outcome of
    the shared embedding call; the collecting loop is a step relation, since
    the order of arrival and the deadline are not the program's to choose. *)
From Stdlib Require Import Ascii String.
From S2P Require Import Prelude GoStd GoStrings Float64 Model Security Json Db MessageRepo EntityRepo MemoryRepo ExperienceRepo Redis Cache Tenancy.

Local Open Scope Z_scope.

Definition CacheRecentMessagesCount : Z := 20.
Definition DefaultEventsLimit : Z := 5.
Definition DefaultExperienceTopK : Z := 3.
Definition DefaultExperienceMinConf : float64 := f_lit 4 10.
Definition DefaultTopKPerEntity : Z := 5.
Definition DefaultFallbackFactsTopK : Z := 15.
Definition EntityFactMinConfidence : float64 := f_lit 25 100.
Definition entityFactsCharBudget : Z := 4000.
(** The literal in the calls for persona traits. *)
Definition persona_limit : Z := 5.

Record GetContextRequest := mkGetContextRequest {
  rq_TenantID : string;
  rq_UserID : string;
  rq_SessionID : string;
  rq_Query : string;
  rq_MemoryTypes : list string;
  rq_TimeRange : option (option time * option time);
}.

Record ContextBundle := mkContextBundle {
  SelfFacts : list EntityFact;
  RecentMessages : list Message;
  EntityFacts : list EntityFact;
  Persona : list MemoryRecord;
  UpcomingEvents : list MemoryRecord;
  Experiences : list Experience;
}.
Definition empty_bundle : ContextBundle := mkContextBundle [] [] [] [] [] [].

Definition wantsType (req : GetContextRequest) (t : string) : bool :=
  bool_decide (rq_MemoryTypes req = []) || bool_decide (t ∈ rq_MemoryTypes req).

(** ** Post-processing of facts *)

Definition fact_dedup_key (f : EntityFact) : string := ef_EntityName f +:+ String "000" (ef_Attribute f).

Fixpoint dedup_from (seen : gset string) (facts : list EntityFact) : list EntityFact :=
  match facts with
  | [] => []
  | f :: facts =>
    if decide (fact_dedup_key f ∈ seen) then dedup_from seen facts
    else f :: dedup_from ({[ fact_dedup_key f ]} ∪ seen) facts
  end.
Definition deduplicateByAttribute (facts : list EntityFact) : list EntityFact := dedup_from ∅ facts.

Definition filterByConfidence (facts : list EntityFact) (minConf : float64) : list EntityFact :=
  List.filter (fun f => fle minConf (ef_Confidence f)) facts.

Definition factCharCount (f : EntityFact) : Z :=
  RuneCountInString (ef_EntityName f) + RuneCountInString (ef_Attribute f) +
  RuneCountInString (ef_Value f) + RuneCountInString (ef_SourceQuote f).

(** The loop: [i] facts, of [total] characters, are known to fit. *)
Fixpoint truncate_from (facts : list EntityFact) (budget total : Z) (i : nat) (rest : list EntityFact) : list EntityFact :=
  match rest with
  | [] => facts
  | f :: rest =>
    let total := total + factCharCount f in
    if budget <? total then (if decide (i = 0%nat) then take 1 facts else take i facts)
    else truncate_from facts budget total (S i) rest
  end.
Definition truncateFactsToBudget (facts : list EntityFact) (budget : Z) : list EntityFact :=
  if (budget <=? 0) || bool_decide (facts = []) then [] else truncate_from facts budget 0 0 facts.

(** ** Tasks *)

(** The queries a request can make, each under a timeout of its own (phases 2a
    and 2b share one, which can pass between them). *)
Inductive query_id :=
  | Q_self | Q_resolve | Q_rerank | Q_fts | Q_all_facts | Q_fallback
  | Q_persona_vector | Q_persona | Q_events | Q_experiences.

(** What the queries of a request meet: whether the timeout of each has passed,
    the database as each finds it, the clock, and the outcome of the embedding
    call. *)
Record surroundings := mkSurroundings {
  expired : query_id -> bool;
  database : query_id -> DB;
  clock : time;
  embed : result (list float64);
}.

Definition WithTimeout (ctx : context) (passed : bool) : context :=
  mkContext (ctx_tenant ctx) (ctx_Done ctx || passed) (ctx_used ctx).

Inductive fetchData :=
  | FetchedSelf (facts : list EntityFact)
  | FetchedEntity (facts : list EntityFact)
  | FetchedStructured (persona events : option (list MemoryRecord))
  | FetchedExperiences (exps : list Experience).
Record fetchResult := mkFetchResult { fr_data : fetchData; fr_err : option error }.

Definition ok_or_nil {A} (r : result (list A)) : list A := match r with Ok l => l | Err _ => [] end.
Definition err_of {A} (r : result A) : option error := match r with Ok _ => None | Err e => Some e end.

Section Retriever.
Context `{UuidLib, OrderBy, PgSearch, CryptoLib, Jsonb, Redis}.
(** [cfg.EncryptionKey] and [cfg.RecentMessagesLimit]. *)
Context (key : string) (RecentMessagesLimit : Z).

Section Tasks.
Context (ctx : context) (req : GetContextRequest) (w : surroundings).

Let tenant : string := rq_TenantID req.
Let user : string := rq_UserID req.
Let query : string := rq_Query req.
Let dbCtx (q : query_id) : context := WithTimeout ctx (expired w q).

Definition needsEmbed : bool :=
  negb (bool_decide (query = EmptyString)) &&
  (wantsType req "experiences" || wantsType req "persona" || wantsType req "entity_facts").

(** [emb] and [embErr] once embDone is closed. *)
Definition emb : result (list float64) := if needsEmbed then embed w else Ok [].

(** [embErr == nil && len(emb) > 0] *)
Definition usable_emb : option (list float64) :=
  match emb with Ok (x :: v) => Some (x :: v) | _ => None end.

Definition self_facts_task : fetchResult :=
  match SearchSelfFacts key (dbCtx Q_self) tenant user (database w Q_self) with
  | Ok facts => mkFetchResult (FetchedSelf (filterByConfidence (deduplicateByAttribute facts) EntityFactMinConfidence)) None
  | Err e => mkFetchResult (FetchedSelf []) (Some e)
  end.

(** Phases 1 and 2: the facts of the entities the query names, and the error
    of the full-text fallback. *)
Definition named_facts : list EntityFact * option error :=
  if decide (query = EmptyString) then ([], None)
  else
    let entityNames := ok_or_nil (ResolveEntities (dbCtx Q_resolve) tenant user query (database w Q_resolve)) in
    if decide (entityNames = []) then ([], None)
    else
      let facts := match usable_emb with
                   | Some v => ok_or_nil (QueryFactsByVector key (dbCtx Q_rerank) tenant user v entityNames
                                            DefaultTopKPerEntity (database w Q_rerank))
                   | None => []
                   end in
      if decide (facts = []) then
        let r := QueryFactsByFTS key (dbCtx Q_fts) tenant user query entityNames DefaultTopKPerEntity (database w Q_fts) in
        (ok_or_nil r, err_of r)
      else (facts, None).

(** The semantic fallback; a failure clears the earlier error. *)
Definition vector_fallback (err : option error) : list EntityFact * option error :=
  if decide (query = EmptyString) then ([], err)
  else
    match usable_emb with
    | None => ([], err)
    | Some v =>
      match SearchAllFactsByVector key (dbCtx Q_all_facts) tenant user v DefaultFallbackFactsTopK (database w Q_all_facts) with
      | Ok facts => (facts, err)
      | Err _ => ([], None)
      end
    end.

Definition confidence_fallback (err : option error) : list EntityFact * option error :=
  match FallbackFacts key (dbCtx Q_fallback) tenant user DefaultFallbackFactsTopK (database w Q_fallback) with
  | Ok facts => (facts, err)
  | Err e => ([], Some e)
  end.

Definition entity_facts_task : fetchResult :=
  let '(facts, err) := named_facts in
  let '(facts, err) := if decide (facts = []) then vector_fallback err else (facts, err) in
  let '(facts, err) := if decide (facts = []) then confidence_fallback err else (facts, err) in
  match err with
  | None =>
    let facts := filterByConfidence (deduplicateByAttribute facts) EntityFactMinConfidence in
    mkFetchResult (FetchedEntity (truncateFactsToBudget facts entityFactsCharBudget)) None
  | Some e => mkFetchResult (FetchedEntity facts) (Some e)
  end.

Definition persona_records : list MemoryRecord :=
  let found :=
    if decide (query = EmptyString) then []
    else
      match usable_emb with
      | None => []
      | Some v =>
        match SearchByVectorPerType (dbCtx Q_persona_vector) tenant user v ["persona"%string] persona_limit
                (database w Q_persona_vector) with
        | Ok byType => default [] (byType !! "persona"%string)
        | Err _ => []
        end
      end in
  if decide (found = []) then ok_or_nil (GetPersona (dbCtx Q_persona) tenant user persona_limit (database w Q_persona))
  else found.

Definition structured_task : fetchResult :=
  mkFetchResult (FetchedStructured
    (if wantsType req "persona" then Some persona_records else None)
    (if wantsType req "events"
     then Some (ok_or_nil (GetUpcomingEvents (dbCtx Q_events) tenant user query DefaultEventsLimit (clock w) (database w Q_events)))
     else None)) None.

Definition found_experiences : result (list Experience) :=
  v ← emb;
  ExperienceRepo.SearchByVector (dbCtx Q_experiences) tenant user v DefaultExperienceTopK DefaultExperienceMinConf
    (database w Q_experiences).

Definition experiences_task : fetchResult :=
  mkFetchResult (FetchedExperiences (ok_or_nil found_experiences)) (err_of found_experiences).

(** The tasks a request starts. *)
Definition context_tasks : list fetchResult :=
  [self_facts_task] ++
  (if wantsType req "entity_facts" then [entity_facts_task] else []) ++
  (if wantsType req "persona" || wantsType req "events" then [structured_task] else []) ++
  (if wantsType req "experiences" && negb (bool_decide (query = EmptyString)) then [experiences_task] else []).
End Tasks.

(** The experiences task counts a use of each experience it found, in the
    background and detached from the request. *)
Definition record_usages (req : GetContextRequest) (exps : list Experience) (now : time) (d : DB) : DB :=
  foldl (fun d e => match RecordUsage Background (rq_TenantID req) (exp_ID e) now d with Ok d' => d' | Err _ => d end) d exps.

(** ** Collecting *)

Definition merge (b : ContextBundle) (res : fetchResult) : ContextBundle :=
  match fr_data res with
  | FetchedSelf facts => mkContextBundle facts (RecentMessages b) (EntityFacts b) (Persona b) (UpcomingEvents b) (Experiences b)
  | FetchedEntity facts => mkContextBundle (SelfFacts b) (RecentMessages b) facts (Persona b) (UpcomingEvents b) (Experiences b)
  | FetchedStructured p e =>
    mkContextBundle (SelfFacts b) (RecentMessages b) (EntityFacts b) (default (Persona b) p) (default (UpcomingEvents b) e)
      (Experiences b)
  | FetchedExperiences exps =>
    mkContextBundle (SelfFacts b) (RecentMessages b) (EntityFacts b) (Persona b) (UpcomingEvents b) exps
  end.

(** The loop over the channel, with the tasks still out: any of them may be
    next, and the deadline may strike at any point. *)
Inductive collecting : bool -> list fetchResult -> ContextBundle -> ContextBundle -> Prop :=
  | collect_done b : collecting true [] b b
  | collect_deadline tasks b : collecting false tasks b b
  | collect_receive all l r k b b' :
      collecting all (l ++ k) (merge b r) b' -> collecting all (l ++ r :: k) b b'.

(** The recent messages: none for a request about a time range. *)
Definition recent_messages (ctx : context) (req : GetContextRequest) (now : time) (d : DB) (st : store) : store * list Message :=
  if wantsType req "recent_messages" then
    match rq_TimeRange req with
    | Some (Some _, Some _) => (st, [])
    | _ =>
      let limit := if RecentMessagesLimit <=? 0 then CacheRecentMessagesCount else RecentMessagesLimit in
      let '(st', r) := GetRawMessages ctx now d (rq_TenantID req) (rq_SessionID req) limit st in
      (st', ok_or_nil r)
    end
  else (st, []).

(** GetContext: [d] is the database as the recent messages find it; the flag
    says that every task was received. *)
Inductive GetContext (ctx : context) (req : GetContextRequest) (w : surroundings) (d : DB) (st : store) (all : bool)
  : store * result ContextBundle -> Prop :=
  | GetContext_returns st' recent b :
      recent_messages ctx req (clock w) d st = (st', recent) ->
      collecting all (context_tasks ctx req w) (mkContextBundle [] recent [] [] [] []) b ->
      GetContext ctx req w d st all (st', Ok b).
End Retriever.

(** ** Lemmas *)

Lemma dedup_from_sublist seen facts : dedup_from seen facts `sublist_of` facts.
Proof.
  revert seen. induction facts as [|f facts IH]; intros seen; simpl; [constructor|].
  case_decide; [by apply sublist_cons|by apply sublist_skip].
Qed.

Lemma dedup_from_spec seen facts :
  NoDup (fact_dedup_key <$> dedup_from seen facts) /\
  forall f, f ∈ dedup_from seen facts -> fact_dedup_key f ∉ seen.
Proof.
  revert seen. induction facts as [|f facts IH]; intros seen; simpl; [split; [constructor|set_solver]|].
  case_decide as Hf; [apply IH|]. destruct (IH ({[fact_dedup_key f]} ∪ seen)) as [Hnd Hout]. split.
  - rewrite fmap_cons. constructor; [|done]. intros (g & Hk & Hg)%list_elem_of_fmap. specialize (Hout g Hg). set_solver.
  - intros g [->|Hg]%elem_of_cons; [done|]. specialize (Hout g Hg). set_solver.
Qed.

(** Facts with different keys are all kept. *)
Lemma dedup_from_all seen facts : NoDup (fact_dedup_key <$> facts) -> Forall (fun f => fact_dedup_key f ∉ seen) facts ->
  dedup_from seen facts = facts.
Proof.
  revert seen. induction facts as [|f facts IH]; intros seen; simpl; [done|].
  intros [Hf Hnd]%NoDup_cons [Hs Hall]%Forall_cons. rewrite decide_False by done. f_equal. apply IH; [done|].
  rewrite Forall_forall in *. intros g Hg. specialize (Hall g Hg).
  assert (fact_dedup_key g <> fact_dedup_key f); [|set_solver]. intros E. apply Hf. rewrite <-E. by apply list_elem_of_fmap_2.
Qed.

Lemma fact_dedup_key_inj f g : no_byte "000" (ef_Attribute f) -> no_byte "000" (ef_Attribute g) ->
  fact_dedup_key f = fact_dedup_key g -> ef_EntityName f = ef_EntityName g /\ ef_Attribute f = ef_Attribute g.
Proof.
  assert (Hno : forall s, no_byte "000" s -> "000"%char ∉ list_ascii_of_string s)
    by (unfold no_byte; setoid_rewrite Forall_forall; naive_solver).
  unfold fact_dedup_key. intros Hf%Hno Hg%Hno E. apply (f_equal list_ascii_of_string) in E. rewrite !list_ascii_app in E.
  apply not_elem_of_app_cons_inv_r in E as (En & _ & Ea); [|done..].
  apply (f_equal string_of_list_ascii) in En, Ea. by rewrite !string_of_list_ascii_of_string in En, Ea.
Qed.

Lemma filterByConfidence_In facts c f : f ∈ filterByConfidence facts c <-> f ∈ facts /\ fle c (ef_Confidence f) = true.
Proof. unfold filterByConfidence. by rewrite elem_of_filter_bool. Qed.

Definition chars (facts : list EntityFact) : Z := foldr (fun f n => factCharCount f + n) 0 facts.

Lemma chars_snoc l f : chars (l ++ [f]) = chars l + factCharCount f.
Proof. induction l as [|g l IH]; simpl; [|rewrite IH]; lia. Qed.

Lemma truncate_from_spec facts budget i rest : drop i facts = rest -> (i <= length facts)%nat ->
  chars (take i facts) <= budget \/ i = 0%nat ->
  exists n, truncate_from facts budget (chars (take i facts)) i rest = take n facts /\
    (i <= n <= length facts)%nat /\ (facts <> [] -> 0 < n)%nat /\
    (chars (take n facts) <= budget \/ (n <= 1)%nat) /\
    ((n < length facts)%nat -> budget < chars (take (S n) facts) \/ n = 1%nat /\ budget < chars (take 1 facts)).
Proof.
  revert i. induction rest as [|f rest IH]; intros i Hdrop Hi Hfit; simpl.
  - assert (i = length facts) as ->. { apply (f_equal length) in Hdrop. rewrite length_drop in Hdrop. simpl in Hdrop. lia. }
    exists (length facts). rewrite take_ge in * by lia. split_and!; [done|lia|lia|destruct facts; simpl; [done|lia]|destruct Hfit; [by left|right; lia]|lia].
  - assert (Hlook : facts !! i = Some f). { rewrite <-(Nat.add_0_r i), <-lookup_drop, Hdrop. done. }
    pose proof (lookup_lt_Some _ _ _ Hlook) as Hlt.
    assert (Hsum : chars (take i facts) + factCharCount f = chars (take (S i) facts)).
    { by rewrite (take_S_r _ _ f Hlook), chars_snoc. }
    rewrite Hsum. destruct (Z.ltb_spec budget (chars (take (S i) facts))) as [Hover|Hok].
    + case_decide as Hz.
      * subst i. exists 1%nat. split_and!; [done|lia..|right; lia|]. intros _. by right.
      * exists i. split_and!; [done|lia..|by destruct Hfit; [left|]|]. intros _. by left.
    + destruct (IH (S i)) as (n & E & Hn & Hpos & Hfit' & Hmax); [|lia|by left|].
      * rewrite <-Nat.add_1_r, <-drop_drop, Hdrop. done.
      * exists n. split_and!; [done|lia..|done|done].
Qed.

(** *** Collecting *)

Section CollectLemmas.

Definition self_of (r : fetchResult) : option (list EntityFact) := match fr_data r with FetchedSelf l => Some l | _ => None end.
Definition entity_of (r : fetchResult) : option (list EntityFact) := match fr_data r with FetchedEntity l => Some l | _ => None end.
Definition persona_of (r : fetchResult) : option (list MemoryRecord) := match fr_data r with FetchedStructured p _ => p | _ => None end.
Definition events_of (r : fetchResult) : option (list MemoryRecord) := match fr_data r with FetchedStructured _ e => e | _ => None end.
Definition experiences_fetched (r : fetchResult) : option (list Experience) := match fr_data r with FetchedExperiences l => Some l | _ => None end.

(** What is left of [b] when the results of [l] are merged into it. *)
Definition bundle_of (b : ContextBundle) (l : list fetchResult) : ContextBundle :=
  mkContextBundle (default (SelfFacts b) (last (omap self_of l))) (RecentMessages b)
    (default (EntityFacts b) (last (omap entity_of l))) (default (Persona b) (last (omap persona_of l)))
    (default (UpcomingEvents b) (last (omap events_of l))) (default (Experiences b) (last (omap experiences_fetched l))).

Lemma merge_all b l : foldl merge b l = bundle_of b l.
Proof.
  induction l as [|r l IH] using rev_ind; [by destruct b|].
  rewrite foldl_app. simpl. rewrite IH. unfold merge, bundle_of. simpl. rewrite !omap_app. destruct r as [[] e]; simpl;
    rewrite ?app_nil_r, ?last_snoc; try done.
  destruct persona, events; simpl; by rewrite ?app_nil_r, ?last_snoc.
Qed.

Lemma collecting_received all tasks b b' : collecting all tasks b b' ->
  exists l, b' = foldl merge b l /\ if all then l ≡ₚ tasks else l ⊆+ tasks.
Proof.
  induction 1 as [b|tasks b|all l r k b b' _ (l' & -> & Hl)].
  - by exists [].
  - exists []. split; [done|apply submseteq_nil_l].
  - exists (r :: l'). split; [done|]. destruct all.
    + rewrite Hl. apply Permutation_middle.
    + rewrite <-Permutation_middle. by apply submseteq_skip.
Qed.

Lemma collecting_exists all tasks b : exists b', collecting all tasks b b'.
Proof.
  destruct all; [|exists b; constructor]. revert b. induction tasks as [|r tasks IH]; intros b; [exists b; constructor|].
  destruct (IH (merge b r)) as [b' Hb']. exists b'. exact (collect_receive true [] r tasks b b' Hb').
Qed.

(** A kind that at most one task produces is the same in any order, and absent
    or the same when the deadline cuts the loop short. *)
Lemma unique_perm {A B} (f : A -> option B) l k : (length (omap f k) <= 1)%nat -> l ≡ₚ k -> omap f l = omap f k.
Proof.
  intros Hlen Hp. assert (E : omap f l ≡ₚ omap f k) by by rewrite Hp.
  destruct (omap f k) as [|x [|? ?]]; [by apply Permutation_nil_r in E|by apply Permutation_singleton_r in E|simpl in Hlen; lia].
Qed.

Lemma unique_sub {A B} (f : A -> option B) l k : (length (omap f k) <= 1)%nat -> l ⊆+ k -> omap f l = [] \/ omap f l = omap f k.
Proof.
  intros Hlen [k' Hp]%submseteq_Permutation.
  assert (E : omap f k ≡ₚ omap f l ++ omap f k') by (by rewrite Hp, omap_app).
  destruct (omap f l) as [|x l'] eqn:El; [by left|right]. pose proof (Permutation_length E) as Hl. rewrite length_app in Hl. simpl in Hl.
  assert (l' = [] /\ omap f k' = []) as [-> Ek] by (destruct l', (omap f k'); simpl in *; auto; lia).
  rewrite Ek in E. by apply Permutation_singleton_r in E.
Qed.
End CollectLemmas.

(** ** Properties *)

Section RetrieverProperties.
Context `{UuidLib, OrderBy, PgSearch, CryptoLib, Jsonb, Redis}.
Context (key : string) (RecentMessagesLimit : Z).

(** Each task writes a field of its own. *)
Lemma context_tasks_kinds ctx req w :
  let once {B} (f : fetchResult -> option B) := (length (omap f (context_tasks key ctx req w)) <= 1)%nat in
  once self_of /\ once entity_of /\ once persona_of /\ once events_of /\ once experiences_fetched.
Proof.
  intros once. unfold once, context_tasks. rewrite !omap_app, !length_app. unfold self_facts_task, entity_facts_task.
  destruct (SearchSelfFacts _ _ _ _ _); destruct (named_facts _ _ _ _) as [l1 e1]; case_decide;
    repeat (match goal with |- context [let '(_, _) := ?x in _] => destruct x end); repeat case_decide;
    repeat (match goal with |- context [let '(_, _) := ?x in _] => destruct x end);
    repeat (case_match; simplify_eq); simpl; repeat case_match; simpl; lia.
Qed.

(** C27: GetContext always answers, and never with an error.  When every task is
    received, the bundle does not depend on the order in which they finish;
    when the deadline strikes first, each part of the bundle is either the one
    the full answer has or still empty. *)
Theorem GetContext_order_independent ctx req w d st :
  let recent := recent_messages RecentMessagesLimit ctx req (clock w) d st in
  let b0 := mkContextBundle [] recent.2 [] [] [] [] in
  let full := foldl merge b0 (context_tasks key ctx req w) in
  (forall all, exists out, GetContext key RecentMessagesLimit ctx req w d st all out) /\
  forall all out, GetContext key RecentMessagesLimit ctx req w d st all out ->
    exists b, out = (recent.1, Ok b) /\ (all = true -> b = full) /\ RecentMessages b = recent.2 /\
      (SelfFacts b = [] \/ SelfFacts b = SelfFacts full) /\ (EntityFacts b = [] \/ EntityFacts b = EntityFacts full) /\
      (Persona b = [] \/ Persona b = Persona full) /\ (UpcomingEvents b = [] \/ UpcomingEvents b = UpcomingEvents full) /\
      (Experiences b = [] \/ Experiences b = Experiences full).
Proof.
  intros recent b0 full. split.
  - intros all. destruct (collecting_exists all (context_tasks key ctx req w) b0) as [b Hb].
    exists (recent.1, Ok b). apply (GetContext_returns _ _ _ _ _ _ _ _ _ recent.2); [apply surjective_pairing|exact Hb].
  - intros all out [st' rec b Hrec Hb]. unfold full, b0, recent. rewrite Hrec. cbn [fst snd]. exists b.
    apply collecting_received in Hb as (l & -> & Hl). rewrite !merge_all.
    destruct (context_tasks_kinds ctx req w) as (K1 & K2 & K3 & K4 & K5).
    unfold bundle_of. cbn [SelfFacts RecentMessages EntityFacts Persona UpcomingEvents Experiences]. destruct all.
    + rewrite (unique_perm self_of l _ K1 Hl), (unique_perm entity_of l _ K2 Hl), (unique_perm persona_of l _ K3 Hl),
        (unique_perm events_of l _ K4 Hl), (unique_perm experiences_fetched l _ K5 Hl). split_and!; auto.
    + split_and!; try done.
      * destruct (unique_sub self_of l _ K1 Hl) as [-> | ->]; auto.
      * destruct (unique_sub entity_of l _ K2 Hl) as [-> | ->]; auto.
      * destruct (unique_sub persona_of l _ K3 Hl) as [-> | ->]; auto.
      * destruct (unique_sub events_of l _ K4 Hl) as [-> | ->]; auto.
      * destruct (unique_sub experiences_fetched l _ K5 Hl) as [-> | ->]; auto.
Qed.

(** What the task answers when it reports no error. *)
Lemma entity_task_bounded ctx req w facts :
  fr_data (entity_facts_task key ctx req w) = FetchedEntity facts -> fr_err (entity_facts_task key ctx req w) = None ->
  NoDup ((fun f => (ef_EntityName f, ef_Attribute f)) <$> facts) /\
  Forall (fun f => fle EntityFactMinConfidence (ef_Confidence f) = true) facts /\
  (chars facts <= entityFactsCharBudget \/ length facts = 1%nat).
Proof.
  unfold entity_facts_task. destruct (named_facts _ _ _ _) as [l0 e0].
  destruct (if decide (l0 = []) then _ else _) as [l1 e1].
  destruct (if decide (l1 = []) then _ else _) as [l2 [e2|]]; cbn [fr_data fr_err]; [done|]. intros [= <-] _.
  set (l := filterByConfidence (deduplicateByAttribute l2) EntityFactMinConfidence).
  assert (Hkeys : NoDup (fact_dedup_key <$> l)).
  { eapply sublist_NoDup; [apply (dedup_from_spec ∅ l2)|apply fmap_sublist, List_filter_sublist]. }
  assert (Hconf : forall f, f ∈ l -> fle EntityFactMinConfidence (ef_Confidence f) = true) by (by intros f [_ Hf]%filterByConfidence_In).
  assert (Hcut : exists n, truncateFactsToBudget l entityFactsCharBudget = take n l /\
    (chars (take n l) <= entityFactsCharBudget \/ length (take n l) = 1%nat)).
  { unfold truncateFactsToBudget. destruct (bool_decide (l = [])) eqn:El; simpl.
    - exists 0%nat. split; [done|left; simpl; unfold entityFactsCharBudget; lia].
    - destruct (truncate_from_spec l entityFactsCharBudget 0 l eq_refl ltac:(lia) ltac:(by right)) as (n & E & Hn & Hpos & Hfit & _).
      change (chars (take 0 l)) with 0 in E. exists n. split; [exact E|]. destruct Hfit as [?|Hn1]; [by left|right].
      apply bool_decide_eq_false in El. specialize (Hpos El). rewrite length_take. lia. }
  destruct Hcut as (n & -> & Hfit). split_and!; [| |exact Hfit].
  - assert (Hpairs : fact_dedup_key <$> l = (fun p => p.1 +:+ String "000" p.2) <$> ((fun f => (ef_EntityName f, ef_Attribute f)) <$> l))
      by (by rewrite <-list_fmap_compose).
    rewrite Hpairs in Hkeys. apply NoDup_fmap_1 in Hkeys. rewrite fmap_take. eapply sublist_NoDup; [exact Hkeys|apply sublist_take].
  - apply Forall_forall. intros f Hf. apply Hconf. eapply elem_of_take in Hf as (i & Hi & _). by eapply list_elem_of_lookup_2.
Qed.

Lemma query_facts_limited k ctx t u (q : option uuid -> uuid -> uuid -> result (list EntityRow)) n facts : 0 <= n ->
  (forall o t u rows, q o t u = Ok rows -> Z.of_nat (length rows) <= n) -> query_facts k ctx t u q = Ok facts ->
  Z.of_nat (length facts) <= n.
Proof.
  intros Hn Hq (c & _ & (rows & Hrows & [= <-])%result_bind_Ok)%result_bind_Ok. unfold scanEntityFacts. rewrite length_fmap.
  unfold Query in Hrows. apply result_bind_Ok in Hrows as (o & _ & [= <-]).
  match goal with |- context [match ?r with Ok _ => _ | Err _ => _ end] => destruct r as [rows|] eqn:E end; [|simpl; lia].
  apply result_bind_Ok in E as (tid & _ & (t' & _ & (u' & _ & E)%result_bind_Ok)%result_bind_Ok). by eapply Hq.
Qed.

Lemma checked_limit_length {A} n (l rows : list A) : checked_limit n l = Ok rows -> Z.of_nat (length rows) <= n.
Proof. unfold checked_limit, limit_rows. destruct (Z.ltb_spec n 0); [done|]. intros [= <-]. rewrite length_take. lia. Qed.

(** ... and when it reports one: what a fallback found, as it is. *)
Lemma entity_task_failed ctx req w facts e :
  fr_data (entity_facts_task key ctx req w) = FetchedEntity facts -> fr_err (entity_facts_task key ctx req w) = Some e ->
  Z.of_nat (length facts) <= DefaultFallbackFactsTopK.
Proof.
  assert (Hn : 0 <= DefaultFallbackFactsTopK) by done.
  assert (Hfb : forall e0, Z.of_nat (length (confidence_fallback key ctx req w e0).1) <= DefaultFallbackFactsTopK).
  { intros e0. unfold confidence_fallback. destruct (FallbackFacts _ _ _ _ _ _) as [l|] eqn:E; [|done]. simpl.
    eapply query_facts_limited; [done| |exact E]. intros o t u rows. apply checked_limit_length. }
  assert (Hvf : forall e0, Z.of_nat (length (vector_fallback key ctx req w e0).1) <= DefaultFallbackFactsTopK).
  { intros e0. unfold vector_fallback. case_decide; [done|]. destruct (usable_emb req w) as [v|]; [|done].
    destruct (SearchAllFactsByVector _ _ _ _ _ _ _) as [l|] eqn:E; [|done]. simpl. unfold SearchAllFactsByVector in E.
    case_decide; [by injection E as <-|]. eapply query_facts_limited; [done| |exact E].
    intros o t u rows (? & _ & Hl)%result_bind_Ok. by eapply checked_limit_length. }
  unfold entity_facts_task. destruct (named_facts _ _ _ _) as [l0 e0] eqn:E0.
  assert (Hempty : e0 <> None -> l0 = []).
  { revert E0. unfold named_facts. repeat case_decide; intros [= <- <-]; try done. by destruct (QueryFactsByFTS _ _ _ _ _ _ _ _). }
  destruct (decide (l0 = [])) as [->|Hl0].
  - specialize (Hvf e0). destruct (vector_fallback _ _ _ _ e0) as [l1 e1]. specialize (Hfb e1).
    destruct (decide (l1 = [])); [destruct (confidence_fallback _ _ _ _ e1) as [l2 e3]|];
      match goal with |- context [match ?x with None => _ | Some _ => _ end] => destruct x end; simpl; intros [= <-]; done.
  - rewrite (decide_False _ _ Hl0). destruct e0; [by destruct (Hl0 (Hempty ltac:(done)))|done].
Qed.

(** The entity facts of an answer are those of the task, when it was received. *)
Lemma answered_entity_facts ctx req w d st all st' b :
  GetContext key RecentMessagesLimit ctx req w d st all (st', Ok b) ->
  EntityFacts b = [] \/ fr_data (entity_facts_task key ctx req w) = FetchedEntity (EntityFacts b).
Proof.
  intros HG. inversion HG as [st1 recent b1 _ Hb]; subst. apply collecting_received in Hb as (l & -> & Hl).
  rewrite merge_all. unfold bundle_of. cbn [EntityFacts]. destruct (last (omap entity_of l)) as [facts|] eqn:E; [right|by left].
  simpl. apply last_Some_elem_of, list_elem_of_omap in E as (r & Hr & Ef).
  assert (Hin : r ∈ context_tasks key ctx req w) by (destruct all; [by rewrite <-Hl|by eapply elem_of_submseteq]).
  unfold entity_of in Ef. destruct (fr_data r) as [|facts'| |] eqn:Ed; [done| |done|done]. injection Ef as ->.
  unfold context_tasks in Hin. rewrite !elem_of_app in Hin. destruct Hin as [Hin|[Hin|[Hin|Hin]]].
  - apply list_elem_of_singleton in Hin as ->. revert Ed. unfold self_facts_task. destruct (SearchSelfFacts _ _ _ _ _); discriminate.
  - case_match; [|by apply not_elem_of_nil in Hin]. apply list_elem_of_singleton in Hin as ->. done.
  - case_match; [|by apply not_elem_of_nil in Hin]. apply list_elem_of_singleton in Hin as ->. by unfold structured_task in Ed.
  - case_match; [|by apply not_elem_of_nil in Hin]. apply list_elem_of_singleton in Hin as ->. by unfold experiences_task in Ed.
Qed.

(** C30: the entity facts of an answer, if there are any, are of one of two
    kinds.  When their task reports no error, they name no attribute of an
    entity twice, all have a confidence of at least 0.25, and take at most 4000
    characters or are a single fact.  When it reports one, they are what a
    fallback query found, unfiltered: at most 15 facts. *)
Theorem entity_facts_bounded ctx req w d st all st' b :
  GetContext key RecentMessagesLimit ctx req w d st all (st', Ok b) -> EntityFacts b <> [] ->
  match fr_err (entity_facts_task key ctx req w) with
  | None => NoDup ((fun f => (ef_EntityName f, ef_Attribute f)) <$> EntityFacts b) /\
      Forall (fun f => fle EntityFactMinConfidence (ef_Confidence f) = true) (EntityFacts b) /\
      (chars (EntityFacts b) <= entityFactsCharBudget \/ length (EntityFacts b) = 1%nat)
  | Some _ => Z.of_nat (length (EntityFacts b)) <= DefaultFallbackFactsTopK
  end.
Proof.
  intros [Hno|Ed]%answered_entity_facts Hne; [done|]. destruct (fr_err _) as [e|] eqn:Ee; [by eapply entity_task_failed|].
  by eapply entity_task_bounded.
Qed.

(** The budget cut returns the longest prefix that fits, and the first fact
    when not even that fits. *)
Theorem truncateFactsToBudget_longest facts budget : 0 < budget -> facts <> [] ->
  exists n, truncateFactsToBudget facts budget = take n facts /\ (0 < n <= length facts)%nat /\
    (budget < chars (take 1 facts) -> n = 1%nat) /\
    (chars (take 1 facts) <= budget -> chars (take n facts) <= budget /\
       ((n < length facts)%nat -> budget < chars (take (S n) facts))).
Proof.
  intros Hb Hne. unfold truncateFactsToBudget. rewrite (proj2 (Z.leb_gt _ _)), bool_decide_false by done. simpl.
  destruct (truncate_from_spec facts budget 0 facts eq_refl ltac:(lia) ltac:(by right)) as (n & E & Hn & Hpos & Hfit & Hmax).
  change (chars (take 0 facts)) with 0 in E. exists n. specialize (Hpos Hne).
  assert (Hmono : forall m, (1 <= m)%nat -> chars (take 1 facts) <= chars (take m facts)).
  { intros m Hm. destruct facts as [|f facts]; [done|]. destruct m as [|m]; [lia|]. simpl.
    assert (Hnn : forall l, 0 <= chars l); [|specialize (Hnn (take m facts)); lia].
    intros l. induction l as [|g l IH]; simpl; [lia|]. unfold factCharCount, RuneCountInString. lia. }
  specialize (Hmono n ltac:(lia)). split_and!; [exact E|lia|lia| |].
  - intros Hover. destruct Hfit; lia.
  - intros Hfirst. split; [|intros Hlt; destruct (Hmax Hlt) as [?|[_ ?]]; [done|lia]].
    destruct Hfit as [?|Hn1]; [done|]. by replace n with 1%nat by lia.
Qed.

(** *** Self facts *)

(** The rows a user's request finds. *)
Lemma allowed_no_nul a : a ∈ allowedAttributes -> no_byte "000" a.
Proof. apply (proj1 (Forall_forall (no_byte "000") allowedAttributes)). vm_compute. repeat constructor; discriminate. Qed.

(** Of a valid table, a current fact about the user is among the self facts of
    every answer to the user that the deadline does not cut short. *)
Lemma self_fact_answered c ctx req w d st out r : NewCrypto key = Ok c -> live ctx ->
  canonical (rq_TenantID req) -> canonical (rq_UserID req) -> ctx_tenant ctx = Some (rq_TenantID req) -> expired w Q_self = false ->
  facts_ok (database w Q_self) -> Forall (stored_valid c) (entity_mentions (database w Q_self)) ->
  r ∈ current_rows (database w Q_self) -> em_tenant r = rq_TenantID req -> em_user r = rq_UserID req -> em_type r = "self"%string ->
  fle EntityFactMinConfidence (em_confidence r) = true ->
  GetContext key RecentMessagesLimit ctx req w d st true out ->
  exists b, out.2 = Ok b /\ scanEntityFact c (rq_TenantID req) r ∈ SelfFacts b.
Proof.
  intros Hc Hlive Ht Hu Hctx Hexp [_ Hkeys] Hval Hr Ert Eru Ers Hconf [st' recent b Hrec Hb]. exists b. split; [done|].
  apply collecting_received in Hb as (l & -> & Hl). rewrite merge_all. unfold bundle_of. cbn [SelfFacts].
  rewrite (unique_perm self_of l _ (proj1 (context_tasks_kinds ctx req w)) Hl).
  set (rows := order_by confidence_desc (select_facts (Some (rq_TenantID req))
    (fun r => current_of (rq_TenantID req) (rq_UserID req) r && negb (third_party r)) (database w Q_self))).
  set (facts := scanEntityFacts c (rq_TenantID req) rows).
  assert (Erows : forall x, x ∈ rows <-> x ∈ current_rows (database w Q_self) /\
    em_tenant x = rq_TenantID req /\ em_user x = rq_UserID req /\ em_type x = "self"%string).
  { intros x. unfold rows. rewrite order_by_perm. unfold select_facts, visible, current_rows.
    rewrite !elem_of_filter_bool. unfold current_of, third_party, policy.
    rewrite !andb_true_iff, negb_involutive, !bool_decide_eq_true. intuition congruence. }
  assert (Hrows : NoDup (fact_key <$> rows)).
  { unfold rows. rewrite order_by_perm. unfold select_facts, visible. rewrite filter_filter_and.
    rewrite (List.filter_ext _ (fun x => is_current x && (policy (Some (rq_TenantID req)) (em_tenant x) &&
      (bool_decide (em_tenant x = rq_TenantID req) && bool_decide (em_user x = rq_UserID req) && negb (third_party x)))))
      by (intros x; unfold current_of; by destruct (is_current x), (policy _ _), (bool_decide _), (bool_decide _), (third_party x)).
    rewrite <-filter_filter_and. by apply NoDup_fmap_filter. }
  assert (Hdedup : deduplicateByAttribute facts = facts).
  { apply dedup_from_all; [|apply Forall_forall; set_solver]. unfold facts, scanEntityFacts. rewrite <-list_fmap_compose.
    apply NoDup_fmap_2_strong; [|by eapply NoDup_fmap_1]. intros x y Hx Hy E. apply (NoDup_fmap_eq fact_key rows); [done..|].
    assert (Hno : forall z, z ∈ rows -> no_byte "000" (em_attr z)).
    { intros z [[Hz _]%elem_of_filter_bool _]%Erows. rewrite Forall_forall in Hval.
      destruct (Hval z Hz) as (v & _ & _ & Hv). exact (allowed_no_nul _ (ValidateExtractedFact_allowed _ Hv)). }
    apply fact_dedup_key_inj in E as [En Ea]; [|by apply Hno..]. apply Erows in Hx as (_ & Htx & Hux & _), Hy as (_ & Hty & Huy & _).
    unfold fact_key. simpl in En, Ea. congruence. }
  assert (Eself : self_facts_task key ctx req w = mkFetchResult (FetchedSelf (filterByConfidence facts EntityFactMinConfidence)) None).
  { unfold self_facts_task. rewrite (SearchSelfFacts_Ok key c); [by fold rows facts; rewrite Hdedup|done| |done..].
    unfold live, WithTimeout in *. simpl. by rewrite Hlive, Hexp. }
  assert (Hlast : last (omap self_of (context_tasks key ctx req w)) = Some (filterByConfidence facts EntityFactMinConfidence)).
  { destruct (context_tasks_kinds ctx req w) as [Hone _].
    assert (exists L, context_tasks key ctx req w = self_facts_task key ctx req w :: L) as [L E] by by eexists.
    rewrite E, Eself in *. simpl in *. destruct (list_omap _ _ self_of L); [done|simpl in Hone; lia]. }
  rewrite Hlast. apply filterByConfidence_In. split; [|done]. apply list_elem_of_fmap_2, Erows. by split_and!.
Qed.

(** *** Tenants *)

(** The same surroundings, but for other tenants' rows; the walks of the vector
    indexes still reach the same rows of the tenant. *)
Definition same_surroundings (t : uuid) (w w' : surroundings) : Prop :=
  (forall q, expired w q = expired w' q) /\ clock w = clock w' /\ embed w = embed w' /\
  forall q, same_tenant t (database w q) (database w' q) /\ same_reach t (database w q) (database w' q).

Lemma context_tasks_tenant ctx t req w w' : canonical t -> rq_TenantID req = t -> same_surroundings t w w' ->
  context_tasks key (WithTenantID ctx t) req w = context_tasks key (WithTenantID ctx t) req w'.
Proof.
  intros Ht Hreq (Hexp & Hclock & Hembed & Hrows).
  pose proof (fun q => proj1 (Hrows q)) as Hdb. pose proof (fun q => proj2 (Hrows q)) as Hr. clear Hrows.
  assert (Hc : forall q, ctx_tenant (WithTimeout (WithTenantID ctx t) (expired w' q)) = Some t) by done.
  assert (Hu : usable_emb req w = usable_emb req w') by (unfold usable_emb, emb; by rewrite Hembed).
  unfold context_tasks. f_equal; [|f_equal; [|f_equal]].
  - unfold self_facts_task. rewrite Hexp. by rewrite (SearchSelfFacts_tenant t Ht _ (Hc _) _ _ (Hdb Q_self)).
  - case_match; [|done]. f_equal. unfold entity_facts_task.
    assert (En : named_facts key (WithTenantID ctx t) req w = named_facts key (WithTenantID ctx t) req w').
    { unfold named_facts. rewrite Hu, !Hexp, (ResolveEntities_tenant t Ht _ (Hc _) _ _ (Hdb Q_resolve)),
        (QueryFactsByFTS_tenant t Ht _ (Hc _) _ _ (Hdb Q_fts)).
      destruct (usable_emb req w'); [|done]. by rewrite (QueryFactsByVector_tenant t Ht _ (Hc _) _ _ (Hr Q_rerank)). }
    assert (Ev : forall e, vector_fallback key (WithTenantID ctx t) req w e = vector_fallback key (WithTenantID ctx t) req w' e).
    { intros e. unfold vector_fallback. rewrite Hu, Hexp. destruct (usable_emb req w'); [|done].
      by rewrite (SearchAllFactsByVector_tenant t Ht _ (Hc _) _ _ (Hr Q_all_facts)). }
    assert (Ec : forall e, confidence_fallback key (WithTenantID ctx t) req w e = confidence_fallback key (WithTenantID ctx t) req w' e).
    { intros e. unfold confidence_fallback. rewrite Hexp. by rewrite (FallbackFacts_tenant t Ht _ (Hc _) _ _ (Hdb Q_fallback)). }
    rewrite En. destruct (named_facts _ _ _ w') as [l e]. rewrite Ev.
    destruct (if decide (l = []) then _ else _) as [l1 e1]. by rewrite Ec.
  - case_match; [|done]. f_equal. unfold structured_task. rewrite Hexp, Hclock,
      (GetUpcomingEvents_tenant t Ht _ (Hc _) _ _ (Hdb Q_events)). do 2 f_equal.
    case_match; [|done]. f_equal. unfold persona_records. rewrite Hu, !Hexp, (GetPersona_tenant t Ht _ (Hc _) _ _ (Hdb Q_persona)).
    destruct (usable_emb req w'); [|done]. by rewrite (SearchByVectorPerType_tenant t Ht _ (Hc _) _ _ (Hdb Q_persona_vector) (Hr Q_persona_vector)).
  - case_match; [|done]. f_equal. unfold experiences_task, found_experiences, emb. rewrite Hembed, Hexp, Hreq.
    destruct (if needsEmbed req then embed w' else Ok []); [|done]. cbn [mbind result_bind].
    by rewrite (SearchExperiences_tenant t Ht _ _ _ (Hr Q_experiences)).
Qed.

(** C1: tenant isolation of reads.  For a request running as tenant [t], the
    answers GetContext can give are the same whatever rows other tenants have,
    in every table and at each of its queries, and whatever they change between
    them, as long as the walks of the shared vector indexes reach the same rows
    of [t]; [same_vectors_reach] and [exact_reach] say when they do. *)
Theorem GetContext_tenant_isolation ctx t req w w' d d' st all : canonical t -> rq_TenantID req = t ->
  same_surroundings t w w' -> same_tenant t d d' ->
  forall out, GetContext key RecentMessagesLimit (WithTenantID ctx t) req w d st all out <->
    GetContext key RecentMessagesLimit (WithTenantID ctx t) req w' d' st all out.
Proof.
  intros Ht Hreq Hw Hd.
  assert (Hrec : recent_messages RecentMessagesLimit (WithTenantID ctx t) req (clock w) d st =
    recent_messages RecentMessagesLimit (WithTenantID ctx t) req (clock w') d' st).
  { destruct Hw as (_ & <- & _). unfold recent_messages, GetRawMessages.
    by rewrite (GetSessionHistory_tenant t Ht (WithTenantID ctx t) eq_refl d d' Hd). }
  pose proof (context_tasks_tenant ctx t req w w' Ht Hreq Hw) as E.
  intros out. split; intros [st' rec b Hr Hb]; econstructor.
  - by rewrite <-Hrec.
  - by rewrite <-E.
  - by rewrite Hrec.
  - by rewrite E.
Qed.

(** *** A gap in the filters *)

Lemma done_Err k ctx tenantID userID (q : option uuid -> uuid -> uuid -> result (list EntityRow)) :
  exists e, query_facts k (WithTimeout ctx true) tenantID userID q = Err e.
Proof.
  unfold query_facts. destruct (NewCrypto k) as [c|e]; [|by exists e]. cbn [mbind result_bind].
  unfold Query, Acquire. simpl. rewrite orb_true_r. by eexists.
Qed.

(** When the query names an entity, there is no embedding and the full-text
    query times out, the answer is the confidence fallback as it is: its facts
    pass no confidence filter, no deduplication and no budget. *)
Theorem entity_facts_unfiltered ctx req w names :
  rq_Query req <> EmptyString -> usable_emb req w = None ->
  ResolveEntities (WithTimeout ctx (expired w Q_resolve)) (rq_TenantID req) (rq_UserID req) (rq_Query req)
    (database w Q_resolve) = Ok names -> names <> [] ->
  expired w Q_fts = true ->
  fr_data (entity_facts_task key ctx req w) = FetchedEntity (ok_or_nil (FallbackFacts key
    (WithTimeout ctx (expired w Q_fallback)) (rq_TenantID req) (rq_UserID req) DefaultFallbackFactsTopK (database w Q_fallback))).
Proof.
  intros Hq Hu Hr Hne Hexp. unfold entity_facts_task, named_facts, vector_fallback, confidence_fallback.
  rewrite (decide_False _ _ Hq), Hu, Hr. cbn [ok_or_nil]. rewrite (decide_False _ _ Hne).
  rewrite decide_True by done. unfold QueryFactsByFTS. rewrite (decide_False _ _ Hne), Hexp.
  match goal with |- context [query_facts key (WithTimeout ctx true) ?a ?b ?c] =>
    destruct (done_Err key ctx a b c) as [e ->] end. cbn [ok_or_nil err_of].
  by destruct (decide (rq_Query req = EmptyString)), (FallbackFacts _ _ _ _ _ _).
Qed.
End RetrieverProperties.

(** ** Examples *)

Module RetrieverSample.
#[local] Existing Instances toy_uuid merge_order_by toy_crypto toy_jsonb.
#[local] Instance server : Redis := local_redis true.

(** A search in which every name matches, and a vector query reaches the first
    row of its table only. *)
#[local] Instance finding_search : PgSearch.
Proof.
  refine {| fts_match _ _ := true; ts_rank _ _ := f_of_Z 0; trgm_match _ _ := false; unaccent s := s;
            cosine_distance _ _ := f_of_Z 0; vector_in v := negb (bool_decide (v = []));
            index_scan _ _ i := Nat.eqb i 0; text_le x y := Nat.leb (String.length x) (String.length y) |}.
  - intros x y z. rewrite !Nat.leb_le. lia.
  - intros x y. rewrite !Nat.leb_le. lia.
Defined.

Definition secret : string := "000102030405060708090a0b0c0d0e0f101112131415161718191a1b1c1d1e1f".
Definition fact (id t name : string) (confidence : float64) : EntityRow :=
  mkEntityRow id t "u" "s" "m" name "person" "job" [] "h" 1 None None confidence "quote" None 1.
Definition db (rows : list EntityRow) : DB := mkDB [] [] rows [] [] [].
Definition req : GetContextRequest := mkGetContextRequest "t" "u" "s" "Ann?" ["entity_facts"%string] None.

(** The database [d] throughout, with the full-text query out of time if [late]. *)
Definition around (late : bool) (d : DB) : surroundings :=
  mkSurroundings (fun q => match q with Q_fts => late | _ => false end) (fun _ => d) 9 (Err "no model"%string).

Definition doubtful : DB := db [fact "1" "t" "Ann" (f_lit 1 10)].

Definition asked (rows : list EntityRow) (out : store * result ContextBundle) : Prop :=
  GetContext secret 20 (WithTenantID Background "t") req (around false (db rows)) (db rows) ∅ true out.

(** The answer with every task received. *)
Definition answer (w : surroundings) : ContextBundle :=
  foldl merge empty_bundle (context_tasks secret (WithTenantID Background "t") req w).

Lemma asked_answer rows : asked rows (∅, Ok (answer (around false (db rows)))).
Proof.
  apply (GetContext_returns _ _ _ _ _ _ _ _ _ []); [reflexivity|].
  refine (collect_receive _ [] _ [_] _ _ _). refine (collect_receive _ [] _ [] _ _ _). constructor.
Qed.

Lemma entity_facts_bounded_witness :
  let rows := [fact "1" "t" "Ann" (f_of_Z 1); fact "2" "t" "Ann" (f_of_Z 1)] in
  length (EntityFacts (answer (around false (db rows)))) = 1%nat /\
  NoDup ((fun f => (ef_EntityName f, ef_Attribute f)) <$> EntityFacts (answer (around false (db rows)))).
Proof.
  intros rows. split; [vm_compute; reflexivity|].
  pose proof (entity_facts_bounded secret 20 (WithTenantID Background "t") req (around false (db rows)) (db rows) ∅ true ∅
    (answer (around false (db rows))) (asked_answer rows) ltac:(vm_compute; discriminate)) as Hb.
  assert (E : fr_err (entity_facts_task secret (WithTenantID Background "t") req (around false (db rows))) = None)
    by (vm_compute; reflexivity). rewrite E in Hb. apply Hb.
Defined.

Lemma truncateFactsToBudget_longest_witness :
  let f n := mkEntityFact n "person" "job" "baker" "" (f_of_Z 1) in
  truncateFactsToBudget [f "Ann"; f "Bob"]%string 12 = [f "Ann"]%string.
Proof.
  intros f. destruct (truncateFactsToBudget_longest [f "Ann"; f "Bob"]%string 12) as (n & -> & Hn & _ & Hmax);
    [lia|discriminate|]. destruct (Hmax ltac:(vm_compute; discriminate)) as [Hfit _].
  destruct n as [|[|[|n]]]; [lia|reflexivity|vm_compute in Hfit; by destruct Hfit|simpl in Hn; lia].
Defined.

(** Under this search, what another tenant has in a row of its own, but for the
    vector, changes no answer. *)
Definition embedded_fact (id t name : string) : EntityRow := set_em_embedding (Some [f_of_Z 1]) (fact id t name (f_of_Z 1)).
Definition beside (name : string) : list EntityRow := [embedded_fact "1" "t" "Ann"; embedded_fact "2" "b" name].
Definition with_vector (d : DB) : surroundings := mkSurroundings (fun _ => false) (fun _ => d) 9 (Ok [f_of_Z 1]).

Lemma beside_vectors n n' : same_vectors "t" (db (beside n)) (db (beside n')).
Proof. split; [|constructor..]. repeat constructor; discriminate. Qed.
Lemma beside_same n n' : same_tenant "t" (db (beside n)) (db (beside n')).
Proof. split; reflexivity. Qed.

Lemma GetContext_tenant_isolation_witness :
  exists b, (ef_EntityName <$> EntityFacts b = ["Ann"%string]) /\
    GetContext secret 20 (WithTenantID Background "t") req (with_vector (db (beside "Bob"))) (db (beside "Bob")) ∅ true (∅, Ok b).
Proof.
  exists (answer (with_vector (db (beside "Eve")))). split; [vm_compute; reflexivity|].
  refine (proj1 (GetContext_tenant_isolation secret 20 Background "t" req (with_vector (db (beside "Eve")))
    (with_vector (db (beside "Bob"))) (db (beside "Eve")) (db (beside "Bob")) ∅ true _ _ _ _ _) _); [reflexivity|reflexivity| |by apply beside_same|].
  - split; [done|]. split; [done|]. split; [done|]. intros q. split; [apply beside_same|apply same_vectors_reach, beside_vectors].
  - apply (GetContext_returns _ _ _ _ _ _ _ _ _ []); [reflexivity|].
    refine (collect_receive _ [] _ [_] _ _ _). refine (collect_receive _ [] _ [] _ _ _). constructor.
Defined.

(** A row of another tenant that the walk reaches first crowds the tenant's own
    fact out of a vector query. *)
Lemma crowded_out :
  let found rows := SearchAllFactsByVector secret (WithTenantID Background "t") "t" "u" [f_of_Z 1] 15 (db rows) in
  (ef_EntityName <$> ok_or_nil (found [embedded_fact "1" "t" "Ann"])) = ["Ann"%string] /\
  found [embedded_fact "2" "b" "Eve"; embedded_fact "1" "t" "Ann"] = Ok [].
Proof. split; vm_compute; reflexivity. Qed.

Lemma entity_facts_unfiltered_witness :
  exists facts, fr_data (entity_facts_task secret (WithTenantID Background "t") req (around true doubtful)) = FetchedEntity facts /\
    (fun f => fle EntityFactMinConfidence (ef_Confidence f)) <$> facts = [false].
Proof.
  eexists. split.
  - apply (entity_facts_unfiltered secret (WithTenantID Background "t") req (around true doubtful) ["Ann"%string]);
      [discriminate|reflexivity|vm_compute; reflexivity|discriminate|reflexivity].
  - vm_compute. reflexivity.
Defined.
End RetrieverSample.
