(* ===== verification/Rest.v ===== *)
(** The HTTP API ([internal/api/rest.go]): each handler as a function from the
    request gin has bound, the database and the Redis store to their new states
    and the response.  [ContextApi] has the two context endpoints. *)
From Stdlib Require Import Ascii String.
From S2P Require Import Prelude GoStd GoStrings Float64 Model Json Db MessageRepo EntityRepo MemoryRepo ExperienceRepo Redis Cache.

Local Open Scope Z_scope.

Definition MaxContentLength : Z := 100000.
Definition MaxQueryLength : Z := 5000.
Definition ValidRoles : string := "user,assistant,system".

(** ** Responses *)

Inductive body :=
  | BError (e : string)
  | BStatus (s : string)
  | BAppended (id : uuid)
  | BHistory (messages : list Message) (count total_tokens : Z) (next_cursor : string) (has_more : bool)
  | BSession (s : Session)
  | BSessions (l : list Session) (count : Z)
  | BExperiences (l : list Experience).

Record response := mkResponse { status : Z; resp_body : body }.

Definition StatusOK : Z := 200.
Definition StatusCreated : Z := 201.
Definition StatusBadRequest : Z := 400.
Definition StatusNotFound : Z := 404.
Definition StatusInternalServerError : Z := 500.

Definition bad_request (e : string) : response := mkResponse StatusBadRequest (BError e).
Definition server_error (e : string) : response := mkResponse StatusInternalServerError (BError e).
Definition bad_format : response := bad_request "invalid request format".

(** [uuid.Parse] or an early return. *)
Notation "'parsed' u 'of' s 'or' e 'in' k" :=
  (match uuid_Parse s with Some u => k | None => e end) (at level 10, u name, k at level 200).

(** ** Request bodies, as [ShouldBindJSON] leaves them; [None] when the body is
    not JSON of this shape.  A [required] field must not be empty. *)

Record AppendRequest := mkAppendRequest {
  ar_TenantID : string;
  ar_UserID : string;
  ar_SessionID : string;
  ar_Role : string;
  ar_Content : string;
}.

Record SessionRequest := mkSessionRequest { sr_TenantID : string; sr_UserID : string; sr_Title : string }.
Record FeedbackRequest := mkFeedbackRequest {
  fr_TenantID : string;
  fr_UserID : string;
  fr_ItemID : string;                (* not in the body of the experience feedback *)
  fr_Signal : string;
}.

Definition required (fields : list string) : bool := forallb (fun s => negb (bool_decide (s = EmptyString))) fields.

(** What a request runs with: its context, [time.Now] (taken for the clock of
    Redis too), the clock of the database, and the id [uuid.New] gives. *)
Record env := mkEnv { e_ctx : context; e_now : time; e_db_now : time; e_new_id : uuid }.

Section Handlers.
Context `{UuidLib, OrderBy, PgSearch, Jsonb, Redis}.
(** [cfg.CognitiveBatch] *)
Context (CognitiveBatch : Z).

Definition state : Type := DB * store.

Definition withTenant (e : env) (tenantID : string) : context := WithTenantID (e_ctx e) tenantID.

Definition new_message (e : env) (t u s : uuid) (req : AppendRequest) : Message :=
  mkMessage (e_new_id e) t s u (ar_Role req) (ar_Content req) (RuneCountInString (ar_Content req) / 4) (e_now e).

(** The batching step of handleAppendMessages, on the Redis store alone. *)
Definition trigger_batch (ctx : context) (now : time) (req : AppendRequest) (msgID : uuid) (s : store) : store :=
  let '(s1, r) :=
    if decide (ar_Role req = "user"%string)
    then IncrementCognitiveBatch ctx now (ar_TenantID req) (ar_SessionID req) s
    else (s, Ok 0) in
  match r with
  | Err _ => s1
  | Ok count =>
    if CognitiveBatch <=? count then
      let '(s2, _) := ResetCognitiveBatch ctx now (ar_TenantID req) (ar_SessionID req) s1 in
      let p := mkBatchPayload (ar_TenantID req) (ar_UserID req) (ar_SessionID req) (int64 (count * 2)) msgID in
      (XAddCognitiveBatch ctx now (ar_TenantID req) p s2).1
    else s1
  end.

Definition handleAppendMessages (e : env) (body : option AppendRequest) (st : state) : state * response :=
  let '(d, s) := st in
  match body with
  | None => (st, bad_format)
  | Some req =>
    if negb (required [ar_TenantID req; ar_UserID req; ar_SessionID req; ar_Role req; ar_Content req]) then (st, bad_format)
    else if negb (bool_decide (ar_Role req ∈ ["user"; "assistant"; "system"]%string)) then
      (st, bad_request ("invalid role. Must be one of: " +:+ ValidRoles))
    else if MaxContentLength <? len (ar_Content req) then (st, bad_request "content too large")
    else
      parsed tenantID of ar_TenantID req or (st, bad_request "invalid tenant_id format") in
      parsed userID of ar_UserID req or (st, bad_request "invalid user_id format") in
      parsed sessionID of ar_SessionID req or (st, bad_request "invalid session_id format") in
      let ctx := withTenant e tenantID in
      let msg := new_message e tenantID userID sessionID req in
      match InsertMessage ctx msg (e_db_now e) d with
      | (d1, Err _) => ((d1, s), server_error "failed to store message")
      | (d1, Ok _) =>
        let '(s1, _) := AppendMessages ctx (e_now e) d1 (ar_TenantID req) (ar_SessionID req) [msg] s in
        ((d1, trigger_batch ctx (e_now e) req (msg_ID msg) s1), mkResponse StatusOK (BAppended (msg_ID msg)))
      end
  end.

(** [limit := default; if v, err := strconv.Atoi(q); err == nil && v > 0 ...] *)
Definition query_int (q : string) (ok : Z -> bool) (dflt : Z) : Z :=
  if decide (q = EmptyString) then dflt
  else match Atoi q with Some v => if ok v then v else dflt | None => dflt end.

Definition total_tokens (l : list Message) : Z := foldl (fun n m => int64 (n + msg_TokenCount m)) 0 l.

Definition handleGetSessionHistory (e : env) (session_id tenant_id limit before_id : string) (st : state) : response :=
  parsed _s of session_id or bad_request "invalid session_id format" in
  parsed _t of tenant_id or bad_request "tenant_id is required and must be a valid UUID" in
  let limit := query_int limit (fun v => 0 <? v) 50 in
  if negb (bool_decide (before_id = EmptyString)) && negb (if uuid_Parse before_id is Some _ then true else false)
  then bad_request "invalid before_id format"
  else
    match GetSessionHistory (withTenant e tenant_id) tenant_id session_id limit before_id st.1 with
    | Err _ => server_error "failed to retrieve messages"
    | Ok msgs =>
      let nextCursor := if Z.of_nat (length msgs) =? limit
                        then match last msgs with Some m => msg_ID m | None => EmptyString end
                        else EmptyString in
      mkResponse StatusOK (BHistory msgs (Z.of_nat (length msgs)) (total_tokens msgs) nextCursor
                             (negb (bool_decide (nextCursor = EmptyString))))
    end.

(** *** Sessions *)

(** One session of flushPreviousUserSessions. *)
Definition flush_previous (ctx : context) (now : time) (tenantID userID excludeSessionID : string) (d : DB)
    (s : store) (sess : Session) : store :=
  let sessID := ses_ID sess in
  if decide (sessID = excludeSessionID) then s
  else
    match GetCognitiveBatchCount ctx now tenantID sessID s with
    | (s1, Err _) => s1
    | (s1, Ok count) =>
      if count =? 0 then s1
      else
        match GetSessionHistory ctx tenantID sessID 1 EmptyString d with
        | Err _ | Ok [] => s1
        | Ok (m :: _) =>
          let '(s2, _) := ResetCognitiveBatch ctx now tenantID sessID s1 in
          let p := mkBatchPayload tenantID userID sessID (int64 (count * 2)) (msg_ID m) in
          (XAddCognitiveBatch ctx now tenantID p s2).1
        end
    end.

Definition flushPreviousUserSessions (ctx : context) (now : time) (tenantID userID excludeSessionID : string)
    (st : state) : store :=
  let '(d, s) := st in
  match List ctx tenantID userID 5 0 d with
  | Err _ => s
  | Ok sessions => foldl (flush_previous ctx now tenantID userID excludeSessionID d) s sessions
  end.

(** The flush the handler starts in the background is given here as run right
    after it; its context is detached from the request. *)
Definition handleCreateSession (e : env) (body : option SessionRequest) (st : state) : state * response :=
  let '(d, s) := st in
  match body with
  | None => (st, bad_format)
  | Some req =>
    if negb (required [sr_TenantID req; sr_UserID req]) then (st, bad_format)
    else
      parsed tenantID of sr_TenantID req or (st, bad_request "invalid tenant_id format") in
      parsed userID of sr_UserID req or (st, bad_request "invalid user_id format") in
      let session := mkSession (e_new_id e) tenantID userID (sr_Title req) "{}" 0 0 in
      match Create (withTenant e tenantID) session (e_db_now e) d with
      | (d1, Err _) => ((d1, s), server_error "failed to create session")
      | (d1, Ok _) =>
        let s1 := flushPreviousUserSessions (WithTenantID Background tenantID) (e_now e)
                    (sr_TenantID req) (sr_UserID req) (ses_ID session) (d1, s) in
        ((d1, s1), mkResponse StatusCreated (BSession session))
      end
  end.

Definition handleListSessions (e : env) (tenant_id user_id limit offset : string) (st : state) : response :=
  parsed _t of tenant_id or bad_request "tenant_id is required and must be a valid UUID" in
  parsed _u of user_id or bad_request "user_id is required and must be a valid UUID" in
  let limit := query_int limit (fun v => 0 <? v) 20 in
  let offset := query_int offset (fun v => 0 <=? v) 0 in
  match List (withTenant e tenant_id) tenant_id user_id limit offset st.1 with
  | Err _ => server_error "failed to list sessions"
  | Ok l => mkResponse StatusOK (BSessions l (Z.of_nat (length l)))
  end.

Definition handleDeleteSession (e : env) (session_id tenant_id : string) (st : state) : state * response :=
  let '(d, s) := st in
  parsed _s of session_id or (st, bad_request "invalid session_id format") in
  parsed _t of tenant_id or (st, bad_request "tenant_id is required and must be a valid UUID") in
  match Delete (withTenant e tenant_id) tenant_id session_id d with
  | (d1, Err _) => ((d1, s), server_error "failed to delete session")
  | (d1, Ok false) => ((d1, s), mkResponse StatusNotFound (BError "session not found"))
  | (d1, Ok true) => ((d1, s), mkResponse StatusOK (BStatus "deleted"))
  end.

(** *** Feedback and experiences *)

Definition valid_signal (s : string) : bool := bool_decide (s ∈ ["positive"; "negative"]%string).

Definition handleFeedback (e : env) (body : option FeedbackRequest) (st : state) : state * response :=
  let '(d, s) := st in
  match body with
  | None => (st, bad_format)
  | Some req =>
    if negb (required [fr_TenantID req; fr_UserID req; fr_ItemID req; fr_Signal req]) then (st, bad_format)
    else if negb (valid_signal (fr_Signal req)) then (st, bad_request "signal must be 'positive' or 'negative'")
    else
      parsed tenantID of fr_TenantID req or (st, bad_request "invalid tenant_id format") in
      parsed userID of fr_UserID req or (st, bad_request "invalid user_id format") in
      parsed _i of fr_ItemID req or (st, bad_request "invalid item_id format") in
      match MemoryRepo.RecordFeedback (withTenant e tenantID) tenantID userID (fr_ItemID req)
              (bool_decide (fr_Signal req = "positive"%string)) (e_db_now e) d with
      | Err _ => (st, server_error "failed to record feedback")
      | Ok d1 => ((d1, s), mkResponse StatusOK (BStatus "feedback recorded"))
      end
  end.

Definition handleListExperiences (e : env) (tenant_id user_id : string) (st : state) : response :=
  parsed tenantID of tenant_id or bad_request "invalid tenant_id format" in
  parsed userID of user_id or bad_request "invalid user_id format" in
  match ListByUser (withTenant e tenantID) tenantID userID st.1 with
  | Err _ => server_error "failed to list experiences"
  | Ok l => mkResponse StatusOK (BExperiences l)
  end.

Definition handleExperienceFeedback (e : env) (experience_id : string) (body : option FeedbackRequest) (st : state)
  : state * response :=
  let '(d, s) := st in
  parsed _i of experience_id or (st, bad_request "invalid experience_id format") in
  match body with
  | None => (st, bad_format)
  | Some req =>
    if negb (required [fr_TenantID req; fr_UserID req; fr_Signal req]) then (st, bad_format)
    else if negb (valid_signal (fr_Signal req)) then (st, bad_request "signal must be 'positive' or 'negative'")
    else
      parsed tenantID of fr_TenantID req or (st, bad_request "invalid tenant_id format") in
      parsed userID of fr_UserID req or (st, bad_request "invalid user_id format") in
      match ExperienceRepo.RecordFeedback (withTenant e tenantID) tenantID userID experience_id
              (bool_decide (fr_Signal req = "positive"%string)) (e_db_now e) d with
      | Err _ => (st, server_error "failed to record feedback")
      | Ok d1 => ((d1, s), mkResponse StatusOK (BStatus "feedback recorded"))
      end
  end.

Definition handleDeleteExperience (e : env) (experience_id tenant_id user_id : string) (st : state)
  : state * response :=
  let '(d, s) := st in
  parsed _i of experience_id or (st, bad_request "invalid experience_id format") in
  parsed tenantID of tenant_id or (st, bad_request "invalid tenant_id format") in
  parsed userID of user_id or (st, bad_request "invalid user_id format") in
  match Deactivate (withTenant e tenantID) tenantID userID experience_id (e_db_now e) d with
  | Err _ => (st, server_error "failed to delete experience")
  | Ok d1 => ((d1, s), mkResponse StatusOK (BStatus "experience deactivated"))
  end.
End Handlers.

(** ** Properties *)

Section HandlerProperties.
Context `{UuidLib, OrderBy, PgSearch, Jsonb, Redis}.

(** *** Appending a message *)

(** What the handler asks of a request, with the ids it names. *)
Definition acceptable (req : AppendRequest) (t u s : uuid) : Prop :=
  ar_TenantID req <> EmptyString /\ ar_UserID req <> EmptyString /\ ar_SessionID req <> EmptyString /\
  ar_Content req <> EmptyString /\ ar_Role req ∈ valid_roles /\ len (ar_Content req) <= MaxContentLength /\
  uuid_Parse (ar_TenantID req) = Some t /\ uuid_Parse (ar_UserID req) = Some u /\ uuid_Parse (ar_SessionID req) = Some s.

Lemma negb_bool_decide (P : Prop) `{Decision P} : negb (bool_decide P) = bool_decide (~ P).
Proof. by rewrite bool_decide_not. Qed.

(** The checks at the top of the handler: either one of them refuses the
    request, or it is acceptable and the stores are reached. *)
Lemma handleAppendMessages_checks B e req d s :
  (exists m, handleAppendMessages B e (Some req) (d, s) = ((d, s), bad_request m)
     /\ forall t u ss, ~ acceptable req t u ss) \/
  exists t u ss, acceptable req t u ss /\
    handleAppendMessages B e (Some req) (d, s) =
      let ctx := withTenant e t in
      let msg := new_message e t u ss req in
      match InsertMessage ctx msg (e_db_now e) d with
      | (d1, Err _) => ((d1, s), server_error "failed to store message")
      | (d1, Ok _) =>
        ((d1, trigger_batch B ctx (e_now e) req (msg_ID msg)
                (AppendMessages ctx (e_now e) d1 (ar_TenantID req) (ar_SessionID req) [msg] s).1),
         mkResponse StatusOK (BAppended (msg_ID msg)))
      end.
Proof.
  unfold handleAppendMessages, required. cbn [forallb]. rewrite !negb_bool_decide.
  assert (Hno : forall (P : Prop) m, (forall t u ss, acceptable req t u ss -> ~ P) -> P ->
    exists m', ((d, s), bad_request m) = ((d, s), bad_request m') /\ forall t u ss, ~ acceptable req t u ss)
    by (intros P m HP Hp; exists m; split; [done|intros t u ss Ha; by eapply HP]).
  assert (Hrole : forall r, r ∈ valid_roles -> r <> EmptyString) by (unfold valid_roles; set_solver).
  specialize (Hrole (ar_Role req)). let check P := (let Hd := fresh in destruct (bool_decide_reflect P) as [Hd|Hd]; cbn [negb andb];
    [|left; revert Hd; apply Hno; unfold acceptable; tauto]) in
  check (ar_TenantID req <> EmptyString); check (ar_UserID req <> EmptyString); check (ar_SessionID req <> EmptyString);
  check (ar_Role req <> EmptyString) ; check (ar_Content req <> EmptyString).
  destruct (bool_decide_reflect (ar_Role req ∉ ["user"; "assistant"; "system"]%string)) as [Hr|Hr];
    [left; revert Hr; apply Hno; unfold acceptable, valid_roles; tauto|].
  destruct (Z.ltb_spec MaxContentLength (len (ar_Content req))) as [Hl|Hl]; [left; revert Hl; apply Hno; unfold acceptable; lia|].
  destruct (uuid_Parse (ar_TenantID req)) as [t|] eqn:Et; [|left; revert Et; apply Hno; unfold acceptable; naive_solver congruence].
  destruct (uuid_Parse (ar_UserID req)) as [u|] eqn:Eu; [|left; revert Eu; apply Hno; unfold acceptable; naive_solver congruence].
  destruct (uuid_Parse (ar_SessionID req)) as [ss|] eqn:Es; [|left; revert Es; apply Hno; unfold acceptable; naive_solver congruence].
  right. exists t, u, ss. split; [unfold acceptable; split_and!; try done; by apply dec_stable|].
  destruct (InsertMessage _ _ _ _) as [d1 [[]|?]]; [|done]. by destruct (AppendMessages _ _ _ _ _ _ _).
Qed.

(** Batching does not touch the cached messages. *)
Lemma trigger_batch_frame B ctx now req id s k :
  k <> cog_key (ar_TenantID req) (ar_SessionID req) -> k <> active_key -> k <> stream_key (ar_TenantID req) ->
  view (trigger_batch B ctx now req id s) !! k = view s !! k.
Proof.
  intros Hk1 Hk2 Hk3. unfold trigger_batch.
  assert (Hinc : forall s, view (IncrementCognitiveBatch ctx now (ar_TenantID req) (ar_SessionID req) s).1 !! k = view s !! k).
  { intros s0. unfold IncrementCognitiveBatch. destruct (Pipeline _ _ _ _) as [s1 r] eqn:E.
    apply (Pipeline_frame _ _ _ k) in E; [|by repeat constructor]. rewrite <-E. by repeat case_match. }
  assert (Hpub : forall p s, view (XAddCognitiveBatch ctx now (ar_TenantID req) p
    (ResetCognitiveBatch ctx now (ar_TenantID req) (ar_SessionID req) s).1).1 !! k = view s !! k).
  { intros p s0. unfold XAddCognitiveBatch, ResetCognitiveBatch. destruct (Pipeline _ _ [DEL _; _] _) as [s1 r1] eqn:E1. cbn [fst].
    destruct (Pipeline _ _ [XADD _ _ _] s1) as [s2 r2] eqn:E2. cbn [fst].
    apply (Pipeline_frame _ _ _ k) in E1; [|by repeat constructor]. apply (Pipeline_frame _ _ _ k) in E2; [|by repeat constructor].
    by rewrite E2. }
  specialize (Hinc s). case_decide.
  - destruct (IncrementCognitiveBatch _ _ _ _ _) as [s1 [c|e]]; [|done]. case_match; [|done].
    rewrite <-Hinc. simpl. specialize (Hpub (mkBatchPayload (ar_TenantID req) (ar_UserID req) (ar_SessionID req) (int64 (c * 2)) id) s1).
    by destruct (ResetCognitiveBatch _ _ _ _ s1).
  - case_match; [|done]. specialize (Hpub (mkBatchPayload (ar_TenantID req) (ar_UserID req) (ar_SessionID req) (int64 (0 * 2)) id) s).
    by destruct (ResetCognitiveBatch _ _ _ _ s).
Qed.

(** C23: POST /v1/messages answers 200 exactly for an acceptable request whose
    content PostgreSQL can hold (UTF-8 without U+0000) and whose new id is
    unused, and has then stored one message, with the request's ids, role and
    content, creating its session when there is none; a refused request (400)
    changes neither store, and a failed insertion (500: such a content, or a
    used id) stores no message and leaves the cache alone, though it creates the
    session.  None of this depends on what Redis does. *)
Theorem handleAppendMessages_spec B e body d s : live (e_ctx e) ->
  let '((d', s'), r) := handleAppendMessages B e body (d, s) in
  (status r = StatusBadRequest <-> forall req t u ss, body = Some req -> ~ acceptable req t u ss) /\
  (status r = StatusBadRequest -> d' = d /\ s' = s) /\
  forall req t u ss, body = Some req -> acceptable req t u ss ->
    let msg := new_message e t u ss req in
    let accepted := storable (ar_Content req) /\ e_new_id e ∉ msg_ID ∘ m_msg <$> messages d in
    sessions d' = sessions d ++ (if decide (has_session ss d) then [] else [auto_session msg (e_db_now e)]) /\
    (accepted -> r = mkResponse StatusOK (BAppended (e_new_id e)) /\ messages d' = messages d ++ [message_row msg (e_db_now e)]) /\
    (~ accepted -> status r = StatusInternalServerError /\ messages d' = messages d /\ s' = s).
Proof.
  intros Hlive. destruct body as [req|]; [|by split_and!].
  destruct (handleAppendMessages_checks B e req d s) as [(m & E & Hno)|(t & u & ss & Hacc & E)]; rewrite E; clear E.
  { cbv zeta. split_and!; try done; try naive_solver. }
  pose proof Hacc as (_ & _ & _ & _ & Hrole & _ & Ht & _ & _).
  pose proof (InsertMessage_effect (e_ctx e) (new_message e t u ss req) (e_db_now e) d Hlive (Parse_canonical _ _ Ht)) as Hins.
  cbv zeta. unfold withTenant. change (msg_TenantID (new_message e t u ss req)) with t in Hins.
  destruct (InsertMessage _ _ _ _) as [d1 r1]. cbv zeta in Hins. destruct Hins as (Hok & Hm & Hs & _).
  assert (Hacc_iff : accepted (new_message e t u ss req) d <->
    storable (ar_Content req) /\ e_new_id e ∉ msg_ID ∘ m_msg <$> messages d) by (unfold accepted; simpl; tauto).
  assert (Hsame : forall t' u' ss', acceptable req t' u' ss' -> t' = t /\ u' = u /\ ss' = ss)
    by (unfold acceptable in *; naive_solver congruence).
  destruct r1 as [[]|err].
  - assert (Hf : accepted (new_message e t u ss req) d) by by apply Hok.
    split_and!; [split; [done|by intros Hno; destruct (Hno req t u ss)]|done|].
    intros ? t' u' ss' [= <-] Ha. destruct (Hsame _ _ _ Ha) as (-> & -> & ->). split_and!; [done| |].
    + intros _. split; [done|]. by rewrite Hm, decide_True by done.
    + intros Hn. destruct (Hn (proj1 Hacc_iff Hf)).
  - assert (Hf : ~ accepted (new_message e t u ss req) d) by (intros Hf; by specialize (proj2 Hok Hf)).
    split_and!; [split; [done|by intros Hno; destruct (Hno req t u ss)]|done|].
    intros ? t' u' ss' [= <-] Ha. destruct (Hsame _ _ _ Ha) as (-> & -> & ->). split_and!; [done|by intros Hn%Hacc_iff|].
    intros _. split_and!; [done| |done]. rewrite Hm, decide_False by done. apply app_nil_r.
Qed.

(** The first message of a session whose list is not cached is cached
    twice: the handler inserts it, the cache then loads the newest 50 messages
    of the database, which start with it, and pushes it again on top. *)
Theorem handleAppendMessages_cold_duplicate B e req d s u : reliable -> live (e_ctx e) ->
  let t := ar_TenantID req in let ss := ar_SessionID req in
  canonical t -> canonical ss -> acceptable req t u ss -> storable (ar_Content req) -> e_new_id e ∉ msg_ID ∘ m_msg <$> messages d ->
  get_value (e_now e) (msgs_key t ss) (view s) = None ->
  distinct_times (session_messages t ss d) ->
  Forall (fun m => msg_CreatedAt m < e_db_now e) (session_messages t ss d) ->
  let '((_, s'), _) := handleAppendMessages B e (Some req) (d, s) in
  let msg := new_message e t u ss req in
  let stored := m_msg (message_row msg (e_db_now e)) in
  msg_ID stored = msg_ID msg /\
  get_value (e_now e) (msgs_key t ss) (view s') =
    Some (VList (take 50 (msg :: take 50 (stored :: history t ss d)))).
Proof.
  intros Hrel Hlive t ss Ht Hss Hacc Htext Hfresh Hcold Hdist Hnew.
  destruct (handleAppendMessages_checks B e req d s) as [(m & _ & Hno)|(t' & u' & ss' & Hacc' & E)]; [by destruct (Hno t u ss)|].
  rewrite E. clear E. unfold acceptable in Hacc, Hacc'.
  assert (t' = t /\ u' = u /\ ss' = ss) as (-> & -> & ->) by naive_solver congruence. clear Hacc'.
  cbv zeta. unfold withTenant. pose proof (InsertMessage_Ok (e_ctx e) (new_message e t u ss req) (e_db_now e) d Hlive Ht) as Hins.
  simpl msg_TenantID in Hins. rewrite Hins by (unfold accepted; simpl; naive_solver). clear Hins. cbv beta iota zeta.
  split; [done|]. set (msg := new_message e t u ss req). set (d1 := set_messages _ _).
  unfold get_value, lookup_key. pose proof (msgs_key_apart t ss (canonical_no_colon _ Ht)) as (Hk1 & Hk2 & Hk3).
  rewrite trigger_batch_frame by done.
  rewrite AppendMessages_cold by done. unfold alive. cbn [snd mbind option_bind fmap option_fmap option_map fst].
  rewrite (proj2 (Z.ltb_lt _ _)) by (assert (0 < hour) by done; lia). cbn [fst fmap option_fmap option_map].
  unfold d1. by rewrite (history_insert t ss d msg).
Qed.

(** *** Batching *)

Fixpoint handle_all (B : Z) (l : list (env * AppendRequest)) (st : state) : state * list response :=
  match l with
  | [] => (st, [])
  | (e, req) :: l =>
    let '(st1, r) := handleAppendMessages B e (Some req) st in
    let '(st2, rs) := handle_all B l st1 in (st2, r :: rs)
  end.

(** The counter reads [c] for a day from [now]. *)
Definition counts (now : time) (t s : string) (ks : keyspace) (c : Z) : Prop :=
  forall now', now <= now' < now + day -> counter now' t s ks = Some c.

(** Each message comes within a day of the one before. *)
Fixpoint spaced (now : time) (l : list (env * AppendRequest)) : Prop :=
  match l with
  | [] => True
  | (e, _) :: l => now <= e_now e < now + day /\ spaced (e_now e) l
  end.

(** A live request with a user message of session [s]. *)
Definition user_turn (t s : string) (x : env * AppendRequest) : Prop :=
  live (e_ctx x.1) /\ ar_TenantID x.2 = t /\ ar_SessionID x.2 = s /\ ar_Role x.2 = "user"%string.

Definition batch_job (t s : string) (B : Z) (x : env * AppendRequest) : job :=
  mkJob (mkBatchPayload t (ar_UserID x.2) s (B * 2) (e_new_id x.1)) "0".

Lemma counts_of_lookup now t s ks c : ks !! cog_key t s = Some (VInt c, Some (now + day)) -> counts now t s ks c.
Proof. intros E now' Hn. unfold counter, get_value, lookup_key. rewrite E. unfold alive. simpl. by rewrite (proj2 (Z.ltb_lt _ _)) by lia. Qed.

Lemma counts_of_absent now t s ks : ks !! cog_key t s = None -> counts now t s ks 0.
Proof. intros E now' Hn. unfold counter, get_value, lookup_key. by rewrite E. Qed.

Lemma handle_user_turn B x d st now c a js t s : reliable -> canonical t -> user_turn t s x ->
  0 <= c < B -> B < 2 ^ 62 -> counts now t s (view st) c -> now <= e_now x.1 < now + day ->
  active (view st) = Some a -> jobs t (view st) = Some js -> Z.of_nat (length js) < 10000 ->
  let '((_, st'), r) := handleAppendMessages B x.1 (Some x.2) (d, st) in
  status r = StatusOK ->
  counts (e_now x.1) t s (view st') (if c + 1 =? B then 0 else c + 1) /\
  is_Some (active (view st')) /\
  jobs t (view st') = Some (js ++ if c + 1 =? B then [batch_job t s B x] else []).
Proof.
  destruct x as [e req]. cbn [fst snd]. intros Hrel Ht (Hlive & <- & <- & Hrole) Hc HB Hcount Hnow Ha Hj Hlen. cbn [fst snd] in *.
  destruct (handleAppendMessages_checks B e req d st) as [(m & -> & _)|(t' & u & ss & _ & ->)]; [done|].
  cbv zeta. destruct (InsertMessage _ _ _ _) as [d1 [[]|err]]; [intros _|done].
  set (t := ar_TenantID req) in *. set (s := ar_SessionID req) in *.
  pose proof (canonical_no_colon _ Ht) as Hcol. pose proof (msgs_key_apart t s Hcol) as (Hk1 & Hk2 & Hk3).
  match goal with |- context [trigger_batch B _ _ _ ?i (AppendMessages ?c ?n ?d ?t ?s ?l ?st).1] =>
    set (id := i); set (st1 := (AppendMessages c n d t s l st).1); pose proof (fun k => AppendMessages_frame c n d t s l st k) as Hf end.
  fold st1 in Hf. change (msg_ID _) with (e_new_id e) in id.
  specialize (Hcount (e_now e) Hnow).
  rewrite <-(counter_frame (e_now e) t s (view st) (view st1)) in Hcount by by apply Hf.
  rewrite <-(active_frame (view st) (view st1)) in Ha by by apply Hf.
  rewrite <-(jobs_frame t (view st) (view st1)) in Hj by by apply Hf. clearbody st1. clear Hf.
  unfold trigger_batch. rewrite decide_True by done. fold t s.
  destruct (IncrementCognitiveBatch_run (withTenant e t') (e_now e) t s st1 c a Hrel Hlive Hcol Hcount ltac:(lia) Ha)
    as (st2 & -> & Hcog & Ha2 & Hf2).
  pose proof (jobs_frame t (view st1) (view st2)) as Hj2. rewrite Hj in Hj2.
  assert (Hsk : stream_key t <> cog_key t s) by by apply stream_key_sess.
  assert (Hsk' : stream_key t <> active_key) by by apply stream_key_active.
  specialize (Hj2 ltac:(by apply Hf2)).
  destruct (Z.eqb_spec (c + 1) B) as [HcB|HcB].
  - rewrite (proj2 (Z.leb_le _ _)) by lia.
    match goal with |- context [XAddCognitiveBatch ?x _ _ ?p _] =>
      pose proof (publish_run x (e_now e) t s p st2 _ js Hrel Hlive Hcol Ha2 Hj2 Hlen) as Hp end.
    cbv zeta in Hp. destruct (ResetCognitiveBatch _ _ t s st2) as [st3 r3]. cbn [fst] in Hp.
    destruct Hp as (Hp1 & Hp2 & Hp3 & _). split_and!; [by apply counts_of_absent|by rewrite Hp2|].
    rewrite Hp3. unfold batch_job. cbn [fst snd]. rewrite <-HcB, int64_small by lia. done.
  - rewrite (proj2 (Z.leb_gt _ _)) by lia. split_and!; [by apply counts_of_lookup|by rewrite Ha2|by rewrite app_nil_r].
Qed.

(** C11: with CognitiveBatch = B, user messages of a session accepted one after
    the other, each within a day of the one before, publish one job for every
    B of them: after n messages on a counter at c, (c + n) / B jobs have been
    added to the tenant's stream, the k-th anchored on the message that filled
    the batch and asking for 2 B messages, and the counter is (c + n) mod B. *)
Theorem batching B t s l d st now c a js : reliable -> canonical t -> Forall (user_turn t s) l ->
  0 <= c < B -> B < 2 ^ 62 -> counts now t s (view st) c -> spaced now l ->
  active (view st) = Some a -> jobs t (view st) = Some js -> Z.of_nat (length js + length l) <= 10000 ->
  let '((_, st'), rs) := handle_all B l (d, st) in
  Forall (fun r => status r = StatusOK) rs ->
  counts (from_option (fun x => e_now x.1) now (last l)) t s (view st') ((c + Z.of_nat (length l)) mod B) /\
  exists new, jobs t (view st') = Some (js ++ new) /\
    Z.of_nat (length new) = (c + Z.of_nat (length l)) / B /\
    forall k j, new !! k = Some j ->
      exists x, l !! Z.to_nat (Z.of_nat (S k) * B - c - 1) = Some x /\ j = batch_job t s B x.
Proof.
  intros Hrel Ht Hl. revert d st now c a js. induction Hl as [|x l Hx Hl IH]; intros d st now c a js Hc HB Hcount Hsp Ha Hj Hlen.
  { intros _. simpl. rewrite Z.add_0_r, Z.mod_small, Z.div_small by done. split; [done|]. exists []. by rewrite app_nil_r. }
  destruct x as [e req]. cbn [spaced] in Hsp. destruct Hsp as [Hnow Hsp].
  cbn [length] in *. pose proof (handle_user_turn B (e, req) d st now c a js t s Hrel Ht Hx Hc HB Hcount Hnow Ha Hj ltac:(lia)) as Hstep.
  cbn [handle_all fst snd] in *. destruct (handleAppendMessages B e (Some req) (d, st)) as [[d1 st1] r].
  set (c1 := if c + 1 =? B then 0 else c + 1) in *. set (nj := if c + 1 =? B then [batch_job t s B (e, req)] else []) in *.
  destruct (handle_all B l (d1, st1)) as [[d2 st2] rs] eqn:E. intros [Hr Hrs]%Forall_cons.
  destruct (Hstep Hr) as (Hcount1 & [a1 Ha1] & Hj1).
  assert (Hc1 : 0 <= c1 < B) by (unfold c1; destruct (Z.eqb_spec (c + 1) B); lia).
  assert (Hnj : (length nj <= 1)%nat) by (unfold nj; case_match; simpl; lia).
  specialize (IH d1 st1 (e_now e) c1 a1 (js ++ nj) Hc1 HB Hcount1 Hsp Ha1 Hj1 ltac:(rewrite length_app; lia)).
  rewrite E in IH. destruct (IH Hrs) as (Hfinal & new & Hjobs & Hnew & Hall). clear IH E.
  assert (Hsum : c + Z.of_nat (S (length l)) = c1 + Z.of_nat (length l) + Z.of_nat (length nj) * B).
  { unfold c1, nj. destruct (Z.eqb_spec (c + 1) B); simpl; lia. }
  split.
  - rewrite last_cons. rewrite Hsum, Z.mod_add by lia. by destruct (last l).
  - exists (nj ++ new). split; [by rewrite (assoc_L (++))|]. split.
    { rewrite length_app, Hsum, Z.div_add by lia. lia. }
    intros k j Hk. unfold nj, c1 in *. destruct (Z.eqb_spec (c + 1) B) as [HcB|HcB]; simpl in Hk.
    + destruct k as [|k]; simpl in Hk.
      * injection Hk as <-. exists (e, req). by replace (Z.to_nat _) with 0%nat by lia.
      * destruct (Hall k j Hk) as (y & Hy & ->). exists y. split; [|done].
        replace (Z.to_nat (Z.of_nat (S (S k)) * B - c - 1)) with (S (Z.to_nat (Z.of_nat (S k) * B - 0 - 1))) by lia. done.
    + destruct (Hall k j Hk) as (y & Hy & ->). exists y. split; [|done].
      replace (Z.to_nat (Z.of_nat (S k) * B - c - 1)) with (S (Z.to_nat (Z.of_nat (S k) * B - (c + 1) - 1))) by nia. done.
Qed.

(** *** Reading a history *)

Lemma query_int_ok q ok dflt : ok dflt = true -> ok (query_int q ok dflt) = true.
Proof. intros Hd. unfold query_int. case_decide; [done|]. destruct (Atoi q) as [v|]; [|done]. by destruct (ok v) eqn:E. Qed.

(** The first page the API returns is the newest messages of the session,
    and [has_more], with the oldest one's id as the cursor, says that the page
    is full.  A limit above 100 is answered with a page of 50 that never has
    more, whatever the length of the session. *)
Theorem handleGetSessionHistory_page e t s q d st : live (e_ctx e) -> canonical t -> canonical s ->
  Forall (fun m => canonical (msg_ID m)) (history t s d) ->
  let limit := query_int q (fun v => 0 <? v) 50 in
  let page := take (if 100 <? limit then 50 else Z.to_nat limit) (history t s d) in
  exists tokens cursor more,
    handleGetSessionHistory e s t q EmptyString (d, st) =
      mkResponse StatusOK (BHistory page (Z.of_nat (length page)) tokens cursor more) /\
    (more = true <-> limit <= 100 /\ limit <= Z.of_nat (length (history t s d))) /\
    (if more then msg_ID <$> last page = Some cursor else cursor = EmptyString).
Proof.
  intros Hlive Ht Hs Hids limit page.
  assert (Hpos : 0 < limit) by (apply Z.ltb_lt; by apply (query_int_ok q (fun v => 0 <? v))).
  unfold handleGetSessionHistory. rewrite Hs, Ht. cbn [negb andb bool_decide]. fold limit.
  unfold withTenant. rewrite GetSessionHistory_first by done.
  assert (Hpage : limit_rows (clamp_limit limit) (history t s d) = page).
  { unfold page, limit_rows, clamp_limit. rewrite (proj2 (Z.leb_gt _ _)) by done. by destruct (100 <? limit). }
  change (fst (d, st)) with d. rewrite Hpage. cbv zeta.
  rewrite (bool_decide_true (EmptyString = EmptyString)) by done. cbn [negb andb].
  assert (Hlast : forall m, last page = Some m -> msg_ID m <> EmptyString).
  { intros m Hm. apply canonical_not_empty. apply last_Some_elem_of in Hm.
    rewrite Forall_forall in Hids. apply Hids. unfold page in Hm. by eapply elem_of_take in Hm as (i & Hi & _); eapply list_elem_of_lookup_2. }
  assert (Hfull : Z.of_nat (length page) = limit <-> limit <= 100 /\ limit <= Z.of_nat (length (history t s d))).
  { unfold page. rewrite length_take. destruct (Z.ltb_spec 100 limit); lia. }
  destruct (Z.eqb_spec (Z.of_nat (length page)) limit) as [Heq|Hne].
  - destruct (last page) as [m|] eqn:E; [|apply last_None in E; rewrite E in Heq; simpl in Heq; lia].
    rewrite (bool_decide_false (msg_ID m = EmptyString)) by by apply Hlast.
    eexists _, _, true. split; [done|]. split; [tauto|done].
  - eexists _, _, false. rewrite bool_decide_true by done. split; [done|]. split; [|done]. split; [done|tauto].
Qed.
End HandlerProperties.

(** ** Examples *)

Module RestSample.
#[local] Existing Instances toy_uuid merge_order_by toy_search.
#[local] Instance server : Redis := local_redis true.

Definition at_ (now : time) (id : uuid) : env := mkEnv Background now (now + 1) id.
Definition said (content : string) : AppendRequest := mkAppendRequest "t" "u" "s" "user" content.
Definition db : DB :=
  mkDB [mkSessionRow "s" "t" "u" (Some "chat"%string) "{}" 1 1]
       [mkMessageRow (mkMessage "m1" "t" "s" "u" "user" "hi" 1 1) None;
        mkMessageRow (mkMessage "m2" "t" "s" "u" "user" "hi" 1 2) None] [] [] [] [].
Definition cold : store := (∅ : gmap string (value * option time)).

Lemma said_acceptable c : c <> EmptyString -> len c <= 100 -> acceptable (said c) "t" "u" "s".
Proof. intros Hc Hl. unfold acceptable, MaxContentLength. split_and!; try done; [by left|simpl; lia]. Qed.

(** What the JSON text "\u0000" decodes to. *)
Definition nul : string := String "000"%char EmptyString.

Lemma handleAppendMessages_spec_witness :
  (exists d' s', handleAppendMessages 2 (at_ 9 "m3") (Some (said "hello")) (db, cold) =
    ((d', s'), mkResponse StatusOK (BAppended "m3")) /\ length (messages d') = 3%nat) /\
  status (handleAppendMessages 2 (at_ 9 "m3") (Some (said nul)) (db, cold)).2 = StatusInternalServerError.
Proof.
  split.
  - pose proof (handleAppendMessages_spec 2 (at_ 9 "m3") (Some (said "hello")) db cold eq_refl) as Hspec.
    destruct (handleAppendMessages 2 (at_ 9 "m3") (Some (said "hello")) (db, cold)) as [[d' s'] r].
    cbv zeta in Hspec. destruct Hspec as (_ & _ & Hok).
    destruct (Hok (said "hello") "t" "u" "s" eq_refl) as (_ & Hf & _); [apply said_acceptable; [discriminate|vm_compute; discriminate]|].
    destruct Hf as [-> Hm]; [apply (bool_decide_unpack _); vm_compute; exact I|]. exists d', s'. split; [reflexivity|]. rewrite Hm. reflexivity.
  - pose proof (handleAppendMessages_spec 2 (at_ 9 "m3") (Some (said nul)) db cold eq_refl) as Hspec.
    destruct (handleAppendMessages 2 (at_ 9 "m3") (Some (said nul)) (db, cold)) as [[d' s'] r].
    cbv zeta in Hspec. destruct Hspec as (_ & _ & Hok).
    destruct (Hok (said nul) "t" "u" "s" eq_refl) as (_ & _ & Hf); [apply said_acceptable; [discriminate|vm_compute; discriminate]|].
    apply Hf, (bool_decide_unpack _). vm_compute. exact I.
Defined.

Lemma handleAppendMessages_cold_duplicate_witness :
  exists d' s' r l, handleAppendMessages 2 (at_ 9 "m3") (Some (said "hello")) (db, cold) = ((d', s'), r) /\
    get_value 9 (msgs_key "t" "s") (view s') = Some (VList l) /\ msg_ID <$> l = ["m3"; "m3"; "m2"; "m1"]%string.
Proof.
  pose proof (handleAppendMessages_cold_duplicate 2 (at_ 9 "m3") (said "hello") db cold "u") as Hdup.
  destruct (handleAppendMessages 2 (at_ 9 "m3") (Some (said "hello")) (db, cold)) as [[d' s'] r].
  destruct Hdup as [_ Hl]; [apply CacheSample.server_reliable|reflexivity|reflexivity|reflexivity| | | | | | |].
  - apply said_acceptable; [discriminate|vm_compute; discriminate].
  - by apply plain_storable.
  - vm_compute. set_solver.
  - reflexivity.
  - vm_compute. repeat constructor; set_solver.
  - vm_compute. repeat constructor.
  - eexists d', s', r, _. split; [reflexivity|]. split; [exact Hl|vm_compute; reflexivity].
Defined.

Definition turns : list (env * AppendRequest) :=
  [(at_ 10 "m3", said "one"); (at_ 20 "m4", said "two"); (at_ 30 "m5", said "three")].

Lemma batching_witness :
  exists d' s' rs last_job, handle_all 2 turns (db, cold) = ((d', s'), rs) /\
    jobs "t" (view s') = Some [last_job] /\ bp_LastMessageID (job_payload last_job) = "m4"%string.
Proof.
  pose proof (batching 2 "t" "s" turns db cold 9 0 [] []) as Hb.
  assert (Hrs : Forall (fun r => status r = StatusOK) (handle_all 2 turns (db, cold)).2) by (vm_compute; repeat constructor).
  destruct (handle_all 2 turns (db, cold)) as [[d' s'] rs].
  destruct Hb as (_ & new & Hj & Hlen & Hall);
    [apply CacheSample.server_reliable|reflexivity|repeat constructor|lia|reflexivity|intros now' _; reflexivity|
     vm_compute; repeat split; discriminate|reflexivity|reflexivity|vm_compute; discriminate|exact Hrs|].
  destruct new as [|j [|j' new]]; [discriminate Hlen| |cbn [length] in Hlen; change (_ / 2) with 1 in Hlen; lia].
  destruct (Hall 0%nat j eq_refl) as (x & Hx & ->).
  exists d', s', rs, (batch_job "t" "s" 2 x). split; [reflexivity|]. split; [exact Hj|].
  injection Hx as <-. reflexivity.
Defined.

Lemma handleGetSessionHistory_page_witness :
  exists tokens cursor, handleGetSessionHistory (at_ 9 "x") "s" "t" "200" EmptyString (db, cold) =
    mkResponse StatusOK (BHistory (take 50 (history "t" "s" db)) 2 tokens cursor false).
Proof.
  destruct (handleGetSessionHistory_page (at_ 9 "x") "t" "s" "200" db cold) as (tokens & cursor & more & E & Hmore & _);
    [reflexivity|reflexivity|reflexivity|vm_compute; repeat constructor|].
  exists tokens, cursor. rewrite E. destruct more; [|reflexivity].
  destruct (proj1 Hmore eq_refl) as [Hle _]. vm_compute in Hle. by destruct Hle.
Defined.
End RestSample.
