(* ===== verification/Flusher.v ===== *)
(** The flusher ([internal/worker/flusher.go]): once a minute one process looks
    for sessions without a message for half an hour and publishes a batch job
    for the messages their counters still hold back. *)
From Stdlib Require Import Ascii String.
From S2P Require Import Prelude GoStd GoStrings Float64 Model Db MessageRepo Redis Cache.

Local Open Scope Z_scope.

Definition lockKey : string := "lock:flusher_worker".
Definition lockTTL : time := 50 * second.

Section Flusher.
Context `{UuidLib, OrderBy, PgSearch, Redis}.

Definition flushSession (ctx : context) (now : time) (d : DB) (tenantID sessionID : string) (count : Z) (st : store) : store :=
  let ctx := WithTenantID ctx tenantID in
  match GetSessionHistory ctx tenantID sessionID 1 EmptyString d with
  | Err _ | Ok [] => (RemoveSessionActivity ctx now tenantID sessionID st).1
  | Ok (m :: _) =>
    let '(st1, _) := ResetCognitiveBatch ctx now tenantID sessionID st in
    let p := mkBatchPayload tenantID (msg_UserID m) sessionID (int64 (count * 2)) (msg_ID m) in
    (XAddCognitiveBatch ctx now tenantID p st1).1
  end.

(** The body of the loop over the inactive members. *)
Definition flush_member (ctx : context) (now : time) (d : DB) (st : store) (member : string) : store :=
  match Split member ":" with
  | [tenantID; sessionID] =>
    match GetCognitiveBatchCount ctx now tenantID sessionID st with
    | (st1, Err _) => st1
    | (st1, Ok count) =>
      if count =? 0 then (RemoveSessionActivity ctx now tenantID sessionID st1).1
      else flushSession ctx now d tenantID sessionID count st1
    end
  | _ => st
  end.

Definition runFlushCycle (now olderThan : time) (d : DB) (st : store) : store :=
  let ctx := Background in
  match TryLock ctx now lockKey lockTTL st with
  | (st1, Ok true) =>
    match GetInactiveSessions ctx now olderThan 100 st1 with
    | (st2, Err _) => st2
    | (st2, Ok inactiveMembers) => foldl (flush_member ctx now d) st2 inactiveMembers
    end
  | (st1, _) => st1
  end.

(** The worker's loop: a tick with the time and the database it finds, or
    [Stop]. *)
Inductive flusher_event := Tick (now : time) (d : DB) | Stop.

Fixpoint Start (olderThan : time) (events : list flusher_event) (st : store) : store :=
  match events with
  | Tick now d :: events => Start olderThan events (runFlushCycle now olderThan d st)
  | Stop :: _ | [] => st
  end.
End Flusher.

(** ** Keys *)

Lemma Split_member t s : no_byte ":" t -> no_byte ":" s -> Split (member t s) ":" = [t; s].
Proof. intros Ht Hs. unfold member. change (":" +:+ s) with (String ":" s). by rewrite Split_app, Split_no_sep. Qed.

Lemma Split_two x t s : Split x ":" = [t; s] -> x = member t s /\ no_byte ":" t /\ no_byte ":" s.
Proof.
  revert t. induction x as [|c x IH]; intros t; simpl; [done|]. case_decide as Hc.
  - intros [= <- E]. assert (Hs : x = s /\ no_byte ":" s).
    { clear -E. revert s E. induction x as [|c x IH]; intros s; simpl; [intros [= <-]; split; [done|constructor]|].
      case_decide as Hc; [intros [= _ E]; by apply Split_not_nil in E|].
      destruct (Split x ":") as [|w ws] eqn:Ex; [by apply Split_not_nil in Ex|]. intros [= <- ->].
      destruct (IH w eq_refl) as [-> Hw]. split; [done|]. constructor; done. }
    destruct Hs as [-> Hs]. subst c. split_and!; [done|constructor|done].
  - destruct (Split x ":") as [|w ws] eqn:Ex; [by apply Split_not_nil in Ex|]. intros [= <- ->].
    destruct (IH w eq_refl) as (-> & Hw & Hs). split_and!; [done| |done]. constructor; done.
Qed.

Lemma string_app_inj_r a b c : a +:+ c = b +:+ c -> a = b.
Proof.
  intros E. apply (f_equal list_ascii_of_string) in E. rewrite !list_ascii_app in E.
  apply app_inj_2 in E as [E _]; [|done].
  apply (f_equal string_of_list_ascii) in E. by rewrite !string_of_list_ascii_of_string in E.
Qed.

Lemma cog_key_inj t s t' s' : no_byte ":" t -> no_byte ":" t' -> cog_key t s = cog_key t' s' -> t = t' /\ s = s'.
Proof.
  intros Ht Ht' E.
  change (t +:+ String ":" ("sess:" +:+ s +:+ ":cog_batch") = t' +:+ String ":" ("sess:" +:+ s' +:+ ":cog_batch")) in E.
  apply app_sep_inj in E as [-> E]; [|done|done]. split; [done|].
  injection E as E. by apply string_app_inj_r in E.
Qed.

Lemma stream_key_inj t t' : no_byte ":" t -> no_byte ":" t' -> stream_key t = stream_key t' -> t = t'.
Proof.
  intros Ht Ht' E. change (t +:+ String ":" "stream:cognitive" = t' +:+ String ":" "stream:cognitive") in E.
  by apply app_sep_inj in E as [-> _].
Qed.

(** The keys of a session's batching state. *)
Definition batch_keys (t s : string) : list string := [cog_key t s; active_key; stream_key t].

Lemma lockKey_apart t s : no_byte ":" t -> lockKey ∉ batch_keys t s.
Proof.
  intros Ht. change lockKey with ("lock" +:+ String ":" "flusher_worker"). assert (Hl : no_byte ":" "lock") by by vm_compute; repeat constructor.
  unfold batch_keys. intros [E|[E|[E|[]%elem_of_nil]%elem_of_cons]%elem_of_cons]%elem_of_cons.
  - change (cog_key t s) with (t +:+ String ":" ("sess:" +:+ s +:+ ":cog_batch")) in E.
    by apply app_sep_inj in E as [_ E].
  - discriminate E.
  - change (stream_key t) with (t +:+ String ":" "stream:cognitive") in E. by apply app_sep_inj in E as [_ E].
Qed.

(** The lists of cached messages have keys of their own too. *)
Lemma msgs_key_not_lock t s : no_byte ":" t -> msgs_key t s <> lockKey.
Proof.
  intros Ht E. change (t +:+ String ":" ("sess:" +:+ s +:+ ":msgs") = "lock" +:+ String ":" "flusher_worker") in E.
  apply app_sep_inj in E as [_ E]; [discriminate|done|by vm_compute; repeat constructor].
Qed.
Lemma msgs_key_not_batch t s t' s' : no_byte ":" t -> no_byte ":" t' -> msgs_key t s ∉ batch_keys t' s'.
Proof.
  intros Ht Ht'. unfold batch_keys. intros [E|[E|[E|[]%elem_of_nil]%elem_of_cons]%elem_of_cons]%elem_of_cons.
  - symmetry in E. by apply cog_key_msgs in E.
  - by apply sess_key_active in E.
  - symmetry in E. by apply stream_key_sess in E.
Qed.

(** A tenant id in the urn form has its state under keys of its own. *)
Lemma urn_key_apart u r t s : no_byte ":" t -> cog_key ("urn:uuid:" +:+ u) r ∉ batch_keys t s.
Proof.
  intros Ht. unfold batch_keys. set (k := cog_key _ _). assert (Hk : k = "urn" +:+ String ":" ("uuid:" +:+ u +:+ ":sess:" +:+ r +:+ ":cog_batch")).
  { unfold k, cog_key. rewrite string_app_assoc. done. }
  assert (Hu : no_byte ":" "urn") by by vm_compute; repeat constructor.
  intros [E|[E|[E|[]%elem_of_nil]%elem_of_cons]%elem_of_cons]%elem_of_cons; rewrite Hk in E.
  - change (cog_key t s) with (t +:+ String ":" ("sess:" +:+ s +:+ ":cog_batch")) in E. by apply app_sep_inj in E as [_ E].
  - discriminate E.
  - change (stream_key t) with (t +:+ String ":" "stream:cognitive") in E. by apply app_sep_inj in E as [_ E].
Qed.

(** ** What a cycle leaves alone *)

Section FlusherFrame.
Context `{UuidLib, OrderBy, PgSearch, Redis}.

Lemma flush_member_frame ctx now d st x k : (forall t s, no_byte ":" t -> k ∉ batch_keys t s) ->
  view (flush_member ctx now d st x) !! k = view st !! k.
Proof.
  intros Hk. unfold flush_member. destruct (Split x ":") as [|t [|s [|? ?]]] eqn:Ex; try done.
  apply Split_two in Ex as (_ & Ht & _). specialize (Hk t s Ht). unfold batch_keys in Hk.
  apply not_elem_of_cons in Hk as [Hk1 Hk], Hk as [Hk2 Hk], Hk as [Hk3 _].
  assert (Hget : view (GetCognitiveBatchCount ctx now t s st).1 !! k = view st !! k).
  { unfold GetCognitiveBatchCount. destruct (Pipeline _ _ _ _) as [s1 r] eqn:E.
    apply (Pipeline_frame _ _ _ k) in E; [|by repeat constructor]. rewrite <-E. by repeat case_match. }
  assert (Hrem : forall ctx s1, view (RemoveSessionActivity ctx now t s s1).1 !! k = view s1 !! k).
  { intros ctx1 s1. unfold RemoveSessionActivity. destruct (Pipeline _ _ _ _) as [s2 r] eqn:E.
    by apply (Pipeline_frame _ _ _ k) in E; [|by repeat constructor]. }
  destruct (GetCognitiveBatchCount ctx now t s st) as [s1 [c|e]]; [|done]. cbn [fst] in Hget. rewrite <-Hget.
  destruct (c =? 0); [apply Hrem|]. unfold flushSession.
  destruct (GetSessionHistory _ _ _ _ _ _) as [[|m l]|e]; [apply Hrem| |apply Hrem].
  unfold ResetCognitiveBatch, XAddCognitiveBatch. destruct (Pipeline _ _ [DEL _; _] _) as [s2 r2] eqn:E2.
  destruct (Pipeline _ _ [XADD _ _ _] s2) as [s3 r3] eqn:E3. cbn [fst].
  apply (Pipeline_frame _ _ _ k) in E2; [|by repeat constructor]. apply (Pipeline_frame _ _ _ k) in E3; [|by repeat constructor].
  by rewrite E3.
Qed.

Lemma flush_members_frame ctx now d l st k : (forall t s, no_byte ":" t -> k ∉ batch_keys t s) ->
  view (foldl (flush_member ctx now d) st l) !! k = view st !! k.
Proof.
  intros Hk. revert st. induction l as [|x l IH]; intros st; [done|]. simpl. rewrite IH. by apply flush_member_frame.
Qed.

Lemma GetInactiveSessions_frame ctx now older limit st k : k <> active_key ->
  view (GetInactiveSessions ctx now older limit st).1 !! k = view st !! k.
Proof.
  intros Hk. unfold GetInactiveSessions. destruct (Pipeline _ _ _ _) as [s1 r] eqn:E.
  apply (Pipeline_frame _ _ _ k) in E; [|by repeat constructor]. rewrite <-E. by repeat case_match.
Qed.

Lemma runFlushCycle_frame now older d st k : (forall t s, no_byte ":" t -> k ∉ batch_keys t s) -> k <> lockKey ->
  view (runFlushCycle now older d st) !! k = view st !! k.
Proof.
  intros Hk Hlock. unfold runFlushCycle. assert (Hact : k <> active_key).
  { intros ->. apply (Hk EmptyString EmptyString); [constructor|]. unfold batch_keys. set_solver. }
  assert (Htry : view (TryLock Background now lockKey lockTTL st).1 !! k = view st !! k).
  { unfold TryLock. destruct (Pipeline _ _ _ _) as [s1 r] eqn:E.
    apply (Pipeline_frame _ _ _ k) in E; [|by repeat constructor]. rewrite <-E. by repeat case_match. }
  destruct (TryLock _ _ _ _ st) as [st1 [[]|e]]; [|done|done]. cbn [fst] in Htry. rewrite <-Htry.
  pose proof (GetInactiveSessions_frame Background now older 100 st1 k Hact) as Hin.
  destruct (GetInactiveSessions _ _ _ _ st1) as [st2 [l|e]]; [|done]. cbn [fst] in Hin. rewrite <-Hin.
  by apply flush_members_frame.
Qed.

(** The lock. *)
Lemma TryLock_free now st : reliable -> get_value now lockKey (view st) = None ->
  exists st1, TryLock Background now lockKey lockTTL st = (st1, Ok true) /\
    view st1 = <[lockKey := (VText "locked", Some (now + lockTTL))]> (view st).
Proof.
  intros Hrel Hfree. unfold TryLock. destruct (Pipeline_run now [SETNX lockKey "locked" lockTTL] st Hrel) as (st1 & E & Hv).
  cbn [run run1] in E, Hv. rewrite Hfree in E, Hv. exists st1. simpl ctx_Done. by rewrite E.
Qed.

Lemma TryLock_held now st v : get_value now lockKey (view st) = Some v ->
  view (TryLock Background now lockKey lockTTL st).1 = view st /\
  (TryLock Background now lockKey lockTTL st).2 <> Ok true.
Proof.
  intros Hheld. unfold TryLock, Pipeline. cbn [ctx_Done Background].
  destruct (exec now [SETNX lockKey "locked" lockTTL] st) as [st1 [rs|e]] eqn:E; cbn [fst snd].
  - apply exec_answered in E. cbn [run run1] in E. rewrite Hheld in E. injection E as Ev <-. by split.
  - apply exec_failed in E as [n ->]. destruct n as [|n]; [done|]. cbn [take run run1].
    destruct (take n []) eqn:En; [|by destruct n]. cbn [run run1]. by rewrite Hheld.
Qed.

(** A cycle that finds the lock free takes it. *)
Lemma runFlushCycle_lock now older d st : reliable -> get_value now lockKey (view st) = None ->
  view (runFlushCycle now older d st) !! lockKey = Some (VText "locked", Some (now + lockTTL)).
Proof.
  intros Hrel Hfree. unfold runFlushCycle. destruct (TryLock_free now st Hrel Hfree) as (st1 & -> & Hv).
  pose proof (GetInactiveSessions_frame Background now older 100 st1 lockKey ltac:(done)) as Hin.
  destruct (GetInactiveSessions _ _ _ _ st1) as [st2 [l|e]]; cbn [fst] in Hin.
  - rewrite flush_members_frame by exact lockKey_apart. by rewrite Hin, Hv, lookup_insert_eq.
  - by rewrite Hin, Hv, lookup_insert_eq.
Qed.

(** ** Properties *)

(** C26: only one flush cycle in 50 seconds does anything: after a cycle that
    found the lock free, a cycle any process starts before the lock expires
    leaves Redis as it is, whatever else has changed in between. *)
Theorem runFlushCycle_exclusive now older d st : reliable -> get_value now lockKey (view st) = None ->
  forall now' older' d' st', now <= now' < now + lockTTL ->
  view st' !! lockKey = view (runFlushCycle now older d st) !! lockKey ->
  view (runFlushCycle now' older' d' st') = view st'.
Proof.
  intros Hrel Hfree now' older' d' st' Hnow Hsame. pose proof (runFlushCycle_lock now older d st Hrel Hfree) as Hl.
  rewrite Hl in Hsame.
  destruct (TryLock_held now' st' (VText "locked")) as [Hv Hr].
  { unfold get_value, lookup_key. rewrite Hsame. simpl. unfold alive. simpl. by rewrite (proj2 (Z.ltb_lt _ _)) by lia. }
  unfold runFlushCycle. destruct (TryLock _ _ _ _ st') as [st1 [[]|e]]; [done|exact Hv|exact Hv].
Qed.

(** A session written to under a tenant id in the urn:uuid: form, which the
    API accepts, is out of the flusher's reach: no cycle touches its counter. *)
Theorem runFlushCycle_skips_urn u s now older d st :
  view (runFlushCycle now older d st) !! cog_key ("urn:uuid:" +:+ u) s = view st !! cog_key ("urn:uuid:" +:+ u) s.
Proof.
  apply runFlushCycle_frame; [intros; by apply urn_key_apart|].
  unfold cog_key. rewrite string_app_assoc. intros E.
  change ("urn" +:+ String ":" ("uuid:" +:+ u +:+ ":sess:" +:+ s +:+ ":cog_batch") = "lock" +:+ String ":" "flusher_worker") in E.
  discriminate E.
Qed.
End FlusherFrame.

(** ** What a cycle does *)

Section FlusherEffect.
Context `{UuidLib, OrderBy, PgSearch, Redis}.

(** The job for a session: none when nothing is pending or it has no message. *)
Definition flush_job (now : time) (d : DB) (t s : string) (ks : keyspace) : option job :=
  c ← counter now t s ks;
  if c =? 0 then None
  else m ← head (history t s d); Some (mkJob (mkBatchPayload t (msg_UserID m) s (int64 (c * 2)) (msg_ID m)) "0").

(** The counter afterwards: cleared, unless the session has no message. *)
Definition flushed (t s : string) (d : DB) (c : Z) : Z := if decide (history t s d = []) then c else 0.

Lemma GetCognitiveBatchCount_run ctx now t s st c : reliable -> live ctx -> counter now t s (view st) = Some c ->
  exists st', GetCognitiveBatchCount ctx now t s st = (st', Ok c) /\ view st' = view st.
Proof.
  intros Hrel Hlive Hc. unfold GetCognitiveBatchCount. rewrite Hlive.
  destruct (Pipeline_run now [GET (cog_key t s)] st Hrel) as (st' & E & Hv). exists st'. rewrite E. clear E.
  cbn [run run1] in *. unfold counter in Hc. destruct (get_value now (cog_key t s) (view st)) as [[]|]; by simplify_eq.
Qed.

Lemma RemoveSessionActivity_run ctx now t s st a : reliable -> live ctx -> active (view st) = Some a ->
  let st' := (RemoveSessionActivity ctx now t s st).1 in
  active (view st') = Some (zremove (member t s) a) /\ forall k, k <> active_key -> view st' !! k = view st !! k.
Proof.
  intros Hrel Hlive Ha st'. unfold st', RemoveSessionActivity. rewrite Hlive.
  destruct (Pipeline_run now [ZREM active_key (member t s)] st Hrel) as (st1 & E & Hv).
  destruct (run1_ZREM approx_trim now (member t s) (view st) a Ha) as (ks' & n & Hz & Ha').
  cbn [run] in E, Hv. rewrite Hz in E, Hv. cbn [fst snd] in Hv. rewrite E. cbn [fst]. rewrite Hv. split; [done|].
  intros k Hk. pose proof (run1_frame approx_trim now (ZREM active_key (member t s)) k (view st) ltac:(by apply not_eq_sym)) as Hf.
  by rewrite Hz in Hf.
Qed.

Lemma flush_member_run now d st t s c a js : reliable -> canonical t -> canonical s ->
  counter now t s (view st) = Some c -> active (view st) = Some a ->
  jobs t (view st) = Some js -> Z.of_nat (length js) < 10000 ->
  let st' := flush_member Background now d st (member t s) in
  active (view st') = Some (zremove (member t s) a) /\
  counter now t s (view st') = Some (flushed t s d c) /\
  jobs t (view st') = Some (js ++ option_list (flush_job now d t s (view st))) /\
  forall k, k ∉ batch_keys t s -> view st' !! k = view st !! k.
Proof.
  intros Hrel Ht Hs Hc Ha Hj Hlen st'. unfold st', flush_member. clear st'.
  pose proof (canonical_no_colon _ Ht) as Hct. pose proof (canonical_no_colon _ Hs) as Hcs. rewrite Split_member by done.
  assert (Hk1 : cog_key t s <> active_key) by by apply sess_key_active.
  assert (Hk3 : stream_key t <> active_key) by by apply stream_key_active.
  destruct (GetCognitiveBatchCount_run Background now t s st c Hrel eq_refl Hc) as (st1 & -> & Hv1).
  rewrite <-Hv1 in *. unfold flush_job. rewrite Hc. cbn [mbind option_bind].
  assert (Hremove : forall ctx, live ctx -> flushed t s d c = c -> let st' := (RemoveSessionActivity ctx now t s st1).1 in
    active (view st') = Some (zremove (member t s) a) /\ counter now t s (view st') = Some (flushed t s d c) /\
    jobs t (view st') = Some (js ++ []) /\ forall k, k ∉ batch_keys t s -> view st' !! k = view st1 !! k).
  { intros ctx Hlive -> st'. destruct (RemoveSessionActivity_run ctx now t s st1 a Hrel Hlive Ha) as [Ha' Hf].
    unfold st'. split_and!; [done| | |].
    - rewrite <-Hc. by apply counter_frame, Hf.
    - rewrite app_nil_r, <-Hj. by apply jobs_frame, Hf.
    - intros k Hk. apply Hf. unfold batch_keys in Hk. set_solver. }
  destruct (Z.eqb_spec c 0) as [->|Hc0]; [apply Hremove; [done|unfold flushed; by case_decide]|].
  unfold flushSession. rewrite GetSessionHistory_first by done.
  unfold limit_rows. change (Z.to_nat (clamp_limit 1)) with 1%nat. unfold flushed in *.
  destruct (history t s d) as [|m l] eqn:Eh; [apply Hremove; done|]. cbn [take head mbind option_bind].
  rewrite decide_False by done.
  match goal with |- context [XAddCognitiveBatch ?x _ _ ?p _] =>
    pose proof (publish_run x now t s p st1 a js Hrel eq_refl Hct Ha Hj Hlen) as Hp end.
  cbv zeta in Hp. destruct (ResetCognitiveBatch _ _ t s st1) as [st2 r2]. cbn [fst] in Hp.
  destruct Hp as (Hp1 & Hp2 & Hp3 & Hp4). split_and!; [done| |done|].
  - unfold counter, get_value, lookup_key. by rewrite Hp1.
  - intros k Hk. unfold batch_keys in Hk. apply Hp4; set_solver.
Qed.

Lemma cog_key_apart t s t' s' : no_byte ":" t -> no_byte ":" t' -> (t, s) <> (t', s') -> cog_key t s ∉ batch_keys t' s'.
Proof.
  intros Ht Ht' Hne. unfold batch_keys. intros [E|[E|[E|[]%elem_of_nil]%elem_of_cons]%elem_of_cons]%elem_of_cons.
  - apply cog_key_inj in E as [-> ->]; done.
  - by apply sess_key_active in E.
  - symmetry in E. by apply stream_key_sess in E.
Qed.

Lemma stream_key_apart t t' s' : no_byte ":" t -> no_byte ":" t' -> t <> t' -> stream_key t ∉ batch_keys t' s'.
Proof.
  intros Ht Ht' Hne. unfold batch_keys. intros [E|[E|[E|[]%elem_of_nil]%elem_of_cons]%elem_of_cons]%elem_of_cons.
  - by apply stream_key_sess in E.
  - by apply stream_key_active in E.
  - by apply stream_key_inj in E.
Qed.

Abbreviation member_of := (fun ts : string * string => member ts.1 ts.2).

(** A session the flusher can handle, in a stream with room for [n] more jobs. *)
Definition flushable (now : time) (n : nat) (ks : keyspace) (ts : string * string) : Prop :=
  canonical ts.1 /\ canonical ts.2 /\ is_Some (counter now ts.1 ts.2 ks) /\
  exists js, jobs ts.1 ks = Some js /\ Z.of_nat (length js + n) <= 10000.

(** The jobs for the sessions of tenant [t], in order. *)
Definition flush_jobs (now : time) (d : DB) (t : string) (ks : keyspace) (l : list (string * string)) : list job :=
  omap (fun ts => if decide (ts.1 = t) then flush_job now d t ts.2 ks else None) l.

Lemma flush_jobs_cons now d t ks t0 s0 l : flush_jobs now d t ks ((t0, s0) :: l) =
  (if decide (t0 = t) then option_list (flush_job now d t s0 ks) else []) ++ flush_jobs now d t ks l.
Proof. unfold flush_jobs. simpl. case_decide; [|done]. by destruct (flush_job now d t s0 ks). Qed.

Lemma flush_jobs_ext now d t ks ks' l :
  Forall (fun ts => counter now ts.1 ts.2 ks' = counter now ts.1 ts.2 ks) l ->
  flush_jobs now d t ks' l = flush_jobs now d t ks l.
Proof.
  intros Hl. induction Hl as [|[t' s'] l Hc _ IH]; [done|]. rewrite !flush_jobs_cons, IH. cbn [fst snd] in *.
  f_equal. case_decide; [|done]. subst t'. unfold flush_job. by rewrite Hc.
Qed.

Lemma flush_members_run now d l st a : reliable -> NoDup l -> active (view st) = Some a ->
  Forall (flushable now (length l) (view st)) l ->
  let st' := foldl (flush_member Background now d) st (member_of <$> l) in
  active (view st') = Some (List.filter (fun x => negb (bool_decide (x.1 ∈ member_of <$> l))) a) /\
  (forall t s c, (t, s) ∈ l -> counter now t s (view st) = Some c -> counter now t s (view st') = Some (flushed t s d c)) /\
  (forall t js, canonical t -> jobs t (view st) = Some js ->
     jobs t (view st') = Some (js ++ flush_jobs now d t (view st) l)) /\
  (forall t s, canonical t -> (t, s) ∉ l -> view st' !! cog_key t s = view st !! cog_key t s).
Proof.
  intros Hrel Hnd. revert st a. induction Hnd as [|[t0 s0] l Hni Hnd IH]; intros st a Ha Hall st'.
  { split_and!; [|set_solver| |done].
    - unfold st'. simpl. rewrite Ha. f_equal. symmetry. apply filter_all, Forall_forall. intros x _. by destruct x.
    - intros t js _ Hj. by rewrite app_nil_r. }
  apply Forall_cons in Hall as [(Ht0 & Hs0 & [c0 Hc0] & js0 & Hj0 & Hlen0) Hall]. cbn [fst snd length] in *.
  destruct (flush_member_run now d st t0 s0 c0 a js0 Hrel Ht0 Hs0 Hc0 Ha Hj0 ltac:(lia)) as (Ha1 & Hc1 & Hj1 & Hf1).
  unfold st'. rewrite fmap_cons. cbn [foldl fst snd].
  set (st1 := flush_member Background now d st (member t0 s0)) in *.
  pose proof (canonical_no_colon _ Ht0) as Hcol0.
  assert (Hcog : forall t s, canonical t -> (t, s) <> (t0, s0) -> view st1 !! cog_key t s = view st !! cog_key t s).
  { intros t s Ht Hne. apply Hf1, cog_key_apart; [by apply canonical_no_colon|done|done]. }
  assert (Hjobs : forall t js, canonical t -> jobs t (view st) = Some js -> jobs t (view st1) =
    Some (js ++ if decide (t0 = t) then option_list (flush_job now d t s0 (view st)) else [])).
  { intros t js Ht Hj. case_decide as Et; [subst t; congruence|]. rewrite app_nil_r, <-Hj.
    apply jobs_frame, Hf1, stream_key_apart; [by apply canonical_no_colon|done|by apply not_eq_sym]. }
  assert (Hother : Forall (fun ts => counter now ts.1 ts.2 (view st1) = counter now ts.1 ts.2 (view st)) l).
  { rewrite Forall_forall in *. intros [t s] Hts. destruct (Hall _ Hts) as (Ht & _). apply counter_frame, Hcog; [done|]. intros E. apply Hni. by rewrite <-E. }
  specialize (IH st1 _ Ha1). destruct IH as (Ha2 & Hc2 & Hj2 & Hf2).
  { rewrite Forall_forall in *. intros [t s] Hts. destruct (Hall _ Hts) as (Ht & Hs & Hc & js & Hj & Hlen). specialize (Hother _ Hts).
    unfold flushable. cbn [fst snd] in *. split_and!; [done|done|by rewrite Hother|]. eexists. split; [by apply Hjobs|].
    rewrite length_app. assert (length (if decide (t0 = t) then option_list (flush_job now d t s0 (view st)) else []) <= 1)%nat; [|lia].
    case_decide; [|apply Nat.le_0_l]. destruct (flush_job now d t s0 (view st)); [apply Nat.le_refl|apply Nat.le_0_l]. }
  split_and!.
  - rewrite Ha2. f_equal. unfold zremove. rewrite filter_filter_and. apply List.filter_ext. intros x.
    rewrite <-negb_orb. f_equal. apply eq_bool_prop_intro. rewrite orb_True, !bool_decide_spec. by rewrite elem_of_cons.
  - intros t s c [[= -> ->]|Hts]%elem_of_cons Hc.
    + rewrite Hc0 in Hc. injection Hc as <-. rewrite (counter_frame now t0 s0 (view st1)) by (by apply Hf2). exact Hc1.
    + apply Hc2; [done|]. rewrite Forall_forall in Hother. specialize (Hother _ Hts). cbn [fst snd] in Hother. by rewrite Hother.
  - intros t js Ht Hj. rewrite (Hj2 t _ Ht (Hjobs t js Ht Hj)), <-(assoc_L (++)). do 2 f_equal.
    rewrite (flush_jobs_ext now d t _ _ l Hother). by rewrite flush_jobs_cons.
  - intros t s Ht [Hne Hl]%not_elem_of_cons. rewrite Hf2 by done. by apply Hcog.
Qed.

Lemma GetInactiveSessions_run ctx now older limit st a : reliable -> live ctx -> 0 <= limit -> active (view st) = Some a ->
  exists st', GetInactiveSessions ctx now older limit st =
    (st', Ok (take (Z.to_nat limit) (List.filter (fun x => x.2 <=? unix (now - older)) a).*1)) /\ view st' = view st.
Proof.
  intros Hrel Hlive Hlim Ha. unfold GetInactiveSessions. rewrite Hlive.
  destruct (Pipeline_run now [ZRANGEBYSCORE active_key (unix (now - older)) 0 limit] st Hrel) as (st' & E & Hv). exists st'.
  rewrite E. clear E. cbn [run run1] in *. destruct (get_value_active now (view st) a Ha) as [(Eg & _ & ->)|(Eg & _)];
    rewrite Eg in *; (split; [|done]).
  - cbn. by destruct (Z.to_nat limit).
  - unfold zlimit. simpl. by rewrite (proj2 (Z.ltb_ge limit 0)), drop_0 by done.
Qed.

(** The members the worker can split into a tenant and a session; the loop passes
    over the others. *)
Definition splits (m : string) : bool := match Split m ":" with [_; _] => true | _ => false end.

Lemma splits_member t s : canonical t -> canonical s -> splits (member t s) = true.
Proof. intros Ht Hs. unfold splits. by rewrite Split_member by by apply canonical_no_colon. Qed.

Lemma flush_splits now d st ms :
  foldl (flush_member Background now d) st ms = foldl (flush_member Background now d) st (List.filter splits ms).
Proof.
  revert st. induction ms as [|m ms IH]; intros st; [done|]. simpl. rewrite IH. destruct (splits m) eqn:E; [done|].
  f_equal. unfold flush_member, splits in *. by destruct (Split m ":") as [|t [|s [|? ?]]].
Qed.

(** A cycle that takes the lock. *)
Lemma flush_cycle_splits now older d st a l : reliable -> get_value now lockKey (view st) = None ->
  active (view st) = Some a -> NoDup l ->
  member_of <$> l = List.filter splits (take 100 (List.filter (fun x => x.2 <=? unix (now - older)) a).*1) ->
  Forall (flushable now (length l) (view st)) l ->
  let ks := view st in let ks' := view (runFlushCycle now older d st) in
  (forall t js, canonical t -> jobs t ks = Some js -> jobs t ks' = Some (js ++ flush_jobs now d t ks l)) /\
  (forall t s c, (t, s) ∈ l -> counter now t s ks = Some c -> counter now t s ks' = Some (flushed t s d c)) /\
  active ks' = Some (List.filter (fun x => negb (bool_decide (x.1 ∈ member_of <$> l))) a) /\
  (forall t s, canonical t -> (t, s) ∉ l -> ks' !! cog_key t s = ks !! cog_key t s) /\
  (forall t s, no_byte ":" t -> ks' !! msgs_key t s = ks !! msgs_key t s).
Proof.
  intros Hrel Hfree Ha Hnd Hl Hall ks ks'. unfold ks', runFlushCycle.
  destruct (TryLock_free now st Hrel Hfree) as (st1 & -> & Hv1).
  assert (Hcog : forall t s, canonical t -> view st1 !! cog_key t s = ks !! cog_key t s).
  { intros t s Ht. rewrite Hv1, lookup_insert_ne; [done|]. intros E. apply (lockKey_apart t s); [by apply canonical_no_colon|].
    unfold batch_keys. rewrite E. set_solver. }
  assert (Hj : forall t, canonical t -> jobs t (view st1) = jobs t ks).
  { intros t Ht. apply jobs_frame. rewrite Hv1, lookup_insert_ne; [done|]. intros E. apply (lockKey_apart t EmptyString); [by apply canonical_no_colon|].
    unfold batch_keys. rewrite E. set_solver. }
  assert (Ha1 : active (view st1) = Some a) by (rewrite <-Ha; apply active_frame; by rewrite Hv1, lookup_insert_ne).
  destruct (GetInactiveSessions_run Background now older 100 st1 a Hrel eq_refl ltac:(done) Ha1) as (st2 & -> & Hv2).
  change (Z.to_nat 100) with 100%nat. rewrite flush_splits, <-Hl.
  assert (Hcount : forall t s, canonical t -> counter now t s (view st2) = counter now t s ks).
  { intros t s Ht. apply counter_frame. rewrite Hv2. by apply Hcog. }
  assert (Hcanon : forall t s, (t, s) ∈ l -> canonical t).
  { rewrite Forall_forall in Hall. intros t s Hts. by destruct (Hall _ Hts) as [Ht _]. }
  destruct (flush_members_run now d l st2 a Hrel Hnd) as (R1 & R2 & R3 & R4).
  - by rewrite Hv2.
  - rewrite Forall_forall in *. intros [t s] Hts. destruct (Hall _ Hts) as (Ht & Hs & Hc & js & Hjs & Hlen). cbn [fst snd] in *.
    unfold flushable. cbn [fst snd]. rewrite Hcount by done. split_and!; [done..|]. exists js. split; [|done].
    rewrite Hv2. by rewrite Hj.
  - split_and!; [| |done| |].
    + intros t js Ht Hjs. rewrite (R3 t js Ht) by (rewrite Hv2; by rewrite Hj). do 2 f_equal. apply flush_jobs_ext.
      apply Forall_forall. intros [t' s'] Hts. apply Hcount. by eapply Hcanon.
    + intros t s c Hts Hc. apply R2; [done|]. rewrite Hcount; [done|]. by eapply Hcanon.
    + intros t s Ht Hts. rewrite R4 by done. rewrite Hv2. by apply Hcog.
    + intros t s Ht. rewrite flush_members_frame.
      * rewrite Hv2, Hv1, lookup_insert_ne; [done|]. intros E. symmetry in E. by apply msgs_key_not_lock in E.
      * intros t' s' Ht'. by apply msgs_key_not_batch.
Qed.

Lemma flush_cycle_effect now older d st a l : reliable -> get_value now lockKey (view st) = None ->
  active (view st) = Some a -> NoDup l ->
  member_of <$> l = take 100 (List.filter (fun x => x.2 <=? unix (now - older)) a).*1 ->
  Forall (flushable now (length l) (view st)) l ->
  let ks := view st in let ks' := view (runFlushCycle now older d st) in
  (forall t js, canonical t -> jobs t ks = Some js -> jobs t ks' = Some (js ++ flush_jobs now d t ks l)) /\
  (forall t s c, (t, s) ∈ l -> counter now t s ks = Some c -> counter now t s ks' = Some (flushed t s d c)) /\
  active ks' = Some (List.filter (fun x => negb (bool_decide (x.1 ∈ member_of <$> l))) a) /\
  (forall t s, canonical t -> (t, s) ∉ l -> ks' !! cog_key t s = ks !! cog_key t s) /\
  (forall t s, no_byte ":" t -> ks' !! msgs_key t s = ks !! msgs_key t s).
Proof.
  intros Hrel Hfree Ha Hnd Hl Hall. apply flush_cycle_splits; try done. rewrite <-Hl, filter_all; [done|].
  apply Forall_fmap. eapply Forall_impl; [exact Hall|]. intros [t s] (Ht & Hs & _). by apply splits_member.
Qed.

(** C12: a flush cycle that takes the lock deals with those of the 100 sessions
    inactive longest whose entry it can split into a tenant and a session, all
    of canonical ids.  Every such session with pending user messages gets one
    job in its tenant's stream, for twice that many messages, anchored on its
    newest message, and its counter is cleared; all of them leave the set of
    active sessions; the other entries of the set, other sessions' counters and
    all cached messages stay.  (Redis answers, the counters are numbers, and the
    streams have room for the jobs.) *)
Theorem runFlushCycle_flushes now older d st a l : reliable -> get_value now lockKey (view st) = None ->
  active (view st) = Some a -> NoDup l ->
  member_of <$> l = List.filter splits (take 100 (List.filter (fun x => x.2 <=? unix (now - older)) a).*1) ->
  Forall (flushable now (length l) (view st)) l ->
  let ks := view st in let ks' := view (runFlushCycle now older d st) in
  (forall t js, canonical t -> jobs t ks = Some js -> jobs t ks' = Some (js ++ flush_jobs now d t ks l)) /\
  (forall t s c, (t, s) ∈ l -> counter now t s ks = Some c -> counter now t s ks' = Some (flushed t s d c)) /\
  active ks' = Some (List.filter (fun x => negb (bool_decide (x.1 ∈ member_of <$> l))) a) /\
  (forall t s, canonical t -> (t, s) ∉ l -> ks' !! cog_key t s = ks !! cog_key t s) /\
  (forall t s, no_byte ":" t -> ks' !! msgs_key t s = ks !! msgs_key t s).
Proof. apply flush_cycle_splits. Qed.

(** A session whose turn comes at one of the ticks: until then its counter says
    [c]. *)
Record due (ticks : list (time * DB)) (n : nat) (c : string * string -> Z) (ks : keyspace) (ts : string * string) : Prop := {
  due_tenant : canonical ts.1;
  due_session : canonical ts.2;
  due_counter x : x ∈ ticks -> counter x.1 ts.1 ts.2 ks = Some (c ts);
  due_history x : x ∈ ticks -> history ts.1 ts.2 x.2 <> [];
  due_room : exists js, jobs ts.1 ks = Some js /\ Z.of_nat (length js + n) <= 10000;
}.

(** The job a tick makes for a session. *)
Definition due_job (x : time * DB) (c : string * string -> Z) (ts : string * string) (j : job) : Prop :=
  exists m, head (history ts.1 ts.2 x.2) = Some m /\ j = mkJob (mkBatchPayload ts.1 (msg_UserID m) ts.2 (int64 (c ts * 2)) (msg_ID m)) "0".

Lemma flush_jobs_due x c t ks l :
  Forall (fun ts => counter x.1 ts.1 ts.2 ks = Some (c ts) /\ history ts.1 ts.2 x.2 <> []) l ->
  Forall2 (due_job x c) (List.filter (fun ts => bool_decide (ts.1 = t) && negb (c ts =? 0)) l) (flush_jobs x.1 x.2 t ks l).
Proof.
  induction 1 as [|[t0 s0] l [Hc Hh] _ IH]; [constructor|]. rewrite flush_jobs_cons. simpl in Hc, Hh |- *.
  case_decide as Et; [subst t0; rewrite bool_decide_true by done|by rewrite bool_decide_false by done].
  unfold flush_job. rewrite Hc. cbn [mbind option_bind]. simpl. destruct (c (t, s0) =? 0); [exact IH|].
  destruct (history t s0 x.2) as [|m h] eqn:Eh; [done|]. simpl. constructor; [|exact IH]. exists m. split; [simpl; by rewrite Eh|done].
Qed.

Lemma flush_jobs_length now d t ks l : (length (flush_jobs now d t ks l) <= length l)%nat.
Proof.
  induction l as [|[t' s'] l IH]; [done|]. rewrite flush_jobs_cons, length_app. simpl.
  case_decide; [destruct (flush_job _ _ _ _ _)|]; simpl; lia.
Qed.

Lemma filter_not_among {A} (a : list (string * A)) k1 k2 : NoDup a.*1 -> a.*1 = k1 ++ k2 ->
  List.filter (fun x => negb (bool_decide (x.1 ∈ k1))) a = drop (length k1) a.
Proof.
  revert k1. induction a as [|[m z] a IH]; intros k1 Hnd E; [by rewrite drop_nil|]. destruct k1 as [|k k1].
  - apply filter_all, Forall_forall. intros x _. by rewrite bool_decide_false by apply not_elem_of_nil.
  - simpl in *. injection E as <- E. apply NoDup_cons in Hnd as [Hm Hnd]. rewrite bool_decide_true by by left. simpl.
    rewrite <-(IH k1 Hnd E). apply filter_ext_in. intros x Hx%list_elem_of_In. f_equal. apply bool_decide_ext.
    rewrite elem_of_cons. split; [intros [E'|Hin]; [|done]|by right]. destruct Hm. rewrite <-E'. by apply list_elem_of_fmap_2.
Qed.

(** What a tick leaves for the next ones. *)
Lemma tick_due older x ticks st a l1 l2 c : reliable -> get_value x.1 lockKey (view st) = None -> active (view st) = Some a ->
  NoDup a.*1 -> a.*1 = member_of <$> l1 ++ l2 -> length l1 = (100 `min` length a)%nat ->
  Forall (fun m => m.2 <= unix (x.1 - older)) a ->
  Forall (due (x :: ticks) (length (l1 ++ l2)) c (view st)) (l1 ++ l2) ->
  let st' := runFlushCycle x.1 older x.2 st in
  active (view st') = Some (drop 100 a) /\ Forall (due ticks (length l2) c (view st')) l2 /\
  forall t js, canonical t -> jobs t (view st) = Some js -> exists new, jobs t (view st') = Some (js ++ new) /\
    Forall2 (due_job x c) (List.filter (fun ts => bool_decide (ts.1 = t) && negb (c ts =? 0)) l1) new.
Proof.
  intros Hrel Hfree Ha Hnda Hl Hlen Hold Hdue st'. set (n := length (l1 ++ l2)) in *.
  assert (Hnd : NoDup (l1 ++ l2)) by (rewrite Hl in Hnda; by apply NoDup_fmap_1 in Hnda). apply NoDup_app in Hnd as (Hnd1 & Hdis & _). apply Forall_app in Hdue as [Hdue1 Hdue2].
  assert (Hn : (length l1 + length l2)%nat = n) by (unfold n; by rewrite length_app).
  destruct (flush_cycle_effect x.1 older x.2 st a l1 Hrel Hfree Ha Hnd1) as (Hj & _ & Ha' & Hrest & _).
  - rewrite filter_all by (eapply Forall_impl; [exact Hold|]; intros m Hm; by apply Z.leb_le). rewrite Hl, fmap_app.
    assert (Hla : length a = n) by (unfold n; rewrite <-(length_fmap member_of (l1 ++ l2)), <-Hl; by rewrite length_fmap).
    rewrite take_app, length_fmap. rewrite (take_ge _ 100) by (rewrite length_fmap; lia).
    replace (take (100 - length l1) (member_of <$> l2)) with (@nil string); [by rewrite app_nil_r|].
    destruct (decide (length l1 = 100)%nat) as [->|]; [done|]. assert (length l2 = 0)%nat as ->%length_zero_iff_nil by lia. simpl; by rewrite take_nil.
  - eapply Forall_impl; [exact Hdue1|]. intros ts [Ht Hs Hc _ (js & Hjs & Hr)]. split_and!; [done|done| |exists js; split; [done|lia]].
    rewrite (Hc x) by by left. done.
  - fold st' in Hj, Ha', Hrest. split_and!.
    + rewrite Ha'. f_equal. rewrite fmap_app in Hl. rewrite (filter_not_among _ _ _ Hnda Hl), length_fmap, Hlen.
      destruct (decide (100 <= length a)%nat); [by rewrite Nat.min_l|]. by rewrite !drop_ge by lia.
    + rewrite Forall_forall in *. intros ts Hts. destruct (Hdue2 ts Hts) as [Ht Hs Hc Hh (js & Hjs & Hr)].
      assert (Hni : (ts.1, ts.2) ∉ l1) by (destruct ts; intros Hin; by apply (Hdis _ Hin)).
      split; [done..| | |].
      * intros y Hy. rewrite <-(Hc y) by by right. by apply counter_frame, Hrest.
      * intros y Hy. apply Hh. by right.
      * eexists. split; [by apply Hj|]. rewrite length_app. pose proof (flush_jobs_length x.1 x.2 ts.1 (view st) l1). lia.
    + intros t js Ht Hjs. eexists. split; [by apply Hj|]. apply flush_jobs_due. eapply Forall_impl; [exact Hdue1|].
      intros ts [_ _ Hc Hh _]. split; [apply Hc; by left|apply Hh; by left].
Qed.

(** C13: a backlog is worked off, a hundred sessions a tick.  When [n] sessions
    are idle and ticks come no closer than the lock lasts, then after as many
    ticks as there are hundreds in [n] no session is waiting: each with pending
    messages has had exactly one job, in the order they fell idle, for twice as
    many messages as its counter said and anchored on its newest message at the
    time.  (The ids are canonical: members of the urn:uuid: form starve the
    worker, see [runFlushCycle_starves].  Redis answers, nobody writes to the
    sessions meanwhile, their counters do not expire first, and their streams
    have room.) *)
Theorem Start_drains older ticks c st a l : reliable -> StronglySorted (fun x y => x.1 + lockTTL <= y.1) ticks ->
  Forall (fun x => get_value x.1 lockKey (view st) = None) ticks -> active (view st) = Some a ->
  NoDup a.*1 -> a.*1 = member_of <$> l -> Forall (fun x => Forall (fun m => m.2 <= unix (x.1 - older)) a) ticks ->
  Forall (due ticks (length l) c (view st)) l -> (length l <= 100 * length ticks)%nat ->
  let ks' := view (Start older ((fun x => Tick x.1 x.2) <$> ticks) st) in
  active ks' = Some [] /\
  forall t js, canonical t -> jobs t (view st) = Some js -> exists new, jobs t ks' = Some (js ++ new) /\
    Forall2 (fun ts j => exists x, x ∈ ticks /\ due_job x c ts j) (List.filter (fun ts => bool_decide (ts.1 = t) && negb (c ts =? 0)) l) new.
Proof.
  intros Hrel Hsorted. revert st a l. induction Hsorted as [|x ticks Hsorted IH Hafter]; intros st a l Hfree Ha Hnd Hl Hold Hdue Hlen.
  { destruct l; [|simpl in Hlen; lia]. destruct a; [|done]. split; [done|]. intros t js _ Hj. exists []. rewrite app_nil_r. by split. }
  apply Forall_cons in Hfree as [Hfx Hfree], Hold as [Hox Hold].
  assert (Hla : length a = length l) by (rewrite <-(length_fmap member_of l), <-Hl; by rewrite length_fmap).
  rewrite <-(take_drop 100 l) in Hl, Hdue.
  destruct (tick_due older x ticks st a (take 100 l) (drop 100 l) c Hrel Hfx Ha Hnd Hl) as (Ha1 & Hdue1 & Hj1); [rewrite length_take; lia|done..|].
  rewrite fmap_cons. cbn [Start]. set (st1 := runFlushCycle x.1 older x.2 st) in *.
  destruct (IH st1 (drop 100 a) (drop 100 l)) as (Ha2 & Hj2).
  - eapply Forall_impl; [exact Hafter|]. intros y Hy. unfold get_value, lookup_key, st1.
    rewrite (runFlushCycle_lock x.1 older x.2 st Hrel Hfx). cbn [mbind option_bind]. unfold alive. cbn [snd].
    by rewrite (proj2 (Z.ltb_ge y.1 (x.1 + lockTTL)) Hy).
  - exact Ha1.
  - rewrite fmap_drop. rewrite <-(take_drop 100 a.*1) in Hnd. by apply NoDup_app in Hnd as (_ & _ & ?).
  - by rewrite fmap_drop, Hl, take_drop, fmap_drop.
  - eapply Forall_impl; [exact Hold|]. intros y Hy. by apply Forall_drop.
  - exact Hdue1.
  - rewrite length_drop. simpl in Hlen. lia.
  - split; [exact Ha2|]. intros t js Ht Hjs. destruct (Hj1 t js Ht Hjs) as (new1 & E1 & H1').
    destruct (Hj2 t _ Ht E1) as (new2 & E2 & H2'). exists (new1 ++ new2). split; [by rewrite E2, (assoc_L (++))|].
    rewrite <-(take_drop 100 l), List.filter_app. apply Forall2_app.
    + eapply Forall2_impl; [exact H1'|]. intros ts j Hj. exists x. split; [by left|done].
    + eapply Forall2_impl; [exact H2'|]. intros ts j (y & Hy & Hj). exists y. split; [by right|done].
Qed.

(** A cycle whose hundred longest inactive members the worker cannot split, as
    those of tenants in the urn:uuid: form, does nothing at all; and as it
    leaves them in the set, so does every later cycle: no session is flushed any
    more. *)
Theorem runFlushCycle_starves now older d st a : reliable -> get_value now lockKey (view st) = None -> active (view st) = Some a ->
  Forall (fun m => forall t s, Split m ":" <> [t; s]) (take 100 (List.filter (fun x => x.2 <=? unix (now - older)) a).*1) ->
  view (runFlushCycle now older d st) = <[lockKey := (VText "locked", Some (now + lockTTL))]> (view st).
Proof.
  intros Hrel Hfree Ha Hbad. unfold runFlushCycle. destruct (TryLock_free now st Hrel Hfree) as (st1 & -> & Hv1).
  assert (Ha1 : active (view st1) = Some a) by (rewrite <-Ha; apply active_frame; by rewrite Hv1, lookup_insert_ne).
  destruct (GetInactiveSessions_run Background now older 100 st1 a Hrel eq_refl ltac:(done) Ha1) as (st2 & -> & Hv2).
  change (Z.to_nat 100) with 100%nat. rewrite <-Hv1, <-Hv2. clear -Hbad. induction Hbad as [|m l Hm _ IH]; [done|]. simpl.
  replace (flush_member Background now d st2 m) with st2; [done|]. unfold flush_member.
  destruct (Split m ":") as [|t [|s [|? ?]]] eqn:E; [done..| |done]. by destruct (Hm t s).
Qed.
End FlusherEffect.

(** ** Examples *)

Module FlusherSample.
#[local] Existing Instances toy_uuid merge_order_by toy_search.
#[local] Instance server : Redis := local_redis true.

Definition db : DB :=
  mkDB [mkSessionRow "s" "t" "u" (Some "chat"%string) "{}" 1 1]
       [mkMessageRow (mkMessage "m1" "t" "s" "u" "user" "hi" 1 1) None] [] [] [] [].
Definition waiting : store :=
  ({[ cog_key "t" "s" := (VInt 3, None); active_key := (VZSet [("t:s"%string, 5)], None) ]} : gmap string (value * option time)).
Definition noon : time := 100 * minute.
Definition idle : time := 30 * minute.

Lemma runFlushCycle_exclusive_witness :
  let st1 := runFlushCycle noon idle db waiting in view (runFlushCycle (noon + second) idle db st1) = view st1.
Proof.
  apply (runFlushCycle_exclusive noon idle db waiting); [apply CacheSample.server_reliable|reflexivity| |reflexivity].
  vm_compute. split; [discriminate|reflexivity].
Defined.

(** Besides, a member the worker cannot split. *)
Definition waiting_too : store :=
  ({[ cog_key "t" "s" := (VInt 3, None);
      active_key := (VZSet [("urn:uuid:t:s"%string, 4); ("t:s"%string, 5)], None) ]} : gmap string (value * option time)).

Lemma runFlushCycle_flushes_witness :
  let ks' := view (runFlushCycle noon idle db waiting_too) in
  jobs "t" ks' = Some [mkJob (mkBatchPayload "t" "u" "s" 6 "m1") "0"] /\ counter noon "t" "s" ks' = Some 0 /\
  active ks' = Some [("urn:uuid:t:s"%string, 4)].
Proof.
  destruct (runFlushCycle_flushes noon idle db waiting_too [("urn:uuid:t:s"%string, 4); ("t:s"%string, 5)] [("t", "s")%string]) as (Hj & Hc & Ha & _);
    [apply CacheSample.server_reliable|reflexivity|reflexivity|apply NoDup_singleton|reflexivity| |].
  - apply Forall_singleton. split; [reflexivity|]. split; [reflexivity|]. split; [by exists 3|]. exists []. split; [reflexivity|vm_compute; discriminate].
  - split; [|split].
    + etransitivity; [by apply (Hj "t" [])|]. vm_cast_no_check (@eq_refl (option (list job)) (Some [mkJob (mkBatchPayload "t" "u" "s" 6 "m1") "0"])).
    + etransitivity; [apply (Hc "t" "s" 3)%string; [by left|reflexivity]|]. vm_cast_no_check (@eq_refl (option Z) (Some 0)).
    + etransitivity; [exact Ha|]. vm_compute. reflexivity.
Defined.

(** A hundred and one sessions, and two ticks a minute apart. *)
Definition crowd : list (string * string) := (fun i => ("t", "s" +:+ Itoa (Z.of_nat i))%string) <$> seq 0 101.
Definition crowd_db : DB :=
  mkDB [] ((fun ts => mkMessageRow (mkMessage ("m" +:+ ts.2) "t" ts.2 "u" "user" "hi" 1 1) None) <$> crowd) [] [] [] [].
Definition crowded : store :=
  (<[active_key := (VZSet ((fun ts => (member ts.1 ts.2, 5)) <$> crowd), None)]>
     (list_to_map ((fun ts => (cog_key ts.1 ts.2, (VInt 3, None))) <$> crowd)) : gmap string (value * option time)).
Definition two_ticks : list (time * DB) := [(noon, crowd_db); (noon + minute, crowd_db)].

Definition is_due (ts : string * string) : bool :=
  bool_decide (canonical ts.1) && bool_decide (canonical ts.2) &&
  forallb (fun x => bool_decide (counter x.1 ts.1 ts.2 (view crowded) = Some 3) && negb (Nat.eqb (length (history ts.1 ts.2 x.2)) 0)) two_ticks &&
  match jobs ts.1 (view crowded) with Some js => bool_decide (Z.of_nat (length js + 101) <= 10000) | None => false end.

Lemma is_due_spec ts : is_due ts = true -> due two_ticks 101 (fun _ => 3) (view crowded) ts.
Proof.
  unfold is_due. intros [[[Ht%bool_decide_eq_true Hs%bool_decide_eq_true]%andb_true_iff Hx]%andb_true_iff Hj]%andb_true_iff.
  assert (Hx' : forall x, x ∈ two_ticks -> counter x.1 ts.1 ts.2 (view crowded) = Some 3 /\ history ts.1 ts.2 x.2 <> []).
  { intros x Hin%list_elem_of_In. rewrite forallb_forall in Hx. apply Hx, andb_true_iff in Hin as [Hc%bool_decide_eq_true Hh].
    split; [done|]. by destruct (history _ _ _). }
  split; [done|done|by apply Hx'..|]. destruct (jobs ts.1 (view crowded)) as [js|]; [|done]. exists js. split; [done|].
  by apply bool_decide_eq_true in Hj.
Qed.

Lemma Start_drains_witness :
  let ks' := view (Start idle ((fun x => Tick x.1 x.2) <$> two_ticks) crowded) in
  active ks' = Some [] /\ exists new, jobs "t" ks' = Some new /\ length new = 101%nat.
Proof.
  destruct (Start_drains idle two_ticks (fun _ => 3) crowded ((fun ts => (member ts.1 ts.2, 5)) <$> crowd) crowd) as [Ha Hj].
  - apply CacheSample.server_reliable.
  - repeat constructor. vm_compute. discriminate.
  - by repeat constructor.
  - reflexivity.
  - apply (bool_decide_eq_true_1 _). vm_compute. reflexivity.
  - reflexivity.
  - constructor; [|constructor; [|constructor]]; apply Forall_fmap, Forall_true; intros ts; vm_compute; discriminate.
  - apply Forall_forall. intros ts Hts. apply is_due_spec. revert ts Hts. rewrite <-Forall_forall.
    apply (bool_decide_eq_true_1 _). vm_compute. reflexivity.
  - vm_compute. lia.
  - split; [exact Ha|]. destruct (Hj "t"%string [] eq_refl eq_refl) as (new & E & Hnew). exists new. split; [exact E|].
    apply Forall2_length in Hnew. rewrite <-Hnew. vm_compute. reflexivity.
Defined.
End FlusherSample.
