(* ===== verification/ContextApi.v ===== *)
(** The context endpoints of the HTTP API ([internal/api/rest.go]:
    handleGetContext, handleGetContextFormatted, formatBundle): from a request
    body through the retriever to the text a model's prompt is built with. *)
From Stdlib Require Import Ascii String.
From S2P Require Import Prelude GoStd GoStrings Float64 Model Security Json GoJson Db MessageRepo EntityRepo MemoryRepo ExperienceRepo Redis Cache Tenancy Retriever Rest.

Local Open Scope Z_scope.

(** ** The bundle as text *)

(** [json.Unmarshal(payload, &p)] into a map[string]interface{}; [None] is its
    error. *)
Definition payload_members (payload : string) : option (list (string * json)) :=
  match parse_json payload with
  | Some (JObject l) => if numbers_fit (JObject l) then Some l else None
  | Some JNull => Some []
  | _ => None
  end.

(** The first of the keys with a string that is not empty. *)
Fixpoint first_string (l : list (string * json)) (keys : list string) : string :=
  match keys with
  | [] => EmptyString
  | k :: keys => let s := string_member l k in if decide (s = EmptyString) then first_string l keys else s
  end.

Definition self_line (f : EntityFact) : string := "- " +:+ ef_Attribute f +:+ ": " +:+ ef_Value f +:+ newline.
Definition fact_line (f : EntityFact) : string :=
  "- " +:+ ef_EntityName f +:+ "." +:+ ef_Attribute f +:+ ": " +:+ ef_Value f +:+ newline.

(** A record whose payload cannot be read, or names nothing, has no line. *)
Definition event_line (r : MemoryRecord) : string :=
  match payload_members (mr_Payload r) with
  | None => EmptyString
  | Some p =>
    let name := first_string p ["event_name"; "title"; "content"]%string in
    let date := first_string p ["date"; "period"]%string in
    if decide (name = EmptyString) then EmptyString
    else if decide (date = EmptyString) then "- " +:+ name +:+ newline
    else "- " +:+ name +:+ " (" +:+ date +:+ ")" +:+ newline
  end.
Definition trait_line (r : MemoryRecord) : string :=
  match payload_members (mr_Payload r) with
  | None => EmptyString
  | Some p => let trait := string_member p "trait" in
              if decide (trait = EmptyString) then EmptyString else "- " +:+ TrimSpace trait +:+ newline
  end.
Definition message_line `{UnicodeCase} (m : Message) : string := ToUpper (msg_Role m) +:+ ": " +:+ msg_Content m +:+ newline.

(** A section is there when the bundle has something for it, even when no line
    comes of it. *)
Definition section {A} (title : string) (line : A -> string) (l : list A) : string :=
  match l with
  | [] => EmptyString
  | _ => "## " +:+ title +:+ newline +:+ Join (line <$> l) "" +:+ newline
  end.

Definition sections `{UnicodeCase} (b : ContextBundle) : string :=
  section "Identity" self_line (SelfFacts b) +:+
  section "Entity Facts" fact_line (EntityFacts b) +:+
  section "Life Events" event_line (UpcomingEvents b) +:+
  section "Persona" trait_line (Persona b) +:+
  section "Recent Conversation" message_line (RecentMessages b).

Definition formatBundle `{UnicodeCase} (b : ContextBundle) : string := TrimSpace (sections b).

(** ** The handlers *)

(** The body of both requests; [time_range] as gin has bound it. *)
Record ContextRequest := mkContextRequest {
  cr_TenantID : string;
  cr_UserID : string;
  cr_SessionID : string;
  cr_Query : string;
  cr_MemoryTypes : list string;
  cr_TimeRange : option (option time * option time);
}.

Inductive context_body :=
  | CError (e : string)
  | CContext (self_facts : list EntityFact) (recent_messages : list Message) (entity_facts : list EntityFact)
      (persona_context upcoming_events : list MemoryRecord) (context_string : string) (total_tokens : Z) (is_partial : bool)
  | CFormatted (formatted : string).
Record context_response := mkContextResponse { c_status : Z; c_body : context_body }.

Definition StatusRequestTimeout : Z := 408.
Definition DeadlineExceeded : error := "context deadline exceeded".

Definition refuse (e : string) : context_response := mkContextResponse StatusBadRequest (CError e).

Section Handlers.
Context `{UuidLib, OrderBy, PgSearch, CryptoLib, Jsonb, Redis, UnicodeCase}.
(** [cfg.EncryptionKey] and [cfg.RecentMessagesLimit]. *)
Context (key : string) (RecentMessagesLimit : Z).

(** What both handlers do first: the request for the retriever, or a refusal. *)
Definition context_request (body : option ContextRequest) : GetContextRequest + context_response :=
  match body with
  | None => inr (refuse "invalid request format")
  | Some req =>
    if negb (required [cr_TenantID req; cr_UserID req; cr_SessionID req]) then inr (refuse "invalid request format")
    else if MaxQueryLength <? len (cr_Query req) then inr (refuse "query too large")
    else parsed tenantID of cr_TenantID req or inr (refuse "invalid tenant_id format") in
         parsed userID of cr_UserID req or inr (refuse "invalid user_id format") in
         parsed sessionID of cr_SessionID req or inr (refuse "invalid session_id format") in
         inl (mkGetContextRequest tenantID userID sessionID (cr_Query req) (cr_MemoryTypes req) (cr_TimeRange req))
  end.

Definition context_error (e : error) : context_response :=
  if decide (e = DeadlineExceeded) then mkContextResponse StatusRequestTimeout (CError "request timeout")
  else mkContextResponse StatusInternalServerError (CError "failed to retrieve context").

(** handleGetContext's answer; nil slices are initialised, so no list is null
    but that of the persona. *)
Definition context_answer (r : result ContextBundle) : context_response :=
  match r with
  | Err e => context_error e
  | Ok b => mkContextResponse StatusOK
              (CContext (SelfFacts b) (RecentMessages b) (EntityFacts b) (Persona b) (UpcomingEvents b) (formatBundle b)
                 (total_tokens (RecentMessages b)) false)
  end.

(** handleGetContextFormatted's answer. *)
Definition formatted_answer (r : result ContextBundle) : context_response :=
  match r with
  | Err e => context_error e
  | Ok b => mkContextResponse StatusOK (CFormatted (formatBundle b))
  end.

(** The handlers, by how they answer; [GetContext] decides the bundle. *)
Inductive handles (answer : result ContextBundle -> context_response) (e : env) (body : option ContextRequest) (w : surroundings)
    (d : DB) (st : store) (all : bool) : store * context_response -> Prop :=
  | handles_refused resp : context_request body = inr resp -> handles answer e body w d st all (st, resp)
  | handles_answered req st' r : context_request body = inl req ->
      GetContext key RecentMessagesLimit (withTenant e (rq_TenantID req)) req w d st all (st', r) ->
      handles answer e body w d st all (st', answer r).

Definition handleGetContext := handles context_answer.
Definition handleGetContextFormatted := handles formatted_answer.
End Handlers.

(** ** Lemmas *)

Lemma section_hash {A} title (line : A -> string) l : l <> [] -> 35 ∈ bytes (section title line l).
Proof. intros Hl. destruct l; [done|]. unfold section. rewrite bytes_app. apply elem_of_app. left. by left. Qed.

(** A section has the line of everything in it. *)
Lemma Join_elem l x : x ∈ l -> exists a z, Join l "" = a +:+ x +:+ z.
Proof.
  induction l as [|y l IH]; [by intros ?%not_elem_of_nil|]. intros [->|Hx]%elem_of_cons.
  - destruct l as [|y' l]; [exists EmptyString, EmptyString; by rewrite string_app_nil|]. by exists EmptyString, (Join (y' :: l) "").
  - destruct (IH Hx) as (a & z & E). exists (y +:+ a), z. destruct l as [|y' l]; [by apply not_elem_of_nil in Hx|].
    cbn [Join] in *. rewrite E. by rewrite !string_app_assoc.
Qed.

Lemma section_elem {A} title (line : A -> string) l x : x ∈ l ->
  exists a z, section title line l = "## " +:+ title +:+ newline +:+ a +:+ line x +:+ z.
Proof.
  intros Hx. destruct (Join_elem (line <$> l) (line x)) as (a & z & E); [by apply list_elem_of_fmap_2|].
  exists a, (z +:+ newline). destruct l as [|y l]; [by apply not_elem_of_nil in Hx|].
  unfold section. rewrite E. by rewrite !string_app_assoc.
Qed.

Lemma hash_visible : visible_ascii 35.
Proof. done. Qed.

(** A canonical id parses to itself: what reaches the retriever is canonical. *)
Lemma context_request_canonical `{UuidLib} body req : context_request body = inl req ->
  canonical (rq_TenantID req) /\ canonical (rq_UserID req) /\ canonical (rq_SessionID req).
Proof.
  unfold context_request. intros Hr. repeat case_match; simplify_eq/=. split_and!; by eapply uuid_Parse_canonical.
Qed.

(** ** Properties *)

(** The text for a prompt is empty exactly when the bundle has no facts,
    events, traits and messages; so of a bundle that holds nothing but learned
    experiences the model is told nothing. *)
Theorem formatBundle_empty `{UnicodeCase} b :
  (formatBundle b = EmptyString <->
   SelfFacts b = [] /\ EntityFacts b = [] /\ UpcomingEvents b = [] /\ Persona b = [] /\ RecentMessages b = []) /\
  forall exps, formatBundle (mkContextBundle (SelfFacts b) (RecentMessages b) (EntityFacts b) (Persona b) (UpcomingEvents b) exps) =
    formatBundle b.
Proof.
  split; [|done]. split.
  - intros E. destruct (TrimSpace_blank (sections b)) as (l & r & Eb & Hl & Hr). unfold formatBundle in E. rewrite E in Eb. simpl in Eb.
    assert (Hno : 35 ∉ bytes (sections b)).
    { rewrite Eb, elem_of_app. rewrite Forall_forall in Hl, Hr. intros [Hin|Hin]; [by apply (Hl 35 Hin)|by apply (Hr 35 Hin)]. }
    unfold sections in Hno. rewrite !bytes_app, !elem_of_app in Hno.
    assert (Hs : forall A title (line : A -> string) l, 35 ∉ bytes (section title line l) -> l = []).
    { intros A title line [|x k] Hn; [done|]. destruct Hn. by apply section_hash. }
    split_and!; [apply (Hs _ "Identity"%string self_line)|apply (Hs _ "Entity Facts"%string fact_line)|
      apply (Hs _ "Life Events"%string event_line)|apply (Hs _ "Persona"%string trait_line)|
      apply (Hs _ "Recent Conversation"%string message_line)]; tauto.
  - intros (E1 & E2 & E3 & E4 & E5). unfold formatBundle, sections. by rewrite E1, E2, E3, E4, E5.
Qed.

Section Properties.
Context `{UuidLib, OrderBy, PgSearch, CryptoLib, Jsonb, Redis, UnicodeCase}.
Context (key : string) (RecentMessagesLimit : Z).

(** A request both handlers serve. *)
Definition well_formed (body : option ContextRequest) : Prop :=
  exists r t u s, body = Some r /\ len (cr_Query r) <= MaxQueryLength /\
    cr_TenantID r <> EmptyString /\ cr_UserID r <> EmptyString /\ cr_SessionID r <> EmptyString /\
    uuid_Parse (cr_TenantID r) = Some t /\ uuid_Parse (cr_UserID r) = Some u /\ uuid_Parse (cr_SessionID r) = Some s.

Lemma context_request_spec body :
  match context_request body with
  | inl req => well_formed body
  | inr resp => ~ well_formed body /\ c_status resp = StatusBadRequest
  end.
Proof.
  unfold context_request. destruct body as [r|]; [|split; [|done]; by intros (? & ? & ? & ? & [=] & _)].
  assert (Hno : forall e, ~ well_formed (Some r) -> ~ well_formed (Some r) /\ c_status (refuse e) = StatusBadRequest) by done.
  destruct (required _) eqn:Er; cbn [negb].
  2: { apply Hno. intros (r' & t & u & s & [= <-] & _ & Ht & Hu & Hs & _). revert Er. unfold required. simpl.
       by rewrite !bool_decide_false by done. }
  destruct (Z.ltb_spec MaxQueryLength (len (cr_Query r))) as [Hq|Hq].
  { apply Hno. intros (r' & t & u & s & [= <-] & Hl & _). lia. }
  destruct (uuid_Parse (cr_TenantID r)) as [t|] eqn:Et; [|apply Hno; intros (? & ? & ? & ? & [= <-] & ?); naive_solver].
  destruct (uuid_Parse (cr_UserID r)) as [u|] eqn:Eu; [|apply Hno; intros (? & ? & ? & ? & [= <-] & ?); naive_solver].
  destruct (uuid_Parse (cr_SessionID r)) as [s|] eqn:Es; [|apply Hno; intros (? & ? & ? & ? & [= <-] & ?); naive_solver].
  unfold required in Er. simpl in Er. rewrite !andb_true_iff, !negb_true_iff, !bool_decide_eq_false in Er.
  exists r, t, u, s. split_and!; naive_solver.
Qed.

(** C28: the context endpoint always answers, with 400 exactly for the requests
    that are not well formed and else with 200, never with the timeout or the
    error its code provides for; a refusal leaves Redis alone, and the
    retriever gets ids in canonical form and the tenant's own connection. *)
Theorem handleGetContext_total e body w d st :
  (exists all st' resp, handleGetContext key RecentMessagesLimit e body w d st all (st', resp)) /\
  forall all st' resp, handleGetContext key RecentMessagesLimit e body w d st all (st', resp) ->
    (c_status resp = StatusBadRequest /\ ~ well_formed body /\ st' = st) \/
    (c_status resp = StatusOK /\ well_formed body /\
     exists req b, context_request body = inl req /\ canonical (rq_TenantID req) /\ canonical (rq_UserID req) /\
       canonical (rq_SessionID req) /\
       GetContext key RecentMessagesLimit (withTenant e (rq_TenantID req)) req w d st all (st', Ok b) /\
       resp = context_answer (Ok b)).
Proof.
  pose proof (context_request_spec body) as Hspec. split.
  - destruct (context_request body) as [req|resp] eqn:Er; [|exists true, st, resp; by apply handles_refused].
    destruct (recent_messages RecentMessagesLimit (withTenant e (rq_TenantID req)) req (clock w) d st) as [st' recent] eqn:Em.
    exists false, st', (context_answer (Ok (mkContextBundle [] recent [] [] [] []))).
    eapply handles_answered; [done|]. eapply GetContext_returns; [exact Em|]. apply collect_deadline.
  - intros all st' resp Hh. unfold handleGetContext in Hh.
    inversion Hh as [resp' Er|req st1 r Er Hg]; subst; rewrite Er in Hspec; [left; tauto|right].
    apply context_request_canonical in Er as Hc. destruct Hc as (Ht & Hu & Hs).
    inversion Hg as [st2 recent b Hrec Hcol]; subst. split; [done|]. split; [done|].
    exists req, b. split_and!; done.
Qed.

(** The two context endpoints agree: they refuse the same requests alike and
    answer the others with the same text, the one as the field context_string
    of its object, the other by itself. *)
Theorem context_endpoints_agree e body w d st all st' :
  (forall c, handleGetContext key RecentMessagesLimit e body w d st all (st', c) ->
     exists f, handleGetContextFormatted key RecentMessagesLimit e body w d st all (st', f) /\ c_status f = c_status c /\
       c_body f = match c_body c with CContext _ _ _ _ _ text _ _ => CFormatted text | b => b end) /\
  (forall f, handleGetContextFormatted key RecentMessagesLimit e body w d st all (st', f) ->
     exists c, handleGetContext key RecentMessagesLimit e body w d st all (st', c) /\ c_status f = c_status c /\
       c_body f = match c_body c with CContext _ _ _ _ _ text _ _ => CFormatted text | b => b end).
Proof.
  assert (Hans : forall r, c_status (formatted_answer r) = c_status (context_answer r) /\
    c_body (formatted_answer r) = match c_body (context_answer r) with CContext _ _ _ _ _ text _ _ => CFormatted text | b => b end).
  { intros [b|er]; [done|]. simpl. unfold context_error. by case_decide. }
  assert (Href : forall resp, context_request body = inr resp ->
    c_body resp = match c_body resp with CContext _ _ _ _ _ text _ _ => CFormatted text | b => b end).
  { intros resp. unfold context_request. intros Hr. repeat case_match; by simplify_eq/=. }
  split; intros c Hh; inversion Hh as [resp Er|req st1 r Er Hg]; subst.
  - exists c. split; [by apply handles_refused|]. split; [done|by apply Href].
  - exists (formatted_answer r). split; [by eapply handles_answered|apply Hans].
  - exists c. split; [by apply handles_refused|]. split; [done|by apply Href].
  - exists (context_answer r). split; [by eapply handles_answered|apply Hans].
Qed.
End Properties.

(** ** Examples *)

Module ContextSample.
#[local] Existing Instances toy_uuid merge_order_by toy_search toy_crypto toy_jsonb.
#[local] Instance server : Redis := local_redis true.
#[local] Instance ascii_case : UnicodeCase := {| unicode_lower r := r; unicode_upper r := r |}.

Definition ask : option ContextRequest := Some (mkContextRequest "t" "u" "s" "" [] None).
Definition around : surroundings := mkSurroundings (fun _ => false) (fun _ => empty_db) 9 (Err "timeout"%string).
Definition now : env := mkEnv Background 9 9 "x".

Lemma ask_well_formed : well_formed ask.
Proof. eexists _, "t"%string, "u"%string, "s"%string. split; [reflexivity|]. vm_compute. repeat split; discriminate. Qed.

Lemma handleGetContext_total_witness : exists all st' resp,
  handleGetContext "" 20 now ask around empty_db ∅ all (st', resp) /\ c_status resp = StatusOK.
Proof.
  destruct (handleGetContext_total "" 20 now ask around empty_db ∅) as [(all & st' & resp & Hh) Hspec].
  exists all, st', resp. split; [exact Hh|]. destruct (Hspec all st' resp Hh) as [(_ & Hno & _)|(Hs & _)]; [|exact Hs].
  destruct Hno. exact ask_well_formed.
Defined.

(** Refused by one endpoint, refused by the other. *)
Lemma context_endpoints_agree_witness :
  exists f, handleGetContextFormatted "" 20 now None around empty_db ∅ true (∅, f) /\ c_status f = StatusBadRequest.
Proof.
  destruct (proj1 (context_endpoints_agree "" 20 now None around empty_db ∅ true ∅) (refuse "invalid request format")) as (f & Hf & Es & _).
  - apply handles_refused. reflexivity.
  - exists f. split; [exact Hf|exact Es].
Defined.

(** Values are written as they are: two bundles, one text. *)
Definition fact (name value : string) : EntityFact := mkEntityFact name "person" "job" value "" (f_of_Z 1).
Lemma formatBundle_not_injective :
  formatBundle (mkContextBundle [] [] [fact "An" ("pilot" +:+ newline +:+ "- Bo.job: spy")] [] [] []) =
  formatBundle (mkContextBundle [] [] [fact "An" "pilot"; fact "Bo" "spy"] [] [] []).
Proof. vm_compute. reflexivity. Qed.
End ContextSample.
