(* ===== verification/Groups.v ===== *)
(** Redis streams and their consumer groups, as the workers use them: entries
    added and trimmed (XADD with MAXLEN), delivered (XREADGROUP), listed as
    pending (XPENDING), claimed (XCLAIM) and acknowledged (XACK). *)
From Stdlib Require Import Ascii String.
From S2P Require Import Prelude GoStd GoStrings Float64 Model Db MessageRepo Redis.

Local Open Scope Z_scope.

(** A stream entry, known by its stream and its id. *)
Abbreviation key := (string * stream_id)%type (only parsing).

(** What the pending entry list says of an entry: when it was last delivered
    and how often. *)
Record pending := mkPending { delivered : time; deliveries : Z }.

(** The streams and one consumer group of each. *)
Record cgroup := mkGroup {
  entries : list (key * string);          (* all that was ever added, oldest first *)
  trimmed : gmap string stream_id;        (* the last entry each stream has dropped *)
  last_read : gmap string stream_id;      (* the group's position in each stream *)
  pel : gmap key pending;
}.
Definition no_streams : cgroup := mkGroup [] ∅ ∅ ∅.

Definition of_stream (s : string) (e : key * string) : bool := bool_decide (e.1.1 = s).

(** An entry comes after the position given for its stream, if one is. *)
Definition unread (last : gmap string stream_id) (k : key) : bool :=
  match last !! k.1 with None => true | Some i => id_lt i k.2 end.
(** The stream still holds it. *)
Definition held (g : cgroup) (k : key) : bool := unread (trimmed g) k.

(** ">": entries after the last one delivered to the group. *)
Definition unread_of (g : cgroup) (stream : string) : list (key * string) :=
  List.filter (fun e => bool_decide (e.1.1 = stream) && (unread (last_read g) e.1 && held g e.1)) (entries g).

(** Delivering an entry: it joins the pending list. *)
Definition deliver (now : time) (g : cgroup) (k : key) : cgroup :=
  mkGroup (entries g) (trimmed g) (<[k.1 := k.2]> (last_read g)) (<[k := mkPending now 1]> (pel g)).

(** A pending entry is delivered once more. *)
Definition claim (now : time) (g : cgroup) (k : key) (p : pending) : cgroup :=
  mkGroup (entries g) (trimmed g) (last_read g) (<[k := mkPending now (deliveries p + 1)]> (pel g)).

(** XACK; [reached] is false when the call fails. *)
Definition XAck (reached : bool) (g : cgroup) (k : key) : cgroup :=
  if reached then mkGroup (entries g) (trimmed g) (last_read g) (delete k (pel g)) else g.

(** XCLAIM of one entry with a minimal idle time, and whether it is in the
    reply: one that the stream no longer holds is dropped from the pending list
    instead. *)
Definition XClaim (minIdle now : time) (g : cgroup) (k : key) : cgroup * bool :=
  match pel g !! k with
  | None => (g, false)
  | Some p =>
    if negb (held g k) then (XAck true g k, false)
    else if delivered p + minIdle <=? now then (claim now g k p, true) else (g, false)
  end.

(** XPENDING with an idle time: the first [count] of the entries pending so
    long, with their numbers of deliveries. *)
Definition idle_entry (minIdle now : time) (g : cgroup) (k : key) : bool :=
  match pel g !! k with Some p => delivered p + minIdle <=? now | None => false end.
Definition XPending (minIdle now : time) (count : nat) (g : cgroup) (stream : string) : list (key * Z) :=
  take count ((fun e => (e.1, match pel g !! e.1 with Some p => deliveries p | None => 0 end)) <$>
              List.filter (fun e => of_stream stream e && idle_entry minIdle now g e.1) (entries g)).

(** XADD appends an entry.  With MAXLEN it may then drop the oldest entries, up
    to one with id [cut]; as it trims approximately, it drops as many as it
    likes while the maximal length remains. *)
Definition add_entry (g : cgroup) (k : key) (payload : string) (cut : option stream_id) : cgroup :=
  mkGroup (entries g ++ [(k, payload)]) (match cut with Some i => <[k.1 := i]> (trimmed g) | None => trimmed g end)
    (last_read g) (pel g).
(** The entries of a stream after an id. *)
Definition after (s : string) (i : stream_id) (l : list (key * string)) : nat :=
  length (List.filter (fun e => of_stream s e && id_lt i e.1.2) l).
Definition may_add (maxLen : nat) (g : cgroup) (k : key) (payload : string) (cut : option stream_id) : Prop :=
  Forall (fun e => e.1.1 = k.1 -> id_lt e.1.2 k.2 = true) (entries g) /\ unread (last_read g) k = true /\ held g k = true /\
  match cut with
  | None => True
  | Some i => held g (k.1, i) = true /\ (maxLen <= after k.1 i (entries g ++ [(k, payload)]))%nat
  end.

(** An iteration of a worker's Subscribe: up to ten new entries of each stream,
    each handed to [recv]; [grp] is the group in the worker's state. *)
Definition Subscribe_once {St} (grp : St -> cgroup) (recv : St -> key * string -> St) (streams : list string) (st : St) : St :=
  foldl (fun st s => foldl recv st (take 10 (unread_of (grp st) s))) st streams.

(** ** Lemmas *)

Lemma id_lt_spec a b : id_lt a b = true <-> a.1 < b.1 \/ a.1 = b.1 /\ a.2 < b.2.
Proof. unfold id_lt. rewrite orb_true_iff, andb_true_iff, !Z.ltb_lt, Z.eqb_eq. done. Qed.
Lemma id_lt_trans a b c : id_lt a b = true -> id_lt b c = true -> id_lt a c = true.
Proof. rewrite !id_lt_spec. lia. Qed.
Lemma id_lt_irrefl a : id_lt a a = false.
Proof. destruct (id_lt a a) eqn:E; [|done]. apply id_lt_spec in E. lia. Qed.

Definition entry_lt (e e' : key * string) : Prop := id_lt e.1.2 e'.1.2 = true.

(** Every stream holds its entries in the order of their ids. *)
Definition in_order (l : list (key * string)) : Prop := forall s, StronglySorted entry_lt (List.filter (of_stream s) l).

Lemma unread_of_filter g s :
  unread_of g s = List.filter (fun e => unread (last_read g) e.1 && held g e.1) (List.filter (of_stream s) (entries g)).
Proof. unfold unread_of. by rewrite filter_filter_and. Qed.

Lemma elem_of_unread_of g s e : e ∈ unread_of g s <-> e ∈ entries g /\ e.1.1 = s /\ unread (last_read g) e.1 = true /\ held g e.1 = true.
Proof. unfold unread_of. by rewrite elem_of_filter_bool, !andb_true_iff, bool_decide_eq_true. Qed.

Lemma in_order_key l k p p' : in_order l -> (k, p) ∈ l -> (k, p') ∈ l -> p = p'.
Proof.
  intros Hl Hp Hp'. specialize (Hl k.1).
  assert (Hin : forall q, (k, q) ∈ l -> (k, q) ∈ List.filter (of_stream k.1) l).
  { intros q Hq. apply elem_of_filter_bool. split; [done|]. unfold of_stream. simpl. by apply bool_decide_true. }
  apply Hin in Hp, Hp'. clear Hin. induction Hl as [|x m Hm IH Hx]; [by apply not_elem_of_nil in Hp|].
  rewrite Forall_forall in Hx. apply elem_of_cons in Hp, Hp'.
  destruct Hp as [<-|Hp], Hp' as [E|Hp']; [congruence| | |by apply IH].
  - specialize (Hx _ Hp'). unfold entry_lt in Hx. simpl in Hx. by rewrite id_lt_irrefl in Hx.
  - subst x. specialize (Hx _ Hp). unfold entry_lt in Hx. simpl in Hx. by rewrite id_lt_irrefl in Hx.
Qed.

Lemma in_order_snoc l k p : in_order l -> Forall (fun e => e.1.1 = k.1 -> id_lt e.1.2 k.2 = true) l ->
  in_order (l ++ [(k, p)]).
Proof.
  intros Hl Hnew s. rewrite List.filter_app. simpl. unfold of_stream at 2. simpl. case_bool_decide as Hs; [|by rewrite app_nil_r].
  specialize (Hl s). assert (Hlt : Forall (fun e => entry_lt e (k, p)) (List.filter (of_stream s) l)).
  { rewrite Forall_forall in *. intros e [He Hes]%elem_of_filter_bool. unfold of_stream in Hes. apply bool_decide_eq_true in Hes.
    apply Hnew; [done|congruence]. }
  clear -Hl Hlt. induction Hl as [|x m Hm IH Hx]; simpl; [by repeat constructor|].
  apply Forall_cons in Hlt as [Hxk Hmk]. constructor; [by apply IH|]. apply Forall_app_2; [done|by constructor].
Qed.

(** The keys of a stream are distinct. *)
Lemma in_order_NoDup l s : in_order l -> NoDup (fst <$> List.filter (of_stream s) l).
Proof.
  intros Hl. specialize (Hl s). induction Hl as [|x m _ IH Hx]; [constructor|]. rewrite fmap_cons. apply NoDup_cons. split; [|done].
  intros (y & E & Hy)%list_elem_of_fmap. rewrite Forall_forall in Hx. specialize (Hx y Hy). unfold entry_lt in Hx.
  by rewrite E, id_lt_irrefl in Hx.
Qed.

(** *** Reading is receiving entries one after the other *)

(** [e] is the next entry of its stream. *)
Definition next_unread (g : cgroup) (e : key * string) : Prop :=
  e ∈ entries g /\ unread (last_read g) e.1 = true /\ held g e.1 = true /\
  forall e', e' ∈ entries g -> e'.1.1 = e.1.1 -> unread (last_read g) e'.1 = true -> held g e'.1 = true -> e' = e \/ id_lt e.1.2 e'.1.2 = true.

Section Reading.
Context {St : Type} (grp : St -> cgroup) (recv : St -> key * string -> St).
Hypothesis recv_entries : forall st e, entries (grp (recv st e)) = entries (grp st).
Hypothesis recv_trimmed : forall st e, trimmed (grp (recv st e)) = trimmed (grp st).
Hypothesis recv_last : forall st e, last_read (grp (recv st e)) = <[e.1.1 := e.1.2]> (last_read (grp st)).

Lemma held_recv st e k : held (grp (recv st e)) k = held (grp st) k.
Proof using recv_trimmed. unfold held. by rewrite recv_trimmed. Qed.

(** After an entry is received, the entries read are those read before and it. *)
Lemma unread_recv st e e' : next_unread (grp st) e -> e' ∈ entries (grp st) -> held (grp st) e'.1 = true ->
  unread (last_read (grp (recv st e))) e'.1 = unread (last_read (grp st)) e'.1 && negb (bool_decide (e' = e)).
Proof using recv_last.
  intros (He & Hu & _ & Hnext) He' Hh. rewrite recv_last. unfold unread at 1.
  destruct (decide (e'.1.1 = e.1.1)) as [Es|Hne].
  - rewrite Es, lookup_insert_eq. destruct (unread (last_read (grp st)) e'.1) eqn:Eu; simpl.
    + case_bool_decide as E; [subst e'; apply id_lt_irrefl|]. by destruct (Hnext e' He' Es Eu Hh).
    + destruct (id_lt e.1.2 e'.1.2) eqn:Elt; [|done]. unfold unread in Eu, Hu. rewrite Es in Eu.
      destruct (last_read (grp st) !! e.1.1) as [i|]; [|done]. by rewrite (id_lt_trans _ _ _ Hu Elt) in Eu.
  - rewrite lookup_insert_ne by done. rewrite bool_decide_false by congruence. by rewrite andb_true_r.
Qed.

Lemma unread_recv_old st e k : unread (last_read (grp st)) e.1 = true ->
  unread (last_read (grp (recv st e))) k = true -> unread (last_read (grp st)) k = true /\ k <> e.1.
Proof using recv_last.
  rewrite recv_last. intros He. unfold unread at 1. destruct (decide (e.1.1 = k.1)) as [Es|Hne].
  - rewrite <-Es, lookup_insert_eq. intros Hlt. split; [|intros ->; by rewrite id_lt_irrefl in Hlt].
    unfold unread in *. rewrite <-Es. destruct (last_read (grp st) !! e.1.1); [|done]. by eapply id_lt_trans.
  - rewrite lookup_insert_ne by done. intros Hk. split; [done|]. by intros ->.
Qed.

(** Receiving the first unread entry of a stream leaves the others unread. *)
Lemma recv_head st s e l : in_order (entries (grp st)) -> unread_of (grp st) s = e :: l ->
  next_unread (grp st) e /\ unread_of (grp (recv st e)) s = l.
Proof using recv_entries recv_last recv_trimmed.
  intros Hord Hl. pose proof (Hord s) as Hs.
  pose proof (StronglySorted_filter _ (fun e => unread (last_read (grp st)) e.1 && held (grp st) e.1) _ Hs) as Hsl.
  rewrite <-unread_of_filter, Hl in Hsl. inversion Hsl as [|? ? Hsort Hlt]; subst.
  assert (Hmem : forall e', e' ∈ e :: l <-> e' ∈ entries (grp st) /\ e'.1.1 = s /\ unread (last_read (grp st)) e'.1 = true /\ held (grp st) e'.1 = true).
  { intros e'. rewrite <-Hl. apply elem_of_unread_of. }
  pose proof (proj1 (Hmem e) ltac:(by left)) as (He & Hes & Heu & Heh).
  assert (Hnext : next_unread (grp st) e).
  { split_and!; [done..|]. intros e' He' Es Eu Eh. rewrite Forall_forall in Hlt.
    assert (Hin' : e' ∈ e :: l) by (apply Hmem; split_and!; [done|congruence|done|done]).
    apply elem_of_cons in Hin' as [->|Hin']; [by left|right]. by apply Hlt. }
  split; [done|]. unfold unread_of. rewrite recv_entries. transitivity (List.filter (fun e' => negb (bool_decide (e' = e))) (e :: l)).
  - rewrite <-Hl. unfold unread_of. rewrite filter_filter_and. apply List.filter_ext_in. intros e' He'%list_elem_of_In.
    rewrite held_recv. destruct (held (grp st) e'.1) eqn:Eh; [|by rewrite !andb_false_r].
    rewrite unread_recv by done. rewrite !andb_true_r. by rewrite andb_assoc.
  - simpl. rewrite bool_decide_true by done. simpl. apply filter_all, Forall_forall. intros e' He'.
    rewrite Forall_forall in Hlt. specialize (Hlt e' He'). unfold entry_lt in Hlt.
    rewrite bool_decide_false; [done|]. intros ->. by rewrite id_lt_irrefl in Hlt.
Qed.

(** A read of one stream delivers its first ten unread entries. *)
Lemma Subscribe_once_reads s st : in_order (entries (grp st)) ->
  unread_of (grp (Subscribe_once grp recv [s] st)) s = drop 10 (unread_of (grp st) s).
Proof using recv_entries recv_last recv_trimmed.
  intros Hord. unfold Subscribe_once. simpl.
  assert (Hn : forall n l st, in_order (entries (grp st)) -> unread_of (grp st) s = l ->
    unread_of (grp (foldl recv st (take n l))) s = drop n l).
  { clear -recv_entries recv_last recv_trimmed. induction n as [|n IH]; intros l st Hord Hl; [done|]. destruct l as [|e l]; [done|]. simpl.
    destruct (recv_head st s e l Hord Hl) as [_ Hrest]. apply IH; [by rewrite recv_entries|done]. }
  by apply Hn.
Qed.

(** Receiving the first [n] unread entries of a stream. *)
Lemma prefix_ind (P : St -> Prop) s :
  (forall st e, P st -> in_order (entries (grp st)) -> next_unread (grp st) e -> P (recv st e)) ->
  forall n st, in_order (entries (grp st)) -> P st ->
  P (foldl recv st (take n (unread_of (grp st) s))) /\
  entries (grp (foldl recv st (take n (unread_of (grp st) s)))) = entries (grp st).
Proof using recv_entries recv_last recv_trimmed.
  intros Hrec n st Hord HP. remember (unread_of (grp st) s) as l eqn:Hl. symmetry in Hl. revert l st Hord Hl HP.
  induction n as [|n IHn]; intros l st Hord Hl HP; [done|]. destruct l as [|e l]; [done|]. simpl.
  destruct (recv_head st s e l Hord Hl) as [Hnext Hrest].
  destruct (IHn l (recv st e)) as [HP' He']; [by rewrite recv_entries|done|by apply Hrec|].
  split; [done|]. by rewrite He', recv_entries.
Qed.

Lemma Subscribe_once_ind (P : St -> Prop) streams st : in_order (entries (grp st)) ->
  (forall st e, P st -> in_order (entries (grp st)) -> next_unread (grp st) e -> P (recv st e)) ->
  P st -> P (Subscribe_once grp recv streams st).
Proof using recv_entries recv_last recv_trimmed.
  intros Hord Hrec. unfold Subscribe_once. revert st Hord.
  induction streams as [|s streams IH]; intros st Hord HP; [done|]. simpl.
  destruct (prefix_ind P s Hrec 10%nat st Hord HP) as [HP' He]. apply IH; [by rewrite He|done].
Qed.
End Reading.

(** *** What is dropped *)

(** A stream has dropped only what more than [maxLen] entries have followed. *)
Definition bounded_trim (maxLen : nat) (g : cgroup) : Prop :=
  forall s i, trimmed g !! s = Some i -> (maxLen <= after s i (entries g))%nat.

Lemma after_app s i l l' : after s i (l ++ l') = (after s i l + after s i l')%nat.
Proof. unfold after. by rewrite List.filter_app, length_app. Qed.

Lemma bounded_trim_add maxLen g k payload cut : bounded_trim maxLen g -> may_add maxLen g k payload cut ->
  bounded_trim maxLen (add_entry g k payload cut).
Proof.
  intros Hg (_ & _ & _ & Hcut) s i. unfold add_entry. cbn [entries trimmed]. destruct cut as [j|].
  - intros [[<- <-]|[_ Hi]]%lookup_insert_Some; [apply Hcut|]. specialize (Hg s i Hi). rewrite after_app. lia.
  - intros Hi. specialize (Hg s i Hi). rewrite after_app. lia.
Qed.

Lemma after_le s i j l : id_lt j i = true \/ j = i -> (after s i l <= after s j l)%nat.
Proof.
  intros Hij. unfold after. induction l as [|e l IH]; [done|]. simpl. destruct (of_stream s e); simpl; [|done].
  destruct (id_lt i e.1.2) eqn:Ei, (id_lt j e.1.2) eqn:Ej; simpl; try lia.
  destruct Hij as [Hij|<-]; [by rewrite (id_lt_trans _ _ _ Hij Ei) in Ej|congruence].
Qed.

(** So an entry is held while fewer have followed it. *)
Lemma held_recent maxLen g k : bounded_trim maxLen g -> (after k.1 k.2 (entries g) < maxLen)%nat -> held g k = true.
Proof.
  intros Hg Hk. unfold held, unread. destruct (trimmed g !! k.1) as [i|] eqn:Ei; [|done]. specialize (Hg _ _ Ei).
  destruct (id_lt i k.2) eqn:E; [done|]. exfalso.
  assert (Hle : id_lt k.2 i = true \/ k.2 = i).
  { destruct (decide (k.2 = i)) as [|Hne]; [by right|left]. destruct k as [s [a b]], i as [c d]. simpl in *. apply id_lt_spec.
    destruct (id_lt (c, d) (a, b)) eqn:E'; [done|]. unfold id_lt in E'. simpl in *.
    apply orb_false_iff in E' as [E1 E2]. apply Z.ltb_ge in E1. apply andb_false_iff in E2.
    destruct E2 as [E2%Z.eqb_neq|E2%Z.ltb_ge]; [lia|]. destruct (decide (a = c)); [subst; right|left; lia].
    split; [done|]. assert (b <> d) by congruence. lia. }
  pose proof (after_le k.1 i k.2 (entries g) Hle). lia.
Qed.

(** *** Claiming *)

Lemma XAck_entries acked g k : entries (XAck acked g k) = entries g.
Proof. by destruct acked. Qed.

(** An invariant of claiming and acknowledging. *)
Lemma XClaim_cases minIdle now g k (P : cgroup * bool -> Prop) :
  P (g, false) ->
  (forall p, pel g !! k = Some p -> held g k = false -> P (XAck true g k, false)) ->
  (forall p, pel g !! k = Some p -> held g k = true -> delivered p + minIdle <= now -> P (claim now g k p, true)) ->
  P (XClaim minIdle now g k).
Proof.
  intros H0 Hgone Hclaim. unfold XClaim. destruct (pel g !! k) as [p|] eqn:Ep; [|done].
  destruct (held g k) eqn:Eh; simpl; [|by eapply Hgone]. destruct (Z.leb_spec (delivered p + minIdle) now); [by apply Hclaim|done].
Qed.

Lemma XClaim_fields minIdle now g k :
  entries (XClaim minIdle now g k).1 = entries g /\ trimmed (XClaim minIdle now g k).1 = trimmed g /\
  last_read (XClaim minIdle now g k).1 = last_read g.
Proof. by apply XClaim_cases. Qed.

Lemma elem_of_XPending minIdle now count g s k c : (k, c) ∈ XPending minIdle now count g s ->
  k.1 = s /\ (exists payload, (k, payload) ∈ entries g) /\ idle_entry minIdle now g k = true /\
  (forall p, pel g !! k = Some p -> deliveries p = c).
Proof.
  unfold XPending. intros (i & Hi & _)%elem_of_take. apply list_elem_of_lookup_2 in Hi.
  apply list_elem_of_fmap in Hi as ([k' q] & [= -> ->] & [Hin [Hs Hidle]%andb_true_iff]%elem_of_filter_bool).
  apply bool_decide_eq_true in Hs. split_and!; [done|by exists q|done|]. simpl. by intros p ->.
Qed.

Lemma XPending_NoDup minIdle now count g s : in_order (entries g) -> NoDup (XPending minIdle now count g s).*1.
Proof.
  intros Ho. unfold XPending. rewrite fmap_take, <-list_fmap_compose. eapply sublist_NoDup; [|apply sublist_take].
  change (NoDup (fst <$> List.filter (fun e => of_stream s e && idle_entry minIdle now g e.1) (entries g))).
  replace (List.filter (fun e => of_stream s e && idle_entry minIdle now g e.1) (entries g)) with
    (List.filter (fun e => idle_entry minIdle now g e.1) (List.filter (of_stream s) (entries g))) by apply filter_filter_and.
  apply NoDup_fmap_filter. by apply in_order_NoDup.
Qed.

(** Once claimed, or forgotten, an entry is idle no more. *)
Lemma XClaim_idle minIdle now g k : 0 < minIdle -> idle_entry minIdle now g k = true ->
  let g' := (XClaim minIdle now g k).1 in
  idle_entry minIdle now g' k = false /\ forall k', k' <> k -> pel g' !! k' = pel g !! k'.
Proof.
  intros Hpos. unfold idle_entry at 1, XClaim. destruct (pel g !! k) as [p|]; [|done]. intros Hidle. rewrite Hidle. unfold idle_entry.
  destruct (held g k); simpl.
  - rewrite lookup_insert_eq. simpl. split; [apply Z.leb_gt; lia|]. intros k' Hne. by rewrite lookup_insert_ne.
  - rewrite lookup_delete_eq. split; [done|]. intros k' Hne. by rewrite lookup_delete_ne.
Qed.

Lemma XClaim_held minIdle now g k : idle_entry minIdle now g k = true -> held g k = true ->
  exists p, pel g !! k = Some p /\ XClaim minIdle now g k = (claim now g k p, true).
Proof.
  unfold idle_entry, XClaim. destruct (pel g !! k) as [p|]; [|done]. intros Hidle Hh. exists p. by rewrite Hh, Hidle.
Qed.

(** The entries of a stream idle so long. *)
Definition idle_count (minIdle now : time) (g : cgroup) (s : string) : nat :=
  length (List.filter (fun e => of_stream s e && idle_entry minIdle now g e.1) (entries g)).

Lemma length_XPending minIdle now count g s : length (XPending minIdle now count g s) = Nat.min count (idle_count minIdle now g s).
Proof. unfold XPending, idle_count. by rewrite length_take, length_fmap. Qed.

Lemma idle_count_pos minIdle now g k payload : (k, payload) ∈ entries g -> idle_entry minIdle now g k = true ->
  (0 < idle_count minIdle now g k.1)%nat.
Proof.
  intros Hin Hidle. unfold idle_count. destruct (List.filter _ _) eqn:E; [|simpl; lia]. exfalso.
  apply (not_elem_of_nil (k, payload)). rewrite <-E. apply elem_of_filter_bool. split; [done|]. simpl. unfold of_stream. simpl.
  by rewrite bool_decide_true, Hidle.
Qed.

Lemma idle_count_lt minIdle now g g' k payload : entries g' = entries g -> (k, payload) ∈ entries g ->
  idle_entry minIdle now g k = true -> idle_entry minIdle now g' k = false ->
  (forall k', k' <> k -> pel g' !! k' = pel g !! k') -> (idle_count minIdle now g' k.1 < idle_count minIdle now g k.1)%nat.
Proof.
  intros He Hin Hi Hi' Hother. unfold idle_count. rewrite He. revert Hin. generalize (entries g). clear He.
  assert (Himp : forall e : key * string, idle_entry minIdle now g' e.1 = true -> idle_entry minIdle now g e.1 = true).
  { intros e. destruct (decide (e.1 = k)) as [-> |Hne]; [done|]. unfold idle_entry. by rewrite Hother. }
  assert (Hle : forall l : list (key * string), (length (List.filter (fun e => of_stream k.1 e && idle_entry minIdle now g' e.1) l) <=
    length (List.filter (fun e => of_stream k.1 e && idle_entry minIdle now g e.1) l))%nat).
  { induction l as [|e l IH]; [done|]. simpl. destruct (of_stream k.1 e); simpl; [|done].
    destruct (idle_entry minIdle now g' e.1) eqn:E; [rewrite Himp by done; simpl; lia|]. destruct (idle_entry minIdle now g e.1); simpl; lia. }
  induction l as [|e l IH]; [by intros ?%not_elem_of_nil|]. intros [<-|Hin]%elem_of_cons; simpl.
  - assert (Es : of_stream k.1 (k, payload) = true) by by apply bool_decide_true. rewrite Es, Hi, Hi'. simpl. specialize (Hle l). lia.
  - specialize (IH Hin). destruct (of_stream k.1 e); simpl; [|done].
    destruct (idle_entry minIdle now g' e.1) eqn:E; [rewrite Himp by done; simpl; lia|]. destruct (idle_entry minIdle now g e.1); simpl; lia.
Qed.
