(* ===== verification/Streams.v ===== *)
(** The stream consumer of the cognitive worker ([internal/worker/cognitive.go]):
    its reading, retrying and dead-letter logic.  The worker is a state machine
    over the streams of all tenants, one consumer group ([Groups]), and what its
    processes keep in memory; what processing a payload does is left open here:
    an attempt ends in success, a transient error or an unrecoverable one.

    Any number of processes may run the worker, under one consumer name as the
    program has it; each may stop at any step and start again with empty memory.
    A read is one step together with the start of its goroutines.  The
    reclaiming loop lists pending entries and then claims them one by one, each
    a step of its own; the ends of goroutines interleave freely with all other
    steps.  Streams are trimmed as XADD does it. *)
From Stdlib Require Import Ascii String.
From S2P Require Import Prelude GoStd GoStrings Float64 Model Db MessageRepo Redis Groups.

Local Open Scope Z_scope.

Definition cognitiveMaxRetries : Z := 8.
Definition cognitiveRetryIdleTime : time := 2 * minute.
Definition cognitiveStreamSuffix : string := ":stream:cognitive".
Definition cognitiveDLQSuffix : string := ":stream:cognitive:dlq".
(** The MaxLen of XAddCognitiveBatch. *)
Definition streamMaxLen : nat := Z.to_nat 10000.

(** [strings.SplitN(stream, cognitiveStreamSuffix, 2)[0]] *)
Definition tenantPrefix (stream : string) : string := Before stream cognitiveStreamSuffix.
Definition dlq_of (stream : string) : string := tenantPrefix stream +:+ cognitiveDLQSuffix.

(** A goroutine: its process, the entry it handles and, for the cognitive
    worker, the [retries] it was started with. *)
Record attempt := mkAttempt { at_proc : nat; at_key : key; at_payload : string; at_retries : Z }.

(** A record added to a dead-letter stream. *)
Record dead := mkDead { dead_stream : string; dead_payload : string; dead_retries : Z; dead_error : error }.

(** [listed] is what the reclaiming loop of a process has still to go through. *)
Record wstate := mkState {
  grp :> cgroup;
  inFlight : gset (nat * stream_id);
  listed : gmap nat (list (key * Z));
  running : list attempt;
  dlq : list dead;
}.
Definition initial : wstate := mkState no_streams ∅ ∅ [] [].

Definition on_group (f : cgroup -> cgroup) (st : wstate) : wstate :=
  mkState (f (grp st)) (inFlight st) (listed st) (running st) (dlq st).
Definition set_listed (p : nat) (l : list (key * Z)) (st : wstate) : wstate :=
  mkState (grp st) (inFlight st) (<[p := l]> (listed st)) (running st) (dlq st).
Definition to_claim (st : wstate) (p : nat) : list (key * Z) := default [] (listed st !! p).

Definition add_dead (stored : bool) (st : wstate) (r : dead) : wstate :=
  if stored then mkState (grp st) (inFlight st) (listed st) (running st) (dlq st ++ [r]) else st.

(** A process stops and starts again. *)
Definition restart (p : nat) (st : wstate) : wstate :=
  mkState (grp st) (filter (fun x => x.1 <> p) (inFlight st)) (delete p (listed st))
    (List.filter (fun a => negb (at_proc a =? p)%nat) (running st)) (dlq st).

(** ** The cognitive worker *)

(** How processBatchPayload ends. *)
Inductive outcome := Success | Transient (e : error) | Unrecoverable (e : error).
Definition isUnrecoverable (o : outcome) : bool := match o with Unrecoverable _ => true | _ => false end.

(** [inFlight.Store] and the start of a goroutine. *)
Definition start (p : nat) (st : wstate) (k : key) (payload : string) (retries : Z) : wstate :=
  mkState (grp st) ({[ (p, k.2) ]} ∪ inFlight st) (listed st) (running st ++ [mkAttempt p k payload retries]) (dlq st).

(** One message of the Subscribe loop, as XREADGROUP delivers it; [heard] is
    false when Redis has delivered the entries but the reply does not arrive. *)
Definition receive (p : nat) (now : time) (heard : bool) (st : wstate) (e : key * string) : wstate :=
  let st := on_group (fun g => deliver now g e.1) st in
  if heard then (if decide ((p, e.1.2) ∈ inFlight st) then st else start p st e.1 e.2 0) else st.

(** The end of handleStreamMessage, once the payload is processed; [acked] and
    [stored] say whether the XACK and the XADD to the dead-letter stream
    succeed (the code ignores both). *)
Definition handleStreamMessage (a : attempt) (o : outcome) (acked stored : bool) (st : wstate) : wstate :=
  match o with
  | Success => on_group (fun g => XAck acked g (at_key a)) st
  | Transient e | Unrecoverable e =>
    if isUnrecoverable o || (cognitiveMaxRetries <=? at_retries a + 1) then
      on_group (fun g => XAck acked g (at_key a))
        (add_dead stored st (mkDead (dlq_of (at_key a).1) (at_payload a) (at_retries a + 1) e))
    else st
  end.

(** A goroutine ends: the deferred inFlight.Delete comes last. *)
Definition finish (i : nat) (a : attempt) (o : outcome) (acked stored : bool) (st : wstate) : wstate :=
  let st := handleStreamMessage a o acked stored st in
  mkState (grp st) (inFlight st ∖ {[ (at_proc a, (at_key a).2) ]}) (listed st) (delete i (running st)) (dlq st).

(** reclaimPending: it lists the idle entries of a stream, *)
Definition list_pending (p : nat) (now : time) (stream : string) (st : wstate) : wstate :=
  set_listed p (XPending cognitiveRetryIdleTime now 10 st stream) st.
(** and for each of them, if it is not in flight, claims it and starts it again
    with the number of deliveries that was listed, less one.  [reached]: the
    XCLAIM gets to Redis; [heard]: its reply comes back. *)
Definition reclaim (p : nat) (now : time) (reached heard : bool) (payload : string) (st : wstate) : wstate :=
  match to_claim st p with
  | [] => st
  | (k, c) :: rest =>
    let st := set_listed p rest st in
    if decide ((p, k.2) ∈ inFlight st) then st
    else if negb reached then st
    else let '(g, got) := XClaim cognitiveRetryIdleTime now st k in
         let st := on_group (fun _ => g) st in
         if got && heard then start p st k payload (c - 1) else st
  end.

(** What happens: a producer adds an entry, a process reads, a goroutine ends,
    a process lists pending entries or claims one, a process restarts. *)
Inductive event :=
  | Added (k : key)
  | Read (p : nat) (streams : list string)
  | Finished (k : key) (retries : Z) (o : outcome) (acked stored : bool)
  | Listed (p : nat) (stream : string)
  | Reclaimed (p : nat) (k : key)
  | Restarted (p : nat).

Inductive step (st : wstate) : event -> wstate -> Prop :=
  | step_add k payload cut : may_add streamMaxLen st k payload cut ->
      step st (Added k) (on_group (fun g => add_entry g k payload cut) st)
  | step_read p now heard streams : step st (Read p streams) (Subscribe_once grp (receive p now heard) streams st)
  | step_finish i a o acked stored : running st !! i = Some a ->
      step st (Finished (at_key a) (at_retries a) o acked stored) (finish i a o acked stored st)
  | step_list p now stream : to_claim st p = [] -> step st (Listed p stream) (list_pending p now stream st)
  | step_reclaim p now reached heard k c rest payload :
      to_claim st p = (k, c) :: rest -> (k, payload) ∈ entries st ->
      step st (Reclaimed p k) (reclaim p now reached heard payload st)
  | step_restart p : step st (Restarted p) (restart p st).

Inductive run : list event -> wstate -> Prop :=
  | run_nil : run [] initial
  | run_step tr st e st' : run tr st -> step st e st' -> run (tr ++ [e]) st'.

(** ** Lemmas *)

Lemma elem_of_running_restart p st a : a ∈ running (restart p st) <-> a ∈ running st /\ at_proc a <> p.
Proof. unfold restart. simpl. by rewrite elem_of_filter_bool, negb_true_iff, Nat.eqb_neq. Qed.

Lemma to_claim_set p l st q : to_claim (set_listed p l st) q = if decide (p = q) then l else to_claim st q.
Proof.
  unfold to_claim, set_listed. simpl. case_decide as E; [subst q; by rewrite lookup_insert_eq|by rewrite lookup_insert_ne].
Qed.

Lemma to_claim_restart p st q : to_claim (restart p st) q = if decide (p = q) then [] else to_claim st q.
Proof.
  unfold to_claim, restart. simpl. case_decide as E; [subst q; by rewrite lookup_delete_eq|by rewrite lookup_delete_ne].
Qed.

Lemma receive_fields p now heard st e :
  entries (receive p now heard st e) = entries st /\ trimmed (receive p now heard st e) = trimmed st /\
  last_read (receive p now heard st e) = <[e.1.1 := e.1.2]> (last_read st) /\
  pel (receive p now heard st e) = <[e.1 := mkPending now 1]> (pel st) /\
  listed (receive p now heard st e) = listed st /\ dlq (receive p now heard st e) = dlq st.
Proof. unfold receive. destruct heard; [by case_decide|done]. Qed.
Lemma receive_entries p now heard st e : entries (receive p now heard st e) = entries st.
Proof. apply receive_fields. Qed.
Lemma receive_trimmed p now heard st e : trimmed (receive p now heard st e) = trimmed st.
Proof. apply receive_fields. Qed.
Lemma receive_last p now heard st e : last_read (receive p now heard st e) = <[e.1.1 := e.1.2]> (last_read st).
Proof. apply receive_fields. Qed.
Lemma receive_pel p now heard st e : pel (receive p now heard st e) = <[e.1 := mkPending now 1]> (pel st).
Proof. apply receive_fields. Qed.

Definition unread_receive p now heard := unread_recv grp (receive p now heard) (receive_last p now heard).
Definition reading_ind p now heard :=
  Subscribe_once_ind grp (receive p now heard) (receive_entries p now heard) (receive_trimmed p now heard) (receive_last p now heard).

Lemma handle_fields a o acked stored st : entries (handleStreamMessage a o acked stored st) = entries st /\
  trimmed (handleStreamMessage a o acked stored st) = trimmed st /\
  last_read (handleStreamMessage a o acked stored st) = last_read st /\
  running (handleStreamMessage a o acked stored st) = running st /\
  inFlight (handleStreamMessage a o acked stored st) = inFlight st /\
  listed (handleStreamMessage a o acked stored st) = listed st.
Proof. unfold handleStreamMessage, XAck, add_dead. destruct o, acked, stored; simpl; try case_match; done. Qed.

Lemma handle_pel a o acked stored st :
  pel (handleStreamMessage a o acked stored st) = pel st \/
  pel (handleStreamMessage a o acked stored st) = delete (at_key a) (pel st).
Proof. unfold handleStreamMessage, XAck, add_dead. destruct o, acked, stored; simpl; try case_match; auto. Qed.

(** What going on with a listed entry can do. *)
Lemma reclaim_cases p now reached heard payload st k c rest (P : wstate -> Prop) : to_claim st p = (k, c) :: rest ->
  P (set_listed p rest st) ->
  (forall q, (p, k.2) ∉ inFlight st -> pel st !! k = Some q -> held st k = false ->
     P (on_group (fun g => XAck true g k) (set_listed p rest st))) ->
  (forall q, (p, k.2) ∉ inFlight st -> pel st !! k = Some q -> held st k = true ->
     P (on_group (fun g => claim now g k q) (set_listed p rest st)) /\
     P (start p (on_group (fun g => claim now g k q) (set_listed p rest st)) k payload (c - 1))) ->
  P (reclaim p now reached heard payload st).
Proof.
  intros El H0 Hgone Hclaim. unfold reclaim. rewrite El. cbv zeta. case_decide as Hf; [done|]. destruct reached; [|done]. simpl negb. cbv iota.
  apply (XClaim_cases _ _ (set_listed p rest st) k (fun x => P (let '(g, got) := x in _))).
  - done.
  - intros q Hq Hh. by eapply Hgone.
  - intros q Hq Hh _. destruct (Hclaim q Hf Hq Hh) as [H1 H2]. by destruct heard.
Qed.

(** *** Structure *)

Record well_formed (st : wstate) : Prop := {
  wf_order : in_order (entries st);
  wf_trim : bounded_trim streamMaxLen st;
  wf_pel : forall k, is_Some (pel st !! k) -> exists p, (k, p) ∈ entries st /\ unread (last_read st) k = false;
  wf_running : forall a, a ∈ running st -> (at_key a, at_payload a) ∈ entries st /\ unread (last_read st) (at_key a) = false;
}.

Lemma well_formed_receive p now heard st e : well_formed st -> next_unread st e -> well_formed (receive p now heard st e).
Proof.
  intros [Ho Ht Hp Hr] Hn. pose proof Hn as (He & Hun & Hh & _).
  assert (Hu : forall k, unread (last_read st) k = false -> unread (last_read (receive p now heard st e)) k = false).
  { intros k Hk. destruct (unread (last_read (receive p now heard st e)) k) eqn:E; [|done].
    apply (unread_recv_old grp _ (receive_last p now heard) st e k Hun) in E as [E _]. congruence. }
  assert (Hself : unread (last_read (receive p now heard st e)) e.1 = false).
  { pose proof (unread_receive p now heard st e e Hn He Hh) as E. rewrite E, bool_decide_true by done. apply andb_false_r. }
  split.
  - by rewrite receive_entries.
  - unfold bounded_trim. by rewrite receive_entries, receive_trimmed.
  - intros k. rewrite receive_pel, receive_entries, lookup_insert_is_Some. intros [<- | [_ (q & Hk & Hread)%Hp]].
    + exists e.2. by destruct e.
    + exists q. split; [done|]. by apply Hu.
  - intros a. rewrite receive_entries.
    assert (Hold : a ∈ running st -> (at_key a, at_payload a) ∈ entries st /\ unread (last_read (receive p now heard st e)) (at_key a) = false).
    { intros [Ha Hread]%Hr. split; [done|]. by apply Hu. }
    unfold receive at 1. destruct heard; [|exact Hold]. case_decide; [exact Hold|].
    simpl. intros [Ha | ->%list_elem_of_singleton]%elem_of_app; [by apply Hold|by destruct e].
Qed.

Lemma well_formed_step st ev st' : well_formed st -> step st ev st' -> well_formed st'.
Proof.
  intros Hwf Hstep. destruct Hstep as [k payload cut Hadd|p now heard streams|i a o acked stored Ha|p now stream _|
    p now reached heard k c rest payload El Hpay|p].
  - destruct Hwf as [Ho Ht Hp Hr]. split; simpl.
    + apply in_order_snoc; [done|apply Hadd].
    + by apply (bounded_trim_add _ _ _ payload cut).
    + intros k' (q & Hq & Hread)%Hp. exists q. split; [apply elem_of_app; by left|done].
    + intros a [Ha Hread]%Hr. split; [apply elem_of_app; by left|done].
  - apply reading_ind; [apply Hwf| |done]. intros st1 e H1 _ Hn. by apply well_formed_receive.
  - destruct Hwf as [Ho Ht Hp Hr]. unfold finish. destruct (handle_fields a o acked stored st) as (E1 & Et & E2 & E3 & _).
    split; cbn [grp running]; unfold bounded_trim; rewrite ?E1, ?Et, ?E2, ?E3; [done|done| |].
    + intros k Hk. apply Hp. destruct (handle_pel a o acked stored st) as [E|E]; rewrite E in Hk; [done|].
      apply lookup_delete_is_Some in Hk. tauto.
    + intros b Hb. apply Hr. by eapply list_elem_of_delete_inv.
  - by destruct Hwf.
  - destruct Hwf as [Ho Ht Hp Hr]. apply (reclaim_cases p now reached heard payload st k c rest); [done|by split| |].
    + intros q _ _ _. split; cbn; [done|done| |done]. intros k' [_ Hk']%lookup_delete_is_Some. by apply Hp.
    + intros q _ Hq _.
      assert (Hp' : forall k', is_Some (<[k:=mkPending now (deliveries q + 1)]> (pel st) !! k') ->
        exists x, (k', x) ∈ entries st /\ unread (last_read st) k' = false).
      { intros k'. rewrite lookup_insert_is_Some. intros [<- | [_ Hk']]; apply Hp; [by eexists|done]. }
      split; split; cbn; try done. intros b [Hb|Hb]%elem_of_app; [by apply Hr|]. apply list_elem_of_singleton in Hb as ->. simpl.
      destruct (Hp k) as (x & _ & Hread); [by eexists|done].
  - destruct Hwf as [Ho Ht Hp Hr]. split; [done..|]. intros a [Ha _]%elem_of_running_restart. by apply Hr.
Qed.

Lemma well_formed_run tr st : run tr st -> well_formed st.
Proof.
  induction 1 as [|tr st e st' _ IH Hstep]; [|by eapply well_formed_step]. split; simpl.
  - intros s. constructor.
  - intros s i Hs. cbn in Hs. by rewrite lookup_empty in Hs.
  - intros k [x Hx]. by rewrite lookup_empty in Hx.
  - intros a Ha. by apply not_elem_of_nil in Ha.
Qed.

(** *** No entry is lost *)

(** An entry has been dealt with: processed, or recorded as dead. *)
Definition settled (tr : list event) (st : wstate) (k : key) (payload : string) : Prop :=
  (exists retries acked stored, Finished k retries Success acked stored ∈ tr) \/
  (exists retries e, mkDead (dlq_of k.1) payload retries e ∈ dlq st).

(** The worker gave an entry up and acknowledged it, but the write to the
    dead-letter stream failed. *)
Definition gives_up (retries : Z) (o : outcome) : bool :=
  match o with Success => false | Transient _ | Unrecoverable _ => isUnrecoverable o || (cognitiveMaxRetries <=? retries + 1) end.
Definition dead_letter_failed (tr : list event) (k : key) : Prop :=
  exists retries o, Finished k retries o true false ∈ tr /\ gives_up retries o = true.

(** Every write to a dead-letter stream succeeded. *)
Definition dead_letters_stored (tr : list event) : Prop :=
  Forall (fun ev => match ev with Finished _ _ _ _ stored => stored = true | _ => True end) tr.

(** An entry the stream still holds is unread, pending or settled, or its
    dead-letter record was lost. *)
Definition accounted (tr : list event) (st : wstate) : Prop :=
  forall k payload, (k, payload) ∈ entries st -> held st k = true ->
    unread (last_read st) k = true \/ is_Some (pel st !! k) \/ settled tr st k payload \/ dead_letter_failed tr k.

Lemma dead_letter_failed_mono tr tr' k : dead_letter_failed tr k -> dead_letter_failed (tr ++ tr') k.
Proof. intros (r & o & Hin & Hg). exists r, o. split; [apply elem_of_app; by left|done]. Qed.

Lemma dead_letter_failed_stored tr tr' k : dead_letters_stored tr' -> dead_letter_failed (tr ++ tr') k -> dead_letter_failed tr k.
Proof.
  intros Hs (r & o & [Hin|Hin]%elem_of_app & Hg); [by exists r, o|].
  unfold dead_letters_stored in Hs. rewrite Forall_forall in Hs. by specialize (Hs _ Hin).
Qed.

Lemma settled_mono tr tr' st st' k payload : (forall d, d ∈ dlq st -> d ∈ dlq st') ->
  settled tr st k payload -> settled (tr ++ tr') st' k payload.
Proof.
  intros Hd [(r & a & s & Hin)|(r & e & Hin)]; [left|right].
  - exists r, a, s. apply elem_of_app. by left.
  - exists r, e. by apply Hd.
Qed.

Lemma accounted_mono tr ev (st st' : wstate) : entries st' = entries st -> trimmed st' = trimmed st -> last_read st' = last_read st ->
  (forall k, held st k = true -> is_Some (pel st !! k) -> is_Some (pel st' !! k)) -> (forall d, d ∈ dlq st -> d ∈ dlq st') ->
  accounted tr st -> accounted (tr ++ [ev]) st'.
Proof.
  intros He Ht Hl Hp Hd Hacc k payload. unfold held. rewrite He, Ht, Hl. intros Hin Hh.
  destruct (Hacc k payload Hin Hh) as [?|[?|[?|?]]]; [by left|right; left; auto|right; right; left|right; right; right].
  - by eapply settled_mono.
  - by apply dead_letter_failed_mono.
Qed.

Lemma unread_insert_held m (k : key) i k' : unread m (k.1, i) = true -> unread (<[k.1:=i]> m) k' = true -> unread m k' = true.
Proof.
  unfold unread. simpl. destruct (decide (k.1 = k'.1)) as [E|Hne]; [|by rewrite lookup_insert_ne].
  rewrite <-E, lookup_insert_eq. destruct (m !! k.1); [|done]. intros. by eapply id_lt_trans.
Qed.

Lemma accounted_add tr st k payload cut : accounted tr st -> may_add streamMaxLen st k payload cut ->
  accounted (tr ++ [Added k]) (on_group (fun g => add_entry g k payload cut) st).
Proof.
  intros Hacc (_ & Hun & _ & Hcut) k' q [Hq | [= -> ->]%list_elem_of_singleton]%elem_of_app Hh; [|by left].
  assert (Hh' : held st k' = true).
  { unfold held in *. simpl in Hh. destruct cut as [i|]; [|done]. by eapply unread_insert_held; [apply Hcut|]. }
  destruct (Hacc k' q Hq Hh') as [?|[?|[?|?]]]; [by left|by right; left|right; right; left; by eapply settled_mono|].
  right; right; right. by apply dead_letter_failed_mono.
Qed.

Lemma accounted_receive tr p now heard st e : accounted tr st -> next_unread st e -> accounted tr (receive p now heard st e).
Proof.
  intros Hst Hn k payload. unfold held. rewrite receive_entries, receive_trimmed. intros Hin Hh.
  pose proof (unread_receive p now heard st e (k, payload) Hn Hin Hh) as Hu. cbn [fst] in Hu. rewrite Hu, receive_pel.
  destruct (decide ((k, payload) = e)) as [<-|Hne]; [right; left; rewrite lookup_insert_eq; by eexists|].
  rewrite bool_decide_false, andb_true_r by done. destruct (Hst k payload Hin Hh) as [?|[Hpel|[Hset|?]]]; [by left|right; left|right; right; left|by right; right; right].
  - destruct (decide (e.1 = k)) as [->|?]; [rewrite lookup_insert_eq; by eexists|by rewrite lookup_insert_ne].
  - unfold settled in *. destruct (receive_fields p now heard st e) as (_ & _ & _ & _ & _ & Ed). by rewrite Ed.
Qed.

Lemma accounted_finish tr st i a o acked stored : well_formed st -> accounted tr st -> running st !! i = Some a ->
  accounted (tr ++ [Finished (at_key a) (at_retries a) o acked stored]) (finish i a o acked stored st).
Proof.
  intros Hwf Hacc Ha. destruct (handle_fields a o acked stored st) as (E1 & Et & E2 & E3 & E4 & _).
  pose proof (wf_running st Hwf a ltac:(by eapply list_elem_of_lookup_2)) as [Hpay _].
  intros k q. unfold finish, held. cbn [grp dlq]. rewrite E1, Et, E2. intros Hq Hh.
  assert (Hdlq : forall x, x ∈ dlq st -> x ∈ dlq (handleStreamMessage a o acked stored st)).
  { intros x Hx. unfold handleStreamMessage, XAck, add_dead. destruct o, acked, stored; simpl; try case_match; simpl;
      try apply elem_of_app; auto. }
  destruct (Hacc k q Hq Hh) as [?|[Hpel|[Hset|?]]];
    [by left| |right; right; left; by eapply (settled_mono _ _ st)|right; right; right; by apply dead_letter_failed_mono].
  destruct (decide (is_Some (pel (handleStreamMessage a o acked stored st) !! k))) as [?|Hgone]; [by right; left|right; right].
  assert (k = at_key a) as ->.
  { destruct (handle_pel a o acked stored st) as [E|E]; rewrite E in Hgone; [done|].
    destruct (decide (at_key a = k)); [done|]. by rewrite lookup_delete_ne in Hgone. }
  assert (q = at_payload a) as -> by (eapply in_order_key; [apply Hwf|done..]).
  assert (Hend : Finished (at_key a) (at_retries a) o acked stored ∈ tr ++ [Finished (at_key a) (at_retries a) o acked stored])
    by (apply elem_of_app; right; by left).
  destruct (gives_up (at_retries a) o) eqn:Eg.
  - destruct stored; [left; right|right].
    2: { destruct acked; [by exists (at_retries a), o|]. destruct Hgone. unfold handleStreamMessage, gives_up in *.
         destruct o as [|e|e]; [done|..]; by rewrite Eg. }
    unfold handleStreamMessage, gives_up in *. destruct o as [|e|e]; [done|..]; rewrite Eg;
      exists (at_retries a + 1), e; apply elem_of_app; right; by left.
  - left. left. exists (at_retries a), acked, stored. destruct o as [|e|e]; [exact Hend|destruct Hgone..];
      unfold handleStreamMessage, gives_up in *; by rewrite Eg.
Qed.

Lemma accounted_step tr st ev st' : well_formed st -> accounted tr st -> step st ev st' -> accounted (tr ++ [ev]) st'.
Proof.
  intros Hwf Hacc Hstep. destruct Hstep as [k payload cut Hadd|p now heard streams|i a o acked stored Ha|p now stream _|
    p now reached heard k c rest payload El Hpay|p].
  - by apply accounted_add.
  - assert (Hacc' : accounted (tr ++ [Read p streams]) st) by by apply (accounted_mono tr _ st).
    apply (reading_ind p now heard (accounted (tr ++ [Read p streams]))); [apply Hwf| |done].
    intros st1 e Hst1 _ Hn. by apply accounted_receive.
  - by apply accounted_finish.
  - by apply (accounted_mono tr _ st).
  - apply (reclaim_cases p now reached heard payload st k c rest); [done|by apply (accounted_mono tr _ st)| |].
    + intros q _ _ Hh. apply (accounted_mono tr _ st); [done..| |done|done]. intros k' Hh' Hk'. simpl.
      rewrite lookup_delete_ne; [done|]. intros ->. congruence.
    + intros q _ _ _. assert (Hpel : forall k', is_Some (pel st !! k') -> is_Some (<[k:=mkPending now (deliveries q + 1)]> (pel st) !! k')).
      { intros k' Hk'. rewrite lookup_insert_is_Some. destruct (decide (k = k')); auto. }
      split; apply (accounted_mono tr _ st); try done; intros k' _; apply Hpel.
  - by apply (accounted_mono tr _ st).
Qed.

Lemma accounted_run tr st : run tr st -> accounted tr st.
Proof.
  induction 1 as [|tr st ev st' Hrun IH Hstep]; [intros k' q []%not_elem_of_nil|]. by eapply accounted_step; [eapply well_formed_run|..].
Qed.

(** How many entries its stream was given after an entry. *)
Definition followers (st : wstate) (k : key) : nat := after k.1 k.2 (entries st).

Lemma held_run tr st k : run tr st -> (followers st k < streamMaxLen)%nat -> held st k = true.
Proof. intros Hrun Hk. eapply held_recent; [|exact Hk]. by eapply wf_trim, well_formed_run. Qed.

(** C6: how a batch job can be lost.  Whatever the interleaving of deliveries,
    failures, restarts and failing acknowledgements of any number of processes,
    every entry added to a stream is still to be read, or pending and so to be
    retried, or has been processed, or is recorded in the dead-letter stream of
    its tenant; but for two cases: the worker gave it up and its write to the
    dead-letter stream failed, or its stream was given streamMaxLen entries after
    it, when it may have been dropped. *)
Theorem no_entry_lost tr st k payload : run tr st -> (k, payload) ∈ entries st ->
  held st k = true /\ (unread (last_read st) k = true \/ is_Some (pel st !! k)) \/ settled tr st k payload \/
  dead_letter_failed tr k \/ (streamMaxLen <= followers st k)%nat.
Proof.
  intros Hrun Hin. destruct (Nat.le_gt_cases streamMaxLen (followers st k)) as [?|Hf]; [by right; right; right|].
  pose proof (held_run tr st k Hrun Hf) as Hh. destruct (accounted_run tr st Hrun k payload Hin Hh) as [?|[?|[?|?]]]; auto.
Qed.

(** *** No entry is stuck *)

(** Process 0 going through what is idle at [now] in the stream of [k]: it is
    working on nothing, and what it has listed is still idle. *)
Record reclaiming (now : time) (k : key) (st : wstate) : Prop := {
  rc_free : forall i, (0%nat, i) ∉ inFlight st;
  rc_held : held st k = true;
  rc_idle : idle_entry cognitiveRetryIdleTime now st k = true;
  rc_few : (length (to_claim st 0) <= 10)%nat;
  rc_once : NoDup (to_claim st 0).*1;
  rc_listed : forall k' c, (k', c) ∈ to_claim st 0 ->
    k'.1 = k.1 /\ (exists payload, (k', payload) ∈ entries st) /\ idle_entry cognitiveRetryIdleTime now st k' = true;
}.

Lemma reclaiming_list now k st : well_formed st -> reclaiming now k st -> reclaiming now k (list_pending 0 now k.1 st).
Proof.
  intros Hwf [Hf Hh Hi _ _ _]. unfold list_pending.
  assert (E : to_claim (set_listed 0 (XPending cognitiveRetryIdleTime now 10 st k.1) st) 0 = XPending cognitiveRetryIdleTime now 10 st k.1)
    by (rewrite to_claim_set; by rewrite decide_True).
  split; rewrite ?E; try done.
  - rewrite length_XPending. lia.
  - apply XPending_NoDup, Hwf.
  - intros k' c Hk. apply elem_of_XPending in Hk as (? & ? & ? & _). done.
Qed.

(** Another entry claimed, its reply lost. *)
Lemma reclaiming_other now k st k0 c rest payload payload0 : to_claim st 0 = (k0, c) :: rest -> (k0, payload0) ∈ entries st ->
  (k, payload) ∈ entries st -> k0 <> k -> reclaiming now k st ->
  let st' := reclaim 0 now true false payload0 st in
  reclaiming now k st' /\ to_claim st' 0 = rest /\ entries st' = entries st /\ dlq st' = dlq st /\
  (idle_count cognitiveRetryIdleTime now st' k.1 < idle_count cognitiveRetryIdleTime now st k.1)%nat.
Proof.
  intros El Hin0 Hin Hne [Hf Hh Hi Hfew Honce Hl]. unfold reclaim. rewrite El in *. cbv zeta. rewrite decide_False by apply Hf. simpl negb. cbv iota.
  destruct (Hl k0 c) as (Hs & _ & Hi0); [by left|].
  pose proof (XClaim_idle cognitiveRetryIdleTime now (set_listed 0 rest st) k0 eq_refl Hi0) as [Hgone Hother].
  pose proof (XClaim_fields cognitiveRetryIdleTime now (set_listed 0 rest st) k0) as (E1 & E2 & _).
  destruct (XClaim cognitiveRetryIdleTime now (set_listed 0 rest st) k0) as [g got]. cbn [fst] in *. rewrite andb_false_r.
  assert (Et : to_claim (on_group (fun _ => g) (set_listed 0 rest st)) 0 = rest).
  { change (to_claim (set_listed 0 rest st) 0 = rest). rewrite to_claim_set. by rewrite decide_True. }
  assert (Hsame : forall k', k' <> k0 -> idle_entry cognitiveRetryIdleTime now g k' = idle_entry cognitiveRetryIdleTime now st k').
  { intros k' Hk'. unfold idle_entry. by rewrite Hother. }
  rewrite fmap_cons in Honce. apply NoDup_cons in Honce as [Hnot Honce].
  split_and!; [|done|exact E1|done|].
  - split; rewrite ?Et; cbn [grp on_group].
    + exact Hf.
    + unfold held. by rewrite E2.
    + by rewrite Hsame.
    + simpl in Hfew. lia.
    + done.
    + intros k' c' Hk'. rewrite Hsame, E1.
      * apply (Hl k' c'). by right.
      * intros ->. apply Hnot. apply list_elem_of_fmap. by exists (k0, c').
  - rewrite <-Hs. by apply (idle_count_lt _ _ st _ _ payload0).
Qed.

(** The entry's own turn: it is claimed, started, and its attempt ends. *)
Lemma reclaiming_settles tr now k st c rest payload : run tr st -> to_claim st 0 = (k, c) :: rest -> (k, payload) ∈ entries st ->
  reclaiming now k st ->
  exists tr' st', run (tr ++ tr') st' /\ dead_letters_stored tr' /\ settled (tr ++ tr') st' k payload.
Proof.
  intros Hrun El Hin [Hf Hh Hi _ _ _]. set (s1 := reclaim 0 now true true payload st).
  assert (E : exists q, s1 = start 0 (on_group (fun g => claim now g k q) (set_listed 0 rest st)) k payload (c - 1)).
  { destruct (XClaim_held cognitiveRetryIdleTime now (set_listed 0 rest st) k Hi Hh) as (q & _ & Eq). exists q. unfold s1, reclaim. rewrite El. cbv zeta.
    rewrite decide_False by apply Hf. simpl negb. cbv iota. by rewrite Eq. }
  destruct E as [q E]. set (a := mkAttempt 0 k payload (c - 1)).
  assert (Ha : running s1 !! length (running st) = Some a) by (rewrite E; simpl; by rewrite lookup_app_r, Nat.sub_diag).
  exists [Reclaimed 0 k; Finished k (c - 1) Success true true], (finish (length (running st)) a Success true true s1).
  assert (H2 : run ((tr ++ [Reclaimed 0 k]) ++ [Finished (at_key a) (at_retries a) Success true true])
    (finish (length (running st)) a Success true true s1)).
  { apply (run_step _ s1); [|by apply step_finish]. apply (run_step _ st); [done|]. by apply (step_reclaim st 0 now true true k c rest payload). }
  rewrite <-(assoc_L (++)) in H2. split; [exact H2|]. split; [by repeat constructor|].
  left. exists (c - 1), true, true. rewrite elem_of_app. right. set_solver.
Qed.

Lemma reclaiming_ends now k payload n tr (st : wstate) : (12 * idle_count cognitiveRetryIdleTime now st k.1 + (10 - length (to_claim st 0)) <= n)%nat ->
  run tr st -> (k, payload) ∈ entries st -> reclaiming now k st ->
  exists tr' st', run (tr ++ tr') st' /\ dead_letters_stored tr' /\ settled (tr ++ tr') st' k payload.
Proof.
  revert tr st. induction n as [n IH] using lt_wf_ind. intros tr st Hn Hrun Hin Hrc.
  pose proof (idle_count_pos _ _ _ _ _ Hin (rc_idle _ _ _ Hrc)) as Hpos.
  assert (Hnext : forall ev st', step st ev st' -> dead_letters_stored [ev] -> (k, payload) ∈ entries st' -> reclaiming now k st' ->
    (12 * idle_count cognitiveRetryIdleTime now st' k.1 + (10 - length (to_claim st' 0)) <
     12 * idle_count cognitiveRetryIdleTime now st k.1 + (10 - length (to_claim st 0)))%nat ->
    exists tr' st', run (tr ++ tr') st' /\ dead_letters_stored tr' /\ settled (tr ++ tr') st' k payload).
  { intros ev st1 Hstep Hd Hin1 Hrc1 Hlt. edestruct (IH _ ltac:(eapply Nat.lt_le_trans; [exact Hlt|exact Hn]) (tr ++ [ev]) st1)
      as (tr' & st' & H1 & H2 & H3); [done|by eapply run_step|done..|]. rewrite <-(assoc_L (++)) in H1, H3.
    exists ([ev] ++ tr'), st'. split; [done|]. split; [by apply Forall_app_2|done]. }
  destruct (to_claim st 0) as [|[k0 c] rest] eqn:El.
  - apply (Hnext (Listed 0 k.1) (list_pending 0 now k.1 st)); [by apply step_list|by repeat constructor|done| |].
    + apply reclaiming_list; [by eapply well_formed_run|done].
    + unfold list_pending. rewrite to_claim_set, decide_True, length_XPending by done.
      change (idle_count cognitiveRetryIdleTime now (set_listed 0 (XPending cognitiveRetryIdleTime now 10 st k.1) st) k.1) with
        (idle_count cognitiveRetryIdleTime now st k.1). simpl length. lia.
  - destruct (decide (k0 = k)) as [->|Hne]; [by eapply reclaiming_settles|].
    destruct (rc_listed _ _ _ Hrc k0 c) as (_ & [payload0 Hin0] & _); [rewrite El; by left|].
    destruct (reclaiming_other now k st k0 c rest payload payload0 El Hin0 Hin Hne Hrc) as (Hrc' & Et & Ee & _ & Hlt).
    apply (Hnext (Reclaimed 0 k0) (reclaim 0 now true false payload0 st)); [by eapply step_reclaim|by repeat constructor|by rewrite Ee|done|].
    rewrite Et. simpl length. lia.
Qed.

(** A pending entry can be processed: a process started anew works on nothing,
    lists what is idle and comes to it. *)
Lemma pending_settles tr (st : wstate) k payload p : run tr st -> (k, payload) ∈ entries st -> held st k = true -> pel st !! k = Some p ->
  exists tr' st', run (tr ++ tr') st' /\ dead_letters_stored tr' /\ settled (tr ++ tr') st' k payload.
Proof.
  intros Hrun Hin Hh Hp. set (now := delivered p + cognitiveRetryIdleTime).
  assert (Hrun' : run (tr ++ [Restarted 0]) (restart 0 st)) by (eapply run_step; [done|apply step_restart]).
  assert (Et : to_claim (restart 0 st) 0 = []) by (rewrite to_claim_restart; by rewrite decide_True).
  destruct (reclaiming_ends now k payload _ _ _ (Nat.le_refl _) Hrun') as (tr' & st' & H1 & H2 & H3); [done| |].
  - split; rewrite ?Et; [|done| |simpl; lia|constructor|by intros k' c ?%not_elem_of_nil].
    + intros i. unfold restart. simpl. rewrite elem_of_filter. simpl. tauto.
    + unfold idle_entry, restart. simpl. rewrite Hp. apply Z.leb_le. unfold now. lia.
  - rewrite <-(assoc_L (++)) in H1, H3. exists ([Restarted 0] ++ tr'), st'. split; [done|]. split; [by apply Forall_app_2; [repeat constructor|]|done].
Qed.

(** C20: from every reachable state every entry can still be settled, unless
    its stream may have dropped it, being given streamMaxLen entries after it, or
    its write to the dead-letter stream failed: no order of deliveries, failures
    and restarts leaves another job that nothing more can happen to.  An unread
    entry is read after finitely many reads, each of ten entries; a pending one,
    once idle, is listed and claimed after finitely many others by a process that
    starts anew. *)
Theorem no_entry_stuck tr (st : wstate) k payload : run tr st -> ~ dead_letter_failed tr k -> (k, payload) ∈ entries st ->
  (followers st k < streamMaxLen)%nat ->
  exists tr' st', run (tr ++ tr') st' /\ dead_letters_stored tr' /\ settled (tr ++ tr') st' k payload.
Proof.
  intros Hrun Hdead Hin Hf. pose proof (held_run tr st k Hrun Hf) as Hh. clear Hf.
  remember (length (unread_of st k.1)) as n eqn:Hn. revert tr st Hrun Hdead Hin Hh Hn.
  induction n as [n IH] using lt_wf_ind. intros tr st Hrun Hdead Hin Hh Hn.
  destruct (accounted_run tr st Hrun k payload Hin Hh) as [Hu|[[p Hp]|[Hset|?]]]; [| | |done].
  - set (s1 := Subscribe_once grp (receive 0 0 true) [k.1] st). pose proof (well_formed_run tr st Hrun) as Hwf.
    assert (Hun : (k, payload) ∈ unread_of st k.1) by by apply elem_of_unread_of.
    assert (Hsame : entries s1 = entries st /\ trimmed s1 = trimmed st).
    { apply (reading_ind 0 0 true (fun st' => entries st' = entries st /\ trimmed st' = trimmed st)); [apply Hwf| |done].
      intros st1 e E _ _. by rewrite receive_entries, receive_trimmed. }
    destruct Hsame as [He Ht].
    destruct (IH (length (unread_of s1 k.1))) with (tr := tr ++ [Read 0 [k.1]]) (st := s1) as (tr' & st' & Hr' & Hd' & Hs').
    + unfold s1. rewrite (Subscribe_once_reads grp _ (receive_entries 0 0 true) (receive_trimmed 0 0 true) (receive_last 0 0 true)) by apply Hwf.
      rewrite length_drop, Hn. destruct (unread_of st k.1); [by apply not_elem_of_nil in Hun|]. simpl. lia.
    + apply (run_step _ st); [done|apply step_read].
    + intros Hd. apply Hdead. eapply dead_letter_failed_stored; [|exact Hd]. by repeat constructor.
    + by rewrite He.
    + unfold held. by rewrite Ht.
    + done.
    + exists (Read 0 [k.1] :: tr'), st'. rewrite <-(assoc_L (++)) in Hr', Hs'. split; [exact Hr'|]. split; [by constructor|exact Hs'].
  - by eapply pending_settles.
  - exists [], st. rewrite app_nil_r. split; [done|]. split; [constructor|done].
Qed.

(** Entries being worked on are listed like any other idle entry, and skipped:
    while the first ten idle entries of a stream are in flight, a tick claims
    none of the entries behind them. *)
Theorem busy_entries_block p now now' reached heard payload stream (st : wstate) :
  (forall x, x ∈ XPending cognitiveRetryIdleTime now 10 st stream -> (p, x.1.2) ∈ inFlight st) ->
  let st1 := list_pending p now stream st in
  Nat.iter (length (to_claim st1 p)) (reclaim p now' reached heard payload) st1 = set_listed p [] st.
Proof.
  intros Hbusy. unfold list_pending. rewrite to_claim_set, decide_True by done. revert Hbusy.
  generalize (XPending cognitiveRetryIdleTime now 10 st stream). intros l.
  induction l as [|[k c] l IH]; intros Hbusy; [done|].
  change (length ((k, c) :: l)) with (S (length l)). rewrite Nat.iter_succ_r. unfold reclaim at 2. rewrite to_claim_set, decide_True by done. cbv zeta.
  rewrite decide_True by (apply (Hbusy (k, c)); by left).
  assert (E : set_listed p l (set_listed p ((k, c) :: l) st) = set_listed p l st).
  { unfold set_listed. simpl. by rewrite insert_insert_eq. }
  rewrite E. apply IH. intros x Hx. apply Hbusy. by right.
Qed.

(** *** How often an entry is tried *)

Definition is_finish (k : key) (ev : event) : bool :=
  match ev with Finished k' _ _ _ _ => bool_decide (k' = k) | _ => false end.
(** How many attempts at an entry have ended. *)
Definition tries (tr : list event) (k : key) : Z := Z.of_nat (length (List.filter (is_finish k) tr)).

Definition acks_succeed (tr : list event) : Prop :=
  Forall (fun ev => match ev with Finished _ _ _ acked _ => acked = true | _ => True end) tr.

(** One process does it all, however often it restarts. *)
Definition one_process (p : nat) (tr : list event) : Prop :=
  Forall (fun ev => match ev with Read q _ | Listed q _ | Reclaimed q _ | Restarted q => q = p | _ => True end) tr.

(** No two streams hold entries with the same id: the worker's map of messages
    in flight does not look at the stream. *)
Definition distinct_ids (st : wstate) : Prop :=
  forall k p k' p', (k, p) ∈ entries st -> (k', p') ∈ entries st -> k.2 = k'.2 -> k = k'.

Lemma tries_snoc tr ev k : tries (tr ++ [ev]) k = tries tr k + (if is_finish k ev then 1 else 0).
Proof. unfold tries. rewrite List.filter_app, length_app. simpl. destruct (is_finish k ev); simpl; lia. Qed.

Lemma step_entries st ev st' e : step st ev st' -> in_order (entries st) -> e ∈ entries st -> e ∈ entries st'.
Proof.
  destruct 1 as [k payload cut _|p now heard streams|i a o acked stored _|p now stream _|p now reached heard k c rest payload El _|p];
    intros Ho He; simpl; try done.
  - apply elem_of_app. by left.
  - apply (reading_ind p now heard (fun st' => e ∈ entries st')); [done| |done]. intros st1 e1 H1 _ _. by rewrite receive_entries.
  - by destruct (handle_fields a o acked stored st) as [-> _].
  - by apply (reclaim_cases p now reached heard payload st k c rest (fun st' => e ∈ entries st')).
Qed.

(** What a process has listed and not yet claimed is as it was listed: nobody
    else delivers it. *)
Definition fresh (p : nat) (st : wstate) : Prop :=
  forall q l, listed st !! q = Some l -> q = p /\ NoDup l.*1 /\
    forall k c, (k, c) ∈ l -> unread (last_read st) k = false /\ forall x, pel st !! k = Some x -> deliveries x = c.

(** The bookkeeping of attempts: [n] deliveries allow [n] attempts, and the
    eighth delivery is the last one whose failure leaves the entry pending. *)
Record bounded (p : nat) (tr : list event) (st : wstate) : Prop := {
  b_proc : forall a, a ∈ running st -> at_proc a = p;
  b_flight : forall a, a ∈ running st -> (p, (at_key a).2) ∈ inFlight st;
  b_once : NoDup (at_key <$> running st);
  b_running : forall a, a ∈ running st -> exists x, pel st !! at_key a = Some x /\
    at_retries a = Z.max 0 (deliveries x - 2) /\ tries tr (at_key a) + 1 <= deliveries x;
  b_pel : forall k x, pel st !! k = Some x -> 1 <= deliveries x /\ tries tr k <= deliveries x /\ tries tr k <= cognitiveMaxRetries;
  b_unread : forall k, unread (last_read st) k = true -> tries tr k = 0;
  b_all : forall k, tries tr k <= cognitiveMaxRetries + 1;
  b_listed : fresh p st;
}.

Lemma bounded_ext p tr tr' st : (forall k, tries tr' k = tries tr k) -> bounded p tr st -> bounded p tr' st.
Proof. intros E [B1 B2 B3 B4 B5 B6 B7 B8]. split; try done; intros; rewrite ?E; auto. Qed.

Lemma fresh_receive p now heard st e : fresh p st -> next_unread st e -> fresh p (receive p now heard st e).
Proof.
  intros Hfr (_ & Hun & _ & _) q l. destruct (receive_fields p now heard st e) as (_ & _ & El & Ep & Eq & _). rewrite Eq.
  intros (-> & Hnd & Hl)%Hfr. split_and!; [done..|]. intros k c Hk. destruct (Hl k c Hk) as [Hu Hx].
  destruct (unread (last_read (receive p now heard st e)) k) eqn:E.
  { apply (unread_recv_old grp _ (receive_last p now heard) st e k Hun) in E as [E _]. congruence. }
  split; [done|]. rewrite Ep, lookup_insert_ne; [done|]. intros <-. congruence.
Qed.

Lemma bounded_receive p tr now heard st e : well_formed st -> bounded p tr st -> next_unread st e ->
  bounded p tr (receive p now heard st e).
Proof.
  intros Hwf [B1 B2 B3 B4 B5 B6 B7 B8] Hn. pose proof (fresh_receive p now heard st e B8 Hn) as Hfresh.
  destruct Hn as (_ & Hun & _ & _).
  assert (H0 : tries tr e.1 = 0) by by apply B6.
  assert (Hnot : forall a, a ∈ running st -> at_key a <> e.1).
  { intros a Ha E. apply (wf_running st Hwf) in Ha as [_ Hr]. by rewrite E, Hun in Hr. }
  assert (Hpel : forall k x, pel (receive p now heard st e) !! k = Some x ->
    1 <= deliveries x /\ tries tr k <= deliveries x /\ tries tr k <= cognitiveMaxRetries).
  { intros k x. rewrite receive_pel. intros [[<- <-]|[_ Hk]]%lookup_insert_Some; [|by apply B5].
    rewrite H0. unfold cognitiveMaxRetries. simpl. lia. }
  assert (Hrun : forall a, a ∈ running st -> exists x, pel (receive p now heard st e) !! at_key a = Some x /\
    at_retries a = Z.max 0 (deliveries x - 2) /\ tries tr (at_key a) + 1 <= deliveries x).
  { intros a Ha. destruct (B4 a Ha) as (x & Hx & Hr). exists x. split; [|done]. rewrite receive_pel, lookup_insert_ne; [done|].
    by apply not_eq_sym, Hnot. }
  assert (Hunread : forall k, unread (last_read (receive p now heard st e)) k = true -> tries tr k = 0).
  { intros k Hk. by apply B6, (unread_recv_old grp (receive p now heard) (receive_last p now heard) st e k). }
  unfold receive in *. destruct heard; [|by split]. case_decide as Hfl; split; try done.
  - simpl. intros a [Ha | ->%list_elem_of_singleton]%elem_of_app; [by apply B1|done].
  - simpl. intros a [Ha | ->%list_elem_of_singleton]%elem_of_app; [apply B2 in Ha|]; set_solver.
  - simpl. rewrite fmap_app. simpl. apply NoDup_app. split_and!; [done| |apply NoDup_singleton].
    intros k (a & -> & Ha)%list_elem_of_fmap Hk%list_elem_of_singleton. by apply (Hnot a).
  - simpl. intros a [Ha | ->%list_elem_of_singleton]%elem_of_app; [by apply Hrun|]. simpl.
    exists (mkPending now 1). rewrite lookup_insert_eq, H0. split_and!; [done|done|simpl; lia].
Qed.

Lemma bounded_finish p tr st i a o stored : well_formed st -> distinct_ids st -> bounded p tr st -> running st !! i = Some a ->
  bounded p (tr ++ [Finished (at_key a) (at_retries a) o true stored]) (finish i a o true stored st).
Proof.
  intros Hwf Hids [B1 B2 B3 B4 B5 B6 B7 B8] Hi. pose proof (list_elem_of_lookup_2 _ _ _ Hi) as Ha.
  destruct (B4 a Ha) as (p0 & Hp0 & Hr0 & Ht0). destruct (B5 _ _ Hp0) as (Hn0 & _ & H80).
  destruct (wf_running st Hwf a Ha) as [Hpay Hread].
  assert (Htries : forall k, tries (tr ++ [Finished (at_key a) (at_retries a) o true stored]) k =
    tries tr k + (if decide (at_key a = k) then 1 else 0)).
  { intros k. rewrite tries_snoc. simpl. by case_bool_decide; case_decide. }
  assert (Hother : forall b, b ∈ delete i (running st) -> b ∈ running st /\ at_key b <> at_key a).
  { intros b Hb. split; [by eapply list_elem_of_delete_inv|]. intros E.
    rewrite (delete_Permutation _ _ _ Hi) in B3. simpl in B3. apply NoDup_cons in B3 as [Hni _]. apply Hni.
    rewrite <-E. by apply list_elem_of_fmap_2. }
  destruct (handle_fields a o true stored st) as (_ & _ & El & Er & Ef & Eli).
  assert (Hpel : forall k x, pel (handleStreamMessage a o true stored st) !! k = Some x -> pel st !! k = Some x /\
    (k = at_key a -> at_retries a + 1 < cognitiveMaxRetries)).
  { intros k x. unfold handleStreamMessage, XAck, add_dead. intros Hk.
    assert (Hdel : delete (at_key a) (pel st) !! k = Some x -> pel st !! k = Some x /\
      (k = at_key a -> at_retries a + 1 < cognitiveMaxRetries)).
    { intros [Hne Hk']%lookup_delete_Some. split; [done|]. by intros ->. }
    destruct o as [|e|e], stored; simpl in Hk; auto; destruct (Z.leb_spec cognitiveMaxRetries (at_retries a + 1)); auto. }
  assert (Hkeep : forall k, k <> at_key a -> pel (handleStreamMessage a o true stored st) !! k = pel st !! k).
  { intros k Hk. destruct (handle_pel a o true stored st) as [-> | ->]; [done|]. by rewrite lookup_delete_ne. }
  unfold finish. split; cbn [running inFlight grp]; rewrite ?Er.
  - intros b [Hb _]%Hother. by apply B1.
  - intros b [Hb Hne]%Hother. rewrite Ef, (B1 a Ha). apply elem_of_difference. split; [by apply B2|]. intros [= E]%elem_of_singleton.
    apply Hne. destruct (wf_running st Hwf b Hb) as [Hpb _]. by eapply Hids.
  - eapply sublist_NoDup; [exact B3|]. apply fmap_sublist. apply sublist_delete.
  - intros b [Hb Hne]%Hother. destruct (B4 b Hb) as (x & Hx & Hr & Ht). exists x. rewrite Hkeep by done.
    rewrite Htries, decide_False by congruence. split_and!; [done|done|lia].
  - intros k x [Hk Hless]%Hpel. rewrite Htries. destruct (B5 k x Hk) as (H1k & H2k & H3k). case_decide as E; [|lia].
    subst k. specialize (Hless eq_refl). rewrite Hp0 in Hk. injection Hk as <-. unfold cognitiveMaxRetries in *. lia.
  - intros k. rewrite El. intros Hk. rewrite Htries, decide_False; [|intros <-; by rewrite Hread in Hk].
    rewrite (B6 k Hk). lia.
  - intros k. rewrite Htries. case_decide as E; [subst k; lia|]. specialize (B7 k). lia.
  - intros q l. cbn [listed grp]. rewrite Eli, El. intros (-> & Hnd & Hl)%B8. split_and!; [done..|]. intros k c Hk.
    destruct (Hl k c Hk) as [Hu Hx]. split; [done|]. by intros x [Hx' _]%Hpel; apply Hx.
Qed.

Lemma bounded_list p tr now stream st : well_formed st -> bounded p tr st -> bounded p tr (list_pending p now stream st).
Proof.
  intros Hwf [B1 B2 B3 B4 B5 B6 B7 B8]. split; try done. intros q l. unfold list_pending, set_listed. simpl.
  intros [[<- <-]|[_ Hl]]%lookup_insert_Some; [|by apply B8]. split_and!; [done|apply XPending_NoDup, Hwf|].
  intros k c (_ & _ & Hidle & Hc)%elem_of_XPending. split; [|done]. unfold idle_entry in Hidle.
  destruct (pel st !! k) as [x|] eqn:Ex; [|done]. by destruct (wf_pel st Hwf k) as (_ & _ & ?).
Qed.

(** Going on to the next listed entry. *)
Lemma fresh_next p st k c rest : to_claim st p = (k, c) :: rest -> fresh p st ->
  fresh p (set_listed p rest st) /\ unread (last_read st) k = false /\ (forall x, pel st !! k = Some x -> deliveries x = c) /\
  forall c', (k, c') ∉ rest.
Proof.
  unfold to_claim. destruct (listed st !! p) as [l|] eqn:El; [|done]. simpl. intros -> Hfr.
  destruct (Hfr p _ El) as (_ & Hnd & Hl). rewrite fmap_cons in Hnd. apply NoDup_cons in Hnd as [Hni Hnd]. split_and!.
  - intros q l'. simpl. intros [[<- <-]|[_ Hl']]%lookup_insert_Some; [|by apply Hfr]. split_and!; [done..|].
    intros k' c' Hk'. apply Hl. by right.
  - apply (Hl k c). by left.
  - apply (Hl k c). by left.
  - intros c' Hc'. apply Hni. apply list_elem_of_fmap. by exists (k, c').
Qed.

(** The same when, besides, this entry's place in the pending list changes. *)
Lemma fresh_claimed p st k c rest f : to_claim st p = (k, c) :: rest -> fresh p st -> last_read (f (grp st)) = last_read st ->
  (forall k', k' <> k -> pel (f (grp st)) !! k' = pel st !! k') -> fresh p (on_group f (set_listed p rest st)).
Proof.
  intros El Hfr Hr Hm. destruct (fresh_next p st k c rest El Hfr) as (Hfr' & _ & _ & Hni).
  intros q l Hq. destruct (Hfr' q l Hq) as (Eq & Hnd & Hl). split_and!; [done..|]. intros k' c' Hk'.
  destruct (Hl k' c' Hk') as [Hu Hx]. cbn [grp on_group set_listed] in *. rewrite Hr. split; [done|]. rewrite Hm; [done|]. intros ->.
  unfold set_listed in Hq. simpl in Hq. subst q. rewrite lookup_insert_eq in Hq. injection Hq as <-. by eapply Hni.
Qed.

Lemma bounded_reclaim p tr now reached heard payload st k c rest : well_formed st -> bounded p tr st ->
  to_claim st p = (k, c) :: rest -> bounded p tr (reclaim p now reached heard payload st).
Proof.
  intros Hwf [B1 B2 B3 B4 B5 B6 B7 B8] El. destruct (fresh_next p st k c rest El B8) as (Hfr & Hread & Hc & Hni).
  assert (Hapart : (p, k.2) ∉ inFlight st -> forall a, a ∈ running st -> at_key a <> k).
  { intros Hfl a Ha <-. apply Hfl. by apply B2. }
  apply (reclaim_cases p now reached heard payload st k c rest); [done|by split| |].
  - intros q Hfl _ _. split; cbn [running inFlight grp on_group set_listed]; try done.
    + intros a Ha. destruct (B4 a Ha) as (x & Hx & Hr). exists x. split; [|done]. simpl. rewrite lookup_delete_ne; [done|].
      by apply not_eq_sym, Hapart.
    + simpl. intros k' x [_ Hk']%lookup_delete_Some. by apply B5.
    + eapply fresh_claimed; [done..|]. intros k' Hk'. simpl. by rewrite lookup_delete_ne.
  - intros q Hfl Hq _. destruct (B5 k q Hq) as (H1k & H2k & H3k).
    assert (Hrun : forall a, a ∈ running st -> exists x, <[k:=mkPending now (deliveries q + 1)]> (pel st) !! at_key a = Some x /\
      at_retries a = Z.max 0 (deliveries x - 2) /\ tries tr (at_key a) + 1 <= deliveries x).
    { intros a Ha. destruct (B4 a Ha) as (x & Hx & Hr). exists x. split; [|done]. rewrite lookup_insert_ne; [done|].
      by apply not_eq_sym, Hapart. }
    assert (Hpel : forall k' x, <[k:=mkPending now (deliveries q + 1)]> (pel st) !! k' = Some x ->
      1 <= deliveries x /\ tries tr k' <= deliveries x /\ tries tr k' <= cognitiveMaxRetries).
    { intros k' x [[<- <-]|[_ Hk']]%lookup_insert_Some; [simpl; lia|by apply B5]. }
    assert (Hf : fresh p (on_group (fun g => claim now g k q) (set_listed p rest st))).
    { eapply fresh_claimed; [done..|]. intros k' Hk'. simpl. by rewrite lookup_insert_ne. }
    split; split; cbn [running inFlight grp on_group set_listed start]; try done.
    + intros a [Ha | ->%list_elem_of_singleton]%elem_of_app; [by apply B1|done].
    + intros a [Ha | ->%list_elem_of_singleton]%elem_of_app; [apply B2 in Ha|]; set_solver.
    + rewrite fmap_app. simpl. apply NoDup_app. split_and!; [done| |apply NoDup_singleton].
      intros k' (a & -> & Ha)%list_elem_of_fmap Hk'%list_elem_of_singleton. by apply (Hapart Hfl a).
    + intros a [Ha | ->%list_elem_of_singleton]%elem_of_app; [by apply Hrun|].
      exists (mkPending now (deliveries q + 1)). simpl. rewrite lookup_insert_eq, <-(Hc q Hq). split_and!; [done|lia|lia].
Qed.

Lemma bounded_restart p tr st : bounded p tr st -> bounded p tr (restart p st).
Proof.
  intros [B1 B2 B3 B4 B5 B6 B7 B8].
  assert (Hnone : running (restart p st) = []).
  { unfold restart. simpl. apply filter_none, Forall_forall. intros a Ha. by rewrite (B1 a Ha), Nat.eqb_refl. }
  split; rewrite ?Hnone; try done; try apply NoDup_nil_2; try (by intros a ?%not_elem_of_nil).
  intros q l. unfold restart. simpl. intros [_ Hl]%lookup_delete_Some. by apply B8.
Qed.

Lemma bounded_step p tr st ev st' : well_formed st -> distinct_ids st -> bounded p tr st -> step st ev st' ->
  acks_succeed [ev] -> one_process p [ev] -> bounded p (tr ++ [ev]) st'.
Proof.
  intros Hwf Hids Hb Hstep Hack Hone. unfold acks_succeed, one_process in *. rewrite Forall_singleton in Hack, Hone.
  destruct Hstep as [k payload cut _|q now heard streams|i a o acked stored Ha|q now stream _|q now reached heard k c rest payload El _|q].
  3: { subst acked. by apply bounded_finish. }
  all: apply (bounded_ext p tr); [intros k'; rewrite tries_snoc; simpl; lia|]; try subst q.
  - by destruct Hb.
  - apply (reading_ind p now heard (fun st => well_formed st /\ bounded p tr st)); [apply Hwf| |done].
    intros st1 e [Hwf1 Hb1] _ Hn. split; [by apply well_formed_receive|by apply bounded_receive].
  - by apply bounded_list.
  - by eapply bounded_reclaim.
  - by apply bounded_restart.
Qed.

Lemma bounded_run p tr st : run tr st -> acks_succeed tr -> one_process p tr -> distinct_ids st -> bounded p tr st.
Proof.
  induction 1 as [|tr st ev st' Hrun IH Hstep]; intros Hack Hone Hids.
  - split; simpl; try done; try apply NoDup_nil_2; try (intros a Ha; by apply not_elem_of_nil in Ha).
  - apply Forall_app in Hack as [Hack Hev], Hone as [Hone Hev']. pose proof (well_formed_run tr st Hrun) as Hwf.
    assert (Hids' : distinct_ids st).
    { intros k q k' q' Hk Hk'. eapply Hids; (eapply step_entries; [exact Hstep|apply Hwf|done]). }
    eapply bounded_step; [done|done|by apply IH|done|done|done].
Qed.

(** An entry that keeps failing, followed through [n] attempts. *)
Definition first_key : key := ("t:stream:cognitive"%string, (1, 0)).

Record failing (n : nat) (tr : list event) (st : wstate) : Prop := {
  f_run : run tr st;
  f_acks : acks_succeed tr;
  f_one : one_process 0 tr;
  f_entries : entries st = [(first_key, "{}"%string)];
  f_trimmed : trimmed st = ∅;
  f_running : running st = [mkAttempt 0 first_key "{}" (Z.max 0 (Z.of_nat n - 1))];
  f_flight : inFlight st = {[ (0%nat, first_key.2) ]};
  f_listed : to_claim st 0 = [];
  f_pel : exists t, pel st !! first_key = Some (mkPending t (Z.of_nat n + 1));
  f_tries : tries tr first_key = Z.of_nat n;
}.

Lemma failing_start : exists tr st, failing 0 tr st.
Proof.
  assert (Hadd : step initial (Added first_key) (on_group (fun g => add_entry g first_key "{}" None) initial))
    by (constructor; split_and!; [constructor|done|done|done]).
  assert (Hread := step_read (on_group (fun g => add_entry g first_key "{}" None) initial) 0 0 true [first_key.1]).
  eexists _, _. split; [exact (run_step _ _ _ _ (run_step _ _ _ _ run_nil Hadd) Hread)|by repeat constructor|by repeat constructor|..];
    try reflexivity. by exists 0.
Qed.

Lemma failing_next n tr st : (n < 8)%nat -> failing n tr st -> exists tr' st', failing (S n) tr' st'.
Proof.
  intros Hn [Hrun Hacks Hone He Htr Hr Hf Hl [t Hp] Ht].
  set (a := mkAttempt 0 first_key "{}" (Z.max 0 (Z.of_nat n - 1))) in *.
  assert (Hfin : step st (Finished first_key (at_retries a) (Transient "no") true true) (finish 0 a (Transient "no") true true st))
    by (apply (step_finish st 0 a); by rewrite Hr).
  set (st1 := finish 0 a (Transient "no") true true st) in *.
  assert (Hst1 : st1 = mkState (grp st) (inFlight st ∖ {[(0%nat, first_key.2)]}) (listed st) [] (dlq st)).
  { unfold st1, finish, handleStreamMessage. simpl. rewrite (proj2 (Z.leb_gt _ _)) by (unfold cognitiveMaxRetries; lia).
    by rewrite Hr. }
  set (now := t + cognitiveRetryIdleTime). set (st2 := list_pending 0 now first_key.1 st1).
  assert (Hl2 : to_claim st2 0 = [(first_key, Z.of_nat n + 1)]).
  { unfold st2, list_pending. rewrite to_claim_set, decide_True by done. rewrite Hst1. unfold XPending. simpl. rewrite He. simpl.
    unfold idle_entry. rewrite Hp. simpl. unfold now. rewrite Z.leb_refl. simpl. by rewrite Hp. }
  assert (Hlist : step st1 (Listed 0 first_key.1) st2) by (apply step_list; by rewrite Hst1).
  set (st3 := reclaim 0 now true true "{}" st2).
  assert (Hrec : step st2 (Reclaimed 0 first_key) st3).
  { eapply step_reclaim; [exact Hl2|]. unfold st2, list_pending. rewrite Hst1. simpl. rewrite He. by left. }
  assert (E3 : st3 = start 0 (on_group (fun g => claim now g first_key (mkPending t (Z.of_nat n + 1))) (set_listed 0 [] st2)) first_key "{}"
    (Z.of_nat n + 1 - 1)).
  { unfold st3, reclaim. rewrite Hl2. cbv zeta. rewrite decide_False.
    2: { unfold st2, list_pending, set_listed. rewrite Hst1. simpl. rewrite Hf. set_solver. }
    simpl negb. cbv iota. unfold XClaim. unfold st2, list_pending, set_listed. rewrite Hst1. simpl. rewrite Hp.
    unfold held, unread. simpl. rewrite Htr, lookup_empty. simpl. unfold now. by rewrite Z.leb_refl. }
  exists (((tr ++ [Finished first_key (at_retries a) (Transient "no") true true]) ++ [Listed 0 first_key.1]) ++ [Reclaimed 0 first_key]), st3.
  assert (Eg : grp st2 = grp st) by (change (grp st2) with (grp st1); by rewrite Hst1).
  split.
  - exact (run_step _ _ _ _ (run_step _ _ _ _ (run_step _ _ _ _ Hrun Hfin) Hlist) Hrec).
  - repeat (apply Forall_app_2; [|apply Forall_singleton; done]). done.
  - repeat (apply Forall_app_2; [|apply Forall_singleton; done]). done.
  - rewrite E3. change (entries (grp st2) = [(first_key, "{}"%string)]). by rewrite Eg.
  - rewrite E3. change (trimmed (grp st2) = ∅). by rewrite Eg.
  - rewrite E3. unfold st2, list_pending. rewrite Hst1. simpl. do 2 f_equal. lia.
  - rewrite E3. unfold st2, list_pending. rewrite Hst1. simpl. rewrite Hf. set_solver.
  - rewrite E3. unfold start, on_group. unfold to_claim. simpl. by rewrite lookup_insert_eq.
  - exists now. rewrite E3. simpl. rewrite lookup_insert_eq. do 2 f_equal. lia.
  - rewrite !tries_snoc, Ht. cbn [is_finish]. rewrite bool_decide_true by done. lia.
Qed.

Lemma failing_run n : (n <= 8)%nat -> exists tr st, failing n tr st.
Proof.
  induction n as [|n IH]; intros Hn; [apply failing_start|]. destruct IH as (tr & st & H); [lia|]. by apply (failing_next n tr st).
Qed.


(** ** Examples *)

Module StreamsSample.

(** An entry is read and its attempt fails: it stays pending. *)
Definition failed : wstate :=
  finish 0 (mkAttempt 0 first_key "{}" 0) (Transient "timeout") true true
    (Subscribe_once grp (receive 0 0 true) [first_key.1] (on_group (fun g => add_entry g first_key "{}" None) initial)).
Definition history : list event := [Added first_key; Read 0 [first_key.1]; Finished first_key 0 (Transient "timeout") true true].

Lemma failed_run : run history failed.
Proof.
  change history with (([] ++ [Added first_key]) ++ [Read 0 [first_key.1]] ++ [Finished first_key 0 (Transient "timeout") true true]).
  rewrite (assoc_L (++)). eapply run_step; [eapply run_step; [eapply run_step; [exact run_nil|]|]|].
  - apply (step_add initial first_key "{}" None). split_and!; [exact (List.Forall_nil _)|reflexivity|reflexivity|exact I].
  - apply (step_read _ 0 0 true).
  - apply (step_finish _ 0 (mkAttempt 0 first_key "{}" 0)). reflexivity.
Defined.

Lemma failed_recent : (followers failed first_key < streamMaxLen)%nat.
Proof. apply Nat2Z.inj_lt. vm_compute. reflexivity. Qed.

Lemma no_entry_lost_witness :
  (first_key, "{}"%string) ∈ entries failed /\
  (held failed first_key = true /\ (unread (last_read failed) first_key = true \/ is_Some (pel failed !! first_key)) \/
   settled history failed first_key "{}").
Proof.
  assert (Hin : (first_key, "{}"%string) ∈ entries failed) by by left.
  split; [exact Hin|]. destruct (no_entry_lost history failed first_key "{}" failed_run Hin) as [?|[?|[(r & o & Hf & Hg)|Hn]]].
  - by left.
  - by right.
  - repeat (apply elem_of_cons in Hf as [Hf|Hf]; [discriminate|]). by apply not_elem_of_nil in Hf.
  - pose proof failed_recent. lia.
Defined.

Lemma failed_kept : ~ dead_letter_failed history first_key.
Proof.
  intros (r & o & Hf & Hg). repeat (apply elem_of_cons in Hf as [Hf|Hf]; [discriminate|]). by apply not_elem_of_nil in Hf.
Qed.

Lemma no_entry_stuck_witness :
  exists tr' st', run (history ++ tr') st' /\ settled (history ++ tr') st' first_key "{}".
Proof.
  destruct (no_entry_stuck history failed first_key "{}" failed_run failed_kept) as (tr' & st' & Hr & _ & Hs);
    [by left|exact failed_recent|]. exists tr', st'. split; [exact Hr|exact Hs].
Defined.

(** The job is given up, its dead-letter record fails, and the XACK goes
    through: nothing is left of it. *)
Definition gave_up : wstate :=
  finish 0 (mkAttempt 0 first_key "{}" 0) (Unrecoverable "bad JSON") true false
    (Subscribe_once grp (receive 0 0 true) [first_key.1] (on_group (fun g => add_entry g first_key "{}" None) initial)).
Lemma dead_letter_lost : unread (last_read gave_up) first_key = false /\ pel gave_up !! first_key = None /\ dlq gave_up = [].
Proof. vm_compute. done. Qed.
End StreamsSample.
