(* ===== verification/ExpStreams.v ===== *)
(** The stream consumer of the experience worker ([internal/worker/experience.go]),
    on the same streams as the cognitive worker's ([Streams]), with a group of
    its own.  It has no map of messages in flight and no dead-letter stream: an
    entry delivered more than experienceMaxRetries times is acknowledged
    unread. *)
From Stdlib Require Import Ascii String.
From S2P Require Import Prelude GoStd GoStrings Float64 Model Db MessageRepo Redis Groups Streams.

Local Open Scope Z_scope.

Definition experienceMaxRetries : Z := 3.
Definition experienceRetryIdleTime : time := 60 * second.

Definition exp_start (p : nat) (st : wstate) (k : key) (payload : string) : wstate :=
  mkState (grp st) (inFlight st) (listed st) (running st ++ [mkAttempt p k payload 0]) (dlq st).

Definition exp_receive (p : nat) (now : time) (heard : bool) (st : wstate) (e : key * string) : wstate :=
  let st := on_group (fun g => deliver now g e.1) st in if heard then exp_start p st e.1 e.2 else st.

(** An iteration of Subscribe. *)
Definition exp_read (p : nat) (now : time) (heard : bool) (streams : list string) (st : wstate) : wstate :=
  Subscribe_once grp (exp_receive p now heard) streams st.

(** A goroutine ends; it acknowledges only what processPayload accepted. *)
Definition exp_finish (i : nat) (a : attempt) (ok acked : bool) (st : wstate) : wstate :=
  let st := if ok then on_group (fun g => XAck acked g (at_key a)) st else st in
  mkState (grp st) (inFlight st) (listed st) (delete i (running st)) (dlq st).

Definition exp_list (p : nat) (now : time) (stream : string) (st : wstate) : wstate :=
  set_listed p (XPending experienceRetryIdleTime now 10 st stream) st.
(** One entry of reclaimPending's loop. *)
Definition exp_reclaim (p : nat) (now : time) (reached heard acked : bool) (payload : string) (st : wstate) : wstate :=
  match to_claim st p with
  | [] => st
  | (k, c) :: rest =>
    let st := set_listed p rest st in
    if experienceMaxRetries <? c then on_group (fun g => XAck acked g k) st
    else if negb reached then st
    else let '(g, got) := XClaim experienceRetryIdleTime now st k in
         let st := on_group (fun _ => g) st in
         if got && heard then exp_start p st k payload else st
  end.

Inductive exp_event :=
  | ExpAdded (k : key)
  | ExpRead (p : nat)
  | ExpFinished (k : key) (ok : bool)
  | ExpListed (p : nat)
  | ExpReclaimed (p : nat) (k : key)
  | ExpRestarted (p : nat).

Inductive exp_step (st : wstate) : exp_event -> wstate -> Prop :=
  | exp_step_add k payload cut : may_add streamMaxLen st k payload cut ->
      exp_step st (ExpAdded k) (on_group (fun g => add_entry g k payload cut) st)
  | exp_step_read p now heard streams : exp_step st (ExpRead p) (exp_read p now heard streams st)
  | exp_step_finish i a ok acked : running st !! i = Some a -> exp_step st (ExpFinished (at_key a) ok) (exp_finish i a ok acked st)
  | exp_step_list p now stream : to_claim st p = [] -> exp_step st (ExpListed p) (exp_list p now stream st)
  | exp_step_reclaim p now reached heard acked k c rest payload :
      to_claim st p = (k, c) :: rest -> (k, payload) ∈ entries st ->
      exp_step st (ExpReclaimed p k) (exp_reclaim p now reached heard acked payload st)
  | exp_step_restart p : exp_step st (ExpRestarted p) (restart p st).

Inductive exp_run : list exp_event -> wstate -> Prop :=
  | exp_run_nil : exp_run [] initial
  | exp_run_step tr st e st' : exp_run tr st -> exp_step st e st' -> exp_run (tr ++ [e]) st'.

(** ** Lemmas *)

Definition exp_is_finish (k : key) (ev : exp_event) : bool :=
  match ev with ExpFinished k' _ => bool_decide (k' = k) | _ => false end.
Definition exp_tries (tr : list exp_event) (k : key) : Z := Z.of_nat (length (List.filter (exp_is_finish k) tr)).
(** The goroutines at work on an entry. *)
Definition working (st : wstate) (k : key) : Z := Z.of_nat (length (List.filter (fun a => bool_decide (at_key a = k)) (running st))).
Definition exp_one_process (p : nat) (tr : list exp_event) : Prop :=
  Forall (fun ev => match ev with ExpRead q | ExpListed q | ExpReclaimed q _ | ExpRestarted q => q = p | _ => True end) tr.

Lemma exp_tries_snoc tr ev k : exp_tries (tr ++ [ev]) k = exp_tries tr k + (if exp_is_finish k ev then 1 else 0).
Proof. unfold exp_tries. rewrite List.filter_app, length_app. simpl. destruct (exp_is_finish k ev); simpl; lia. Qed.

Lemma working_start p st k payload k' : working (exp_start p st k payload) k' = working st k' + (if decide (k = k') then 1 else 0).
Proof.
  unfold working, exp_start. simpl. rewrite List.filter_app, length_app. simpl. case_bool_decide; case_decide; simpl; try done; lia.
Qed.

Lemma working_delete (l : list attempt) i a (p : attempt -> bool) : l !! i = Some a ->
  length (List.filter p l) = (length (List.filter p (delete i l)) + (if p a then 1 else 0))%nat.
Proof.
  intros Hi. rewrite (filter_Permutation p _ _ (delete_Permutation _ _ _ Hi)). simpl. destruct (p a); simpl; lia.
Qed.

Lemma working_restart p st k : working (restart p st) k <= working st k.
Proof.
  unfold working, restart. simpl. rewrite filter_filter_and.
  induction (running st) as [|a l IH]; [done|]. simpl. destruct (bool_decide _), (negb _); simpl; lia.
Qed.

Lemma exp_receive_fields p now heard st e : entries (exp_receive p now heard st e) = entries st /\
  trimmed (exp_receive p now heard st e) = trimmed st /\
  last_read (exp_receive p now heard st e) = <[e.1.1 := e.1.2]> (last_read st) /\
  pel (exp_receive p now heard st e) = <[e.1 := mkPending now 1]> (pel st) /\
  listed (exp_receive p now heard st e) = listed st /\
  forall k, working (exp_receive p now heard st e) k <= working st k + (if decide (e.1 = k) then 1 else 0).
Proof.
  unfold exp_receive. destruct heard; split_and!; try done; intros k.
  - by rewrite working_start.
  - change (working st k <= working st k + (if decide (e.1 = k) then 1 else 0)). case_decide; lia.
Qed.

Lemma exp_reclaim_cases p now reached heard acked payload st k c rest (P : wstate -> Prop) : to_claim st p = (k, c) :: rest ->
  P (set_listed p rest st) ->
  P (on_group (fun g => XAck true g k) (set_listed p rest st)) ->
  (forall q, pel st !! k = Some q -> c <= experienceMaxRetries ->
     P (on_group (fun g => claim now g k q) (set_listed p rest st)) /\
     P (exp_start p (on_group (fun g => claim now g k q) (set_listed p rest st)) k payload)) ->
  P (exp_reclaim p now reached heard acked payload st).
Proof.
  intros El H0 Hack Hclaim. unfold exp_reclaim. rewrite El. cbv zeta.
  destruct (Z.ltb_spec experienceMaxRetries c); [by destruct acked|]. destruct reached; [|done]. simpl negb. cbv iota.
  apply (XClaim_cases _ _ (set_listed p rest st) k (fun x => P (let '(g, got) := x in _))).
  - done.
  - done.
  - intros q Hq _ _. destruct (Hclaim q Hq) as [H1 H2]; [lia|]. by destruct heard.
Qed.

(** Attempts, ended or not, never outnumber deliveries, of which there are at
    most four. *)
Record exp_bounded (p : nat) (tr : list exp_event) (st : wstate) : Prop := {
  e_order : in_order (entries st);
  e_unread : forall k, unread (last_read st) k = true -> exp_tries tr k + working st k = 0;
  e_pel : forall k x, pel st !! k = Some x -> exp_tries tr k + working st k <= deliveries x <= experienceMaxRetries + 1;
  e_all : forall k, exp_tries tr k + working st k <= experienceMaxRetries + 1;
  e_read : forall k, is_Some (pel st !! k) -> unread (last_read st) k = false;
  e_listed : fresh p st;
}.

Lemma exp_bounded_ext p tr tr' st : (forall k, exp_tries tr' k = exp_tries tr k) -> exp_bounded p tr st -> exp_bounded p tr' st.
Proof. intros E [B1 B2 B3 B4 B5 B6]. split; try done; intros; rewrite ?E; auto. Qed.

(** Less work on the same group. *)
Lemma exp_bounded_less p tr st st' : grp st' = grp st -> (forall k, working st' k <= working st k) -> fresh p st' ->
  exp_bounded p tr st -> exp_bounded p tr st'.
Proof.
  intros Eg Hw Hf [B1 B2 B3 B4 B5 B6]. split; rewrite ?Eg; try done.
  - intros k Hk. specialize (B2 k Hk). specialize (Hw k). unfold exp_tries, working in *. lia.
  - intros k x Hk. specialize (B3 k x Hk). specialize (Hw k). lia.
  - intros k. specialize (B4 k). specialize (Hw k). lia.
Qed.

Lemma exp_bounded_receive p tr now heard st e : exp_bounded p tr st -> next_unread st e -> exp_bounded p tr (exp_receive p now heard st e).
Proof.
  intros [B1 B2 B3 B4 B5 B6] (He & Hu & _).
  destruct (exp_receive_fields p now heard st e) as (E1 & _ & E2 & E3 & E4 & Hw).
  assert (H0 := B2 _ Hu).
  assert (Hold : forall k, unread (last_read (exp_receive p now heard st e)) k = true -> unread (last_read st) k = true /\ k <> e.1).
  { intros k. apply (unread_recv_old grp (exp_receive p now heard)); [|done]. intros. apply exp_receive_fields. }
  split.
  - by rewrite E1.
  - intros k [Hk Hne]%Hold. specialize (Hw k). rewrite decide_False in Hw by done. specialize (B2 _ Hk). unfold exp_tries, working in *. lia.
  - intros k x. specialize (Hw k). rewrite E3. intros [[<- <-]|[Hne Hk]]%lookup_insert_Some.
    + rewrite decide_True in Hw by done. simpl. unfold experienceMaxRetries. lia.
    + rewrite decide_False in Hw by done. specialize (B3 k x Hk). lia.
  - intros k. specialize (Hw k). case_decide as E; [subst k; unfold experienceMaxRetries; lia|]. specialize (B4 k). lia.
  - intros k Hk. destruct (unread (last_read (exp_receive p now heard st e)) k) eqn:Eu; [|done].
    apply Hold in Eu as [Eu Hne]. rewrite E3, lookup_insert_ne in Hk by done. by rewrite B5 in Eu.
  - intros q l. rewrite E4. intros (-> & Hnd & Hl)%B6. split_and!; [done..|]. intros k c Hk. destruct (Hl k c Hk) as [Hr Hx].
    destruct (unread (last_read (exp_receive p now heard st e)) k) eqn:Eu; [apply Hold in Eu as [Eu _]; congruence|].
    split; [done|]. rewrite E3, lookup_insert_ne; [done|]. intros <-. congruence.
Qed.

Lemma exp_bounded_finish p tr st i a ok acked : exp_bounded p tr st -> running st !! i = Some a ->
  exp_bounded p (tr ++ [ExpFinished (at_key a) ok]) (exp_finish i a ok acked st).
Proof.
  intros [B1 B2 B3 B4 B5 B6] Ha.
  assert (Hsum : forall k, exp_tries (tr ++ [ExpFinished (at_key a) ok]) k + working (exp_finish i a ok acked st) k =
    exp_tries tr k + working st k).
  { intros k. rewrite exp_tries_snoc. unfold working, exp_finish. cbn [running].
    replace (running (if ok then on_group (fun g => XAck acked g (at_key a)) st else st)) with (running st) by (by destruct ok).
    rewrite (working_delete (running st) i a _ Ha). simpl. destruct (bool_decide (at_key a = k)); lia. }
  assert (Hst : entries (exp_finish i a ok acked st) = entries st /\ last_read (exp_finish i a ok acked st) = last_read st /\
    listed (exp_finish i a ok acked st) = listed st /\
    forall k x, pel (exp_finish i a ok acked st) !! k = Some x -> pel st !! k = Some x).
  { unfold exp_finish, XAck. destruct ok, acked; simpl; split_and!; try done. by intros k x [_ ?]%lookup_delete_Some. }
  destruct Hst as (E1 & E2 & E3 & Hpel). split; try (intros; rewrite ?Hsum); rewrite ?E1, ?E2 in *; eauto.
  - apply B5. destruct H as [x Hx]. exists x. by apply Hpel.
  - intros q l. rewrite E3, E2. intros (-> & Hnd & Hl)%B6. split_and!; [done..|]. intros k c Hk.
    destruct (Hl k c Hk) as [Hu Hx]. split; [done|]. intros x ?%Hpel. by apply Hx.
Qed.

Lemma exp_bounded_reclaim p tr now reached heard acked payload st k c rest : exp_bounded p tr st -> to_claim st p = (k, c) :: rest ->
  exp_bounded p tr (exp_reclaim p now reached heard acked payload st).
Proof.
  intros Hb El. pose proof Hb as [B1 B2 B3 B4 B5 B6]. destruct (fresh_next p st k c rest El B6) as (Hfr & Hread & Hc & Hni).
  apply (exp_reclaim_cases p now reached heard acked payload st k c rest); [done|by apply (exp_bounded_less p tr st)| |].
  - split; cbn [grp on_group set_listed]; try done.
    + simpl. intros k' x [_ Hx]%lookup_delete_Some. by apply B3.
    + simpl. intros k' [_ Hk']%lookup_delete_is_Some. by apply B5.
    + eapply fresh_claimed; [done..|]. intros k' Hk'. simpl. by rewrite lookup_delete_ne.
  - intros q Hq Hfew. destruct (B3 k q Hq) as [Hle _]. pose proof (Hc q Hq) as Ec.
    assert (Hf : fresh p (on_group (fun g => claim now g k q) (set_listed p rest st))).
    { eapply fresh_claimed; [done..|]. intros k' Hk'. simpl. by rewrite lookup_insert_ne. }
    assert (Hany : forall st', grp st' = claim now (grp st) k q -> fresh p st' ->
      (forall k', working st' k' <= working st k' + (if decide (k = k') then 1 else 0)) -> exp_bounded p tr st').
    { intros st' Eg Hf' Hw. split; rewrite ?Eg; try done; simpl.
      - intros k' Hk'. specialize (Hw k'). rewrite decide_False in Hw by congruence. specialize (B2 k' Hk').
        unfold exp_tries, working in *. lia.
      - intros k' x. specialize (Hw k'). intros [[<- <-]|[Hne Hx]]%lookup_insert_Some.
        + rewrite decide_True in Hw by done. simpl. lia.
        + rewrite decide_False in Hw by done. specialize (B3 k' x Hx). lia.
      - intros k'. specialize (Hw k'). case_decide as E; [subst k'; lia|]. specialize (B4 k'). lia.
      - intros k'. rewrite lookup_insert_is_Some. intros [<- | [_ Hk']]; [done|by apply B5]. }
    split; apply Hany; try done.
    + intros k'. change (working st k' <= working st k' + (if decide (k = k') then 1 else 0)). case_decide; lia.
    + intros k'. rewrite working_start. reflexivity.
Qed.

Lemma exp_bounded_step p tr st ev st' : exp_bounded p tr st -> exp_step st ev st' -> exp_one_process p [ev] -> exp_bounded p (tr ++ [ev]) st'.
Proof.
  intros Hb Hstep Hone. unfold exp_one_process in Hone. rewrite Forall_singleton in Hone.
  destruct Hstep as [k payload cut Hadd|q now heard streams|i a ok acked Ha|q now stream _|q now reached heard acked k c rest payload El _|q].
  3: by apply exp_bounded_finish.
  all: apply (exp_bounded_ext p tr); [intros k'; rewrite exp_tries_snoc; simpl; lia|]; try subst q.
  - destruct Hb as [B1 B2 B3 B4 B5 B6]. split; simpl; try done. apply in_order_snoc; [done|apply Hadd].
  - unfold exp_read. apply (Subscribe_once_ind grp (exp_receive p now heard)); [intros; apply exp_receive_fields..|apply Hb| |done].
    intros st1 e H1 _ Hn. by apply exp_bounded_receive.
  - apply (exp_bounded_less p tr st); [done..| |done]. destruct Hb as [B1 _ _ _ B5 B6]. intros q l. unfold exp_list, set_listed. simpl.
    intros [[<- <-]|[_ Hl]]%lookup_insert_Some; [|by apply B6]. split_and!; [done|by apply XPending_NoDup|].
    intros k c (_ & _ & Hidle & Hc)%elem_of_XPending. split; [|done]. unfold idle_entry in Hidle.
    destruct (pel st !! k) as [x|] eqn:Ex; [|done]. by apply B5.
  - by eapply exp_bounded_reclaim.
  - apply (exp_bounded_less p tr st); [done|intros; apply working_restart| |done]. intros q l. unfold restart. simpl.
    intros [_ Hl]%lookup_delete_Some. by apply (e_listed _ _ _ Hb).
Qed.

Lemma exp_bounded_run p tr st : exp_run tr st -> exp_one_process p tr -> exp_bounded p tr st.
Proof.
  induction 1 as [|tr st ev st' Hrun IH Hstep]; intros Hone.
  - split; simpl; try done; [intros s; apply SSorted_nil|]. intros k [x Hx]. by rewrite lookup_empty in Hx.
  - apply Forall_app in Hone as [Hone Hev]. eapply exp_bounded_step; [by apply IH|done|done].
Qed.

Record exp_failing (n : nat) (tr : list exp_event) (st : wstate) : Prop := {
  ef_run : exp_run tr st;
  ef_one : exp_one_process 0 tr;
  ef_entries : entries st = [(first_key, "{}"%string)];
  ef_trimmed : trimmed st = ∅;
  ef_running : running st = [mkAttempt 0 first_key "{}" 0];
  ef_listed : to_claim st 0 = [];
  ef_pel : exists t, pel st !! first_key = Some (mkPending t (Z.of_nat n + 1));
  ef_tries : exp_tries tr first_key = Z.of_nat n;
}.

Lemma exp_failing_start : exists tr st, exp_failing 0 tr st.
Proof.
  assert (Hadd : exp_step initial (ExpAdded first_key) (on_group (fun g => add_entry g first_key "{}" None) initial))
    by (constructor; split_and!; [constructor|done|done|done]).
  assert (Hread := exp_step_read (on_group (fun g => add_entry g first_key "{}" None) initial) 0 0 true [first_key.1]).
  eexists _, _. split; [exact (exp_run_step _ _ _ _ (exp_run_step _ _ _ _ exp_run_nil Hadd) Hread)|by repeat constructor|..];
    try reflexivity. by exists 0.
Qed.

Lemma exp_failing_next n tr st : (n < 3)%nat -> exp_failing n tr st -> exists tr' st', exp_failing (S n) tr' st'.
Proof.
  intros Hn [Hrun Hone He Htr Hr Hl [t Hp] Ht]. set (a := mkAttempt 0 first_key "{}" 0) in *.
  set (st1 := exp_finish 0 a false true st).
  assert (Hfin : exp_step st (ExpFinished first_key false) st1) by (apply (exp_step_finish st 0 a); by rewrite Hr).
  assert (Er : running st1 = []) by (unfold st1, exp_finish; simpl; by rewrite Hr).
  set (now := t + experienceRetryIdleTime). set (st2 := exp_list 0 now first_key.1 st1).
  assert (Hlist : exp_step st1 (ExpListed 0) st2) by by apply exp_step_list.
  assert (Hl2 : to_claim st2 0 = [(first_key, Z.of_nat n + 1)]).
  { unfold st2, exp_list. rewrite to_claim_set, decide_True by done. unfold XPending. change (entries st1) with (entries st). rewrite He. simpl.
    unfold idle_entry. rewrite Hp. simpl. unfold now. rewrite Z.leb_refl. simpl. by rewrite Hp. }
  set (st3 := exp_reclaim 0 now true true true "{}" st2).
  assert (Hrec : exp_step st2 (ExpReclaimed 0 first_key) st3).
  { eapply exp_step_reclaim; [exact Hl2|]. change (entries st2) with (entries st). rewrite He. by left. }
  assert (E3 : st3 = exp_start 0 (on_group (fun g => claim now g first_key (mkPending t (Z.of_nat n + 1))) (set_listed 0 [] st2)) first_key "{}").
  { unfold st3, exp_reclaim. rewrite Hl2. cbv zeta. rewrite (proj2 (Z.ltb_ge _ _)) by (unfold experienceMaxRetries; lia).
    simpl negb. cbv iota. unfold XClaim. change (pel (set_listed 0 [] st2)) with (pel st). rewrite Hp.
    change (held (set_listed 0 [] st2) first_key) with (held st first_key). unfold held, unread. simpl. rewrite Htr, lookup_empty. simpl.
    unfold now. by rewrite Z.leb_refl. }
  exists (((tr ++ [ExpFinished first_key false]) ++ [ExpListed 0]) ++ [ExpReclaimed 0 first_key]), st3.
  split.
  - exact (exp_run_step _ _ _ _ (exp_run_step _ _ _ _ (exp_run_step _ _ _ _ Hrun Hfin) Hlist) Hrec).
  - repeat (apply Forall_app_2; [|apply Forall_singleton; done]). done.
  - rewrite E3. exact He.
  - rewrite E3. exact Htr.
  - rewrite E3. change (running st1 ++ [mkAttempt 0 first_key "{}" 0] = [mkAttempt 0 first_key "{}" 0]). by rewrite Er.
  - rewrite E3. change (to_claim (set_listed 0 [] st2) 0 = []). rewrite to_claim_set. by rewrite decide_True.
  - exists now. rewrite E3. simpl. rewrite lookup_insert_eq. do 2 f_equal. lia.
  - rewrite !exp_tries_snoc, Ht. cbn [exp_is_finish]. rewrite bool_decide_true by done. lia.
Qed.

Lemma exp_failing_run n : (n <= 3)%nat -> exists tr st, exp_failing n tr st.
Proof.
  induction n as [|n IH]; intros Hn; [apply exp_failing_start|]. destruct IH as (tr & st & H); [lia|]. by apply (exp_failing_next n tr st).
Qed.

(** Whatever fails, restarts or overlaps, one process of the experience worker
    works on an entry at most four times, counting attempts still running, one
    more than experienceMaxRetries; and four is reached. *)
Theorem exp_attempts_bounded :
  (forall p tr st k, exp_run tr st -> exp_one_process p tr -> exp_tries tr k + working st k <= experienceMaxRetries + 1) /\
  exists tr st k, exp_run tr st /\ exp_one_process 0 tr /\ exp_tries tr k + working st k = experienceMaxRetries + 1.
Proof.
  split; [intros p tr st k Hrun Hone; by apply (exp_bounded_run p)|].
  destruct (exp_failing_run 3) as (tr & st & [Hrun Hone He _ Hr _ Hp Ht]); [lia|]. exists tr, st, first_key. split; [done|]. split; [done|].
  rewrite Ht. unfold working. by rewrite Hr.
Qed.
