(* ===== verification/Embedder.v ===== *)
(** The embedder ([internal/worker/embedder.go]): a consumer group of one stream,
    whose batches of messages get their vectors.  The bookkeeping of the group is
    that of [Groups]; the work on a batch changes the database and publishes an
    event for each message. *)
From Stdlib Require Import Ascii String.
From S2P Require Import Prelude GoStd GoStrings Float64 Model Json GoJson Db MessageRepo EntityRepo Redis Groups.

Local Open Scope Z_scope.

Definition EmbedBatchMaxSize : nat := 32.
Definition embedder_stream : string := "global:stream:embedder".
(** The idle time after which a pending message is reclaimed. *)
Definition embedder_idle : time := 25 * second.

(** ** The payloads *)

(** [uuid.Nil] *)
Definition uuid_Nil : uuid := "00000000-0000-0000-0000-000000000000".
Definition no_payload : MessagePayload := mkMessagePayload uuid_Nil uuid_Nil uuid_Nil uuid_Nil.

Section Payloads.
Context `{UuidLib}.

(** A UUID is read by its UnmarshalText, which null leaves alone. *)
Definition dec_uuid : json -> uuid -> uuid * bool := fun j u =>
  match j with
  | JNull => (u, true)
  | JString s => match uuid_Parse s with Some v => (v, true) | None => (u, false) end
  | _ => (u, false)
  end.

Definition dec_payload : json -> MessagePayload -> MessagePayload * bool :=
  dec_struct [
    ("message_id"%string, fun j p => let '(v, ok) := dec_uuid j (mp_MessageID p) in
       (mkMessagePayload v (mp_UserID p) (mp_TenantID p) (mp_SessionID p), ok));
    ("user_id"%string, fun j p => let '(v, ok) := dec_uuid j (mp_UserID p) in
       (mkMessagePayload (mp_MessageID p) v (mp_TenantID p) (mp_SessionID p), ok));
    ("tenant_id"%string, fun j p => let '(v, ok) := dec_uuid j (mp_TenantID p) in
       (mkMessagePayload (mp_MessageID p) (mp_UserID p) v (mp_SessionID p), ok));
    ("session_id"%string, fun j p => let '(v, ok) := dec_uuid j (mp_SessionID p) in
       (mkMessagePayload (mp_MessageID p) (mp_UserID p) (mp_TenantID p) v, ok))].

(** A message of the stream; what is no payload reads as [None]. *)
Definition read_payload (e : key * string) : option (key * MessagePayload) :=
  match Unmarshal dec_payload e.2 no_payload with (p, Ok _) => Some (e.1, p) | (_, Err _) => None end.
End Payloads.

(** [json.Marshal] of a payload. *)
Definition payload_text (p : MessagePayload) : string :=
  of_bytes (encode (JObject [("message_id", JString (mp_MessageID p)); ("user_id", JString (mp_UserID p));
    ("tenant_id", JString (mp_TenantID p)); ("session_id", JString (mp_SessionID p))]%string)).

(** What Publish sends: a channel and a text. *)
Definition publication (p : MessagePayload) : string * string := (mp_TenantID p +:+ ":events:messages", payload_text p).

(** ** A batch *)

(** The groups of a batch by tenant. *)
Definition by_tenant (payloads : list MessagePayload) : gmap string (list MessagePayload) :=
  foldl (fun m p => <[mp_TenantID p := default [] (m !! mp_TenantID p) ++ [p]]> m) ∅ payloads.

(** What the outside decides during a run: the order of the loop over the map
    of tenants, and the provider's answer for each tenant. *)
Record embed_env := mkEmbedEnv {
  ee_range : gmap string (list MessagePayload) -> list (string * list MessagePayload);
  ee_EmbedBatch : string -> list string -> result (list (list float64));
}.
Definition ranges_tenants (e : embed_env) : Prop := forall m, ee_range e m ≡ₚ map_to_list m.

Section Batch.
Context `{UuidLib, OrderBy, PgSearch}.

(** UPDATE messages SET embedding = $1 WHERE id::text = $2 *)
Definition set_embedding (tid : option uuid) (p : Message * list float64) (d : DB) : result DB :=
  _ ← vector_param p.2;
  Ok (set_messages (update_visible tid m_tenant (fun r => bool_decide (msg_ID (m_msg r) = msg_ID p.1))
        (fun r => mkMessageRow (m_msg r) (Some p.2))) d).

(** The messages of the payloads, in no particular order.  The errors of the
    updates, which run as one transaction, and of Publish are logged. *)
Definition processTenantBatch (e : embed_env) (ctx : context) (tenantID : string) (payloads : list MessagePayload) (d : DB)
  : DB * list (string * string) * result unit :=
  let ctx := WithTenantID ctx tenantID in
  let ids := mp_MessageID <$> payloads in
  match Query ctx (fun tid => Ok (order_by (fun _ _ => true) (select_messages tid (fun m => bool_decide (msg_ID m ∈ ids)) d))) with
  | Err err => (d, [], Err err)
  | Ok [] => (d, [], Ok tt)
  | Ok records =>
    match ee_EmbedBatch e tenantID (msg_Content <$> records) with
    | Err err => (d, [], Err err)
    | Ok embeddings =>
      if negb (Nat.eqb (length embeddings) (length records)) then (d, [], Err "embedding count mismatch"%string)
      else
        let d' := match BeforeAcquire ctx with
                  | Err _ => d
                  | Ok tid => SendBatch (set_embedding tid <$> zip records embeddings) d
                  end in
        (d', publication <$> payloads, Ok tt)
    end
  end.

(** The loop over the tenants ends at the first error. *)
Fixpoint process_groups (e : embed_env) (ctx : context) (groups : list (string * list MessagePayload)) (d : DB)
  : DB * list (string * string) * result unit :=
  match groups with
  | [] => (d, [], Ok tt)
  | (tenantID, group) :: rest =>
    match processTenantBatch e ctx tenantID group d with
    | (d, published, Err err) => (d, published, Err err)
    | (d, published, Ok _) => let '(d, more, r) := process_groups e ctx rest d in (d, published ++ more, r)
    end
  end.
Definition processBatch (e : embed_env) (ctx : context) (payloads : list MessagePayload) (d : DB)
  : DB * list (string * string) * result unit :=
  process_groups e ctx (ee_range e (by_tenant payloads)) d.
End Batch.

(** ** The consumer *)

(** The state: the consumer group, the batches in goroutines, the database, and
    the events published.  Nothing in the program adds to its stream, so nothing
    trims it either. *)
Record emb_state := mkEmbState {
  group : cgroup;
  batches : list (list (key * MessagePayload));
  emb_db : DB;
  published : list (string * string);
}.
Definition emb_initial (d : DB) : emb_state := mkEmbState no_streams [] d [].

(** A goroutine is started for what could be read, if anything. *)
Definition start_batch (batch : list (key * MessagePayload)) (l : list (list (key * MessagePayload)))
  : list (list (key * MessagePayload)) :=
  match batch with [] => l | _ => l ++ [batch] end.

(** XACK of several messages is one command. *)
Definition ack_all (acked : bool) (g : cgroup) (ks : list key) : cgroup := foldl (XAck acked) g ks.

Section Consumer.
Context `{UuidLib, OrderBy, PgSearch}.

(** An iteration of Listen's loop.  [heard] is false when the reply of
    XREADGROUP is lost; [acked] says which XACKs of malformed messages
    succeed. *)
Definition emb_read (now : time) (heard : bool) (acked : key -> bool) (st : emb_state) : emb_state :=
  let new := take EmbedBatchMaxSize (unread_of (group st) embedder_stream) in
  let g := foldl (fun g e => deliver now g e.1) (group st) new in
  if heard then
    let g := foldl (fun g e => if read_payload e is Some _ then g else XAck (acked e.1) g e.1) g new in
    mkEmbState g (start_batch (omap read_payload new) (batches st)) (emb_db st) (published st)
  else mkEmbState g (batches st) (emb_db st) (published st).

(** A goroutine ends: it acknowledges its messages if the batch succeeded. *)
Definition emb_finish (i : nat) (batch : list (key * MessagePayload)) (e : embed_env) (ctx : context) (acked : bool) (st : emb_state)
  : emb_state :=
  let '(d, events, r) := processBatch e ctx (batch.*2) (emb_db st) in
  let g := match r with Ok _ => ack_all acked (group st) (batch.*1) | Err _ => group st end in
  mkEmbState g (delete i (batches st)) d (published st ++ events).

(** XPENDING with an idle time: the oldest pending messages idle so long, at
    most 32. *)
Definition idle_entries (now : time) (g : cgroup) : list (key * string) :=
  take EmbedBatchMaxSize (List.filter (fun e => of_stream embedder_stream e && idle_entry embedder_idle now g e.1) (entries g)).

(** A tick of the reclaiming goroutine: the idle messages are claimed, and those
    that can be read become a batch. *)
Definition emb_reclaim (now : time) (heard : bool) (st : emb_state) : emb_state :=
  let due := idle_entries now (group st) in
  let g := foldl (fun g e => match pel g !! e.1 with Some p => claim now g e.1 p | None => g end) (group st) due in
  if heard then mkEmbState g (start_batch (omap read_payload due) (batches st)) (emb_db st) (published st)
  else mkEmbState g (batches st) (emb_db st) (published st).

(** The group is gone (NOGROUP) and created anew at the end of the stream. *)
Definition last_id (g : cgroup) : option stream_id :=
  (fun e => e.1.2) <$> last (List.filter (of_stream embedder_stream) (entries g)).
Definition emb_recreate (st : emb_state) : emb_state :=
  let g := group st in
  mkEmbState (mkGroup (entries g) (trimmed g) (match last_id g with Some i => <[embedder_stream := i]> (last_read g) | None => last_read g end)
    ∅) (batches st) (emb_db st) (published st).

Inductive emb_event :=
  | EmbAdded (k : key)
  | EmbRead
  | EmbFinished (batch : list (key * MessagePayload)) (r : result unit)
  | EmbReclaimed
  | EmbRecreated
  | EmbOther
  | EmbRestarted.

(** [EmbOther] is the rest of the program at work on the database. *)
Inductive emb_step (st : emb_state) : emb_event -> emb_state -> Prop :=
  | emb_step_add k payload : k.1 = embedder_stream ->
      Forall (fun e => e.1.1 = k.1 -> id_lt e.1.2 k.2 = true) (entries (group st)) -> unread (last_read (group st)) k = true ->
      emb_step st (EmbAdded k) (mkEmbState (add_entry (group st) k payload None) (batches st) (emb_db st) (published st))
  | emb_step_read now heard acked : emb_step st EmbRead (emb_read now heard acked st)
  | emb_step_finish i batch e ctx acked : batches st !! i = Some batch -> ranges_tenants e ->
      emb_step st (EmbFinished batch (processBatch e ctx (batch.*2) (emb_db st)).2) (emb_finish i batch e ctx acked st)
  | emb_step_reclaim now heard : emb_step st EmbReclaimed (emb_reclaim now heard st)
  | emb_step_recreate : emb_step st EmbRecreated (emb_recreate st)
  | emb_step_other d : emb_step st EmbOther (mkEmbState (group st) (batches st) d (published st))
  | emb_step_restart : emb_step st EmbRestarted (mkEmbState (group st) [] (emb_db st) (published st)).

Inductive emb_run (d : DB) : list emb_event -> emb_state -> Prop :=
  | emb_run_nil : emb_run d [] (emb_initial d)
  | emb_run_step tr st ev st' : emb_run d tr st -> emb_step st ev st' -> emb_run d (tr ++ [ev]) st'.
End Consumer.

(** ** Lemmas *)

(** *** The groups *)

Definition of_tenant (t : string) (p : MessagePayload) : bool := bool_decide (mp_TenantID p = t).

Lemma by_tenant_lookup l t : by_tenant l !! t = match List.filter (of_tenant t) l with [] => None | g => Some g end.
Proof.
  unfold by_tenant. induction l as [|p l IH] using rev_ind; [done|].
  rewrite foldl_app, List.filter_app. cbn [foldl List.filter]. unfold of_tenant at 2.
  destruct (decide (mp_TenantID p = t)) as [E|E].
  - rewrite bool_decide_true, E, lookup_insert_eq, IH by done. by destruct (List.filter _ l).
  - rewrite bool_decide_false, lookup_insert_ne, IH, app_nil_r by done. done.
Qed.

(** A message one of the groups names. *)
Definition named_by (groups : list (string * list MessagePayload)) (m : Message) : bool :=
  existsb (fun g => bool_decide (msg_TenantID m = g.1) && bool_decide (msg_ID m ∈ mp_MessageID <$> g.2)) groups.
(** A message one of the payloads names. *)
Definition named (payloads : list MessagePayload) (m : Message) : bool :=
  existsb (fun p => bool_decide (mp_TenantID p = msg_TenantID m) && bool_decide (mp_MessageID p = msg_ID m)) payloads.

Lemma named_true l m : named l m = true <-> exists p, p ∈ l /\ mp_TenantID p = msg_TenantID m /\ mp_MessageID p = msg_ID m.
Proof.
  unfold named. rewrite existsb_exists. split; intros (p & Hp & Hb); exists p.
  - rewrite andb_true_iff, !bool_decide_eq_true in Hb. by apply list_elem_of_In in Hp.
  - rewrite andb_true_iff, !bool_decide_eq_true. by apply list_elem_of_In in Hp.
Qed.

Lemma named_by_true groups m : named_by groups m = true <->
  exists g p, (msg_TenantID m, g) ∈ groups /\ p ∈ g /\ mp_MessageID p = msg_ID m.
Proof.
  unfold named_by. rewrite existsb_exists. split.
  - intros ([t g] & Hg%list_elem_of_In & Hb). rewrite andb_true_iff, !bool_decide_eq_true in Hb. cbn [fst snd] in Hb. destruct Hb as [<- Hb].
    apply list_elem_of_fmap in Hb as (p & E & Hp). by exists g, p.
  - intros (g & p & Hg & Hp & E). exists (msg_TenantID m, g). rewrite <-list_elem_of_In, andb_true_iff, !bool_decide_eq_true.
    split_and!; [done|done|]. rewrite <-E. by apply list_elem_of_fmap_2.
Qed.

Section Ranging.
Context (e : embed_env) (Hrange : ranges_tenants e).

Lemma elem_of_groups l t g : (t, g) ∈ ee_range e (by_tenant l) <-> g <> [] /\ g = List.filter (of_tenant t) l.
Proof using Hrange.
  rewrite (Hrange (by_tenant l)), elem_of_map_to_list, by_tenant_lookup. destruct (List.filter _ l); naive_solver.
Qed.

Lemma named_by_groups l m : named_by (ee_range e (by_tenant l)) m = named l m.
Proof using Hrange.
  apply eq_true_iff_eq. rewrite named_by_true, named_true. split.
  - intros (g & p & [_ ->]%elem_of_groups & [Hp Ht]%elem_of_filter_bool & E). exists p.
    unfold of_tenant in Ht. by apply bool_decide_eq_true in Ht.
  - intros (p & Hp & Ht & E). assert (Hin : p ∈ List.filter (of_tenant (msg_TenantID m)) l).
    { apply elem_of_filter_bool. split; [done|]. unfold of_tenant. by apply bool_decide_true. }
    exists (List.filter (of_tenant (msg_TenantID m)) l), p. rewrite elem_of_groups. split_and!; try done.
    intros E'. rewrite E' in Hin. by apply not_elem_of_nil in Hin.
Qed.
End Ranging.

(** *** The rows of a batch *)

Section Rows.
Context `{UuidLib, OrderBy, PgSearch}.

(** What a batch may do to the rows: embed messages that satisfy [P]. *)
Definition embeds_only (P : Message -> bool) (d d' : DB) : Prop :=
  d' = set_messages (fun _ => messages d') d /\
  Forall2 (fun r r' => m_msg r' = m_msg r /\ (P (m_msg r) = false -> r' = r)) (messages d) (messages d').

Lemma embeds_only_refl P d : embeds_only P d d.
Proof. split; [by destruct d|]. by apply Forall_Forall2_diag, Forall_true. Qed.

Lemma embeds_only_trans (P Q R : Message -> bool) d1 d2 d3 : (forall m, P m = true -> R m = true) -> (forall m, Q m = true -> R m = true) ->
  embeds_only P d1 d2 -> embeds_only Q d2 d3 -> embeds_only R d1 d3.
Proof.
  intros HP HQ [E1 H12] [E2 H23]. split; [rewrite E2, E1; done|]. clear E1 E2. revert H23. generalize (messages d3).
  induction H12 as [|r r' l l' [Em Er] _ IH]; intros k H23; [by inversion H23|].
  inversion H23 as [|? r'' ? k' [Em' Er'] Hrest]; subst. constructor; [|by apply IH].
  split; [congruence|]. intros Hno. rewrite Er'; [apply Er|rewrite Em].
  - destruct (P (m_msg r)) eqn:E; [|done]. by rewrite HP in Hno.
  - destruct (Q (m_msg r)) eqn:E; [|done]. by rewrite HQ in Hno.
Qed.

Definition embed_row (tid : option uuid) (r : MessageRow) (p : Message * list float64) : MessageRow :=
  if policy tid (m_tenant r) && bool_decide (msg_ID (m_msg r) = msg_ID p.1) then mkMessageRow (m_msg r) (Some p.2) else r.

Lemma embed_row_msg tid r p : m_msg (embed_row tid r p) = m_msg r.
Proof. unfold embed_row. by case_match. Qed.

(** The updates of a batch, when they all succeed. *)
Lemma run_updates tid l d : Forall (fun p => vector_in p.2 = true) l ->
  run_batch (set_embedding tid <$> l) d = Ok (set_messages (fmap (fun r => foldl (embed_row tid) r l)) d).
Proof.
  intros Hl. revert d. induction Hl as [|p l Hp _ IH]; intros d.
  - simpl. f_equal. destruct d. unfold set_messages. simpl. by rewrite list_fmap_id.
  - cbn [fmap list_fmap run_batch].
    assert (set_embedding tid p d = Ok (set_messages (fmap (fun r => embed_row tid r p)) d)) as ->
      by (unfold set_embedding, vector_param; by rewrite Hp).
    cbn [mbind result_bind].
    rewrite IH. f_equal. destruct d as [ss ms es rs xs us]. unfold set_messages. cbn [messages sessions entity_mentions memory_records experiences llm_usage].
    f_equal. rewrite <-list_fmap_compose. apply list_fmap_ext. intros i r _. reflexivity.
Qed.

Lemma foldl_embed_row tid l r : m_msg (foldl (embed_row tid) r l) = m_msg r.
Proof. revert r. induction l as [|p l IH]; intros r; [done|]. simpl. by rewrite IH, embed_row_msg. Qed.

(** A row no update matches. *)
Lemma foldl_embed_row_idle tid l r : Forall (fun p => policy tid (m_tenant r) && bool_decide (msg_ID (m_msg r) = msg_ID p.1) = false) l ->
  foldl (embed_row tid) r l = r.
Proof. induction 1 as [|p l Hp _ IH]; [done|]. simpl. unfold embed_row at 2. by rewrite Hp. Qed.

(** A row one update matches, and all that do put the same vector. *)
Lemma foldl_embed_row_put tid l r v : policy tid (m_tenant r) = true ->
  Exists (fun p => msg_ID p.1 = msg_ID (m_msg r)) l -> Forall (fun p => msg_ID p.1 = msg_ID (m_msg r) -> p.2 = v) l ->
  foldl (embed_row tid) r l = mkMessageRow (m_msg r) (Some v).
Proof.
  intros Hpol Hex Hall. induction l as [|p l IH] using rev_ind; [by inversion Hex|].
  rewrite foldl_app. cbn [foldl]. apply Forall_app in Hall as [Hall [Hp _]%Forall_cons].
  unfold embed_row at 1. unfold m_tenant. rewrite foldl_embed_row. fold (m_tenant r). rewrite Hpol. cbn [andb].
  case_bool_decide as E; [by rewrite Hp|]. apply IH; [|done].
  apply Exists_app in Hex as [Hex|Hex]; [done|]. inversion Hex as [? ? Hx|? ? Hx]; subst; [congruence|by inversion Hx].
Qed.
End Rows.

(** *** A batch *)

Section Batches.
Context `{UuidLib, OrderBy, PgSearch} (e : embed_env) (ctx : context).

(** A group of tenant [t] embeds messages it names, and no other. *)
Lemma processTenantBatch_only t g d : canonical t -> embeds_only (named_by [(t, g)]) d (processTenantBatch e ctx t g d).1.1.
Proof.
  intros Ht. unfold processTenantBatch, Query, BeforeAcquire.
  destruct (Acquire_canonical (WithTenantID ctx t) t Ht eq_refl) as [[err ->]| ->]; [apply embeds_only_refl|]. cbn [mbind result_bind]. rewrite app_tenant_canonical by done. cbn [mbind result_bind].
  set (select := select_messages _ _ d). destruct (order_by _ select) as [|m ms] eqn:Er; [apply embeds_only_refl|].
  destruct (ee_EmbedBatch e t _) as [vs|]; [|apply embeds_only_refl]. destruct (negb _); [apply embeds_only_refl|]. cbn [fst snd].
  assert (Hin : Forall (fun p => p.1 ∈ select) (zip (m :: ms) vs)).
  { apply Forall_forall. intros [x v] Hx%elem_of_zip_l. rewrite <-(order_by_perm (fun _ _ => true) select). by rewrite Er. }
  apply (SendBatch_ind (embeds_only (named_by [(t, g)]) d)); [|apply embeds_only_refl].
  apply Forall_fmap. eapply Forall_impl; [exact Hin|]. intros [x v] Hx d1 d2 Hd1 Hd2. cbn [fst] in Hx.
  apply (embeds_only_trans (named_by [(t, g)]) (named_by [(t, g)]) (named_by [(t, g)]) _ d1 _ (fun _ H => H) (fun _ H => H) Hd1).
  unfold compose, set_embedding in Hd2. apply result_bind_Ok in Hd2 as (_ & _ & [= <-]). split; [done|]. simpl.
  apply Forall2_fmap_r, Forall_Forall2_diag, Forall_true. intros r. unfold compose. cbn [fst snd].
  destruct (policy (Some t) (m_tenant r) && bool_decide (msg_ID (m_msg r) = msg_ID x)) eqn:Ep; [|done]. split; [done|].
  intros Hno. apply andb_true_iff in Ep as [Ep%bool_decide_eq_true Ei%bool_decide_eq_true].
  unfold select, select_messages in Hx. apply elem_of_filter_bool in Hx as [_ Hg%bool_decide_eq_true].
  rewrite orb_false_r in Hno. unfold m_tenant in Ep.
  rewrite bool_decide_true in Hno by congruence. rewrite bool_decide_true in Hno by by rewrite Ei. done.
Qed.

Lemma process_groups_only groups d : Forall (fun g => canonical g.1) groups ->
  embeds_only (named_by groups) d (process_groups e ctx groups d).1.1.
Proof.
  intros Hg. revert d. induction Hg as [|[t g] groups Ht _ IH]; intros d; [apply embeds_only_refl|].
  cbn [process_groups fst] in *. pose proof (processTenantBatch_only t g d Ht) as Hd.
  assert (Hl : forall m, named_by [(t, g)] m = true -> named_by ((t, g) :: groups) m = true)
    by (intros m; unfold named_by; cbn [existsb]; rewrite orb_false_r; intros ->; done).
  assert (Hr : forall m, named_by groups m = true -> named_by ((t, g) :: groups) m = true)
    by (intros m; unfold named_by; cbn [existsb]; intros ->; apply orb_true_r).
  destruct (processTenantBatch e ctx t g d) as [[d1 pub] [?|err]]; cbn [fst] in Hd.
  - specialize (IH d1). destruct (process_groups e ctx groups d1) as [[d2 more] r]. exact (embeds_only_trans _ _ _ _ _ _ Hl Hr Hd IH).
  - exact (embeds_only_trans _ _ _ _ _ _ Hl Hl Hd (embeds_only_refl (named_by [(t, g)]) d1)).
Qed.

(** *** When the provider answers *)

Context (vec : string -> list float64).
Hypothesis (Hlive : live ctx) (Hvec : forall s, vector_in (vec s) = true).
Hypothesis Hprov : forall t texts, ee_EmbedBatch e t texts = Ok (vec <$> texts).

(** The messages [P] selects get the vectors of their contents. *)
Definition embedded (P : Message -> bool) (r : MessageRow) : MessageRow :=
  if P (m_msg r) then mkMessageRow (m_msg r) (Some (vec (msg_Content (m_msg r)))) else r.
Definition embed_messages (P : Message -> bool) : DB -> DB := set_messages (fmap (embedded P)).

Lemma embed_messages_none P d : Forall (fun r => P (m_msg r) = false) (messages d) -> embed_messages P d = d.
Proof using.
  intros Hno. unfold embed_messages. destruct d as [ss ms es rs xs us]. unfold set_messages. cbn [messages] in *. f_equal.
  cbn. induction Hno as [|r l Hr _ IH]; [done|]. cbn [fmap list_fmap]. unfold embedded at 1. by rewrite Hr, IH.
Qed.

Lemma embed_messages_twice P Q d : embed_messages Q (embed_messages P d) = embed_messages (fun m => P m || Q m) d.
Proof using.
  unfold embed_messages, set_messages. cbn [messages sessions entity_mentions memory_records experiences llm_usage]. f_equal.
  rewrite <-list_fmap_compose. apply list_fmap_ext. intros i r _. unfold compose, embedded.
  destruct (P (m_msg r)) eqn:EP; cbn [m_msg orb]; by destruct (Q (m_msg r)).
Qed.

Lemma embed_messages_msgs P d : m_msg <$> messages (embed_messages P d) = m_msg <$> messages d.
Proof using.
  unfold embed_messages. cbn [set_messages messages]. rewrite <-list_fmap_compose. apply list_fmap_ext. intros i r _.
  unfold compose, embedded. by destruct (P _).
Qed.

(** The messages with their vectors. *)
Definition pairs (l : list Message) : list (Message * list float64) := (fun m => (m, vec (msg_Content m))) <$> l.

Lemma zip_fmap_self (l : list Message) : zip l ((fun m => vec (msg_Content m)) <$> l) = pairs l.
Proof using. unfold pairs. induction l as [|m l IH]; [done|]. cbn. by rewrite IH. Qed.

Lemma unique_ids_eq d r r' : unique_ids d -> r ∈ messages d -> r' ∈ messages d -> msg_ID (m_msg r) = msg_ID (m_msg r') -> r = r'.
Proof using. intros Hu. by apply (NoDup_fmap_eq (msg_ID ∘ m_msg)). Qed.

(** Has the tenant's group any message? *)
Definition any_named (t : string) (g : list MessagePayload) (d : DB) : bool := existsb (fun r => named_by [(t, g)] (m_msg r)) (messages d).

Lemma processTenantBatch_embeds t g d : canonical t -> unique_ids d ->
  processTenantBatch e ctx t g d = (embed_messages (named_by [(t, g)]) d, if any_named t g d then publication <$> g else [], Ok tt).
Proof using Hlive Hvec Hprov.
  intros Ht Hids. unfold processTenantBatch. rewrite Query_canonical, BeforeAcquire_canonical by done.
  set (select := select_messages _ _ d).
  assert (Hsel : forall r, r ∈ messages d -> (m_msg r ∈ select <-> named_by [(t, g)] (m_msg r) = true)).
  { intros r Hr. unfold select, select_messages, named_by. cbn [existsb fst snd].
    rewrite elem_of_filter_bool, orb_false_r, andb_true_iff, !bool_decide_eq_true. split.
    - intros [Hm Hi]. split; [|done]. apply list_elem_of_fmap in Hm as (r' & E & [_ Hr']%elem_of_visible).
      injection Hr' as ->. unfold m_tenant. by rewrite E.
    - intros [Htn Hi]. split; [|done]. apply list_elem_of_fmap_2, elem_of_visible. split; [done|]. unfold m_tenant. by rewrite Htn. }
  assert (Hmem : forall m, m ∈ select -> exists r, r ∈ messages d /\ m = m_msg r).
  { intros m [Hm _]%elem_of_filter_bool. apply list_elem_of_fmap in Hm as (r & -> & [Hr _]%elem_of_visible). by exists r. }
  pose proof (order_by_perm (fun _ _ => true) select) as Hperm. destruct (order_by _ select) as [|m ms] eqn:Er.
  - apply Permutation_nil in Hperm. rewrite Hperm in Hsel.
    assert (Hno : Forall (fun r => named_by [(t, g)] (m_msg r) = false) (messages d)).
    { apply Forall_forall. intros r Hr. apply not_true_iff_false. rewrite <-Hsel by done. apply not_elem_of_nil. }
    rewrite embed_messages_none by done. unfold any_named. rewrite existsb_none; [done|exact Hno].
  - rewrite Hprov, !length_fmap, Nat.eqb_refl. cbn [negb].
    replace (any_named t g d) with true.
    2: { symmetry. apply existsb_exists. destruct (Hmem m) as (r & Hr & ->); [rewrite <-Hperm; by left|].
         exists r. split; [by apply list_elem_of_In|]. apply Hsel; [done|]. rewrite <-Hperm. by left. }
    f_equal. f_equal. rewrite <-list_fmap_compose. rewrite zip_fmap_self. fold (pairs (m :: ms)). unfold SendBatch. rewrite run_updates; [|apply Forall_fmap, Forall_true; intros x; apply Hvec].
    unfold embed_messages, set_messages. f_equal. apply list_fmap_ext. intros i r Hi%list_elem_of_lookup_2.
    unfold embedded. destruct (named_by [(t, g)] (m_msg r)) eqn:En.
    + pose proof (proj2 (Hsel r Hi) En) as Hin. assert (Htn : m_tenant r = t).
      { unfold named_by in En. cbn [existsb fst] in En. rewrite orb_false_r in En. apply andb_true_iff in En as [En _].
        by apply bool_decide_eq_true in En. }
      apply foldl_embed_row_put.
      * unfold policy. apply bool_decide_true. by rewrite Htn.
      * apply Exists_exists. exists (m_msg r, vec (msg_Content (m_msg r))). split; [|done].
        apply list_elem_of_fmap. exists (m_msg r). split; [done|]. by rewrite Hperm.
      * unfold pairs. apply Forall_fmap, Forall_forall. intros x Hx Ei. cbn [fst snd compose] in *. rewrite Hperm in Hx.
        apply Hmem in Hx as (r' & Hr' & ->). do 2 f_equal. f_equal. by apply (unique_ids_eq d).
    + apply foldl_embed_row_idle. apply Forall_fmap, Forall_forall. intros x Hx. cbn [fst compose].
      apply not_true_iff_false. intros [Hp%bool_decide_eq_true Ei%bool_decide_eq_true]%andb_true_iff. rewrite Hperm in Hx.
      pose proof Hx as Hx'. apply Hmem in Hx as (r' & Hr' & ->).
      assert (r = r') as <- by (by apply (unique_ids_eq d)). apply Hsel in Hx'; [congruence|done].
Qed.

Lemma any_named_embed P t g d : any_named t g (embed_messages P d) = any_named t g d.
Proof using.
  assert (Hm : forall l, existsb (fun r => named_by [(t, g)] (m_msg r)) l = existsb (named_by [(t, g)]) (m_msg <$> l))
    by (induction l as [|r l IH]; [done|]; cbn [existsb fmap list_fmap]; by rewrite IH).
  unfold any_named. by rewrite !Hm, embed_messages_msgs.
Qed.

Definition events_of (d : DB) (groups : list (string * list MessagePayload)) : list (string * string) :=
  groups ≫= fun g => if any_named g.1 g.2 d then publication <$> g.2 else [].

Lemma events_of_embed P groups d : events_of (embed_messages P d) groups = events_of d groups.
Proof using.
  unfold events_of. induction groups as [|[t g] groups IH]; [done|]. cbn [mbind list_bind fst snd] in *. by rewrite any_named_embed, IH.
Qed.

Lemma process_groups_embeds groups d : Forall (fun g => canonical g.1) groups -> unique_ids d ->
  process_groups e ctx groups d = (embed_messages (named_by groups) d, events_of d groups, Ok tt).
Proof using Hlive Hvec Hprov.
  intros Hg. revert d. induction Hg as [|[t g] groups Ht _ IH]; intros d Hids; cbn [process_groups].
  - rewrite embed_messages_none; [done|]. by apply Forall_true.
  - cbn [fst] in Ht. rewrite processTenantBatch_embeds by done. set (P := named_by [(t, g)]).
    assert (Hids' : unique_ids (embed_messages P d)).
    { unfold unique_ids in *. rewrite list_fmap_compose, embed_messages_msgs, <-list_fmap_compose. exact Hids. }
    rewrite (IH _ Hids'). rewrite embed_messages_twice. f_equal. f_equal.
    + unfold embed_messages, set_messages. f_equal. apply list_fmap_ext. intros i r _. unfold embedded. f_equal.
      unfold P, named_by. cbn [existsb]. by rewrite orb_false_r.
    + unfold events_of at 2. cbn [mbind list_bind fst snd]. f_equal. apply events_of_embed.
Qed.
End Batches.

(** ** Properties *)

Section BatchProperties.
Context `{UuidLib, OrderBy, PgSearch} (e : embed_env) (ctx : context) (payloads : list MessagePayload).
Hypothesis (Hrange : ranges_tenants e) (Htenants : Forall (fun p => canonical (mp_TenantID p)) payloads).

Lemma groups_canonical : Forall (fun g => canonical g.1) (ee_range e (by_tenant payloads)).
Proof using Hrange Htenants.
  apply Forall_forall. intros [t g] Hg. apply (elem_of_groups e Hrange) in Hg as [Hne E]. destruct g as [|p g]; [done|].
  assert (Hp : p ∈ List.filter (of_tenant t) payloads) by (rewrite <-E; by left).
  apply elem_of_filter_bool in Hp as [Hp Ht]. unfold of_tenant in Ht. apply bool_decide_eq_true in Ht as <-.
  rewrite Forall_forall in Htenants. by apply Htenants.
Qed.

Lemma elem_of_events d ev : ev ∈ events_of d (ee_range e (by_tenant payloads)) <->
  exists p r, p ∈ payloads /\ ev = publication p /\ r ∈ messages d /\ m_tenant r = mp_TenantID p /\ named payloads (m_msg r) = true.
Proof using Hrange.
  unfold events_of. rewrite list_elem_of_bind. split.
  - intros ([t g] & Hev & Hg). pose proof Hg as Hg'. apply (elem_of_groups e Hrange) in Hg as [_ E].
    cbn [fst snd] in Hev. destruct (any_named t g d) eqn:Ea; [|by apply not_elem_of_nil in Hev].
    apply list_elem_of_fmap in Hev as (p & -> & Hp). rewrite E in Hp. apply elem_of_filter_bool in Hp as [Hp Ht%bool_decide_eq_true].
    unfold any_named in Ea. apply existsb_exists in Ea as (r & Hr%list_elem_of_In & Hn). exists p, r. split_and!; try done.
    + apply named_by_true in Hn as (g1 & q & [= <- <-]%list_elem_of_singleton & _). done.
    + rewrite <-(named_by_groups e Hrange). apply named_by_true. apply named_by_true in Hn as (g1 & q & [= E1 <-]%list_elem_of_singleton & Hq).
      exists g1, q. by rewrite E1.
  - intros (p & r & Hp & -> & Hr & Ht & Hn). exists (mp_TenantID p, List.filter (of_tenant (mp_TenantID p)) payloads).
    assert (Hin : p ∈ List.filter (of_tenant (mp_TenantID p)) payloads).
    { apply elem_of_filter_bool. split; [done|]. by apply bool_decide_true. }
    split.
    + cbn [fst snd]. replace (any_named _ _ d) with true; [by apply list_elem_of_fmap_2|]. symmetry. apply existsb_exists. exists r.
      split; [by apply list_elem_of_In|]. apply named_by_true. apply named_true in Hn as (q & Hq & Et & Ei).
      exists (List.filter (of_tenant (mp_TenantID p)) payloads), q. split; [|split; [|done]].
      * apply list_elem_of_singleton. unfold m_tenant in Ht. by rewrite Ht.
      * apply elem_of_filter_bool. split; [done|]. apply bool_decide_true. unfold m_tenant in Ht. congruence.
    + apply (elem_of_groups e Hrange). split; [|done]. intros E. rewrite E in Hin. by apply not_elem_of_nil in Hin.
Qed.

(** C33: a batch embeds what it names.  Whatever the provider answers, nothing
    changes but the vectors of messages its payloads name, each under its own
    tenant; and when the provider answers every text with a vector the database
    accepts, each of those messages gets the vector of its content, and an event
    goes out for every payload of a tenant that has one of them. *)
Theorem processBatch_embeds d :
  embeds_only (named payloads) d (processBatch e ctx payloads d).1.1 /\
  forall vec, live ctx -> unique_ids d -> (forall s, vector_in (vec s) = true) ->
    (forall t texts, ee_EmbedBatch e t texts = Ok (vec <$> texts)) ->
    exists pub, processBatch e ctx payloads d = (embed_messages vec (named payloads) d, pub, Ok tt) /\
      forall ev, ev ∈ pub <-> exists p r, p ∈ payloads /\ ev = publication p /\ r ∈ messages d /\
                                m_tenant r = mp_TenantID p /\ named payloads (m_msg r) = true.
Proof using Hrange Htenants.
  split.
  - eapply embeds_only_trans; [|by intros m; exact id|apply process_groups_only, groups_canonical|apply embeds_only_refl].
    intros m Hm. by rewrite <-(named_by_groups e Hrange).
  - intros vec Hlive Hids Hvec Hprov. unfold processBatch. rewrite (process_groups_embeds e ctx vec) by (done || apply groups_canonical).
    eexists. split; [|apply elem_of_events]. f_equal. f_equal. unfold embed_messages, set_messages. f_equal.
    apply list_fmap_ext. intros i r _. unfold embedded. by rewrite (named_by_groups e Hrange).
Qed.
End BatchProperties.

(** *** The consumer loses nothing *)

Section ConsumerProperties.
Context `{UuidLib, OrderBy, PgSearch}.

(** Every entry is unread, pending, or [S] holds of it. *)
Definition kept (S : key -> string -> Prop) (g : cgroup) : Prop :=
  in_order (entries g) /\ trimmed g = ∅ /\
  forall k q, (k, q) ∈ entries g -> unread (last_read g) k = true \/ is_Some (pel g !! k) \/ S k q.

Lemma kept_mono (S S' : key -> string -> Prop) g : (forall k q, S k q -> S' k q) -> kept S g -> kept S' g.
Proof. intros HS (Ho & Ht & Hk). split_and!; [done..|]. intros k q Hq. destruct (Hk k q Hq) as [?|[?|?]]; auto. Qed.

Lemma kept_deliver S now n s g : kept S g -> let g' := foldl (fun g e => deliver now g e.1) g (take n (unread_of g s)) in
  kept S g' /\ entries g' = entries g.
Proof.
  intros (Ho & Ht & Hk). apply (prefix_ind id (fun g e => deliver now g e.1) (fun _ _ => eq_refl) (fun _ _ => eq_refl) (fun _ _ => eq_refl)); [|done|by split].
  intros g1 e (Ho1 & Ht1 & Hk1) _ Hn. split_and!; [done..|]. intros k q Hq. cbn [deliver entries pel] in *.
  assert (Hh : held (id g1) (k, q).1 = true) by (unfold held, unread; simpl; by rewrite Ht1, lookup_empty).
  pose proof (unread_recv id (fun g e => deliver now g e.1) (fun _ _ => eq_refl) g1 e (k, q) Hn Hq Hh) as Hu. unfold id in Hu. cbn [fst deliver] in Hu. rewrite Hu.
  destruct (decide ((k, q) = e)) as [<-|Hne]; [right; left; rewrite lookup_insert_eq; by eexists|].
  rewrite bool_decide_false, andb_true_r by done. destruct (Hk1 k q Hq) as [?|[Hp|?]]; [by left| |by right; right].
  right. left. apply lookup_insert_is_Some. destruct (decide (e.1 = k)); auto.
Qed.

Lemma kept_XAck S acked g k : kept S g -> (forall q, (k, q) ∈ entries g -> S k q) -> kept S (XAck acked g k).
Proof.
  intros (Ho & Ht & Hk) HS. destruct acked; [|done]. split_and!; [done..|]. intros k' q Hq. cbn [XAck entries last_read pel] in *.
  destruct (Hk k' q Hq) as [?|[Hp|?]]; [by left| |by right; right]. right.
  destruct (decide (k = k')) as [<-|Hne]; [right; by apply HS|left; by rewrite lookup_delete_ne].
Qed.

Lemma kept_ack_all S acked ks g : kept S g -> (forall k q, k ∈ ks -> (k, q) ∈ entries g -> S k q) -> kept S (ack_all acked g ks).
Proof.
  unfold ack_all. revert g. induction ks as [|k ks IH]; intros g Hg HS; [done|]. cbn [foldl]. apply IH.
  - apply kept_XAck; [done|]. intros q Hq. apply HS; [by left|done].
  - intros k' q Hk'. rewrite XAck_entries. apply HS. by right.
Qed.

(** The acknowledgements of malformed messages. *)
Lemma kept_malformed (S : key -> string -> Prop) acked l g : (forall k q, read_payload (k, q) = None -> S k q) -> kept S g -> l ⊆ entries g ->
  kept S (foldl (fun g e => if read_payload e is Some _ then g else XAck (acked e.1) g e.1) g l).
Proof.
  intros HS. revert g. induction l as [|e l IH]; intros g Hg Hl; [done|]. cbn [foldl].
  assert (He : e ∈ entries g) by (apply Hl; by left). assert (Hl' : l ⊆ entries g) by (intros x Hx; apply Hl; by right).
  destruct (read_payload e) eqn:Er; [by apply IH|]. apply IH; [|by rewrite XAck_entries].
  apply kept_XAck; [done|]. intros q Hq. apply HS. destruct e as [k q']. cbn [fst] in Hq.
  by rewrite (in_order_key (entries g) k q q' (proj1 Hg)).
Qed.

Lemma kept_claims S now (l : list (key * string)) g : kept S g ->
  kept S (foldl (fun g e => match pel g !! e.1 with Some p => claim now g e.1 p | None => g end) g l).
Proof.
  revert g. induction l as [|e l IH]; intros g Hg; [done|]. cbn [foldl]. apply IH. destruct (pel g !! e.1) as [p|]; [|done].
  destruct Hg as (Ho & Ht & Hk). split_and!; [done..|]. intros k q Hq. cbn [claim last_read pel] in *.
  destruct (Hk k q Hq) as [?|[Hp|?]]; [by left| |by right; right]. right. left. apply lookup_insert_is_Some. destruct (decide (e.1 = k)); auto.
Qed.

(** An entry has been dealt with: it is no payload, or a batch with it has
    succeeded. *)
Definition emb_settled (tr : list emb_event) (k : key) (q : string) : Prop :=
  read_payload (k, q) = None \/ exists batch, EmbFinished batch (Ok tt) ∈ tr /\ k ∈ batch.*1.

Lemma emb_settled_mono tr tr' k q : emb_settled tr k q -> emb_settled (tr ++ tr') k q.
Proof. intros [?|(b & Hb & Hk)]; [by left|right]. exists b. split; [apply elem_of_app; by left|done]. Qed.

Lemma kept_step tr st ev st' : kept (emb_settled tr) (group st) -> emb_step st ev st' -> ev <> EmbRecreated ->
  kept (emb_settled (tr ++ [ev])) (group st').
Proof.
  intros Hg Hstep Hev. apply (kept_mono _ (emb_settled (tr ++ [ev]))) in Hg; [|by intros k q; apply emb_settled_mono].
  destruct Hstep as [k payload Hs Hnew Hun|now heard acked|i batch e ctx acked Hb _|now heard| |d|]; try done.
  - destruct Hg as (Ho & Ht & Hk). split_and!; [by apply in_order_snoc|done|]. intros k' q [Hq|[= -> ->]%list_elem_of_singleton]%elem_of_app; [by apply Hk|by left].
  - unfold emb_read. pose proof (kept_deliver _ now EmbedBatchMaxSize embedder_stream _ Hg) as [Hd He].
    destruct heard; [|done]. cbn [group]. apply kept_malformed; [intros k q Hq; by left|done|]. rewrite He. intros x Hx.
    apply elem_of_take in Hx as (j & Hj & _). apply list_elem_of_lookup_2 in Hj. unfold unread_of in Hj. apply elem_of_filter_bool in Hj. tauto.
  - unfold emb_finish. destruct (processBatch e ctx (batch.*2) (emb_db st)) as [[d events] r] eqn:Ep. cbn [snd] in *.
    destruct r as [[]|err]; cbn [group]; [|done]. apply kept_ack_all; [done|]. intros k q Hk _. right. exists batch. split; [|done].
    apply elem_of_app. right. by left.
  - unfold emb_reclaim. destruct heard; cbn [group]; by apply kept_claims.
Qed.

(** C34: whatever fails, restarts or overlaps, no message of the embedder's stream
    is lost while its consumer group lasts: each is unread, or pending and so
    to be retried, or no payload at all, or in a batch that succeeded. *)
Theorem embedder_keeps_messages d tr st k payload : emb_run d tr st -> EmbRecreated ∉ tr -> (k, payload) ∈ entries (group st) ->
  unread (last_read (group st)) k = true \/ is_Some (pel (group st) !! k) \/ emb_settled tr k payload.
Proof.
  intros Hrun Hno Hk. enough (kept (emb_settled tr) (group st)) as (_ & _ & Hkept) by by apply Hkept. clear Hk. induction Hrun as [|tr st ev st' _ IH Hstep].
  - split_and!; [intros s; constructor|done|]. intros k' q []%not_elem_of_nil.
  - rewrite elem_of_app, list_elem_of_singleton in Hno. eapply kept_step; [apply IH; tauto|done|]. intros ->. tauto.
Qed.
End ConsumerProperties.

(** ** Examples *)

Module EmbedderSample.
#[local] Existing Instances toy_uuid merge_order_by toy_search.

Definition msg (id t content : string) : MessageRow := mkMessageRow (mkMessage id t "s" "u" "user" content 2 1) None.
Definition inbox : DB := mkDB [] [msg "m1" "t" "hello"; msg "m2" "t" "bye"; msg "m3" "w" "secret"] [] [] [] [].
Definition p1 : MessagePayload := mkMessagePayload "m1" "u" "t" "s".
Definition p2 : MessagePayload := mkMessagePayload "m2" "u" "t" "s".
Definition vec (s : string) : list float64 := [f_of_Z (len s)].
Definition provider : embed_env := mkEmbedEnv map_to_list (fun _ texts => Ok (vec <$> texts)).

(** Another tenant's message is out of reach, even when a payload names it. *)
Definition named_other : MessagePayload := mkMessagePayload "m3" "u" "t" "s".
Lemma processBatch_embeds_witness : exists pub,
  processBatch provider Background [p1; named_other] inbox =
    (set_messages (fun l => (fun r => if decide (msg_ID (m_msg r) = "m1"%string) then mkMessageRow (m_msg r) (Some (vec "hello")) else r) <$> l) inbox,
     pub, Ok tt) /\ publication p1 ∈ pub.
Proof.
  destruct (processBatch_embeds provider Background [p1; named_other]) with (d := inbox) as [_ Hemb].
  - intros m. reflexivity.
  - repeat constructor.
  - destruct (Hemb vec) as (pub & E & Hpub).
    + reflexivity.
    + unfold unique_ids. vm_compute. repeat constructor; set_solver.
    + reflexivity.
    + reflexivity.
    + exists pub. split; [exact E|]. apply Hpub. exists p1, (msg "m1" "t" "hello"). repeat split; [by left|by left].
Defined.

(** One vector the database rejects undoes the updates of the whole batch, which
    counts as a success all the same: events go out, and the messages are
    acknowledged. *)
Definition gap : embed_env := mkEmbedEnv map_to_list (fun _ texts => Ok [vec "hello"; []]).
Lemma one_bad_vector : processBatch gap Background [p1; p2] inbox = (inbox, [publication p1; publication p2], Ok tt).
Proof. vm_compute. reflexivity. Qed.

(** A message added, read, and embedded. *)
Definition k1 : key := (embedder_stream, (1, 0)).
Definition history : list emb_event := [EmbAdded k1; EmbRead].
Definition reading : emb_state := emb_read 5 true (fun _ => true)
  (mkEmbState (add_entry no_streams k1 (payload_text p1) None) [] inbox []).

Lemma reading_run : emb_run inbox history reading.
Proof.
  apply (emb_run_step inbox [EmbAdded k1] (mkEmbState (add_entry no_streams k1 (payload_text p1) None) [] inbox [])).
  - apply (emb_run_step inbox [] (emb_initial inbox)); [constructor|]. apply (emb_step_add (emb_initial inbox) k1); [done|constructor|done].
  - apply emb_step_read.
Defined.

Lemma embedder_keeps_messages_witness : (EmbRecreated ∉ history) /\
  (unread (last_read (group reading)) k1 = true \/ is_Some (pel (group reading) !! k1) \/ emb_settled history k1 (payload_text p1)).
Proof.
  assert (Hno : EmbRecreated ∉ history) by (unfold history; rewrite !elem_of_cons; intros [?|[?|Hn]]; [discriminate..|by apply not_elem_of_nil in Hn]).
  split; [exact Hno|]. apply (embedder_keeps_messages inbox history reading k1 (payload_text p1) reading_run Hno). by left.
Defined.

(** What waits when the group is created anew is never read. *)
Lemma recreated_group_skips :
  let st := emb_recreate (mkEmbState (add_entry no_streams k1 (payload_text p1) None) [] inbox []) in
  k1 ∈ (fst <$> entries (group st)) /\ unread_of (group st) embedder_stream = [] /\ pel (group st) = ∅.
Proof. cbn zeta. split; [by left|]. split; [vm_compute; reflexivity|reflexivity]. Qed.
End EmbedderSample.
