(* ===== verification/Cognitive.v ===== *)
(** What the cognitive worker makes of a job ([internal/worker/cognitive.go],
    processBatchPayload): the batch of messages, the prompt, the model's answer,
    and the facts, events and traits it stores.  [Streams] has the worker's
    reading and retrying. *)
From Stdlib Require Import Ascii String.
From S2P Require Import Prelude GoStd GoStrings Float64 Model Security Json GoJson Llm Db MessageRepo EntityRepo MemoryRepo ExperienceRepo Redis Cache Tenancy Streams.

Local Open Scope Z_scope.

(** ** The job *)

(** The text of a job, as its producers write it: a map, its keys sorted. *)
Definition batch_object (p : BatchPayload) : json :=
  JObject [("batch_size", JNumber (bytes (Itoa (bp_BatchSize p)))); ("last_message_id", JString (bp_LastMessageID p));
           ("session_id", JString (bp_SessionID p)); ("tenant_id", JString (bp_TenantID p));
           ("user_id", JString (bp_UserID p))]%string.
Definition batch_text (p : BatchPayload) : string := of_bytes (encode (batch_object p)).

(** The struct the consumer reads it into. *)
Definition dec_batch : json -> BatchPayload -> BatchPayload * bool :=
  dec_struct [
    ("tenant_id"%string, fun j p => let '(v, ok) := dec_string j (bp_TenantID p) in
       (mkBatchPayload v (bp_UserID p) (bp_SessionID p) (bp_BatchSize p) (bp_LastMessageID p), ok));
    ("user_id"%string, fun j p => let '(v, ok) := dec_string j (bp_UserID p) in
       (mkBatchPayload (bp_TenantID p) v (bp_SessionID p) (bp_BatchSize p) (bp_LastMessageID p), ok));
    ("session_id"%string, fun j p => let '(v, ok) := dec_string j (bp_SessionID p) in
       (mkBatchPayload (bp_TenantID p) (bp_UserID p) v (bp_BatchSize p) (bp_LastMessageID p), ok));
    ("batch_size"%string, fun j p => let '(v, ok) := dec_int j (bp_BatchSize p) in
       (mkBatchPayload (bp_TenantID p) (bp_UserID p) (bp_SessionID p) v (bp_LastMessageID p), ok));
    ("last_message_id"%string, fun j p => let '(v, ok) := dec_string j (bp_LastMessageID p) in
       (mkBatchPayload (bp_TenantID p) (bp_UserID p) (bp_SessionID p) (bp_BatchSize p) v, ok))].
Definition no_batch : BatchPayload := mkBatchPayload "" "" "" 0 "".

(** ** The answer *)

(** What follows the first occurrence of a byte, from it on; what precedes its
    last occurrence, up to it. *)
Fixpoint from_first (c : ascii) (s : string) : option string :=
  match s with
  | EmptyString => None
  | String a s' => if decide (a = c) then Some s else from_first c s'
  end.
Fixpoint to_last (c : ascii) (s : string) : option string :=
  match s with
  | EmptyString => None
  | String a s' =>
    match to_last c s' with
    | Some t => Some (String a t)
    | None => if decide (a = c) then Some (String a EmptyString) else None
    end
  end.

(** [FindStringIndex] of the regular expression of an opening brace, anything,
    and a closing brace: the match starts as early and ends as late as it can. *)
Definition find_block (s : string) : option string := from_first "{" s ≫= to_last "}".

Definition extractCognitiveJSON (s : string) : string :=
  let s := TrimSpace s in default s (find_block s).

Record Extraction := mkExtraction {
  x_Facts : slice ExtractedFact;
  x_Events : slice (gmap string string);
  x_PersonaUpdates : slice string;
}.

Definition dec_fact : json -> ExtractedFact -> ExtractedFact * bool :=
  dec_struct [
    ("entity_name"%string, fun j f => let '(v, ok) := dec_string j (xf_EntityName f) in
       (mkExtractedFact v (xf_EntityType f) (xf_Attribute f) (xf_Value f) (xf_SourceQuote f), ok));
    ("entity_type"%string, fun j f => let '(v, ok) := dec_string j (xf_EntityType f) in
       (mkExtractedFact (xf_EntityName f) v (xf_Attribute f) (xf_Value f) (xf_SourceQuote f), ok));
    ("attribute"%string, fun j f => let '(v, ok) := dec_string j (xf_Attribute f) in
       (mkExtractedFact (xf_EntityName f) (xf_EntityType f) v (xf_Value f) (xf_SourceQuote f), ok));
    ("value"%string, fun j f => let '(v, ok) := dec_string j (xf_Value f) in
       (mkExtractedFact (xf_EntityName f) (xf_EntityType f) (xf_Attribute f) v (xf_SourceQuote f), ok));
    ("source_quote"%string, fun j f => let '(v, ok) := dec_string j (xf_SourceQuote f) in
       (mkExtractedFact (xf_EntityName f) (xf_EntityType f) (xf_Attribute f) (xf_Value f) v, ok))].

Definition dec_extraction : json -> Extraction -> Extraction * bool :=
  dec_struct [
    ("facts"%string, fun j x => let '(v, ok) := dec_slice (mkExtractedFact "" "" "" "" "") dec_fact j (x_Facts x) in
       (mkExtraction v (x_Events x) (x_PersonaUpdates x), ok));
    ("events"%string, fun j x => let '(v, ok) := dec_slice ∅ dec_map j (x_Events x) in
       (mkExtraction (x_Facts x) v (x_PersonaUpdates x), ok));
    ("persona_updates"%string, fun j x => let '(v, ok) := dec_slice EmptyString dec_string j (x_PersonaUpdates x) in
       (mkExtraction (x_Facts x) (x_Events x) v, ok))].
Definition no_extraction : Extraction := mkExtraction nil_slice nil_slice nil_slice.

(** ** The prompt *)

(** [strings.NewReplacer(pairs...).Replace(s)]: one pass over [s]; the texts put
    in are not looked at again. *)
Fixpoint replace_from (pairs : list (string * string)) (skip : nat) (s : string) : string :=
  match s with
  | EmptyString => EmptyString
  | String c s' =>
    match skip with
    | S k => replace_from pairs k s'
    | O =>
      match List.find (fun p => String.prefix p.1 s) pairs with
      | Some (old, new) => new +:+ replace_from pairs (pred (String.length old)) s'
      | None => String c (replace_from pairs 0 s')
      end
    end
  end.
Definition Replace (pairs : list (string * string)) (s : string) : string := replace_from pairs 0 s.

(** The messages, newest first, as a transcript in the order they were said. *)
Definition transcript_line (m : Message) : string := "[" +:+ msg_Role m +:+ "]: " +:+ msg_Content m +:+ newline.
Definition transcript (msgs : list Message) : string := Join (transcript_line <$> rev msgs) "".

(** ** What the outside decides during a run

    The two loops over the map of facts, each in an order of its own; the
    nonces; the ids and times the database gives new rows; the provider's
    answers; the clock. *)
Record run_env := mkRunEnv {
  re_clock : time;
  re_time : string;                                   (* time.Now().Format(time.RFC3339) *)
  re_range : gmap string ExtractedFact -> list ExtractedFact;
  re_range_again : gmap string ExtractedFact -> list ExtractedFact;
  re_rand : nat -> result (list Z);
  re_fact_id : nat -> uuid;
  re_event_id : nat -> uuid * time;
  re_trait_id : nat -> uuid * time;
  re_Generate : LLMRequest -> result (string * Z);
  re_EmbedFacts : list string -> result (list (list float64));
  re_EmbedTraits : list string -> result (list (list float64));
  re_ModelName : string;
}.

(** A loop over a map visits every entry once. *)
Record ranges (e : run_env) : Prop := {
  range_all m : re_range e m ≡ₚ (map_to_list m).*2;
  range_again_all m : re_range_again e m ≡ₚ (map_to_list m).*2;
}.

(** ** Facts *)

Definition unique_key (f : ExtractedFact) : string := xf_EntityName f +:+ "|" +:+ xf_Attribute f.
Definition uniqueFacts (l : list ExtractedFact) : gmap string ExtractedFact :=
  foldl (fun m f => if ValidateExtractedFact f is Some _ then m else <[unique_key f := f]> m) ∅ l.

Section Processing.
Context `{UuidLib, OrderBy, PgSearch, CryptoLib, Jsonb, UnicodeCase, Redis}.
(** The configuration: master key and prompt. *)
Context (key : string) (crypto : Crypto) (CognitivePrompt : string).

Definition buildBatchPrompt (e : run_env) (ctx : context) (tenantID userID transcript : string) (d : DB) : string :=
  let knownEntities := match GetTopEntityNames ctx tenantID userID 20 d with Ok l => l | Err _ => [] end in
  let profile := ProfileGet key ctx tenantID userID d in
  Replace [("{{CURRENT_TIME}}", re_time e); ("{{USER_NAME}}", up_CanonicalName profile);
           ("{{USER_ALIASES}}", Join (up_Aliases profile) ", "); ("{{KNOWN_CONTACTS}}", Join knownEntities ", ");
           ("{{MESSAGE}}", transcript)]%string CognitivePrompt.

(** The messages of the job, from the cache or else from the database.  (A
    negative batch size, which no producer writes, would panic here.) *)
Definition fetch_messages (ctx : context) (now : time) (d : DB) (p : BatchPayload) (size : Z) (st : store) : store * result (list Message) :=
  let '(st, r) := GetRawMessagesUntil ctx now d (bp_TenantID p) (bp_SessionID p) (bp_LastMessageID p) size st in
  match r with
  | Ok (m :: msgs) => (st, Ok (m :: msgs))
  | _ => (st, GetRecentMessagesUntil ctx (bp_TenantID p) (bp_UserID p) (bp_SessionID p) (bp_LastMessageID p) size d)
  end.

(** The facts with their ids, ciphertexts and hashes; what cannot be encrypted
    is left out. *)
Definition encrypt_fact (e : run_env) (mp : MessagePayload) (i : nat) (f : ExtractedFact)
  : option (uuid * ExtractedFact * list Z * string) :=
  match EncryptValue crypto (re_rand e i) (xf_Value f) (mp_TenantID mp) with
  | Ok enc => Some (re_fact_id e i, f, enc, ValueHash (xf_Value f))
  | Err _ => None
  end.
Definition encrypt_facts (e : run_env) (mp : MessagePayload) (facts : list ExtractedFact)
  : list (uuid * ExtractedFact * list Z * string) :=
  omap id (imap (encrypt_fact e mp) facts).

Definition fact_text (f : ExtractedFact) : string := xf_EntityName f +:+ " " +:+ xf_Attribute f +:+ " " +:+ xf_Value f.

Definition process_facts (e : run_env) (ctx : context) (mp : MessagePayload) (facts : gmap string ExtractedFact) (d : DB) : DB :=
  match encrypt_facts e mp (re_range e facts) with
  | [] => d
  | items =>
    let batch := (fun x => x.1.1.2) <$> items in
    let '(d, _) := UpsertFactBatch ctx (re_clock e) mp items d in
    match re_EmbedFacts e (fact_text <$> batch) with
    | Err _ => d
    | Ok embeddings => (UpdateFactEmbeddingsBatch ctx (mp_TenantID mp) (mp_UserID mp) batch embeddings d).1
    end
  end.

(** ** Events *)

(** [json.Marshal] of a map[string]string. *)
Definition marshal_map (m : gmap string string) : string :=
  json_object (le_sort (fun x y => String.leb x.1 y.1) (map_to_list m)).

(** [strings.EqualFold(s, t)] for a [t] in ASCII *)
Definition EqualFold (s t : string) : bool := bool_decide (fold_name s = fold_name t).

Definition birthday_attrs : list string := ["birthday"; "anniversary"; "sinh nhật"; "ngày sinh"; "ngày sinh nhật"]%string.
Definition birthday_event (f : ExtractedFact) : option (gmap string string) :=
  if decide (ToLower (xf_Attribute f) ∈ birthday_attrs) then
    let name := if EqualFold (xf_EntityType f) "self" || EqualFold (xf_EntityName f) "user"
                then "Sinh nhật của tôi"%string else ("Sinh nhật " +:+ xf_EntityName f)%string in
    Some (<["event_name"%string := name]> (<["date"%string := xf_Value f]> ∅))
  else None.
Definition named_event (ev : gmap string string) : option (gmap string string) :=
  if decide (default EmptyString (ev !! "event_name"%string) = EmptyString) then None else Some ev.

Definition event_payloads (e : run_env) (events : list (gmap string string)) (facts : gmap string ExtractedFact) : list string :=
  marshal_map <$> (omap named_event events ++ omap birthday_event (re_range_again e facts)).

Definition process_events (e : run_env) (ctx : context) (mp : MessagePayload) (payloads : list string) (d : DB) : DB :=
  match payloads with
  | [] => d
  | _ => (UpsertEventBatch ctx (mp_TenantID mp) (mp_UserID mp) (mp_SessionID mp)
            (imap (fun i p => (re_event_id e i, p)) payloads) d).1
  end.

(** ** Traits *)

(** The traits of the request that are not blank, as many as there are new
    rows. *)
Definition embedded_traits (updates : list string) (ids : list uuid) : list string :=
  take (length ids) (List.filter (fun t => negb (bool_decide (t = EmptyString))) (TrimSpace <$> updates)).

Definition process_persona (e : run_env) (ctx : context) (mp : MessagePayload) (updates : list string) (d : DB) : DB :=
  match updates with
  | [] => d
  | _ =>
    let '(d, ids) := UpsertPersona ctx (mp_TenantID mp) (mp_UserID mp) (mp_SessionID mp)
                       (imap (fun i t => (re_trait_id e i, t)) updates) d in
    if decide (ids = []) then d
    else match re_EmbedTraits e (embedded_traits updates ids) with
         | Err _ => d
         | Ok embeddings => (UpdatePersonaEmbeddingsBatch ctx (mp_TenantID mp) ids embeddings d).1
         end
  end.

(** ** The job *)

Definition process_extraction (e : run_env) (ctx : context) (mp : MessagePayload) (x : Extraction) (d : DB) : DB :=
  let facts := uniqueFacts (elems (x_Facts x)) in
  let d := process_facts e ctx mp facts d in
  let d := process_events e ctx mp (event_payloads e (elems (x_Events x)) facts) d in
  process_persona e ctx mp (elems (x_PersonaUpdates x)) d.

(** The facts, events and traits are recorded for the owner of the batch's
    newest message. *)
Definition payload_of (m : Message) : MessagePayload :=
  mkMessagePayload (msg_ID m) (msg_UserID m) (msg_TenantID m) (msg_SessionID m).

(** What follows the reading of the messages, newest first. *)
Definition process_messages (e : run_env) (ctx : context) (msgs : list Message) (d : DB) : DB * outcome :=
  match msgs with
  | [] => (d, Transient "no messages to process")
  | m :: _ =>
    let mp := payload_of m in
    let prompt := buildBatchPrompt e ctx (mp_TenantID mp) (mp_UserID mp) (transcript msgs) d in
    match re_Generate e (BuildLLMRequest "You are a cognitive data extractor" prompt) with
    | Err err => (d, Transient err)
    | Ok (resp, tokens) =>
      let usage := mkLLMUsage (mp_TenantID mp) (mp_UserID mp) (mp_SessionID mp) "cognitive_extraction"
                     (re_ModelName e) tokens (re_clock e) in
      let d := match Record ctx usage d with Ok d' => d' | Err _ => d end in
      match Unmarshal dec_extraction (extractCognitiveJSON resp) no_extraction with
      | (_, Err err) => (d, Unrecoverable err)
      | (x, Ok _) => (process_extraction e ctx mp x d, Success)
      end
    end
  end.

Definition processBatchPayload (e : run_env) (ctx : context) (payload : string) (st : store) (d : DB)
  : store * DB * outcome :=
  match Unmarshal dec_batch payload no_batch with
  | (_, Err err) => (st, d, Unrecoverable err)
  | (p, Ok _) =>
    let ctx := WithTenantID ctx (bp_TenantID p) in
    match fetch_messages ctx (re_clock e) d p (bp_BatchSize p) st with
    | (st, Err err) => (st, d, Transient err)
    | (st, Ok msgs) => let '(d, o) := process_messages e ctx msgs d in (st, d, o)
    end
  end.
End Processing.

(** ** Lemmas *)

(** *** The job's text *)

Lemma dec_batch_object p : - 2 ^ 63 <= bp_BatchSize p < 2 ^ 63 -> dec_batch (batch_object p) no_batch = (p, true).
Proof.
  intros Hsize. destruct p as [t u s n m]. cbn [bp_BatchSize] in Hsize.
  pose proof (dec_int_Itoa n 0 Hsize) as E. unfold dec_batch, batch_object, bp_BatchSize, dec_struct.
  revert E. generalize (JNumber (bytes (Itoa n))), dec_int. intros j D E.
  cbn [foldl]. unfold dec_member at 5.
  replace (find_field _ ("batch_size"%string, j).1) with
    (Some ("batch_size"%string, fun j p => let '(v, ok) := D j (bp_BatchSize p) in
       (mkBatchPayload (bp_TenantID p) (bp_UserID p) (bp_SessionID p) v (bp_LastMessageID p), ok))) by (vm_compute; reflexivity).
  cbn [snd fst no_batch bp_BatchSize]. rewrite E. vm_compute. reflexivity.
Qed.

Record utf8_batch (p : BatchPayload) : Prop := {
  utf8_tenant : utf8 (bp_TenantID p);
  utf8_user : utf8 (bp_UserID p);
  utf8_session : utf8 (bp_SessionID p);
  utf8_last : utf8 (bp_LastMessageID p);
}.

Lemma batch_encodable p : utf8_batch p -> - 2 ^ 63 <= bp_BatchSize p < 2 ^ 63 -> encodable (batch_object p).
Proof.
  intros [Ht Hu Hs Hl] Hsize. unfold batch_object. cbn [encodable foldr fst snd].
  split_and!; try done; [by apply Itoa_literal|..]; by vm_compute.
Qed.

Lemma batch_text_decodes p : utf8_batch p -> - 2 ^ 63 <= bp_BatchSize p < 2 ^ 63 ->
  Unmarshal dec_batch (batch_text p) no_batch = (p, Ok tt).
Proof.
  intros Hp Hsize. unfold Unmarshal, batch_text. rewrite parse_json_encode; [|by apply batch_encodable|by vm_compute].
  by rewrite dec_batch_object.
Qed.

(** *** The answer's text *)

Lemma from_first_app c a b : no_byte c a -> from_first c (a +:+ b) = from_first c b.
Proof.
  unfold no_byte. induction a as [|x a IH]; [done|]. cbn [list_ascii_of_string String.append from_first].
  intros [Hx Ha]%Forall_cons. rewrite decide_False by done. by apply IH.
Qed.

Lemma from_first_keep c a b : no_byte c b -> from_first c (a +:+ b) = (fun t => t +:+ b) <$> from_first c a.
Proof.
  intros Hb. induction a as [|x a IH]; cbn [String.append from_first].
  - replace b with (b +:+ EmptyString) by apply string_app_nil. by rewrite from_first_app.
  - by case_decide.
Qed.

Lemma to_last_none c a : no_byte c a -> to_last c a = None.
Proof.
  unfold no_byte. induction a as [|x a IH]; [done|]. cbn [list_ascii_of_string to_last].
  intros [Hx Ha]%Forall_cons. by rewrite IH, decide_False.
Qed.

Lemma to_last_keep c a b : no_byte c b -> to_last c (a +:+ b) = to_last c a.
Proof.
  intros Hb. induction a as [|x a IH]; cbn [String.append to_last]; [by apply to_last_none|]. by rewrite IH.
Qed.

Lemma to_last_end c a b : no_byte c b -> to_last c (a +:+ String c b) = Some (a +:+ String c EmptyString).
Proof.
  intros Hb. induction a as [|x a IH]; cbn [String.append to_last].
  - by rewrite to_last_none, decide_True.
  - by rewrite IH.
Qed.

Lemma blank_no_byte (c : ascii) l : visible_ascii (byte_Z c) -> Forall is_byte l -> Forall blank_byte l -> no_byte c (of_bytes l).
Proof.
  intros Hc Hl Hb. unfold no_byte, of_bytes. rewrite list_ascii_of_string_of_list_ascii. apply Forall_fmap.
  rewrite Forall_forall in *. intros b Hin. simpl. intros <-. apply (Hb b Hin). by rewrite byte_Z_byte in Hc by by apply Hl.
Qed.

(** Trimming loses neither brace. *)
Lemma find_block_TrimSpace s : find_block (TrimSpace s) = find_block s.
Proof.
  destruct (TrimSpace_blank s) as (a & b & E & Ha & Hb). pose proof (bytes_is_byte s) as Hs. rewrite E in Hs.
  apply Forall_app in Hs as [Hsa [_ Hsb]%Forall_app]. apply (f_equal of_bytes) in E.
  rewrite !of_bytes_app, !of_bytes_bytes in E. unfold find_block. rewrite E at 2.
  rewrite from_first_app by (by apply blank_no_byte). rewrite from_first_keep by (by apply blank_no_byte).
  destruct (from_first "{" (TrimSpace s)) as [t|]; [|done]. simpl. symmetry. apply to_last_keep. by apply blank_no_byte.
Qed.

Lemma find_block_surrounded pre mid post : no_byte "{" pre -> no_byte "}" post ->
  find_block (pre +:+ ("{" +:+ mid +:+ "}") +:+ post) = Some ("{" +:+ mid +:+ "}").
Proof.
  intros Hpre Hpost. unfold find_block. rewrite from_first_app by done. cbn [String.append from_first].
  rewrite decide_True by done. cbn [mbind option_bind]. rewrite string_app_assoc. cbn [String.append].
  apply (to_last_end "}" (String "{" mid) post Hpost).
Qed.

(** *** Facts *)

(** The map of facts: each valid, under the key made of its own name and
    attribute. *)
Definition keyed_facts (m : gmap string ExtractedFact) : Prop :=
  forall k f, m !! k = Some f -> k = unique_key f /\ ValidateExtractedFact f = None.

Lemma uniqueFacts_keyed l : keyed_facts (uniqueFacts l).
Proof.
  unfold uniqueFacts. assert (H0 : keyed_facts ∅) by (intros k f; by rewrite lookup_empty).
  revert H0. generalize (∅ : gmap string ExtractedFact). induction l as [|f l IH]; intros m Hm; [done|]. simpl.
  apply IH. destruct (ValidateExtractedFact f) eqn:E; [done|]. intros k g [[<- <-]|[_ Hk]]%lookup_insert_Some; [done|by apply Hm].
Qed.

Section FactLemmas.
Context `{UuidLib, OrderBy, PgSearch, CryptoLib}.

(** The hashes of a map of facts, under the keys of a payload's user. *)
Definition fact_hashes (mp : MessagePayload) (m : gmap string ExtractedFact) : gmap (uuid * uuid * string * string) string :=
  list_to_map ((fun f => (payload_key mp f, ValueHash (xf_Value f))) <$> (map_to_list m).*2).

Lemma keyed_facts_NoDup mp m : keyed_facts m -> NoDup (payload_key mp <$> (map_to_list m).*2).
Proof.
  intros Hm. pose proof (NoDup_fst_map_to_list m) as Hnd.
  assert (Hall : Forall (fun kf => kf.1 = unique_key kf.2) (map_to_list m)).
  { apply Forall_forall. intros [k f] Hkf%elem_of_map_to_list. by apply Hm in Hkf as [? _]. }
  induction (map_to_list m) as [|[k f] l IH]; simpl in *; [constructor|].
  apply NoDup_cons in Hnd as [Hk Hnd]. apply Forall_cons in Hall as [Ek Hall]. apply NoDup_cons. split; [|by apply IH].
  intros (g & E & (kg & -> & Hg)%list_elem_of_fmap)%list_elem_of_fmap. apply Hk, list_elem_of_fmap. exists kg. split; [|done].
  rewrite Forall_forall in Hall. rewrite (Hall _ Hg). simpl in Ek. rewrite Ek. unfold payload_key in E.
  injection E as E1 E2. unfold unique_key. by rewrite E1, E2.
Qed.

Lemma insert_items_notin mp items m k : k ∉ (fun x => payload_key mp x.1.1.2) <$> items ->
  insert_items mp items m !! k = m !! k.
Proof.
  revert m. induction items as [|[[[id f] enc] h] items IH]; intros m Hk; [done|]. simpl in *.
  apply not_elem_of_cons in Hk as [Hk1 Hk]. rewrite IH by done. by rewrite lookup_insert_ne.
Qed.

(** The inserts of facts with different keys are a union, in any order. *)
Lemma insert_items_union mp items m l : NoDup (payload_key mp <$> l) ->
  (fun x => (payload_key mp x.1.1.2, x.2)) <$> items ≡ₚ (fun f => (payload_key mp f, ValueHash (xf_Value f))) <$> l ->
  insert_items mp items m = list_to_map ((fun f => (payload_key mp f, ValueHash (xf_Value f))) <$> l) ∪ m.
Proof.
  intros Hnd Hperm.
  assert (Hnd0 : NoDup ((fun x => (payload_key mp x.1.1.2, x.2)) <$> items).*1) by (rewrite Hperm, <-list_fmap_compose; exact Hnd).
  rewrite <-(list_to_map_proper _ _ Hnd0 Hperm). clear Hnd0.
  assert (Hnd' : NoDup ((fun x => payload_key mp x.1.1.2) <$> items)).
  { assert (E : (fun x => payload_key mp x.1.1.2) <$> items ≡ₚ payload_key mp <$> l); [|by rewrite E].
    apply (fmap_Permutation fst) in Hperm. by rewrite <-!list_fmap_compose in Hperm. }
  clear Hperm Hnd l. revert m. induction items as [|[[[id f] enc] h] items IH]; intros m; simpl; [by rewrite (left_id_L ∅ _)|].
  simpl in Hnd'. apply NoDup_cons in Hnd' as [Hf Hnd']. rewrite IH by done.
  rewrite <-insert_union_l, insert_union_r; [done|]. apply not_elem_of_list_to_map. rewrite <-list_fmap_compose. exact Hf.
Qed.

(** The random source fills what it is given. *)
Definition sized_nonces (e : run_env) : Prop := forall i n, re_rand e i = Ok n -> length n = NonceSize.
Definition all_nonces (e : run_env) : Prop := forall i, exists n, re_rand e i = Ok n.

Lemma imap_same {A B} (f : nat -> A -> B) (g : B -> A) l : (forall i x, g (f i x) = x) -> g <$> imap f l = l.
Proof. intros Hg. revert f Hg. induction l as [|x l IH]; intros f Hg; [done|]. rewrite imap_cons, fmap_cons, Hg. f_equal. apply IH. intros. apply Hg. Qed.

Lemma omap_imap_all {A B} (f : nat -> A -> option B) (g : nat -> A -> B) l : (forall i x, f i x = Some (g i x)) ->
  omap id (imap f l) = imap g l.
Proof.
  revert f g. induction l as [|x l IH]; intros f g Hf; [done|]. rewrite !imap_cons. simpl. rewrite Hf. simpl. f_equal. apply IH. intros. apply Hf.
Qed.

Variable crypto : Crypto.

Lemma encrypt_facts_elem e mp l id f enc h : (id, f, enc, h) ∈ encrypt_facts crypto e mp l ->
  f ∈ l /\ h = ValueHash (xf_Value f) /\ exists i, EncryptValue crypto (re_rand e i) (xf_Value f) (mp_TenantID mp) = Ok enc.
Proof.
  unfold encrypt_facts. intros (o & Ho & Eo)%list_elem_of_omap. simpl in *. subst o.
  apply list_elem_of_lookup in Ho as [i Hi]. rewrite list_lookup_imap in Hi. apply fmap_Some in Hi as (g & Hg & E).
  symmetry in E. unfold encrypt_fact in E. destruct (EncryptValue _ _ _ _) as [c|] eqn:Ec; [|done]. injection E as <- <- <- <-.
  split; [by eapply list_elem_of_lookup_2|]. split; [done|]. by exists i.
Qed.

(** With a nonce for each, no fact is left out. *)
Definition encrypted (e : run_env) (mp : MessagePayload) (i : nat) (f : ExtractedFact) : uuid * ExtractedFact * list Z * string :=
  (re_fact_id e i, f,
   match EncryptValue crypto (re_rand e i) (xf_Value f) (mp_TenantID mp) with Ok c => c | Err _ => [] end, ValueHash (xf_Value f)).

Lemma encrypt_facts_all e mp l : all_nonces e -> encrypt_facts crypto e mp l = imap (encrypted e mp) l.
Proof.
  intros Hn. apply omap_imap_all. intros i f. unfold encrypt_fact, encrypted. destruct (Hn i) as [n Hi]. rewrite Hi.
  unfold EncryptValue, aes_NewCipher, deriveKey. rewrite bool_decide_true; [done|]. rewrite hkdf_length. set_solver.
Qed.

Lemma encrypted_facts e mp l : (fun x => x.1.1.2) <$> imap (encrypted e mp) l = l.
Proof. by apply imap_same. Qed.

Lemma encrypted_ids e mp l : (fun x => x.1.1.1) <$> imap (encrypted e mp) l = re_fact_id e <$> seq 0 (length l).
Proof. rewrite fmap_imap. apply (imap_seq_0 l (re_fact_id e)). Qed.

Lemma encrypted_entries e mp l :
  (fun x => (payload_key mp x.1.1.2, x.2)) <$> imap (encrypted e mp) l =
  (fun f => (payload_key mp f, ValueHash (xf_Value f))) <$> l.
Proof. rewrite fmap_imap. apply (imap_const (fun f => (payload_key mp f, ValueHash (xf_Value f)))). Qed.

(** What the embeddings step does or not, the rows are as the batch left them. *)
Lemma process_facts_batch e ctx mp facts d : exists d1,
  d1 = (UpsertFactBatch ctx (re_clock e) mp (encrypt_facts crypto e mp (re_range e facts)) d).1 /\
  bare <$> entity_mentions (process_facts crypto e ctx mp facts d) = bare <$> entity_mentions d1 /\
  forall tid, (forall o, BeforeAcquire ctx = Ok o -> o = tid) -> fact_write tid d (process_facts crypto e ctx mp facts d).
Proof.
  eexists. split; [done|]. unfold process_facts. destruct (encrypt_facts _ _ _ _) as [|x items].
  { split; [unfold UpsertFactBatch; by destruct (BeforeAcquire ctx)|intros; apply fact_write_refl]. }
  pose proof (fun tid => UpsertFactBatch_write ctx (re_clock e) mp (x :: items) d tid) as Hw.
  destruct (UpsertFactBatch ctx (re_clock e) mp (x :: items) d) as [d1 r]. cbn [fst] in *.
  destruct (re_EmbedFacts e _) as [v|]; [|split; [done|exact Hw]]. split; [apply UpdateFactEmbeddingsBatch_bare|].
  intros tid Htid. eapply fact_write_trans; [by apply Hw|]. by apply UpdateFactEmbeddingsBatch_write.
Qed.

(** The table's invariants hold whatever the facts and the outside world. *)
Definition facts_valid (d : DB) : Prop := facts_ok d /\ Forall (stored_valid crypto) (entity_mentions d).

Lemma facts_valid_bare d d' : bare <$> entity_mentions d' = bare <$> entity_mentions d -> facts_valid d -> facts_valid d'.
Proof.
  intros E [Hok Hv]. split; [by eapply facts_ok_bare|].
  assert (Hb : Forall (stored_valid crypto) (bare <$> entity_mentions d)) by by apply Forall_fmap.
  rewrite <-E in Hb. exact (proj1 (Forall_fmap bare _ _) Hb).
Qed.

(** One statement of a job, with the ciphertext and the hash of a valid fact. *)
Definition sealed (mp : MessagePayload) (f : ExtractedFact) (enc : list Z) : Prop :=
  ValidateExtractedFact f = None /\
  exists n, length n = NonceSize /\ EncryptValue crypto (Ok n) (xf_Value f) (mp_TenantID mp) = Ok enc.

Lemma sealed_row mp f enc id now sup : sealed mp f enc ->
  stored_valid crypto (fact_row id now mp f enc (ValueHash (xf_Value f)) sup).
Proof. intros (Hf & n & Hn & He). by eapply fact_row_valid. Qed.

Lemma upsertFactCTE_valid tid id now mp f enc d d' : sealed mp f enc -> facts_valid d ->
  upsertFactCTE tid id now mp f enc (ValueHash (xf_Value f)) d = Ok d' -> facts_valid d'.
Proof.
  intros Hs [Hok Hv] Hd. pose proof Hd as ->%upsertFactCTE_tid. split; [by eapply upsertFactCTE_hashes|].
  refine (upsertFactCTE_rows _ _ _ _ _ _ _ _ _ _ _ _ _ Hd Hv); [done|]. intros sup. by apply sealed_row.
Qed.

Lemma encrypt_facts_sealed e mp facts id f enc h : sized_nonces e -> ranges e -> keyed_facts facts ->
  (id, f, enc, h) ∈ encrypt_facts crypto e mp (re_range e facts) -> sealed mp f enc /\ h = ValueHash (xf_Value f).
Proof.
  intros Hn Hr Hm (Hf & -> & i & He)%encrypt_facts_elem. split; [|done]. split.
  - rewrite (range_all e Hr) in Hf. apply list_elem_of_fmap in Hf as ([k g] & -> & Hk%elem_of_map_to_list). by apply Hm in Hk as [_ ?].
  - destruct (re_rand e i) as [n|] eqn:En; [|by unfold EncryptValue, aes_NewCipher in He; case_bool_decide].
    exists n. split; [by eapply Hn|done].
Qed.

Lemma process_facts_valid e ctx mp facts d : sized_nonces e -> ranges e -> keyed_facts facts ->
  facts_valid d -> facts_valid (process_facts crypto e ctx mp facts d).
Proof.
  intros Hn Hr Hm Hd. destruct (process_facts_batch e ctx mp facts d) as (d1 & -> & E & _).
  eapply facts_valid_bare; [exact E|]. unfold UpsertFactBatch. destruct (BeforeAcquire ctx) as [o|]; [|done]. simpl.
  apply SendBatch_ind; [|done]. apply Forall_fmap, Forall_forall. intros [[[id f] enc] h] [Hs ->]%encrypt_facts_sealed d1 d2 Hv H12; [|done..].
  by eapply upsertFactCTE_valid.
Qed.

(** The texts of all facts can be stored. *)
Definition storable_facts (facts : gmap string ExtractedFact) : Prop := Forall storable_fact (map_to_list facts).*2.

#[export] Instance storable_facts_dec facts : Decision (storable_facts facts).
Proof. unfold storable_facts. apply _. Defined.

Lemma storable_facts_In facts f : storable_facts facts -> f ∈ (map_to_list facts).*2 -> storable_fact f.
Proof. unfold storable_facts. rewrite Forall_forall. eauto. Qed.

(** The ids the database generates are new. *)
Record fresh_facts (e : run_env) (d : DB) : Prop := {
  fact_id_inj : Inj (=) (=) (re_fact_id e);
  fact_id_new i : re_fact_id e i ∉ em_id <$> entity_mentions d;
}.

Section OneTenant.
Variables (ctx : context) (mp : MessagePayload).
Hypothesis Hlive : live ctx.
Hypothesis Ht : canonical (mp_TenantID mp).

(** With a nonce for each fact, texts PostgreSQL can hold and ids that are new,
    the batch runs. *)
Lemma process_facts_run e facts d : ranges e -> all_nonces e -> storable_facts facts ->
  fresh_facts e d -> has_message (mp_MessageID mp) d ->
  exists d1, run_batch (upsert_stmts (re_clock e) mp (imap (encrypted e mp) (re_range e facts))) d = Ok d1 /\
    bare <$> entity_mentions (process_facts crypto e (WithTenantID ctx (mp_TenantID mp)) mp facts d) = bare <$> entity_mentions d1.
Proof using Hlive Ht.
  intros Hr Hn Htext [Hinj Hnew] Hmsg.
  destruct (process_facts_batch e (WithTenantID ctx (mp_TenantID mp)) mp facts d) as (d1 & Hd1 & E & _).
  rewrite encrypt_facts_all in Hd1 by done. unfold UpsertFactBatch in Hd1.
  rewrite BeforeAcquire_canonical in Hd1 by done. cbn [fst] in Hd1.
  set (items := imap _ _) in *. fold (upsert_stmts (re_clock e) mp items) in Hd1. unfold SendBatch in Hd1.
  destruct (run_batch_upserts_succeeds (re_clock e) mp items d) as [d2 E2].
  - apply Forall_forall. unfold items. rewrite <-encrypt_facts_all by done. intros [[[id f] enc] h] (Hf & -> & _)%encrypt_facts_elem.
    apply fact_texts_storable. rewrite (range_all e Hr) in Hf. by eapply storable_facts_In.
  - unfold items. rewrite encrypted_ids. apply NoDup_fmap_2; [done|]. apply NoDup_seq.
  - apply Forall_forall. intros x Hx. apply (list_elem_of_fmap_2 (fun x => x.1.1.1)) in Hx. unfold items in Hx.
    rewrite encrypted_ids in Hx. apply list_elem_of_fmap in Hx as (i & -> & _). apply Hnew.
  - done.
  - rewrite E2 in Hd1. subst d1. by exists d2.
Qed.

Lemma process_facts_union e facts d : ranges e -> all_nonces e -> keyed_facts facts -> storable_facts facts ->
  fresh_facts e d -> has_message (mp_MessageID mp) d -> facts_ok d ->
  let d' := process_facts crypto e (WithTenantID ctx (mp_TenantID mp)) mp facts d in
  facts_ok d' /\ current_hashes d' = fact_hashes mp facts ∪ current_hashes d.
Proof using Hlive Ht.
  intros Hr Hn Hm Htext Hf Hmsg Hok d'. destruct (process_facts_run e facts d Hr Hn Htext Hf Hmsg) as (d1 & Hrun & E).
  apply run_batch_upserts in Hrun as [Hok1 Eh]; [|done].
  eapply facts_ok_bare in E as [Hok' E]; [|done]. fold d' in Hok', E. split; [done|]. rewrite E, Eh. apply insert_items_union.
  - by apply keyed_facts_NoDup.
  - rewrite encrypted_entries. apply fmap_Permutation. by apply range_all.
Qed.

(** One fact that PostgreSQL cannot hold undoes the batch. *)
Lemma process_facts_refused e facts d : ranges e -> all_nonces e -> ~ storable_facts facts ->
  bare <$> entity_mentions (process_facts crypto e (WithTenantID ctx (mp_TenantID mp)) mp facts d) = bare <$> entity_mentions d.
Proof using Hlive Ht.
  intros Hr Hn Htext. destruct (process_facts_batch e (WithTenantID ctx (mp_TenantID mp)) mp facts d) as (d1 & -> & -> & _).
  unfold UpsertFactBatch. rewrite BeforeAcquire_canonical by done. cbn [fst]. rewrite encrypt_facts_all by done.
  set (items := imap _ _). fold (upsert_stmts (re_clock e) mp items). unfold SendBatch.
  destruct (run_batch _ d) as [d2|] eqn:E; [|done]. apply run_batch_storable in E. destruct Htext. apply Forall_forall. intros f Hf.
  assert (Hin : f ∈ (fun x => x.1.1.2) <$> items).
  { unfold items. by rewrite encrypted_facts, (range_all e Hr). }
  apply list_elem_of_fmap in Hin as (x & -> & Hx). rewrite Forall_forall in E. by eapply fact_texts_storable_inv, E.
Qed.

(** A fact that was not known is there afterwards, under its key. *)
Lemma process_facts_stores e facts d f : ranges e -> all_nonces e -> sized_nonces e -> keyed_facts facts -> storable_facts facts ->
  fresh_facts e d -> has_message (mp_MessageID mp) d -> facts_ok d -> f ∈ (map_to_list facts).*2 ->
  current_hashes d !! payload_key mp f <> Some (ValueHash (xf_Value f)) ->
  exists r id enc sup, r ∈ current_rows (process_facts crypto e (WithTenantID ctx (mp_TenantID mp)) mp facts d) /\
    bare r = fact_row id (re_clock e) mp f enc (ValueHash (xf_Value f)) sup /\
    DecryptValue crypto enc (mp_TenantID mp) = Ok (xf_Value f).
Proof using Hlive Ht.
  intros Hr Hn Hsz Hm Htext Hf Hmsg Hok Hin Hnew. destruct (process_facts_run e facts d Hr Hn Htext Hf Hmsg) as (d1 & Hrun & E).
  assert (Hin' : f ∈ re_range e facts) by by rewrite (range_all e Hr).
  apply list_elem_of_lookup in Hin' as [i Hi].
  assert (Hitem : encrypted e mp i f ∈ imap (encrypted e mp) (re_range e facts)).
  { apply (list_elem_of_lookup_2 _ i). by rewrite list_lookup_imap, Hi. }
  edestruct (run_batch_stores (re_clock e) mp) as (sup & Hrow); [exact Hok|exact Hrun| |exact Hitem|exact Hnew|].
  { rewrite fmap_imap. setoid_rewrite (imap_const (payload_key mp)). rewrite (range_all e Hr). by apply keyed_facts_NoDup. }
  destruct (current_bare _ _ _ E Hrow) as (r & Hr' & Eb). eexists r, _, _, sup. split; [done|]. split; [exact Eb|].
  destruct (Hn i) as [n Ei]. rewrite Ei.
  destruct (DecryptValue_EncryptValue crypto n (xf_Value f) (mp_TenantID mp) (Hsz _ _ Ei)) as (ct & -> & _ & Hd). done.
Qed.

Lemma fact_hashes_lookup facts f : keyed_facts facts -> f ∈ (map_to_list facts).*2 ->
  fact_hashes mp facts !! payload_key mp f = Some (ValueHash (xf_Value f)).
Proof.
  intros Hm Hf. unfold fact_hashes. apply elem_of_list_to_map; [rewrite <-list_fmap_compose; by apply keyed_facts_NoDup|].
  by apply (list_elem_of_fmap_2 (fun f => (payload_key mp f, ValueHash (xf_Value f)))).
Qed.

(** The same facts once more. *)
Lemma process_facts_again e facts d : ranges e -> keyed_facts facts -> facts_ok d ->
  (forall f, f ∈ (map_to_list facts).*2 -> current_hashes d !! payload_key mp f = Some (ValueHash (xf_Value f))) ->
  bare <$> entity_mentions (process_facts crypto e (WithTenantID ctx (mp_TenantID mp)) mp facts d) = bare <$> entity_mentions d.
Proof using Hlive Ht.
  intros Hr Hm Hok Hin.
  destruct (process_facts_batch e (WithTenantID ctx (mp_TenantID mp)) mp facts d) as (d1 & -> & -> & _).
  unfold UpsertFactBatch. rewrite BeforeAcquire_canonical by done. cbn [fst]. rewrite SendBatch_idle; [done|].
  apply Forall_fmap, Forall_forall. intros [[[id f] enc] h] (Hf & -> & _)%encrypt_facts_elem.
  apply upsertFactCTE_idle; [done|]. apply Hin. by rewrite <-(range_all e Hr).
Qed.
End OneTenant.
End FactLemmas.

(** *** The job *)

Section JobLemmas.
Context `{UuidLib, OrderBy, PgSearch, CryptoLib, Jsonb, UnicodeCase, Redis}.
Context (key : string) (crypto : Crypto) (CognitivePrompt : string).

(** What a job of a tenant leaves alone. *)
Record job_write (tid : option uuid) (d d' : DB) : Prop := {
  jw_sessions : sessions d' = sessions d;
  jw_messages : messages d' = messages d;
  jw_experiences : experiences d' = experiences d;
  jw_facts t' : tid <> Some t' ->
    visible (Some t') em_tenant (entity_mentions d') = visible (Some t') em_tenant (entity_mentions d);
  jw_memories t' : tid <> Some t' ->
    visible (Some t') mem_tenant (memory_records d') = visible (Some t') mem_tenant (memory_records d);
}.

Lemma job_write_refl tid d : job_write tid d d.
Proof. done. Qed.
Lemma job_write_trans tid d1 d2 d3 : job_write tid d1 d2 -> job_write tid d2 d3 -> job_write tid d1 d3.
Proof.
  intros [S1 M1 X1 F1 R1] [S2 M2 X2 F2 R2].
  split; [congruence..| |]; intros t' Hne; [by rewrite F2, F1|by rewrite R2, R1].
Qed.
Lemma fact_write_job tid d d' : fact_write tid d d' -> job_write tid d d'.
Proof. intros [E Ho]. rewrite E in *. by split. Qed.
Lemma memory_write_job tid d d' : memory_write tid d d' -> job_write tid d d'.
Proof. intros [E Ho]. rewrite E in *. by split. Qed.

Lemma process_events_write e ctx mp payloads d tid : (forall o, BeforeAcquire ctx = Ok o -> o = tid) ->
  memory_write tid d (process_events e ctx mp payloads d).
Proof. intros Htid. unfold process_events. destruct payloads; [apply memory_write_refl|]. by apply UpsertEventBatch_write. Qed.

Lemma process_persona_write e ctx mp updates d tid : (forall o, BeforeAcquire ctx = Ok o -> o = tid) ->
  memory_write tid d (process_persona e ctx mp updates d).
Proof.
  intros Htid. unfold process_persona. destruct updates as [|x l]; [apply memory_write_refl|].
  generalize (imap (fun i t => (re_trait_id e i, t)) (x :: l)). intros items.
  pose proof (UpsertPersona_write ctx (mp_TenantID mp) (mp_UserID mp) (mp_SessionID mp) items d tid Htid) as Hw.
  destruct (UpsertPersona _ _ _ _ items d) as [d1 ids]. cbn [fst] in Hw. case_decide; [done|].
  destruct (re_EmbedTraits e _); [|done]. eapply memory_write_trans; [exact Hw|]. by apply UpdatePersonaEmbeddingsBatch_write.
Qed.

Lemma process_extraction_write e ctx mp x d tid : (forall o, BeforeAcquire ctx = Ok o -> o = tid) ->
  job_write tid d (process_extraction crypto e ctx mp x d).
Proof.
  intros Htid. unfold process_extraction. eapply job_write_trans; [|apply memory_write_job, process_persona_write; exact Htid].
  eapply job_write_trans; [|apply memory_write_job, process_events_write; exact Htid].
  apply fact_write_job. by destruct (process_facts_batch crypto e ctx mp (uniqueFacts (elems (x_Facts x))) d) as (_ & _ & _ & Hw); apply Hw.
Qed.

(** Events and traits leave the facts alone. *)
Lemma process_extraction_facts e ctx mp x d :
  entity_mentions (process_extraction crypto e ctx mp x d) =
  entity_mentions (process_facts crypto e ctx mp (uniqueFacts (elems (x_Facts x))) d).
Proof.
  assert (Htid : exists tid, forall o, BeforeAcquire ctx = Ok o -> o = tid).
  { destruct (BeforeAcquire ctx) as [a|]; [exists a|exists None]; [|done]. by intros ? [= ->]. }
  destruct Htid as [tid Htid]. unfold process_extraction.
  set (d1 := process_facts _ _ _ _ _ _). set (payloads := event_payloads _ _ _).
  destruct (process_events_write e ctx mp payloads d1 tid Htid) as [E1 _].
  destruct (process_persona_write e ctx mp (elems (x_PersonaUpdates x)) (process_events e ctx mp payloads d1) tid Htid) as [E2 _].
  by rewrite E2, E1.
Qed.

(** The ways a job can end: nothing stored, or the extraction applied after the
    usage is recorded. *)
Lemma processBatchPayload_cases e ctx payload st d :
  let r := processBatchPayload key crypto CognitivePrompt e ctx payload st d in
  exists u, (r.1.2 = d \/ r.1.2 = set_llm_usage u d \/
    (exists m x, let ctx' := WithTenantID ctx (bp_TenantID (Unmarshal dec_batch payload no_batch).1) in
       exists d0, (d0 = d \/ d0 = set_llm_usage u d) /\ r.2 = Success /\ r.1.2 = process_extraction crypto e ctx' (payload_of m) x d0)).
Proof.
  unfold processBatchPayload. destruct (Unmarshal dec_batch payload no_batch) as [p [?|err]]; [|by exists id; left].
  destruct (fetch_messages _ _ d p _ st) as [st1 [[|m msgs]|err]]; [by exists id; left| |by exists id; left].
  cbn [process_messages]. destruct (re_Generate e _) as [[resp tokens]|err]; [|by exists id; left].
  set (usage := mkLLMUsage _ _ _ _ _ _ _). exists (fun l => l ++ [usage]).
  assert (Hu : forall d0, match Record (WithTenantID ctx (bp_TenantID p)) usage d with Ok d' => d' | Err _ => d end = d0 ->
    d0 = d \/ d0 = set_llm_usage (fun l => l ++ [usage]) d).
  { intros d0 <-. unfold Record. destruct (Acquire _); cbn [mbind result_bind]; [|by left].
    destruct (text_params _); cbn [mbind result_bind]; [|by left]. destruct (_ && _); [by right|by left]. }
  set (d0 := match Record _ usage d with Ok _ => _ | Err _ => _ end). specialize (Hu d0 eq_refl).
  destruct (Unmarshal dec_extraction _ _) as [x [?|err]]; [|destruct Hu as [Hu|Hu]; [by left|by right; left]].
  right. right. exists m, x. exists d0. done.
Qed.

Lemma job_write_usage tid u d : job_write tid d (set_llm_usage u d).
Proof. done. Qed.
Lemma facts_valid_same d d' : entity_mentions d' = entity_mentions d -> facts_valid crypto d -> facts_valid crypto d'.
Proof. intros E. apply facts_valid_bare. by rewrite E. Qed.

(** *** Once more *)

Record fresh_memories (e : run_env) (d : DB) : Prop := {
  event_id_inj : Inj (=) (=) (fun i => (re_event_id e i).1);
  trait_id_inj : Inj (=) (=) (fun i => (re_trait_id e i).1);
  event_trait_ids i j : (re_event_id e i).1 <> (re_trait_id e j).1;
  event_id_new i : (re_event_id e i).1 ∉ mr_ID ∘ mem_rec <$> memory_records d;
  trait_id_new i : (re_trait_id e i).1 ∉ mr_ID ∘ mem_rec <$> memory_records d;
}.

Lemma numbered_snd {A} (id : nat -> A) (l : list string) : (imap (fun i p => (id i, p)) l).*2 = l.
Proof. by apply imap_same. Qed.
Lemma numbered_ids (id : nat -> uuid * time) (l : list string) :
  (fun x => x.1.1) <$> imap (fun i p => (id i, p)) l = (fun i => (id i).1) <$> seq 0 (length l).
Proof. rewrite fmap_imap. apply (imap_seq_0 l (fun i => (id i).1)). Qed.
Lemma numbered_NoDup (id : nat -> uuid * time) l : Inj (=) (=) (fun i => (id i).1) ->
  NoDup ((fun x => x.1.1) <$> imap (fun i p => (id i, p)) (l : list string)).
Proof. intros Hinj. rewrite numbered_ids. apply NoDup_fmap_2; [done|]. apply NoDup_seq. Qed.
Lemma numbered_new (id : nat -> uuid * time) l (P : uuid -> Prop) : (forall i, P (id i).1) ->
  Forall (fun x => P x.1.1) (imap (fun i p => (id i, p)) (l : list string)).
Proof.
  intros HP. apply Forall_forall. intros x Hx. apply (list_elem_of_fmap_2 (fun x => x.1.1)) in Hx.
  rewrite numbered_ids in Hx. by apply list_elem_of_fmap in Hx as (i & -> & _).
Qed.

Lemma event_payloads_perm e e' events facts : ranges e -> ranges e' ->
  event_payloads e events facts ≡ₚ event_payloads e' events facts.
Proof.
  intros Hr Hr'. unfold event_payloads. apply fmap_Permutation, Permutation_app_head.
  apply omap_Permutation. by rewrite (range_again_all e Hr), (range_again_all e' Hr').
Qed.

(** The ids of memory records after the events. *)
Lemma process_events_ids e ctx mp payloads d i : i ∈ mr_ID ∘ mem_rec <$> memory_records (process_events e ctx mp payloads d) ->
  i ∈ mr_ID ∘ mem_rec <$> memory_records d \/ exists k, i = (re_event_id e k).1.
Proof.
  unfold process_events. destruct payloads as [|p l]; [by left|]. unfold UpsertEventBatch.
  destruct (BeforeAcquire ctx) as [o|]; [|by left]. cbn [fst].
  apply (SendBatch_ind (fun d' => i ∈ mr_ID ∘ mem_rec <$> memory_records d' ->
    i ∈ mr_ID ∘ mem_rec <$> memory_records d \/ exists k, i = (re_event_id e k).1)); [|by left].
  apply Forall_fmap, Forall_forall. intros [[id now] q] Hx d1 d2 IH Hup.
  assert (Hid : exists k, id = (re_event_id e k).1).
  { apply (list_elem_of_fmap_2 (fun x => x.1.1)) in Hx. rewrite numbered_ids in Hx.
    apply list_elem_of_fmap in Hx as (k & E & _). by exists k. }
  revert Hup. unfold upsert_event. intros (? & _ & (? & _ & (? & _ & Hd)%result_bind_Ok)%result_bind_Ok)%result_bind_Ok.
  destruct (jsonb_in q); [|done]. case_match; [by injection Hd as <-|]. apply insert_memory_row_ok in Hd as ->.
  simpl. rewrite fmap_app, elem_of_app. intros [Hi|Hi%list_elem_of_singleton]; [auto|]. right. by subst.
Qed.

Section Again.
Variables (ctx : context) (mp : MessagePayload).
Hypothesis Hlive : live ctx.
Hypothesis Ht : canonical (mp_TenantID mp).
Hypothesis Hu : canonical (mp_UserID mp).
Hypothesis Hs : canonical (mp_SessionID mp).

Lemma process_events_again e e' events facts d d' : ranges e -> ranges e' -> fresh_memories e d ->
  grows (process_events e (WithTenantID ctx (mp_TenantID mp)) mp (event_payloads e events facts) d) d' ->
  process_events e' (WithTenantID ctx (mp_TenantID mp)) mp (event_payloads e' events facts) d' = d'.
Proof using Hlive Ht Hu Hs.
  intros Hr Hr' Hf Hg. pose proof (event_payloads_perm e e' events facts Hr Hr') as Hp. revert Hg Hp.
  generalize (event_payloads e events facts), (event_payloads e' events facts). intros l l' Hg Hp.
  unfold process_events in *. destruct l' as [|p' l']; [done|]. destruct l as [|p l]; [by apply Permutation_nil in Hp|].
  rewrite (UpsertEventBatch_again (mp_TenantID mp) (mp_UserID mp) (mp_SessionID mp) Ht Hu Hs ctx
    (imap (fun i q => (re_event_id e i, q)) (p :: l)) _ d); [done|done| | | |exact Hg].
  - apply numbered_NoDup, Hf.
  - apply (numbered_new (re_event_id e) (p :: l) (fun i => i ∉ mr_ID ∘ mem_rec <$> memory_records d)), Hf.
  - by rewrite !numbered_snd.
Qed.

Lemma process_persona_records e updates d : Inj (=) (=) (fun i => (re_trait_id e i).1) ->
  (forall i, (re_trait_id e i).1 ∉ mr_ID ∘ mem_rec <$> memory_records d) -> Forall (fun t => storable (TrimSpace t)) updates ->
  let d' := process_persona e (WithTenantID ctx (mp_TenantID mp)) mp updates d in
  grows d d' /\ Forall (fun t => TrimSpace t <> EmptyString ->
    same_trait (mp_TenantID mp) (mp_UserID mp) (TrimSpace t) d' <> []) updates.
Proof using Hlive Ht Hu Hs.
  intros Hinj Hnew Hst. unfold process_persona. destruct updates as [|x l]; [split; [by apply grows_erased|constructor]|].
  set (items := imap _ _). destruct (UpsertPersona _ _ _ _ items d) as [d1 ids] eqn:E.
  assert (Hst' : Forall (fun x => storable (TrimSpace x.2)) items).
  { apply (Forall_fmap snd (fun t => storable (TrimSpace t))). unfold items. by rewrite numbered_snd. }
  assert (Hone : grows d d1 /\ Forall (fun t => TrimSpace t <> EmptyString ->
    same_trait (mp_TenantID mp) (mp_UserID mp) (TrimSpace t) d1 <> []) (x :: l)).
  { split.
    - destruct (UpsertPersona_ind ctx _ _ _ items Hlive Ht Hu Hs Hst' d d1 ids E) as (_ & _ & (rows & Hrows & _) & _).
      by eapply grows_app.
    - rewrite <-(numbered_snd (re_trait_id e) (x :: l)). apply Forall_fmap.
      eapply (UpsertPersona_complete ctx _ _ _ items Hlive Ht Hu Hs Hst' d d1 ids); [|  |exact E].
      + by apply numbered_NoDup.
      + by apply (numbered_new (re_trait_id e) (x :: l) (fun i => i ∉ mr_ID ∘ mem_rec <$> memory_records d)). }
  case_decide; [done|]. destruct (re_EmbedTraits e _) as [v|]; [|done].
  pose proof (grows_erased _ _ (UpdatePersonaEmbeddingsBatch_erased (WithTenantID ctx (mp_TenantID mp)) (mp_TenantID mp) ids v d1)) as Hg.
  destruct Hone as [Hg1 Hall]. split; [by eapply grows_trans|]. eapply Forall_impl; [exact Hall|].
  intros t Hin Hne. eapply same_trait_grows; [exact Hg|by apply Hin].
Qed.

Lemma process_persona_again e updates d : Forall (fun t => storable (TrimSpace t)) updates ->
  Forall (fun t => TrimSpace t <> EmptyString -> same_trait (mp_TenantID mp) (mp_UserID mp) (TrimSpace t) d <> []) updates ->
  process_persona e (WithTenantID ctx (mp_TenantID mp)) mp updates d = d.
Proof using Hlive Ht Hu Hs.
  intros Hst Hin. unfold process_persona. destruct updates as [|x l]; [done|]. rewrite UpsertPersona_idle by
    (try done; apply (Forall_fmap snd (fun t => storable (TrimSpace t) /\ (TrimSpace t <> EmptyString ->
       same_trait (mp_TenantID mp) (mp_UserID mp) (TrimSpace t) d <> []))); rewrite numbered_snd; by apply Forall_and).
  by rewrite decide_True by done.
Qed.
End Again.
End JobLemmas.

(** ** Properties *)

(** C24: what a producer writes for a job is what the worker reads: the text of a
    job whose ids are UTF-8 decodes into the same five fields. *)
Theorem batch_text_read p : utf8_batch p -> - 2 ^ 63 <= bp_BatchSize p < 2 ^ 63 ->
  Unmarshal dec_batch (batch_text p) no_batch = (p, Ok tt).
Proof. apply batch_text_decodes. Qed.

(** C31: the worker reads the object of an answer, any text from an opening to
    a closing brace, on one line or on many, whatever surrounds it, a code fence
    or prose, as long as no opening brace precedes it and no closing brace
    follows it: what is decoded is the object's text, byte for byte, and when
    this is the JSON text of a value, that value. *)
Theorem answer_read {A} (dec : json -> A -> A * bool) (zero : A) pre mid post :
  no_byte "{" pre -> no_byte "}" post ->
  let object := "{" +:+ mid +:+ "}" in
  extractCognitiveJSON (pre +:+ object +:+ post) = object /\
  forall l, encodable (JObject l) -> depth (JObject l) <= maxNestingDepth -> object = of_bytes (encode (JObject l)) ->
    Unmarshal dec (extractCognitiveJSON (pre +:+ object +:+ post)) zero =
    ((dec (JObject l) zero).1, if (dec (JObject l) zero).2 then Ok tt else Err type_error_json).
Proof.
  intros Hpre Hpost object.
  assert (E : extractCognitiveJSON (pre +:+ object +:+ post) = object).
  { unfold extractCognitiveJSON. rewrite find_block_TrimSpace. unfold object. by rewrite find_block_surrounded. }
  split; [exact E|]. intros l Hj Hd El. rewrite E, El. unfold Unmarshal. rewrite parse_json_encode by done. by destruct (dec (JObject l) zero).
Qed.

Section Properties.
Context `{UuidLib, OrderBy, PgSearch, CryptoLib, Jsonb, UnicodeCase, Redis}.
Context (key : string) (crypto : Crypto) (CognitivePrompt : string).

(** A job changes nothing outside its tenant, whatever the queue, the cache
    and the model provider answer: sessions, messages and experiences stay as
    they are, and of facts and memory records the rows every tenant but the
    job's sees. *)
Theorem processBatchPayload_isolated e ctx payload st d st' d' o :
  processBatchPayload key crypto CognitivePrompt e ctx payload st d = (st', d', o) ->
  sessions d' = sessions d /\ messages d' = messages d /\ experiences d' = experiences d /\
  (forall t', to_uuid (bp_TenantID (Unmarshal dec_batch payload no_batch).1) <> Ok t' ->
    visible (Some t') em_tenant (entity_mentions d') = visible (Some t') em_tenant (entity_mentions d) /\
    visible (Some t') mem_tenant (memory_records d') = visible (Some t') mem_tenant (memory_records d)).
Proof.
  intros E. destruct (processBatchPayload_cases key crypto CognitivePrompt e ctx payload st d) as [u Hcase].
  rewrite E in Hcase. cbn [fst snd] in Hcase. set (T := bp_TenantID _) in *.
  set (tid := match to_uuid T with Ok o => Some o | Err _ => None end).
  assert (Hw : job_write tid d d').
  { destruct Hcase as [-> |[-> |(m & x & d0 & Hd0 & _ & ->)]]; [apply job_write_refl|apply job_write_usage|].
    apply (job_write_trans tid d d0); [destruct Hd0 as [-> | ->]; [apply job_write_refl|apply job_write_usage]|]. apply process_extraction_write.
    intros a [[-> Hempty]|(u0 & Ho & ->)]%(BeforeAcquire_tenant_id _ T); [| |done]; unfold tid; [|by rewrite Ho].
    destruct (to_uuid T) eqn:Ho; [|done]. rewrite Hempty in Ho. by apply to_uuid_empty in Ho. }
  destruct Hw as [HS HM HX HF HR]. split_and!; [done..|]. intros t' Hne.
  assert (Ht : tid <> Some t') by (unfold tid; destruct (to_uuid T); congruence).
  split; [by apply HF|by apply HR].
Qed.

(** C10: whatever is in the queue and the cache, and whatever the model provider
    answers, a job leaves the table of facts well formed: unique ids, at most one
    current row of each key, and in every row a value that decrypts to a text
    with the row's hash which, with the row's other columns, the validator
    accepts. *)
Theorem processBatchPayload_keeps_facts_valid e ctx payload st d st' d' o : ranges e -> sized_nonces e ->
  facts_valid crypto d -> processBatchPayload key crypto CognitivePrompt e ctx payload st d = (st', d', o) ->
  facts_valid crypto d'.
Proof.
  intros Hr Hn Hd E. destruct (processBatchPayload_cases key crypto CognitivePrompt e ctx payload st d) as [u Hcase].
  rewrite E in Hcase. cbn [fst snd] in Hcase.
  destruct Hcase as [-> |[-> |(m & x & d0 & Hd0 & _ & ->)]]; [done|by apply (facts_valid_same crypto d)|].
  assert (Hv : facts_valid crypto d0) by (destruct Hd0 as [-> | ->]; [done|by apply (facts_valid_same crypto d)]). clear Hd0 E.
  eapply facts_valid_same; [apply process_extraction_facts|]. apply process_facts_valid; try done. apply uniqueFacts_keyed.
Qed.

(** C15: the facts of a job are stored as a union of maps, if PostgreSQL can
    hold their texts: afterwards each valid fact is the current one under its
    key, every other key keeps its current value, and the order in which the
    program ranges over its map of facts does not matter.  If one fact has a
    text with U+0000, or one that is not UTF-8, none is stored. *)
Theorem process_facts_refines_union e ctx mp l d :
  live ctx -> canonical (mp_TenantID mp) -> ranges e -> all_nonces e -> fresh_facts e d ->
  has_message (mp_MessageID mp) d -> facts_ok d ->
  let d' := process_facts crypto e (WithTenantID ctx (mp_TenantID mp)) mp (uniqueFacts l) d in
  facts_ok d' /\
  current_hashes d' = if decide (storable_facts (uniqueFacts l)) then fact_hashes mp (uniqueFacts l) ∪ current_hashes d
                      else current_hashes d.
Proof.
  intros Hlive Ht Hr Hn Hf Hm Hok. case_decide as Htext.
  - apply process_facts_union; try done. apply uniqueFacts_keyed.
  - by apply facts_ok_bare; [apply process_facts_refused|].
Qed.

(** C18: processing is idempotent, as a queue that delivers jobs more than once
    needs: storing an extraction again, with other ids, times, nonces,
    embeddings and orders of iteration, adds and closes no fact, event or
    trait; at most embeddings change.  (If the facts are refused for a text
    PostgreSQL cannot hold, they are refused again, as long as there is a nonce
    for that fact.) *)
Theorem process_extraction_idempotent e e' ctx mp x d :
  live ctx -> canonical (mp_TenantID mp) -> canonical (mp_UserID mp) -> canonical (mp_SessionID mp) ->
  ranges e -> ranges e' -> all_nonces e -> fresh_facts e d -> fresh_memories e d ->
  Forall (fun t => storable (TrimSpace t)) (elems (x_PersonaUpdates x)) ->
  storable_facts (uniqueFacts (elems (x_Facts x))) \/ all_nonces e' ->
  has_message (mp_MessageID mp) d -> facts_ok d ->
  let d1 := process_extraction crypto e (WithTenantID ctx (mp_TenantID mp)) mp x d in
  let d2 := process_extraction crypto e' (WithTenantID ctx (mp_TenantID mp)) mp x d1 in
  d2 = set_entity_mentions (fun _ => entity_mentions d2) d1 /\
  bare <$> entity_mentions d2 = bare <$> entity_mentions d1.
Proof.
  intros Hlive Ht Hu Hs Hr Hr' Hn Hff Hfm Hst Htext Hmsg Hok d1 d2.
  set (ctx' := WithTenantID ctx (mp_TenantID mp)) in *.
  assert (Htid : forall o, BeforeAcquire ctx' = Ok o -> o = Some (mp_TenantID mp)).
  { unfold ctx'. rewrite BeforeAcquire_canonical by done. by intros ? [= <-]. }
  pose proof (uniqueFacts_keyed (elems (x_Facts x))) as Hkeyed. set (facts := uniqueFacts _) in *.
  (* the first time *)
  assert (HF : facts_ok (process_facts crypto e ctx' mp facts d) /\ (storable_facts facts ->
    current_hashes (process_facts crypto e ctx' mp facts d) = fact_hashes mp facts ∪ current_hashes d)).
  { destruct (decide (storable_facts facts)) as [Hyes|Hno].
    - destruct (process_facts_union crypto ctx mp Hlive Ht e facts d) as [? ?]; done.
    - split; [|done]. eapply facts_ok_bare; [by apply process_facts_refused|done]. }
  destruct HF as [HokF EhF].
  destruct (process_facts_batch crypto e ctx' mp facts d) as (_ & _ & _ & HwF). destruct (HwF _ Htid) as [EF _]. clear HwF.
  set (dF := process_facts crypto e ctx' mp facts d) in *.
  assert (HmF : memory_records dF = memory_records d) by by rewrite EF.
  destruct (process_events_write e ctx' mp (event_payloads e (elems (x_Events x)) facts) dF _ Htid) as [EE _].
  pose proof (process_events_ids e ctx' mp (event_payloads e (elems (x_Events x)) facts) dF) as HidE.
  set (dE := process_events e ctx' mp _ dF) in *.
  destruct (process_persona_records ctx mp Hlive Ht Hu Hs e (elems (x_PersonaUpdates x)) dE (trait_id_inj e d Hfm)) as [HgP HtP];
    [|done|].
  { intros i [Hi|[k Hk]]%HidE; [rewrite HmF in Hi; by apply (trait_id_new e d Hfm i)|by apply (event_trait_ids e d Hfm k i)]. }
  destruct (process_persona_write e ctx' mp (elems (x_PersonaUpdates x)) dE _ Htid) as [EP _].
  fold ctx' in HgP, HtP. change (process_persona e ctx' mp _ dE) with d1 in HgP, HtP, EP.
  assert (EmP : entity_mentions d1 = entity_mentions dF) by by rewrite EP, EE.
  (* the second time *)
  assert (Hok1 : facts_ok d1 /\ current_hashes d1 = current_hashes dF) by (apply facts_ok_bare; [by rewrite EmP|done]).
  destruct Hok1 as [Hok1 Eh1].
  destruct (process_facts_batch crypto e' ctx' mp facts d1) as (_ & _ & _ & HwF2). destruct (HwF2 _ Htid) as [EF2 _]. clear HwF2.
  assert (EbF2 : bare <$> entity_mentions (process_facts crypto e' ctx' mp facts d1) = bare <$> entity_mentions d1).
  { destruct (decide (storable_facts facts)) as [Hyes|Hno]; [|by apply process_facts_refused; [..|destruct Htext|]].
    apply process_facts_again; try done. intros f Hf. rewrite Eh1, EhF by done. apply lookup_union_Some_l. by apply fact_hashes_lookup. }
  assert (E2 : d2 = process_facts crypto e' ctx' mp facts d1).
  { assert (HmF2 : memory_records (process_facts crypto e' ctx' mp facts d1) = memory_records d1) by by rewrite EF2.
    unfold d2, process_extraction. fold facts ctx'. set (dF2 := process_facts crypto e' ctx' mp facts d1) in *.
    unfold ctx' at 2. rewrite (process_events_again ctx mp Hlive Ht Hu Hs e e' _ _ dF dF2); [|done|done| |].
    - apply process_persona_again; try done. eapply Forall_impl; [exact HtP|]. intros t Hin Hne. unfold same_trait.
      rewrite HmF2. by apply Hin.
    - split; try apply Hfm; rewrite HmF; apply Hfm.
    - fold ctx' dE. unfold grows. rewrite HmF2. exact HgP. }
  rewrite E2. split; [exact EF2|exact EbF2].
Qed.
End Properties.

(** ** Examples *)

Module CognitiveSample.
#[local] Existing Instances toy_uuid merge_order_by toy_search toy_crypto toy_jsonb.
#[local] Instance server : Redis := local_redis true.
#[local] Instance ascii_case : UnicodeCase := {| unicode_lower r := r; unicode_upper r := r |}.

Definition job : BatchPayload := mkBatchPayload "t" "u" "s" 6 "m1".

Lemma job_utf8 : utf8_batch job.
Proof. split; vm_compute; reflexivity. Qed.

Lemma batch_text_read_witness : Unmarshal dec_batch (batch_text job) no_batch = (job, Ok tt).
Proof. apply (batch_text_read job job_utf8). vm_compute. split; [discriminate|reflexivity]. Defined.

Definition crypto : Crypto := mkCrypto (replicate 32 7).
Definition key : string := "00112233445566778899aabbccddeeff00112233445566778899aabbccddeeff".
Definition q (s : string) : string := String dquote (s +:+ String dquote EmptyString).

(** An answer with a fact, an event and a trait, in a code fence. *)
Definition answer : string :=
  "```json {" +:+ q "facts" +:+ ":[{" +:+ q "entity_name" +:+ ":" +:+ q "Nam" +:+ "," +:+ q "entity_type" +:+ ":" +:+ q "person" +:+ ","
  +:+ q "attribute" +:+ ":" +:+ q "job" +:+ "," +:+ q "value" +:+ ":" +:+ q "pilot" +:+ "}],"
  +:+ q "events" +:+ ":[{" +:+ q "event_name" +:+ ":" +:+ q "trip" +:+ "}]," +:+ q "persona_updates" +:+ ":[" +:+ q " kind " +:+ "]} ```".

(** The same object on several lines, between prose and a code fence; it is
    read all the same. *)
Definition pretty_middle : string :=
  newline +:+ "  " +:+ q "facts" +:+ ": [" +:+ newline +:+ "    {" +:+ q "entity_name" +:+ ": " +:+ q "Nam" +:+ "," +:+ newline
  +:+ "     " +:+ q "attribute" +:+ ": " +:+ q "job" +:+ "}" +:+ newline +:+ "  ]" +:+ newline.

Lemma answer_read_witness :
  let text := "Here:" +:+ newline +:+ "```json" +:+ newline +:+ ("{" +:+ pretty_middle +:+ "}") +:+ newline +:+ "```" in
  extractCognitiveJSON text = "{" +:+ pretty_middle +:+ "}" /\
  xf_EntityName <$> elems (x_Facts (Unmarshal dec_extraction (extractCognitiveJSON text) no_extraction).1) = ["Nam"%string].
Proof.
  intros text.
  assert (E : extractCognitiveJSON text = "{" +:+ pretty_middle +:+ "}").
  { refine (proj1 (answer_read dec_extraction no_extraction ("Here:" +:+ newline +:+ "```json" +:+ newline) pretty_middle
      (newline +:+ "```") _ _)); repeat constructor; discriminate. }
  split; [exact E|]. rewrite E. vm_compute. reflexivity.
Defined.

(** Ids and nonces by number, a run's own letter in front. *)
Definition numbered (c : string) (i : nat) : string := c +:+ Nat.iter i (String "x") EmptyString.
Definition env (c : string) : run_env := {|
  re_clock := 20; re_time := "now";
  re_range m := (map_to_list m).*2; re_range_again m := (map_to_list m).*2;
  re_rand _ := Ok (replicate 12 1);
  re_fact_id := numbered (c +:+ "f"); re_event_id i := (numbered (c +:+ "e") i, 20); re_trait_id i := (numbered (c +:+ "t") i, 20);
  re_Generate _ := Ok (answer, 7); re_EmbedFacts _ := Err "timeout"%string; re_EmbedTraits _ := Err "timeout"%string;
  re_ModelName := "model" |}.

Definition message : Message := mkMessage "m1" "t" "s" "u" "user" "Nam is a pilot" 4 10.
Definition db : DB :=
  mkDB [mkSessionRow "s" "t" "u" (Some "chat"%string) "{}" 1 1] [mkMessageRow message None] [] [] [] [].

Definition run : store * DB * outcome :=
  processBatchPayload key crypto "{{MESSAGE}}" (env "a") Background (batch_text job) ∅ db.

Example run_stores : let '(_, d, o) := run in
  o = Success /\ (fun r => (em_name r, em_attr r, em_hash r)) <$> entity_mentions d = [("Nam", "job", ValueHash "pilot")%string]
  /\ (fun r => mem_type r) <$> memory_records d = ["life_event"; "persona"]%string.
Proof. vm_compute. repeat split. Qed.

Lemma numbered_inj c i j : numbered c i = numbered c j -> i = j.
Proof.
  intros E. apply (f_equal String.length) in E. unfold numbered in E.
  assert (Hl : forall a b, String.length (a +:+ b) = (String.length a + String.length b)%nat).
  { intros a b. induction a as [|x a IH]; simpl; [done|]. by rewrite IH. }
  assert (Hx : forall n, String.length (Nat.iter n (String "x") EmptyString) = n) by (intros n; induction n; simpl; congruence).
  rewrite !Hl, !Hx in E. lia.
Qed.

Lemma env_ranges c : ranges (env c).
Proof. by split. Qed.
Lemma env_sized c : sized_nonces (env c).
Proof. by intros i n [= <-]. Qed.
Lemma env_all c : all_nonces (env c).
Proof. intros i. by eexists. Qed.
Lemma env_fresh_facts c : fresh_facts (env c) db.
Proof. split; [intros i j; apply numbered_inj|]. intros i. apply not_elem_of_nil. Qed.
Lemma env_fresh_memories : fresh_memories (env "a") db.
Proof. split; try (intros i j; apply numbered_inj); try (intros i; apply not_elem_of_nil). discriminate. Qed.
Lemma db_valid : facts_valid crypto db.
Proof. repeat split; constructor. Qed.
Lemma job_message : has_message "m1" db.
Proof. by left. Qed.

Lemma processBatchPayload_isolated_witness : messages run.1.2 = messages db /\
  visible (Some "t2"%string) em_tenant (entity_mentions run.1.2) = [].
Proof.
  destruct run as [[st' d'] o] eqn:E. destruct (processBatchPayload_isolated key crypto "{{MESSAGE}}" (env "a") Background
    (batch_text job) ∅ db st' d' o E) as (_ & Hm & _ & Ho). split; [exact Hm|].
  destruct (Ho "t2"%string) as [Hf _]; [vm_compute; discriminate|]. exact Hf.
Defined.

Lemma processBatchPayload_keeps_facts_valid_witness : facts_valid crypto run.1.2.
Proof.
  destruct run as [[st' d'] o] eqn:E. exact (processBatchPayload_keeps_facts_valid key crypto "{{MESSAGE}}" (env "a") Background
    (batch_text job) ∅ db st' d' o (env_ranges "a") (env_sized "a") db_valid E).
Defined.

Definition extraction : Extraction := (Unmarshal dec_extraction (extractCognitiveJSON answer) no_extraction).1.

Lemma process_facts_refines_union_witness :
  current_hashes (process_facts crypto (env "a") (WithTenantID Background "t") (payload_of message)
    (uniqueFacts (elems (x_Facts extraction))) db) = {[ ("t", "u", "Nam", "job")%string := ValueHash "pilot" ]}.
Proof.
  destruct (process_facts_refines_union crypto (env "a") Background (payload_of message) (elems (x_Facts extraction)) db) as [_ E];
    [reflexivity|reflexivity|apply env_ranges|apply env_all|apply env_fresh_facts|exact job_message|apply db_valid|].
  rewrite decide_True in E by (apply (bool_decide_unpack _); vm_compute; exact I). etransitivity; [exact E|]. by vm_compute.
Defined.

Lemma process_extraction_idempotent_witness :
  let d1 := process_extraction crypto (env "a") (WithTenantID Background "t") (payload_of message) extraction db in
  let d2 := process_extraction crypto (env "b") (WithTenantID Background "t") (payload_of message) extraction d1 in
  memory_records d2 = memory_records d1 /\ bare <$> entity_mentions d2 = bare <$> entity_mentions d1.
Proof.
  intros d1 d2. destruct (process_extraction_idempotent crypto (env "a") (env "b") Background (payload_of message) extraction db) as [E Hb];
    [reflexivity|reflexivity|reflexivity|reflexivity|apply env_ranges|apply env_ranges|apply env_all|apply env_fresh_facts|
     apply env_fresh_memories| | |exact job_message|apply db_valid|].
  - replace (elems (x_PersonaUpdates extraction)) with [" kind "%string] by (vm_compute; reflexivity).
    apply (bool_decide_unpack _). vm_compute. exact I.
  - left. apply (bool_decide_unpack _). vm_compute. exact I.
  - split; [exact (f_equal memory_records E)|exact Hb].
Defined.

(** The traits embedded are the first of the request, not those inserted: with
    "kind" on record already, the row of "mountaineer" gets the embedding of
    "kind", here the vector of its length. *)
Definition by_length (l : list string) : result (list (list float64)) := Ok ((fun s => [f_of_Z (len s)]) <$> l).
Definition embedding_env : run_env := {|
  re_clock := 30; re_time := "now";
  re_range m := (map_to_list m).*2; re_range_again m := (map_to_list m).*2;
  re_rand _ := Ok (replicate 12 1);
  re_fact_id := numbered "cf"; re_event_id i := (numbered "ce" i, 30); re_trait_id i := (numbered "ct" i, 30);
  re_Generate _ := Ok (answer, 7); re_EmbedFacts := by_length; re_EmbedTraits := by_length;
  re_ModelName := "model" |}.

Lemma process_persona_misplaces_embedding :
  let ctx := WithTenantID Background "t" in
  let d1 := process_persona (env "a") ctx (payload_of message) ["kind"%string] db in
  let d2 := process_persona embedding_env ctx (payload_of message) ["kind"; "mountaineer"]%string d1 in
  (fun r => (mr_Payload (mem_rec r), mem_embedding r)) <$> memory_records d2 =
  [(trait_payload "kind", None); (trait_payload "mountaineer", Some [f_of_Z (len "kind")])].
Proof. vm_compute. reflexivity. Qed.
End CognitiveSample.
