(* ===== verification/Statements.v ===== *)
(** What the statements of the program can do to the database: each kind of
    write as one constructor, under the tenant of the connection it runs on, and
    what every write keeps.  The methods of the repositories are shown to be
    sequences of such writes; [System] builds on that. *)
From Stdlib Require Import Ascii String.
From S2P Require Import Prelude GoStd GoStrings Float64 Model Security Json GoJson Db MessageRepo EntityRepo History MemoryRepo ExperienceRepo Redis Cache Tenancy Cognitive.

Local Open Scope Z_scope.

(** ** Writes *)

(** An UPDATE under a tenant: a row stays, or is the tenant's and changes as [R]
    allows. *)
Definition updated {A} (tid : option uuid) (tenant : A -> uuid) (R : A -> A -> Prop) (r r' : A) : Prop :=
  r' = r \/ (tid = Some (tenant r) /\ R r r').

Definition x_tenant (r : ExperienceRow) : uuid := exp_TenantID (xp_exp r).

(** The CHECK on memory_records.type. *)
Definition memory_types : list string := ["rag_chunk"; "life_event"; "user_character"; "persona"; "persona_context"]%string.

(** What no statement changes of a memory record. *)
Record same_memory (r r' : MemoryRow) : Prop := {
  sm_id : mr_ID (mem_rec r') = mr_ID (mem_rec r);
  sm_type : mem_type r' = mem_type r;
  sm_payload : mr_Payload (mem_rec r') = mr_Payload (mem_rec r);
  sm_created : mr_CreatedAt (mem_rec r') = mr_CreatedAt (mem_rec r);
  sm_tenant : mem_tenant r' = mem_tenant r;
  sm_user : mem_user r' = mem_user r;
  sm_session : mem_session r' = mem_session r;
}.

(** A row that is where it was. *)
Ltac kept := let r := fresh "r" in intros r ?; try exists r; done.

Section Writes.
Context `{UuidLib, OrderBy, PgSearch, CryptoLib, Jsonb}.
Context (crypto : Crypto).

(** [stale]: others may have written since the statement for facts started. *)
Inductive write (stale : bool) (tid : option uuid) (d : DB) : DB -> Prop :=
  | write_session r : tid = Some (s_tenant r) -> s_id r ∉ s_id <$> sessions d ->
      write stale tid d (set_sessions (fun l => l ++ [r]) d)
  | write_message r : tid = Some (m_tenant r) -> msg_ID (m_msg r) ∉ msg_ID ∘ m_msg <$> messages d ->
      msg_Role (m_msg r) ∈ valid_roles -> msg_SessionID (m_msg r) ∈ s_id <$> sessions d ->
      write stale tid d (set_messages (fun l => l ++ [r]) d)
  | write_vectors l : Forall2 (updated tid m_tenant (fun r r' => m_msg r' = m_msg r)) (messages d) l ->
      write stale tid d (set_messages (fun _ => l) d)
  | write_fact seen id now mp f enc d' : sealed crypto mp f enc -> (stale = false -> (em_id <$> entity_mentions d) ⊆ seen) ->
      upsertFactCTE_at seen tid id now mp f enc (ValueHash (xf_Value f)) d = Ok d' -> write stale tid d d'
  | write_fact_vectors l :
      Forall2 (updated tid em_tenant (fun r r' => is_current r = true /\ bare r' = bare r)) (entity_mentions d) l ->
      write stale tid d (set_entity_mentions (fun _ => l) d)
  | write_memory r : tid = Some (mem_tenant r) -> mr_ID (mem_rec r) ∉ mr_ID ∘ mem_rec <$> memory_records d ->
      mem_type r ∈ memory_types -> write stale tid d (set_memory_records (fun l => l ++ [r]) d)
  | write_memories l : Forall2 (updated tid mem_tenant same_memory) (memory_records d) l ->
      write stale tid d (set_memory_records (fun _ => l) d)
  | write_experience r : tid = Some (x_tenant r) -> exp_ID (xp_exp r) ∉ exp_ID ∘ xp_exp <$> experiences d ->
      write stale tid d (set_experiences (fun l => l ++ [r]) d)
  | write_experiences l : Forall2 (updated tid x_tenant (fun r r' => same_owner (xp_exp r) (xp_exp r'))) (experiences d) l ->
      write stale tid d (set_experiences (fun _ => l) d)
  | write_usage u : write stale tid d (set_llm_usage (fun l => l ++ [u]) d).

(** An operation's writes when it runs alone. *)
Definition writes (tid : option uuid) : DB -> DB -> Prop := rtc (write false tid).

(** ** The constraints of the schema, and the validity of what is stored *)

Record sound (d : DB) : Prop := {
  c_sessions : NoDup (s_id <$> sessions d);
  c_messages : NoDup (msg_ID ∘ m_msg <$> messages d);
  c_facts : NoDup (em_id <$> entity_mentions d);
  c_memories : NoDup (mr_ID ∘ mem_rec <$> memory_records d);
  c_experiences : NoDup (exp_ID ∘ xp_exp <$> experiences d);
  c_roles : Forall (fun r => msg_Role (m_msg r) ∈ valid_roles) (messages d);
  c_types : Forall (fun r => mem_type r ∈ memory_types) (memory_records d);
  c_message_session : Forall (fun r => msg_SessionID (m_msg r) ∈ s_id <$> sessions d) (messages d);
  c_fact_message : Forall (fun r => has_message (em_message r) d) (entity_mentions d);
  c_history : history (entity_mentions d);
  c_stored : Forall (stored_valid crypto) (entity_mentions d);
}.

(** As long as no two statements for one key overlap, at most one row of a key
    is current. *)
Record consistent (d : DB) : Prop := {
  consistent_sound : sound d;
  consistent_keys : NoDup (fact_key <$> current_rows d);
}.

(** ** What a write leaves alone *)

(** What another tenant has. *)
Record others_same (t' : uuid) (d d' : DB) : Prop := {
  os_sessions : visible (Some t') s_tenant (sessions d') = visible (Some t') s_tenant (sessions d);
  os_messages : visible (Some t') m_tenant (messages d') = visible (Some t') m_tenant (messages d);
  os_facts : visible (Some t') em_tenant (entity_mentions d') = visible (Some t') em_tenant (entity_mentions d);
  os_memories : visible (Some t') mem_tenant (memory_records d') = visible (Some t') mem_tenant (memory_records d);
  os_experiences : visible (Some t') x_tenant (experiences d') = visible (Some t') x_tenant (experiences d);
}.

(** A fact but for the two columns statements change. *)
Definition lasting (r : EntityRow) : EntityRow := set_valid_until None (bare r).

(** Nothing learned is lost: every fact, record and experience is still there,
    and a fact that was closed is as it was. *)
Record remembered (d d' : DB) : Prop := {
  rm_facts r : r ∈ entity_mentions d -> exists r', r' ∈ entity_mentions d' /\ lasting r' = lasting r;
  rm_closed r : r ∈ entity_mentions d -> is_current r = false -> r ∈ entity_mentions d';
  rm_memories r : r ∈ memory_records d -> exists r', r' ∈ memory_records d' /\ same_memory r r';
  rm_experiences r : r ∈ experiences d -> exists r', r' ∈ experiences d' /\ same_owner (xp_exp r) (xp_exp r');
}.

(** ** Lemmas *)

(** *** Rows *)

#[export] Instance same_memory_preorder : PreOrder same_memory.
Proof. split; [by split|]. intros r1 r2 r3 [] []. split; congruence. Qed.

#[export] Instance same_owner_preorder : PreOrder same_owner.
Proof. split; [by split|]. unfold same_owner. intros e1 e2 e3 (? & ? & ?) (? & ? & ?). split_and!; congruence. Qed.

Lemma Forall2_fmap_same {A B} (g : A -> B) (R : A -> A -> Prop) l l' : (forall r r', R r r' -> g r' = g r) -> Forall2 R l l' ->
  g <$> l' = g <$> l.
Proof. intros Hg Hl. induction Hl as [|r r' l l' Hr _ IH]; [done|]. rewrite !fmap_cons, IH. by rewrite (Hg _ _ Hr). Qed.

Lemma updated_same {A B} (g : A -> B) tid tenant (R : A -> A -> Prop) l l' : (forall r r', R r r' -> g r' = g r) ->
  Forall2 (updated tid tenant R) l l' -> g <$> l' = g <$> l.
Proof. intros Hg. apply Forall2_fmap_same. intros r r' [-> |[_ Hr]]; [done|by apply Hg]. Qed.

Lemma updated_visible {A} tid t' tenant (R : A -> A -> Prop) l l' : tid <> Some t' -> (forall r r', R r r' -> tenant r' = tenant r) ->
  Forall2 (updated tid tenant R) l l' -> visible (Some t') tenant l' = visible (Some t') tenant l.
Proof.
  intros Hne Hg Hl. unfold visible, policy. induction Hl as [|r r' l l' Hr _ IH]; [done|]. cbn [List.filter].
  destruct Hr as [-> |[Ht Hr]]; [by rewrite IH|]. rewrite (Hg _ _ Hr), !bool_decide_false by congruence. exact IH.
Qed.

Lemma updated_kept {A} tid tenant (R : A -> A -> Prop) l l' r : Forall2 (updated tid tenant R) l l' -> r ∈ l ->
  exists r', r' ∈ l' /\ updated tid tenant R r r'.
Proof.
  intros Hl [i Hi]%list_elem_of_lookup. destruct (Forall2_lookup_l _ _ _ _ _ Hl Hi) as (r' & Hi' & Hr).
  exists r'. split; [by eapply list_elem_of_lookup_2|done].
Qed.

Lemma updated_Forall {A} tid tenant (R : A -> A -> Prop) (P : A -> Prop) l l' : (forall r r', R r r' -> P r -> P r') ->
  Forall2 (updated tid tenant R) l l' -> Forall P l -> Forall P l'.
Proof.
  intros HP Hl. induction Hl as [|r r' l l' Hr _ IH]; [done|]. intros [HPr HPl]%Forall_cons.
  constructor; [|by apply IH]. destruct Hr as [-> |[_ Hr]]; [done|]. by eapply HP.
Qed.

Lemma visible_snoc {A} tid t' (tenant : A -> uuid) l r : tid <> Some t' -> tid = Some (tenant r) ->
  visible (Some t') tenant (l ++ [r]) = visible (Some t') tenant l.
Proof.
  intros Hne Ht. rewrite visible_app. unfold visible at 2, policy. simpl. rewrite bool_decide_false by congruence. apply app_nil_r.
Qed.

Lemma NoDup_fmap_snoc {A B} (g : A -> B) l r : NoDup (g <$> l) -> g r ∉ g <$> l -> NoDup (g <$> (l ++ [r])).
Proof.
  intros Hl Hr. rewrite fmap_app. apply NoDup_app. split; [done|]. split; [|apply NoDup_singleton].
  by intros x Hx ->%list_elem_of_singleton.
Qed.

Lemma Forall_snoc_2 {A} (P : A -> Prop) l r : Forall P l -> P r -> Forall P (l ++ [r]).
Proof. intros. by apply Forall_app_2, Forall_singleton. Qed.

Lemma vectors_bare tid l k : Forall2 (updated tid em_tenant (fun r r' => is_current r = true /\ bare r' = bare r)) l k ->
  bare <$> k = bare <$> l.
Proof. apply updated_same. by intros r r' [_ E]. Qed.

(** *** The statement for facts *)

Lemma invalidate_rows tid now e l r : r ∈ l -> exists r', r' ∈ invalidate tid now e l /\ lasting r' = lasting r /\
  (em_id r <> em_id e -> r' = r).
Proof.
  intros Hr. eexists. split; [apply list_elem_of_fmap_2; exact Hr|]. cbn beta. destruct (_ && _) eqn:E; [|done].
  split; [done|]. apply andb_true_iff in E as [_ E%bool_decide_eq_true]. congruence.
Qed.

Lemma invalidate_Forall (P : EntityRow -> Prop) tid now e l : (forall r u, P r -> P (set_valid_until u r)) -> Forall P l ->
  Forall P (invalidate tid now e l).
Proof.
  intros HP Hl. apply Forall_fmap. eapply Forall_impl; [exact Hl|]. intros r Hr. simpl. case_match; [by apply HP|done].
Qed.

(** *** Consistency *)

Lemma write_fact_sound seen tid id now mp f enc d d' : sealed crypto mp f enc ->
  upsertFactCTE_at seen tid id now mp f enc (ValueHash (xf_Value f)) d = Ok d' -> sound d -> sound d'.
Proof.
  intros Hs Hd [Cs Cm Ci Cr Cx Co Ct Cms Cf Ch Cv]. pose proof (upsertFactCTE_at_ids _ _ _ _ _ _ _ _ _ _ Hd Ci) as Ci'.
  pose proof (upsertFactCTE_at_history _ _ _ _ _ _ _ _ _ _ Ci Hd Ch) as Ch'.
  assert (Cv' : Forall (stored_valid crypto) (entity_mentions d')).
  { eapply (upsertFactCTE_rows (stored_valid crypto)); [by intros r u Hr| |exact Hd|exact Cv]. intros sup. by apply sealed_row. }
  apply upsertFactCTE_at_cases in Hd as [_ [-> |(sup & -> & Hid & Hm & _)]]; [by split|]. split; try done. simpl.
  apply Forall_snoc_2; [|done]. destruct sup; [by apply invalidate_Forall|done].
Qed.

Lemma write_sound stale tid d d' : write stale tid d d' -> sound d -> sound d'.
Proof.
  intros Hw Hc. destruct Hw as [r Ht Hn|r Ht Hn Hr Hs|l Hl|seen id now mp f enc d' Hs Hseen Hd|l Hl|r Ht Hn Hty|l Hl|r Ht Hn|l Hl|u].
  4: by eapply write_fact_sound.
  all: destruct Hc as [Cs Cm Ci Cr Cx Co Ct Cms Cf Ch Cv]; split; try done; simpl.
  - by apply NoDup_fmap_snoc.
  - eapply Forall_impl; [exact Cms|]. intros m Hm. rewrite fmap_app, elem_of_app. by left.
  - by apply NoDup_fmap_snoc.
  - by apply Forall_snoc_2.
  - by apply Forall_snoc_2.
  - eapply Forall_impl; [exact Cf|]. intros f. unfold has_message. simpl. rewrite fmap_app, elem_of_app. by left.
  - by rewrite (updated_same (msg_ID ∘ m_msg) _ _ _ _ _ (fun r r' E => f_equal msg_ID E) Hl).
  - eapply updated_Forall; [|exact Hl|exact Co]. by intros r r' ->.
  - eapply updated_Forall; [|exact Hl|exact Cms]. by intros r r' ->.
  - eapply Forall_impl; [exact Cf|]. intros f. unfold has_message. simpl.
    by rewrite (updated_same (fun m => msg_ID (m_msg m)) _ _ _ _ _ (fun r r' E => f_equal msg_ID E) Hl).
  - by rewrite (fmap_bare em_id _ _ (fun _ => eq_refl) (vectors_bare _ _ _ Hl)).
  - eapply updated_Forall; [|exact Hl|exact Cf]. intros r r' [_ E] Hr. unfold has_message in *.
    by rewrite (f_equal em_message E : em_message r' = em_message r).
  - by eapply history_bare; [exact (vectors_bare _ _ _ Hl)|].
  - eapply updated_Forall; [|exact Hl|exact Cv]. intros r r' [_ E] Hr.
    exact (eq_ind_r (stored_valid crypto) (Hr : stored_valid crypto (bare r)) E).
  - by apply NoDup_fmap_snoc.
  - by apply Forall_snoc_2.
  - by rewrite (updated_same (mr_ID ∘ mem_rec) _ _ _ _ _ sm_id Hl).
  - eapply updated_Forall; [|exact Hl|exact Ct]. intros r r' E. by rewrite (sm_type _ _ E).
  - by apply NoDup_fmap_snoc.
  - rewrite (updated_same (exp_ID ∘ xp_exp) _ _ _ _ _ (fun r r' E => proj1 E) Hl). done.
Qed.

(** A statement that saw the table as it is keeps its keys unique. *)
Lemma write_keys tid d d' : write false tid d d' -> facts_ok d -> NoDup (fact_key <$> current_rows d').
Proof.
  intros Hw Hok. pose proof (facts_unique_key d Hok) as Hk.
  destruct Hw as [r Ht Hn|r Ht Hn Hr Hs|l Hl|seen id now mp f enc d' Hs Hseen Hd|l Hl|r Ht Hn Hty|l Hl|r Ht Hn|l Hl|u]; try done.
  - rewrite upsertFactCTE_at_all in Hd by by apply Hseen. pose proof Hd as ->%upsertFactCTE_tid.
    apply upsertFactCTE_hashes in Hd as [Hok' _]; [|done]. apply Hok'.
  - apply (facts_ok_bare d (set_entity_mentions (fun _ => l) d)); [exact (vectors_bare _ _ _ Hl)|done].
Qed.

Lemma consistent_facts d : consistent d -> facts_ok d.
Proof. intros [Hs Hk]. split; [by apply c_facts|done]. Qed.

Lemma consistent_valid d : consistent d -> facts_valid crypto d.
Proof. intros Hc. split; [by apply consistent_facts|apply c_stored, Hc]. Qed.

Lemma write_consistent tid d d' : write false tid d d' -> consistent d -> consistent d'.
Proof. intros Hw Hc. split; [by eapply write_sound, consistent_sound|]. by eapply write_keys, consistent_facts. Qed.

Lemma writes_consistent tid d d' : writes tid d d' -> consistent d -> consistent d'.
Proof. induction 1 as [|d1 d2 d3 Hw _ IH]; [done|]. intros Hc. by eapply IH, write_consistent. Qed.

(** *** Other tenants *)

#[export] Instance others_same_preorder t' : PreOrder (others_same t').
Proof. split; [by split|]. intros d1 d2 d3 [] []. split; congruence. Qed.

Lemma write_others stale tid t' d d' : tid <> Some t' -> write stale tid d d' -> others_same t' d d'.
Proof.
  intros Hne Hw. destruct Hw as [r Ht Hn|r Ht Hn Hr Hs|l Hl|seen id now mp f enc d' Hs Hseen Hd|l Hl|r Ht Hn Hty|l Hl|r Ht Hn|l Hl|u].
  4: { pose proof (upsertFactCTE_facts_only _ _ _ _ _ _ _ _ _ _ Hd) as Ho. pose proof Hd as [-> _]%upsertFactCTE_at_cases.
       assert (Ht : mp_TenantID mp <> t') by congruence.
       pose proof (upsertFactCTE_other _ _ _ _ _ _ _ _ _ _ _ Ht Hd) as E. rewrite Ho. by split. }
  all: split; try done; simpl.
  - by eapply visible_snoc.
  - by eapply visible_snoc.
  - eapply updated_visible; [done| |exact Hl]. unfold m_tenant. by intros r r' ->.
  - eapply updated_visible; [done| |exact Hl]. intros r r' [_ E]. exact (f_equal em_tenant E).
  - by eapply visible_snoc.
  - eapply updated_visible; [done| |exact Hl]. exact sm_tenant.
  - by eapply visible_snoc.
  - eapply updated_visible; [done| |exact Hl]. by intros r r' (_ & E & _).
Qed.

Lemma writes_others tid t' d d' : tid <> Some t' -> writes tid d d' -> others_same t' d d'.
Proof. intros Hne. induction 1 as [|d1 d2 d3 Hw _ IH]; [done|]. etransitivity; [by eapply write_others|done]. Qed.

(** *** Nothing is forgotten *)

Lemma remembered_same d d' : entity_mentions d' = entity_mentions d -> memory_records d' = memory_records d ->
  experiences d' = experiences d -> remembered d d'.
Proof. intros E1 E2 E3. split; rewrite ?E1, ?E2, ?E3; kept. Qed.

#[export] Instance remembered_preorder : PreOrder remembered.
Proof.
  split; [intros d; by apply remembered_same|]. intros d1 d2 d3 [F12 C12 M12 X12] [F23 C23 M23 X23]. split.
  - intros r (r' & Hr' & <-)%F12. by apply F23.
  - auto.
  - intros r (r' & Hr' & E)%M12. apply M23 in Hr' as (r2 & Hr2 & E2). exists r2. split; [done|]. by etransitivity.
  - intros r (r' & Hr' & E)%X12. apply X23 in Hr' as (r2 & Hr2 & E2). exists r2. split; [done|]. by etransitivity.
Qed.

Lemma write_fact_remembered seen tid id now mp f enc h d d' : NoDup (em_id <$> entity_mentions d) ->
  upsertFactCTE_at seen tid id now mp f enc h d = Ok d' -> remembered d d'.
Proof.
  intros Hnd [-> [-> |(sup & -> & _ & _ & Hsup)]]%upsertFactCTE_at_cases; [by apply remembered_same|]. split; simpl; try kept.
  - intros r Hr. destruct sup as [e|]; [|exists r; split; [apply elem_of_app; by left|done]].
    destruct (invalidate_rows (Some (mp_TenantID mp)) now e _ r Hr) as (r' & Hr' & El & _).
    exists r'. split; [apply elem_of_app; by left|done].
  - intros r Hr Hcur. apply elem_of_app. left. destruct sup as [e|]; [|done]. simpl.
    destruct (Hsup e eq_refl) as ([He Hc]%elem_of_filter_bool & _).
    destruct (invalidate_rows (Some (mp_TenantID mp)) now e _ r Hr) as (r' & Hr' & _ & Eid). rewrite <-Eid; [done|].
    intros E. rewrite (NoDup_fmap_eq em_id (entity_mentions d) r e) in Hcur by done. congruence.
Qed.

Lemma write_remembered stale tid d d' : NoDup (em_id <$> entity_mentions d) -> write stale tid d d' -> remembered d d'.
Proof.
  intros Hok Hw. destruct Hw as [r Ht Hn|r Ht Hn Hr Hs|l Hl|seen id now mp f enc d' Hs Hseen Hd|l Hl|r Ht Hn Hty|l Hl|r Ht Hn|l Hl|u];
    try by apply remembered_same.
  - by eapply write_fact_remembered.
  - split; simpl; [| |kept..].
    + intros r Hr. destruct (updated_kept _ _ _ _ _ _ Hl Hr) as (r' & Hr' & [-> |(_ & _ & E)]); [eauto|].
      exists r'. split; [done|]. unfold lasting. by rewrite E.
    + intros r Hr Hc. destruct (updated_kept _ _ _ _ _ _ Hl Hr) as (r' & Hr' & [-> |(_ & E & _)]); [done|congruence].
  - split; simpl; try kept. intros r' Hr'. exists r'. split; [apply elem_of_app; by left|done].
  - split; simpl; try kept. intros r Hr. destruct (updated_kept _ _ _ _ _ _ Hl Hr) as (r' & Hr' & [-> |(_ & E)]); by eexists.
  - split; simpl; try kept. intros r' Hr'. exists r'. split; [apply elem_of_app; by left|done].
  - split; simpl; try kept. intros r Hr. destruct (updated_kept _ _ _ _ _ _ Hl Hr) as (r' & Hr' & [-> |(_ & E)]); by eexists.
Qed.

Lemma writes_remembered tid d d' : consistent d -> writes tid d d' -> remembered d d'.
Proof.
  intros Hc Hw. induction Hw as [|d1 d2 d3 Hw _ IH]; [done|]. etransitivity; [eapply write_remembered; [apply Hc|exact Hw]|].
  by eapply IH, write_consistent.
Qed.

(** ** The methods of the repositories *)

(** The tenant of the connections a context with this tenant's text is given. *)
Definition acting (tenant : string) : option uuid := match to_uuid tenant with Ok u => Some u | Err _ => None end.

Lemma BeforeAcquire_acting ctx tenant o : BeforeAcquire (WithTenantID ctx tenant) = Ok o -> o = acting tenant.
Proof.
  unfold acting. intros [[-> ->]|(u & -> & ->)]%(BeforeAcquire_tenant_id _ tenant); [|done..].
  destruct (to_uuid EmptyString) as [u|] eqn:E; [by apply to_uuid_empty in E|done].
Qed.

Lemma updated_refl {A} tid tenant (R : A -> A -> Prop) l : Forall2 (updated tid tenant R) l l.
Proof. apply Forall_Forall2_diag, Forall_true. intros r. by left. Qed.

Lemma update_visible_updated {A} tid tenant (R : A -> A -> Prop) p (f : A -> A) l : (forall r, p r = true -> R r (f r)) ->
  Forall2 (updated tid tenant R) l (update_visible tid tenant p f l).
Proof.
  intros HR. unfold update_visible. apply Forall2_fmap_r, Forall_Forall2_diag, Forall_true. intros r. unfold compose, policy, updated.
  case_bool_decide; [|by left]. simpl. destruct (p r) eqn:E; [|by left]. right. split; [done|by apply HR].
Qed.

Lemma existsb_notin {A B} `{EqDecision B} (g : A -> B) l x : existsb (fun r => bool_decide (g r = x)) l = false -> x ∉ g <$> l.
Proof.
  intros E (r & -> & Hr)%list_elem_of_fmap. apply not_true_iff_false in E. apply E, existsb_exists.
  exists r. by rewrite bool_decide_eq_true, <-list_elem_of_In.
Qed.

Lemma existsb_in {A B} `{EqDecision B} (g : A -> B) l x : existsb (fun r => bool_decide (g r = x)) l = true -> x ∈ g <$> l.
Proof. intros (r & Hr%list_elem_of_In & E%bool_decide_eq_true)%existsb_exists. apply list_elem_of_fmap. by exists r. Qed.

Lemma writes_refl tid d : writes tid d d.
Proof. apply rtc_refl. Qed.
Lemma writes_one tid d d' : write false tid d d' -> writes tid d d'.
Proof. apply rtc_once. Qed.
Lemma writes_trans tid d1 d2 d3 : writes tid d1 d2 -> writes tid d2 d3 -> writes tid d1 d3.
Proof. unfold writes. intros ? ?. by etransitivity. Qed.

(** A batch of writes. *)
Lemma SendBatch_writes tid stmts d :
  Forall (fun st : DB -> result DB => forall d d', st d = Ok d' -> writes tid d d') stmts -> writes tid d (SendBatch stmts d).
Proof.
  intros Hst. apply (SendBatch_ind (writes tid d)); [|apply writes_refl].
  eapply Forall_impl; [exact Hst|]. intros st Hok d1 d2 Hd1 Hd2. eapply writes_trans; eauto.
Qed.

(** *** Messages and sessions *)

Lemma InsertMessage_writes ctx msg now d t : (forall o, BeforeAcquire ctx = Ok o -> o = t) -> writes t d (InsertMessage ctx msg now d).1.
Proof.
  intros Ht. unfold InsertMessage. destruct (BeforeAcquire ctx) as [tid|]; [|apply writes_refl]. rewrite (Ht tid eq_refl). clear.
  assert (Hs : writes t d (ensure_session t msg now d).1).
  { unfold ensure_session, policy. case_bool_decide as Hp; [|apply writes_refl]. destruct (existsb _ _) eqn:E; [apply writes_refl|].
    apply writes_one, write_session; [done|by apply existsb_notin]. }
  destruct (ensure_session t msg now d) as [d1 [?|e]]; [|done]. cbn [fst] in Hs. eapply writes_trans; [exact Hs|]. clear Hs d.
  unfold insert_message_row, policy. case_decide; [apply writes_refl|]. case_bool_decide as Hp; [|apply writes_refl]. cbn [negb].
  case_bool_decide as Hr; [|apply writes_refl]. cbn [negb]. destruct (existsb _ (messages d1)) eqn:Em; [apply writes_refl|].
  destruct (existsb _ (sessions d1)) eqn:Es; [|apply writes_refl].
  apply writes_one, write_message; [done|by apply (existsb_notin (msg_ID ∘ m_msg))|done|by apply (existsb_in s_id)].
Qed.

Lemma Create_writes ctx s now d t : (forall o, BeforeAcquire ctx = Ok o -> o = t) -> writes t d (Create ctx s now d).1.
Proof.
  intros Ht. unfold Create. destruct (BeforeAcquire ctx) as [tid|]; [|apply writes_refl]. rewrite (Ht tid eq_refl). clear.
  case_decide; [apply writes_refl|]. unfold policy. case_bool_decide as Hp; [|apply writes_refl]. cbn [negb].
  destruct (existsb _ _) eqn:E; [apply writes_refl|]. apply writes_one, write_session; [done|by apply (existsb_notin s_id)].
Qed.

(** *** Memory records *)

Lemma insert_memory_row_writes tid r d d' : mem_type r ∈ memory_types -> insert_memory_row tid r d = Ok d' -> writes tid d d'.
Proof.
  intros Hty. unfold insert_memory_row, policy. case_bool_decide as Hp; [|done]. cbn [negb]. destruct (existsb _ _) eqn:E; [done|].
  intros [= <-]. apply writes_one, write_memory; [done|by apply (existsb_notin (mr_ID ∘ mem_rec))|done].
Qed.

Lemma upsert_event_writes tid t u s id now payload d d' : upsert_event tid t u s id now payload d = Ok d' -> writes tid d d'.
Proof.
  unfold upsert_event. intros (? & _ & (? & _ & (? & _ & Hd)%result_bind_Ok)%result_bind_Ok)%result_bind_Ok.
  destruct (jsonb_in payload); [|done]. case_match; [injection Hd as <-; apply writes_refl|].
  eapply insert_memory_row_writes; [|exact Hd]. simpl. set_solver.
Qed.

Lemma UpsertEventBatch_writes ctx t u s items d tid : (forall o, BeforeAcquire ctx = Ok o -> o = tid) ->
  writes tid d (UpsertEventBatch ctx t u s items d).1.
Proof.
  intros Htid. unfold UpsertEventBatch. destruct (BeforeAcquire ctx) as [o|]; [|apply writes_refl].
  rewrite (Htid o eq_refl). simpl. apply SendBatch_writes, Forall_fmap, Forall_true. intros [[id now] p] d1 d2. apply upsert_event_writes.
Qed.

Lemma insert_trait_writes ctx t u s id now trait d d' tid : (forall o, BeforeAcquire ctx = Ok o -> o = tid) ->
  insert_trait ctx t u s id now trait d = Ok d' -> writes tid d d'.
Proof.
  intros Htid. unfold insert_trait.
  intros (o & Ho & (? & _ & (? & _ & (? & _ & (? & _ & Hd)%result_bind_Ok)%result_bind_Ok)%result_bind_Ok)%result_bind_Ok)%result_bind_Ok.
  rewrite (Htid o Ho) in Hd. destruct (jsonb_in _); [|done]. case_match; [done|]. eapply insert_memory_row_writes; [|exact Hd]. simpl. set_solver.
Qed.

Lemma UpsertPersona_writes ctx t u s items d tid : (forall o, BeforeAcquire ctx = Ok o -> o = tid) ->
  writes tid d (UpsertPersona ctx t u s items d).1.
Proof.
  intros Htid. revert d. induction items as [|[[id now] trait] items IH]; intros d; simpl; [apply writes_refl|].
  case_decide; [apply IH|]. destruct (insert_trait _ _ _ _ _ _ _ _) as [d1|] eqn:Ei; [|apply IH].
  specialize (IH d1). destruct (UpsertPersona ctx t u s items d1) as [d2 ids]. simpl in *. eapply writes_trans; [|exact IH].
  by eapply insert_trait_writes.
Qed.

Lemma UpdatePersonaEmbeddingsBatch_writes ctx t ids embeddings d tid : (forall o, BeforeAcquire ctx = Ok o -> o = tid) ->
  writes tid d (UpdatePersonaEmbeddingsBatch ctx t ids embeddings d).1.
Proof.
  intros Htid. unfold UpdatePersonaEmbeddingsBatch. case_decide; [apply writes_refl|].
  destruct (BeforeAcquire ctx) as [o|]; simpl; [|apply writes_refl]. destruct (to_uuid t); simpl; [|apply writes_refl].
  rewrite (Htid o eq_refl). apply SendBatch_writes, Forall_fmap, Forall_true. intros [i v] d1 d2.
  simpl. intros (? & _ & (? & _ & [= <-])%result_bind_Ok)%result_bind_Ok.
  apply writes_one, (write_memories _ _ _ (update_visible _ _ _ _ _)), update_visible_updated. by split.
Qed.

Lemma memory_feedback_writes ctx t u i positive now d d' tid : (forall o, BeforeAcquire ctx = Ok o -> o = tid) ->
  MemoryRepo.RecordFeedback ctx t u i positive now d = Ok d' -> writes tid d d'.
Proof.
  intros Htid. unfold MemoryRepo.RecordFeedback.
  intros (o & Ho & (? & _ & (? & _ & (? & _ & (l & Hl%try_update_Ok & [= <-])%result_bind_Ok)%result_bind_Ok)%result_bind_Ok)%result_bind_Ok)%result_bind_Ok.
  apply writes_one, write_memories. eapply Forall2_impl; [exact Hl|]. intros r r'. cbn beta. rewrite (Htid o Ho).
  destruct (policy tid (mem_tenant r)) eqn:Ep; [|by left]. destruct (_ && _); [|by left]. intros Hr. right.
  split; [by apply bool_decide_eq_true in Ep|]. unfold feedback_row in Hr. by apply result_bind_Ok in Hr as (n & _ & [= <-]).
Qed.

(** *** Experiences

    The table has no policy: the tenant is the one the statement names. *)

Lemma UpsertExperience_writes ctx t u s m desc steps v similar id now d d' tid : (forall t', to_uuid t = Ok t' -> tid = Some t') ->
  UpsertExperience ctx t u s m desc steps v similar id now d = Ok d' -> writes tid d d'.
Proof.
  intros Htid. unfold UpsertExperience. intros (? & _ & (? & _ & (t0 & Ht%Htid & (? & _ & Hd)%result_bind_Ok)%result_bind_Ok)%result_bind_Ok)%result_bind_Ok.
  destruct (jsonb_in _) as [js|]; [|done]. apply result_bind_Ok in Hd as (? & _ & Hd). destruct similar as [i|].
  - injection Hd as <-. apply writes_one, (write_experiences _ _ _ (_ <$> _)). apply Forall2_fmap_r, Forall_Forall2_diag, Forall_true.
    intros r. unfold compose. destruct (_ && _) eqn:E; [right|by left]. apply andb_true_iff in E as [_ E%bool_decide_eq_true].
    split; [by rewrite Ht, <-E|done].
  - apply result_bind_Ok in Hd as (u0 & _ & Hd). destruct (existsb _ _) eqn:E; [done|]. injection Hd as <-.
    apply writes_one, write_experience; [done|by apply (existsb_notin (exp_ID ∘ xp_exp))].
Qed.

Lemma update_experiences_writes p f d d' tid : (forall r, p r = true -> tid = Some (x_tenant r)) ->
  (forall e e', f e = Ok e' -> same_owner e e') -> update_experiences p f d = Ok d' -> writes tid d d'.
Proof.
  intros Hp Hf Hd. assert (Ho : d' = set_experiences (fun _ => experiences d') d).
  { unfold update_experiences in Hd. by apply result_bind_Ok in Hd as (l & _ & [= <-]). }
  apply update_experiences_ok in Hd. rewrite Ho. apply writes_one, write_experiences. eapply Forall2_impl; [exact Hd|].
  intros r r'. cbn beta. destruct (p r) eqn:E; [|by left]. intros (e & He & ->). right. split; [by apply Hp|by apply Hf].
Qed.

Lemma RecordUsage_writes ctx t i now d d' : ExperienceRepo.RecordUsage ctx t i now d = Ok d' -> canonical t -> writes (Some t) d d'.
Proof.
  unfold RecordUsage. intros (? & _ & (t0 & Ht & (? & _ & Hd)%result_bind_Ok)%result_bind_Ok)%result_bind_Ok Hcan.
  rewrite to_uuid_canonical in Ht by done. injection Ht as <-. eapply update_experiences_writes; [| |exact Hd].
  - intros r [E%bool_decide_eq_true _]%andb_true_iff. unfold x_tenant. by rewrite E.
  - intros e e' (n & _ & [= <-])%result_bind_Ok. done.
Qed.

Lemma owned_experience t u i r : exp_is t u i r = true -> Some t = Some (x_tenant r).
Proof. unfold exp_is. intros [[E%bool_decide_eq_true _]%andb_true_iff _]%andb_true_iff. unfold x_tenant. by rewrite E. Qed.

Lemma experience_feedback_writes ctx t u i positive now d d' : canonical t ->
  ExperienceRepo.RecordFeedback ctx t u i positive now d = Ok d' -> writes (Some t) d d'.
Proof.
  intros Hcan. unfold ExperienceRepo.RecordFeedback.
  intros (? & _ & (t0 & Ht & (? & _ & (? & _ & Hd)%result_bind_Ok)%result_bind_Ok)%result_bind_Ok)%result_bind_Ok.
  rewrite to_uuid_canonical in Ht by done. injection Ht as <-. eapply update_experiences_writes; [apply owned_experience| |exact Hd].
  intros e e'. destruct positive; [|by intros [= <-]]. by intros (n & _ & (k & _ & [= <-])%result_bind_Ok)%result_bind_Ok.
Qed.

Lemma Deactivate_writes ctx t u i now d d' : canonical t -> Deactivate ctx t u i now d = Ok d' -> writes (Some t) d d'.
Proof.
  intros Hcan. unfold Deactivate.
  intros (? & _ & (t0 & Ht & (? & _ & (? & _ & Hd)%result_bind_Ok)%result_bind_Ok)%result_bind_Ok)%result_bind_Ok.
  rewrite to_uuid_canonical in Ht by done. injection Ht as <-. eapply update_experiences_writes; [apply owned_experience| |exact Hd].
  by intros e e' [= <-].
Qed.

(** *** Facts *)

Lemma UpdateFactEmbeddingsBatch_writes ctx t u facts embeddings d tid : (forall o, BeforeAcquire ctx = Ok o -> o = tid) ->
  writes tid d (UpdateFactEmbeddingsBatch ctx t u facts embeddings d).1.
Proof.
  intros Htid. apply (UpdateFactEmbeddingsBatch_ind (writes tid d)); [|apply writes_refl]. intros o p v d2 Ho Hp Hd2. rewrite (Htid o Ho).
  eapply writes_trans; [exact Hd2|]. apply writes_one, (write_fact_vectors _ _ _ (update_visible _ _ _ _ _)), update_visible_updated.
  intros r' Hr'. split; [by apply Hp|done].
Qed.

Lemma process_facts_writes e ctx mp facts d tid : sized_nonces e -> ranges e -> keyed_facts facts ->
  (forall o, BeforeAcquire ctx = Ok o -> o = tid) -> writes tid d (process_facts crypto e ctx mp facts d).
Proof.
  intros Hn Hr Hm Htid. unfold process_facts. pose proof (fun id f enc h => encrypt_facts_sealed crypto e mp facts id f enc h Hn Hr Hm) as Hseal.
  destruct (encrypt_facts _ _ _ _) as [|x items]; [apply writes_refl|]. revert Hseal. generalize (x :: items). intros l Hseal.
  assert (Hb : writes tid d (UpsertFactBatch ctx (re_clock e) mp l d).1).
  { unfold UpsertFactBatch. destruct (BeforeAcquire ctx) as [o|]; [|apply writes_refl]. rewrite (Htid o eq_refl). simpl.
    apply SendBatch_writes, Forall_fmap, Forall_forall. intros [[[id f] enc] h] [Hs ->]%Hseal d1 d2 Hd.
    apply writes_one. by eapply (write_fact _ _ _ (em_id <$> entity_mentions d1)). }
  destruct (UpsertFactBatch ctx (re_clock e) mp l d) as [d1 r]. cbn [fst] in Hb. destruct (re_EmbedFacts e _) as [v|]; [|done].
  eapply writes_trans; [exact Hb|by apply UpdateFactEmbeddingsBatch_writes].
Qed.

(** *** Vectors of messages *)

Lemma message_vectors_writes tid p v d :
  writes tid d (set_messages (update_visible tid m_tenant p (fun r => mkMessageRow (m_msg r) v)) d).
Proof. by apply writes_one, (write_vectors _ _ _ (update_visible _ _ _ _ _)), update_visible_updated. Qed.
End Writes.
