(* ===== verification/Pipeline.v ===== *)
(** How the parts work together: a message posted to the API that fills a batch
    ([internal/api/rest.go]), the job in the tenant's stream ([cache.go]), the
    cognitive worker that reads it ([internal/worker/cognitive.go]), and the next
    request for a context ([internal/service/retriever.go]).  Nothing of
    the program is defined here; the definitions say what the theorems assume of
    a state, and the theorems compose those of the components. *)
From Stdlib Require Import Ascii String.
From S2P Require Import Prelude GoStd GoStrings Float64 Model Security Json GoJson Llm Db MessageRepo EntityRepo ExperienceRepo Streams Redis Cache Retriever Rest ContextApi Cognitive.

Local Open Scope Z_scope.

(** A session in the database: the primary key, distinct times, one user. *)
Record one_session `{OrderBy} (t u s : uuid) (d : DB) : Prop := {
  os_unique : unique_ids d;
  os_times : distinct_times (session_messages t s d);
  os_user : Forall (fun m => msg_UserID m = u) (session_messages t s d);
}.

(** A cached copy of a stored message: the handler caches it with the time of
    the request, the database keeps the time of the insertion. *)
Definition same_message (a b : Message) : Prop := m_msg (message_row a (msg_CreatedAt b)) = b.

(** The session's cached list holds the history [h], and [rest] behind it; or
    there is no list. *)
Definition history_cached `{Redis} (now : time) (t s : uuid) (h rest : list Message) (st : store) : Prop :=
  (get_value now (msgs_key t s) (view st) = None /\ rest = []) \/
  exists copy, get_value now (msgs_key t s) (view st) = Some (VList (take 50 (copy ++ rest))) /\ Forall2 same_message copy h.

(** From the last entry of message [m] on, the session's cached list holds the
    history up to [m], and [rest] behind it, and what was pushed later leaves
    room for [size] messages of that; or there is no list. *)
Definition window_cached `{Redis} (now : time) (t s : uuid) (size : Z) (m : Message) (before rest : list Message) (st : store) : Prop :=
  get_value now (msgs_key t s) (view st) = None \/
  exists newer copy, get_value now (msgs_key t s) (view st) = Some (VList (take 50 (newer ++ copy ++ rest))) /\
    Forall2 same_message copy (m :: before) /\ (msg_ID m ∉ (msg_ID <$> rest)) /\ Z.of_nat (length newer) + size <= 50.

Lemma same_message_refl m : same_message m m.
Proof. by destruct m. Qed.

Lemma same_message_ids l l' : Forall2 same_message l l' -> msg_ID <$> l = msg_ID <$> l'.
Proof. induction 1 as [|x y l l' E _ IH]; [done|]. rewrite !fmap_cons, IH. f_equal. by rewrite <-E. Qed.

Lemma anchor_index_app newer m l : msg_ID m ∉ (msg_ID <$> l) -> anchor_index (msg_ID m) (newer ++ m :: l) = Some (length newer).
Proof.
  intros Hm. induction newer as [|x newer IH]; simpl; [|by rewrite IH].
  assert (E : anchor_index (msg_ID m) l = None).
  { induction l as [|y l IH]; simpl in *; [done|]. apply not_elem_of_cons in Hm as [Hne Hm]. by rewrite (IH Hm), decide_False by congruence. }
  by rewrite E, decide_True.
Qed.

Section Reading.
Context `{UuidLib, OrderBy, PgSearch, CryptoLib, Jsonb, UnicodeCase, Redis}.
Context (key : string) (crypto : Crypto) (CognitivePrompt : string).

Lemma absent_window ctx now d t s a count st : reliable -> live ctx -> a <> EmptyString ->
  get_value now (msgs_key t s) (view st) = None -> (GetRawMessagesUntil ctx now d t s a count st).2 = Ok [].
Proof.
  intros Hrel Hlive Ha Hno. unfold GetRawMessagesUntil. rewrite decide_False by done. rewrite Hlive.
  destruct (Pipeline_run now [LRANGE (msgs_key t s) 0 49] st Hrel) as (s' & -> & _). cbn [run run1]. by rewrite Hno.
Qed.

(** The window in a cached list. *)
Lemma kept_window ctx now d t s size m before rest newer copy st : reliable -> live ctx -> canonical (msg_ID m) -> 0 < size ->
  msg_ID m ∉ (msg_ID <$> before) ->
  get_value now (msgs_key t s) (view st) = Some (VList (take 50 (newer ++ copy ++ rest))) ->
  Forall2 same_message copy (m :: before) -> msg_ID m ∉ (msg_ID <$> rest) -> Z.of_nat (length newer) + size <= 50 ->
  (GetRawMessagesUntil ctx now d t s (msg_ID m) size st).2 = Ok (take (Z.to_nat size) (copy ++ rest)).
Proof.
  intros Hrel Hlive Hm Hsize Hnd Hl Hcopy Hrest Hroom.
  pose proof (same_message_ids _ _ Hcopy) as Eids. destruct copy as [|c copy]; [by inversion Hcopy|]. injection Eids as Ec Eids. change (msg_ID <$> copy = msg_ID <$> before) in Eids.
  rewrite <-Eids in Hnd. rewrite <-Ec in *.
  assert (Hi : anchor_index (msg_ID c) (take 50 (newer ++ (c :: copy) ++ rest)) = Some (length newer)).
  { rewrite take_app_ge by lia. destruct (50 - length newer)%nat as [|j] eqn:Ej; [lia|]. cbn [app take]. apply anchor_index_app.
    rewrite fmap_take. intros (i & Hin & _)%elem_of_take. apply list_elem_of_lookup_2 in Hin. rewrite fmap_app, elem_of_app in Hin. tauto. }
  rewrite (cached_window _ now d t s _ _ (length newer) size st Hrel) with (3 := Hl);
    [|done|by apply canonical_not_empty|by rewrite take_take, Nat.min_id|lia].
  rewrite take_take, Nat.min_id. f_equal. rewrite skipn_firstn_comm, drop_app_length, take_take. by rewrite Nat.min_l by lia.
Qed.

(** The worker's messages: the anchor and those before it, and after a short
    history what is cached behind it. *)
Lemma fetch_window ctx now d t u s later m before rest size st : reliable -> live ctx ->
  canonical t -> canonical u -> canonical s -> canonical (msg_ID m) -> one_session t u s d ->
  history t s d = later ++ m :: before -> 0 < size -> window_cached now t s size m before rest st ->
  exists msgs extra, (fetch_messages (WithTenantID ctx t) now d (mkBatchPayload t u s size (msg_ID m)) size st).2 = Ok (msgs ++ extra) /\
    Forall2 same_message msgs (take (Z.to_nat size) (m :: before)) /\
    (rest = [] \/ size <= Z.of_nat (length (m :: before)) -> extra = []).
Proof.
  intros Hrel Hlive Ht Hu Hs Hm [Huniq Htimes Huser] Hh Hsize Hcache.
  assert (Hi : history t s d !! length later = Some m) by (rewrite Hh, lookup_app_r, Nat.sub_diag by lia; done).
  unfold fetch_messages. cbn [bp_TenantID bp_UserID bp_SessionID bp_LastMessageID].
  destruct Hcache as [Hno|(newer & copy & Hl & Hcopy & Hrest & Hroom)].
  - pose proof (absent_window (WithTenantID ctx t) now d t s (msg_ID m) size st Hrel Hlive (canonical_not_empty _ Hm) Hno) as E.
    destruct (GetRawMessagesUntil _ _ _ _ _ _ _ _) as [st' r]. cbn [snd] in E. rewrite E. cbn [snd].
    rewrite (database_window ctx d t u s m (length later)) by (done || lia). eexists _, []. rewrite app_nil_r, Hh, drop_app_length.
    split_and!; [done| |done]. apply Forall2_same_length_lookup_2; [done|]. intros i x y -> [= ->]. apply same_message_refl.
  - assert (Hnd : msg_ID m ∉ (msg_ID <$> before)).
    { pose proof (history_NoDup t s d Huniq Htimes) as Hnd. rewrite Hh, fmap_app in Hnd. apply NoDup_app in Hnd as (_ & _ & Hnd).
      by apply NoDup_cons in Hnd as [Hnd _]. }
    pose proof (kept_window (WithTenantID ctx t) now d t s size m before rest newer copy st Hrel Hlive Hm Hsize Hnd Hl Hcopy Hrest Hroom) as E.
    destruct (GetRawMessagesUntil _ _ _ _ _ _ _ _) as [st' r]. cbn [snd] in E. rewrite E. pose proof (Forall2_length _ _ _ Hcopy) as El.
    assert (Ene : exists x l, take (Z.to_nat size) (copy ++ rest) = x :: l).
    { destruct copy as [|c copy]; [done|]. destruct (Z.to_nat size) eqn:Es; [lia|]. by eexists _, _. }
    destruct Ene as (x & l & Ene). rewrite Ene. cbn [snd]. rewrite <-Ene, take_app. eexists _, _. split; [done|]. split; [by apply Forall2_take|].
    intros [-> |Hlen]; [apply take_nil|]. rewrite El. by replace (Z.to_nat size - length (m :: before))%nat with 0%nat by lia.
Qed.

(** The job does not look at the times of the messages. *)
Lemma process_messages_same e ctx l l' d : Forall2 same_message l l' ->
  process_messages key crypto CognitivePrompt e ctx l d = process_messages key crypto CognitivePrompt e ctx l' d.
Proof.
  intros Hl. assert (E : transcript l = transcript l').
  { assert (Hrev : Forall2 same_message (rev l) (rev l'))
      by (induction Hl as [|x y l l' E _ IH]; [constructor|]; simpl; apply Forall2_app; [done|by repeat constructor]).
    unfold transcript. f_equal. induction Hrev as [|x y k k' E _ IH]; [done|]. rewrite !fmap_cons, IH. f_equal. by rewrite <-E. }
  destruct Hl as [|x y l l' Exy Hl]; [done|]. unfold process_messages. rewrite E.
  assert (Ep : payload_of x = payload_of y) by by rewrite <-Exy. by rewrite Ep.
Qed.

(** What a job makes of the database, whatever is in Redis by then: the
    messages it reads end with its anchor. *)
Lemma job_reads_window e ctx d t u s later m before rest size st : reliable -> live ctx ->
  canonical t -> canonical u -> canonical s -> canonical (msg_ID m) -> one_session t u s d ->
  utf8_batch (mkBatchPayload t u s size (msg_ID m)) -> 0 < size < 2 ^ 63 ->
  history t s d = later ++ m :: before -> window_cached (re_clock e) t s size m before rest st ->
  rest = [] \/ size <= Z.of_nat (length (m :: before)) ->
  exists st', processBatchPayload key crypto CognitivePrompt e ctx (batch_text (mkBatchPayload t u s size (msg_ID m))) st d =
    let '(d', o) := process_messages key crypto CognitivePrompt e (WithTenantID ctx t) (take (Z.to_nat size) (m :: before)) d in
    (st', d', o).
Proof.
  intros Hrel Hlive Ht Hu Hs Hm Hd Hutf Hsize Hh Hcache Hrest. unfold processBatchPayload.
  rewrite batch_text_decodes by (done || (cbn [bp_BatchSize]; lia)). cbn [bp_TenantID bp_BatchSize].
  destruct (fetch_window ctx (re_clock e) d t u s later m before rest size st Hrel Hlive Ht Hu Hs Hm Hd Hh ltac:(lia) Hcache)
    as (msgs & extra & E & Hmsgs & Hextra). rewrite (Hextra Hrest), app_nil_r in E.
  destruct (fetch_messages _ _ _ _ _ _) as [st' r]. cbn [snd] in E. rewrite E. exists st'. by rewrite (process_messages_same _ _ _ _ _ Hmsgs).
Qed.

(** The history of a session after the handler stored a message, and its cached
    list. *)
Lemma handled_history B e req d st t u s : live (e_ctx e) -> acceptable req t u s -> canonical t ->
  distinct_times (session_messages t s d) -> Forall (fun m => msg_CreatedAt m < e_db_now e) (session_messages t s d) ->
  let '((d1, _), r) := handleAppendMessages B e (Some req) (d, st) in
  status r = StatusOK ->
  history t s d1 = m_msg (message_row (new_message e t u s req) (e_db_now e)) :: history t s d.
Proof.
  intros Hlive Hacc Ht Hd Hnew. destruct (handleAppendMessages_checks B e req d st) as [(m & -> & Hno)|(t' & u' & s' & Hacc' & ->)].
  { by destruct (Hno t u s). }
  assert (t' = t /\ u' = u /\ s' = s) as (-> & -> & ->) by (unfold acceptable in *; naive_solver). cbv zeta.
  set (m := new_message e t u s req).
  pose proof (InsertMessage_effect (e_ctx e) m (e_db_now e) d Hlive Ht) as Hins. change (msg_TenantID m) with t in Hins.
  fold (withTenant e t) in Hins. destruct (InsertMessage (withTenant e t) m (e_db_now e) d) as [d1 [a|err]]; [|done].
  destruct Hins as (Hok & Hmsgs & _). intros _. destruct a. rewrite decide_True in Hmsgs by by apply Hok.
  rewrite <-(history_insert t s d m (e_db_now e) (fun l => l)) by done.
  unfold history, session_messages. by rewrite Hmsgs.
Qed.

Lemma handled_cache B e req d st t u s size rest now : reliable -> live (e_ctx e) -> acceptable req t u s ->
  ar_TenantID req = t -> ar_SessionID req = s -> canonical t -> canonical s ->
  let m := m_msg (message_row (new_message e t u s req) (e_db_now e)) in
  e_new_id e ∉ (msg_ID <$> rest) -> size < 50 -> e_now e <= now -> history_cached (e_now e) t s (history t s d) rest st ->
  let '((d1, st1), r) := handleAppendMessages B e (Some req) (d, st) in
  status r = StatusOK -> history t s d1 = m :: history t s d -> window_cached now t s size m (history t s d) rest st1.
Proof.
  intros Hrel Hlive Hacc Et Es Ht Hs m Hrest Hsize Hnow Hcache.
  destruct (handleAppendMessages_checks B e req d st) as [(x & -> & Hno)|(t' & u' & s' & Hacc' & ->)]; [by destruct (Hno t u s)|].
  assert (t' = t /\ u' = u /\ s' = s) as (-> & -> & ->) by (unfold acceptable in *; naive_solver). cbv zeta.
  destruct (InsertMessage _ _ _ _) as [d1 [[]|err]]; [|done]. intros _ Hh.
  pose proof (msgs_key_apart t s (canonical_no_colon _ Ht)) as (K1 & K2 & K3). set (cached := new_message e t u s req).
  unfold window_cached, get_value, lookup_key. rewrite trigger_batch_frame by by rewrite ?Et, ?Es. rewrite Et, Es.
  destruct (AppendMessages_window (e_ctx e) (e_now e) d1 t s [cached] st Hrel Hlive Ht Hs ltac:(done)) as (Hwarm & Hcold & _).
  assert (Hkept : exists newer copy, view (AppendMessages (withTenant e t) (e_now e) d1 t s [cached] st).1 !! msgs_key t s =
    Some (VList (take 50 (newer ++ copy ++ rest)), Some (e_now e + 2 * hour)) /\ Forall2 same_message copy (m :: history t s d) /\
    (length newer <= 1)%nat).
  { destruct Hcache as [[Hno ->]|(copy & Hl & Hcopy)].
    - exists [cached], (m :: history t s d). rewrite app_nil_r. split; [|split; [|simpl; lia]].
      + unfold withTenant. rewrite (Hcold Hno), Hh. cbn [app reverse rev_append take]. by rewrite take_take.
      + apply Forall2_same_length_lookup_2; [done|]. intros i x y -> [= ->]. apply same_message_refl.
    - exists [], (cached :: copy). split; [|split; [by constructor|simpl; lia]].
      unfold withTenant. rewrite (Hwarm _ Hl). cbn [app reverse rev_append take]. by rewrite take_take. }
  destruct Hkept as (newer & copy & -> & Hcopy & Hlen). unfold alive. cbn [snd mbind option_bind].
  case_match; [right|by left]. exists newer, copy. split_and!; [done|done|done|lia].
Qed.

(** C8: from the API to the model.  A user message that fills its session's batch
    of B adds one job to the tenant's stream, and whenever the worker processes
    its text, now or after the session has gone on, the model is asked about the
    same messages: the 2 B newest at the time the batch was filled, that message
    the last of them.  So it is when the session's list has left the cache, and
    when the list, from that message on, holds the history at that time, under
    at most 50 - 2 B later messages (and under 2 B messages of history nothing
    else behind it).  The handler leaves such a list when it found one with the
    history, or none. *)
Theorem full_batch_reaches_model B req e d st now a js t u s : reliable -> user_turn t s (e, req) -> acceptable req t u s ->
  ar_UserID req = u -> canonical t -> canonical u -> canonical s -> canonical (e_new_id e) ->
  utf8_batch (mkBatchPayload t u s (B * 2) (e_new_id e)) -> 0 < B < 2 ^ 62 ->
  distinct_times (session_messages t s d) -> Forall (fun m => msg_CreatedAt m < e_db_now e) (session_messages t s d) ->
  counts now t s (view st) (B - 1) -> now <= e_now e < now + day ->
  active (view st) = Some a -> jobs t (view st) = Some js -> Z.of_nat (length js) < 10000 ->
  let '((d1, st1), r) := handleAppendMessages B e (Some req) (d, st) in
  status r = StatusOK ->
  let p := mkBatchPayload t u s (B * 2) (e_new_id e) in
  let m := m_msg (message_row (new_message e t u s req) (e_db_now e)) in
  let window := m :: take (Z.to_nat (B * 2 - 1)) (history t s d) in
  jobs t (view st1) = Some (js ++ [mkJob p "0"]) /\ history t s d1 = m :: history t s d /\
  (forall ctx run d2 st2 later rest, live ctx -> one_session t u s d2 -> history t s d2 = later ++ history t s d1 ->
    window_cached (re_clock run) t s (B * 2) m (history t s d) rest st2 -> rest = [] \/ B * 2 <= Z.of_nat (length (history t s d1)) ->
    exists st3, processBatchPayload key crypto CognitivePrompt run ctx (batch_text p) st2 d2 =
      let '(d3, o) := process_messages key crypto CognitivePrompt run (WithTenantID ctx t) window d2 in (st3, d3, o)) /\
  (forall now' rest, B * 2 < 50 -> e_now e <= now' -> e_new_id e ∉ (msg_ID <$> rest) ->
    history_cached (e_now e) t s (history t s d) rest st -> window_cached now' t s (B * 2) m (history t s d) rest st1).
Proof.
  intros Hrel Hturn Hacc Hru Ht Hu Hs Hid Hutf HB Htimes Hnew Hcount Hnow Ha Hj Hlen. pose proof Hturn as (Hlive & Et & Es & _).
  pose proof (handle_user_turn B (e, req) d st now (B - 1) a js t s Hrel Ht Hturn ltac:(lia) ltac:(lia) Hcount Hnow Ha Hj Hlen) as Hjob.
  pose proof (handled_history B e req d st t u s Hlive Hacc Ht Htimes Hnew) as Hhist.
  pose proof (fun size rest now' => handled_cache B e req d st t u s size rest now' Hrel Hlive Hacc Et Es Ht Hs) as Hcache. cbn [fst snd] in Hjob.
  destruct (handleAppendMessages B e (Some req) (d, st)) as [[d1 st1] r]. intros Hr. specialize (Hjob Hr). specialize (Hhist Hr).
  destruct Hjob as (_ & _ & Hjobs). replace (B - 1 + 1) with B in Hjobs by lia. rewrite Z.eqb_refl in Hjobs.
  unfold batch_job in Hjobs. cbn [fst snd] in Hjobs. rewrite Hru in Hjobs.
  split; [exact Hjobs|]. split; [exact Hhist|]. split; [|intros now' rest HB2 Hn Hrest Hc; by apply (Hcache (B * 2) rest now')].
  intros ctx run d2 st2 later rest Hlive2 Hd2 Hh2 Hc Hrest. rewrite Hhist in Hh2, Hrest. set (m := m_msg _) in *.
  destruct (job_reads_window run ctx d2 t u s later m (history t s d) rest (B * 2) st2 Hrel Hlive2 Ht Hu Hs Hid Hd2 Hutf ltac:(lia) Hh2 Hc Hrest)
    as [st3 E]. exists st3. change (msg_ID m) with (e_new_id e) in E. rewrite E.
  by replace (Z.to_nat (B * 2)) with (S (Z.to_nat (B * 2 - 1))) by lia.
Qed.
End Reading.

Section Telling.
Context `{UuidLib, OrderBy, PgSearch, CryptoLib, Jsonb, UnicodeCase, Redis}.
Context (key : string) (crypto : Crypto) (CognitivePrompt : string) (RecentMessagesLimit : Z).

(** The state a job finds: a valid table of facts, the message it is about, and
    an outside world that gives new ids and nonces. *)
Record job_ready (e : run_env) (mp : MessagePayload) (d : DB) : Prop := {
  jr_key : NewCrypto key = Ok crypto;
  jr_tenant : canonical (mp_TenantID mp);
  jr_user : canonical (mp_UserID mp);
  jr_ranges : ranges e;
  jr_nonces : all_nonces e;
  jr_sized : sized_nonces e;
  jr_ids : fresh_facts e d;
  jr_message : has_message (mp_MessageID mp) d;
  jr_valid : facts_valid crypto d;
}.

(** A fact as a reader gets it, with the confidence of a new row. *)
Definition read_fact (f : ExtractedFact) : EntityFact :=
  mkEntityFact (xf_EntityName f) (xf_EntityType f) (xf_Attribute f) (xf_Value f) (xf_SourceQuote f) default_confidence.

(** What a job asks the model about the messages it read. *)
Definition question (e : run_env) (ctx : context) (msgs : list Message) (d : DB) : LLMRequest :=
  BuildLLMRequest "You are a cognitive data extractor"
    match msgs with
    | [] => EmptyString
    | m :: _ => buildBatchPrompt key CognitivePrompt e (WithTenantID ctx (msg_TenantID m)) (msg_TenantID m) (msg_UserID m) (transcript msgs) d
    end.

(** The job stores each of the answer's facts that is not known, so that it can
    be decrypted, and keeps the table valid. *)
Lemma process_messages_stores e ctx m msgs d resp tokens x f : live ctx -> job_ready e (payload_of m) d ->
  re_Generate e (question e ctx (m :: msgs) d) = Ok (resp, tokens) ->
  Unmarshal dec_extraction (extractCognitiveJSON resp) no_extraction = (x, Ok tt) ->
  storable_facts (uniqueFacts (elems (x_Facts x))) -> uniqueFacts (elems (x_Facts x)) !! unique_key f = Some f ->
  current_hashes d !! payload_key (payload_of m) f <> Some (ValueHash (xf_Value f)) ->
  let '(d', o) := process_messages key crypto CognitivePrompt e (WithTenantID ctx (msg_TenantID m)) (m :: msgs) d in
  o = Success /\ facts_valid crypto d' /\
  exists r, r ∈ current_rows d' /\ fact_key r = payload_key (payload_of m) f /\
    scanEntityFact crypto (msg_TenantID m) r = read_fact f.
Proof.
  intros Hlive [Hkey Ht Hu Hr Hn Hsz Hids Hmsg Hv] Hgen Hdec Htext Hf Hnew. cbn [process_messages].
  unfold question in Hgen. cbn [payload_of mp_TenantID mp_UserID]. rewrite Hgen, Hdec.
  set (d0 := match Record _ _ d with Ok _ => _ | Err _ => _ end).
  assert (E0 : entity_mentions d0 = entity_mentions d /\ messages d0 = messages d).
  { unfold d0, Record. destruct (Acquire _); cbn [mbind result_bind]; [|done].
    destruct (text_params _); cbn [mbind result_bind]; [|done]. by destruct (_ && _). }
  destruct E0 as [E0 M0]. clearbody d0. split; [done|].
  pose proof (process_extraction_facts crypto e (WithTenantID ctx (msg_TenantID m)) (payload_of m) x d0) as E.
  pose proof (uniqueFacts_keyed (elems (x_Facts x))) as Hkeyed.
  assert (Hv0 : facts_valid crypto d0) by by apply (facts_valid_same crypto d).
  split; [eapply facts_valid_same; [exact E|]; by apply process_facts_valid|].
  destruct (process_facts_stores crypto ctx (payload_of m) Hlive Ht e (uniqueFacts (elems (x_Facts x))) d0 f)
    as (r & id & enc & sup & Hrow & Eb & Hdec'); try done.
  - destruct Hids as [Hinj Hid]. split; [done|]. by rewrite E0.
  - unfold has_message. by rewrite M0.
  - apply Hv0.
  - apply list_elem_of_fmap. exists (unique_key f, f). split; [done|]. by apply elem_of_map_to_list.
  - unfold current_hashes, current_rows. rewrite E0. exact Hnew.
  - exists r. split; [unfold current_rows; rewrite E; exact Hrow|]. split; [exact (f_equal fact_key Eb)|].
    change (scanEntityFact crypto (msg_TenantID m) (bare r) = read_fact f). rewrite Eb.
    rewrite scanEntityFact_value with (v := xf_Value f); [done|exact Hdec'].
Qed.

(** C9: what the model learns about the user it is told.  When the answer of the
    model has a valid fact about the user that is not on record with the same
    value, and PostgreSQL can hold the names and quotes of all its valid facts
    (they go in one batch: UTF-8 without U+0000), the job stores it, and every prompt text the context endpoint makes
    for the user from then on, unless its deadline strikes or the table has
    changed, has the fact among the lines of its first section: through
    decoding, validation, deduplication, encryption and storage, then query,
    decryption, filters and formatting, the value is as it was extracted. *)
Theorem extracted_fact_told e ctx m msgs d resp tokens x f : live ctx -> job_ready e (payload_of m) d ->
  re_Generate e (question e ctx (m :: msgs) d) = Ok (resp, tokens) ->
  Unmarshal dec_extraction (extractCognitiveJSON resp) no_extraction = (x, Ok tt) ->
  storable_facts (uniqueFacts (elems (x_Facts x))) -> uniqueFacts (elems (x_Facts x)) !! unique_key f = Some f ->
  xf_EntityType f = "self"%string ->
  current_hashes d !! payload_key (payload_of m) f <> Some (ValueHash (xf_Value f)) ->
  let r := process_messages key crypto CognitivePrompt e (WithTenantID ctx (msg_TenantID m)) (m :: msgs) d in
  r.2 = Success /\
  forall en body req w d2 st st' resp, live (e_ctx en) -> context_request body = inl req ->
    rq_TenantID req = msg_TenantID m -> rq_UserID req = msg_UserID m ->
    expired w Q_self = false -> entity_mentions (database w Q_self) = entity_mentions r.1 ->
    handleGetContextFormatted key RecentMessagesLimit en body w d2 st true (st', resp) ->
    exists before after, resp = mkContextResponse StatusOK (CFormatted
      (TrimSpace ("## Identity" +:+ newline +:+ before +:+ ("- " +:+ xf_Attribute f +:+ ": " +:+ xf_Value f +:+ newline) +:+ after))).
Proof.
  intros Hlive Hready Hgen Hdec Htext Hf Hself Hnew.
  pose proof (process_messages_stores e ctx m msgs d resp tokens x f Hlive Hready Hgen Hdec Htext Hf Hnew) as Hst.
  destruct (process_messages _ _ _ _ _ _ d) as [d' o]. cbn [fst snd]. destruct Hst as (-> & Hv & r & Hrow & Hk & Hscan). split; [done|].
  intros en body req w d2 st st' ans Hlive2 Hreq Et Eu Hexp Edb Hh. inversion Hh as [? Er|req' ? res Er Hget]; subst; [congruence|].
  assert (req' = req) as -> by congruence. destruct Hready as [Hkey Ht Hu _ _ _ _ _ _].
  assert (Hv2 : facts_valid crypto (database w Q_self)) by by apply (facts_valid_same crypto d').
  destruct (self_fact_answered key RecentMessagesLimit crypto (withTenant en (rq_TenantID req)) req w d2 st (st', res) r) as (b & Eb & Hin);
    try done.
  - by rewrite Et.
  - by rewrite Eu.
  - apply Hv2.
  - apply Hv2.
  - unfold current_rows. by rewrite Edb.
  - rewrite Et. by injection Hk.
  - rewrite Eu. by injection Hk.
  - rewrite <-Hself. exact (f_equal ef_EntityType Hscan).
  - by rewrite (f_equal ef_Confidence Hscan : em_confidence r = default_confidence).
  - simpl in Eb. subst res. rewrite Et, Hscan in Hin. destruct (section_elem "Identity" self_line _ _ Hin) as (a & z & E).
    eexists a, _. change ("- " +:+ xf_Attribute f +:+ ": " +:+ xf_Value f +:+ newline) with (self_line (read_fact f)).
    unfold formatted_answer, formatBundle, sections. rewrite E. by rewrite !string_app_assoc.
Qed.
End Telling.

(** ** Examples *)

Module PipelineSample.
#[local] Existing Instances toy_uuid merge_order_by toy_search toy_crypto toy_jsonb.
#[local] Instance server : Redis := local_redis true.
#[local] Instance ascii_case : UnicodeCase := CognitiveSample.ascii_case.
Import RestSample.

(** The second of two messages fills a batch of two; the session's history is
    cached. *)
Definition warm : store := ({[ msgs_key "t" "s" := (VList (history "t" "s" db), None) ]} : gmap string (value * option time)).
Definition first_turn : DB * store := (handleAppendMessages 2 (at_ 9 "m3") (Some (said "hello")) (db, warm)).1.
Definition second_turn : DB * store * response := handleAppendMessages 2 (at_ 20 "m4") (Some (said "Nam is a pilot")) first_turn.
Definition full_job : BatchPayload := mkBatchPayload "t" "u" "s" 4 "m4".

Lemma second_turn_session : one_session "t" "u" "s" second_turn.1.1.
Proof.
  split.
  - unfold unique_ids. vm_compute. repeat constructor; set_solver.
  - unfold distinct_times. vm_compute. repeat constructor; set_solver.
  - vm_compute. repeat constructor.
Qed.

Lemma first_turn_times : distinct_times (session_messages "t" "s" first_turn.1).
Proof. unfold distinct_times. vm_compute. repeat constructor; set_solver. Qed.

Lemma first_turn_cached : history_cached 20 "t" "s" (history "t" "s" first_turn.1) [] first_turn.2.
Proof.
  right. exists (new_message (at_ 9 "m3") "t" "u" "s" (said "hello") :: history "t" "s" db). split; [vm_compute; reflexivity|].
  repeat constructor.
Qed.

(** The worker runs a minute later on the store the handler left, and reads the
    four messages from the list. *)
Definition a_minute_later : run_env := let e := CognitiveSample.env "a" in {|
  re_clock := minute; re_time := re_time e; re_range := re_range e; re_range_again := re_range_again e; re_rand := re_rand e;
  re_fact_id := re_fact_id e; re_event_id := re_event_id e; re_trait_id := re_trait_id e; re_Generate := re_Generate e;
  re_EmbedFacts := re_EmbedFacts e; re_EmbedTraits := re_EmbedTraits e; re_ModelName := re_ModelName e |}.

Lemma full_batch_reaches_model_witness :
  jobs "t" (view second_turn.1.2) = Some [mkJob full_job "0"] /\
  is_Some (get_value minute (msgs_key "t" "s") (view second_turn.1.2)) /\
  exists m st3, processBatchPayload CognitiveSample.key CognitiveSample.crypto "{{MESSAGE}}" a_minute_later Background
    (batch_text full_job) second_turn.1.2 second_turn.1.1 =
    (let '(d3, o) := process_messages CognitiveSample.key CognitiveSample.crypto "{{MESSAGE}}" a_minute_later
       (WithTenantID Background "t") (m :: take 3 (history "t" "s" first_turn.1)) second_turn.1.1 in (st3, d3, o)).
Proof.
  pose proof (full_batch_reaches_model CognitiveSample.key CognitiveSample.crypto "{{MESSAGE}}" 2 (said "Nam is a pilot") (at_ 20 "m4")
    first_turn.1 first_turn.2 9 [("t:s"%string, 0)] [] "t" "u" "s") as Hfull.
  assert (Hlist : is_Some (get_value minute (msgs_key "t" "s") (view second_turn.1.2))) by (eexists; vm_compute; reflexivity).
  rewrite <-surjective_pairing in Hfull. fold second_turn in Hfull.
  destruct second_turn as [[d1 st1] r] eqn:E. cbn [fst snd] in *.
  destruct Hfull as (Hj & Hh & Hjob & Hkeeps).
  - apply CacheSample.server_reliable.
  - split; [reflexivity|]. repeat split.
  - apply said_acceptable; [discriminate|vm_compute; discriminate].
  - reflexivity.
  - reflexivity.
  - reflexivity.
  - reflexivity.
  - reflexivity.
  - split; vm_compute; reflexivity.
  - split; reflexivity.
  - exact first_turn_times.
  - vm_compute. repeat constructor.
  - apply (counts_of_lookup 9). vm_compute. reflexivity.
  - vm_compute. split; [discriminate|reflexivity].
  - vm_compute. reflexivity.
  - vm_compute. reflexivity.
  - reflexivity.
  - apply (f_equal snd) in E. cbn [snd] in E. rewrite <-E. vm_compute. reflexivity.
  - split; [exact Hj|]. split; [exact Hlist|]. eexists. apply (Hjob Background a_minute_later d1 st1 [] []).
    + reflexivity.
    + pose proof second_turn_session as Hs. rewrite E in Hs. exact Hs.
    + reflexivity.
    + apply Hkeeps; [reflexivity|vm_compute; discriminate|apply not_elem_of_nil|exact first_turn_cached].
    + left. reflexivity.
Defined.

(** The model's answer says that the user is a pilot. *)
Definition self_answer : string :=
  let q := CognitiveSample.q in
  "{" +:+ q "facts" +:+ ":[{" +:+ q "entity_name" +:+ ":" +:+ q "user" +:+ "," +:+ q "entity_type" +:+ ":" +:+ q "self" +:+ ","
  +:+ q "attribute" +:+ ":" +:+ q "job" +:+ "," +:+ q "value" +:+ ":" +:+ q "pilot" +:+ "}]}".
Definition pilot : ExtractedFact := mkExtractedFact "user" "self" "job" "pilot" "".
Definition telling : run_env := {|
  re_clock := 20; re_time := "now";
  re_range m := (map_to_list m).*2; re_range_again m := (map_to_list m).*2;
  re_rand _ := Ok (replicate 12 1);
  re_fact_id := CognitiveSample.numbered "f"; re_event_id i := (CognitiveSample.numbered "e" i, 20);
  re_trait_id i := (CognitiveSample.numbered "t" i, 20);
  re_Generate _ := Ok (self_answer, 7); re_EmbedFacts _ := Err "timeout"%string; re_EmbedTraits _ := Err "timeout"%string;
  re_ModelName := "model" |}.
Definition told_crypto : Crypto := match NewCrypto CognitiveSample.key with Ok c => c | Err _ => mkCrypto [] end.
Definition told : DB * outcome :=
  process_messages CognitiveSample.key told_crypto "{{MESSAGE}}" telling (WithTenantID Background "t") [CognitiveSample.message] CognitiveSample.db.
Definition asking : surroundings := mkSurroundings (fun _ => false) (fun _ => told.1) 30 (Err "timeout"%string).

Lemma telling_ready : job_ready CognitiveSample.key told_crypto telling (payload_of CognitiveSample.message) CognitiveSample.db.
Proof.
  split; try done.
  - intros i. by eexists.
  - by intros i n [= <-].
  - split; [intros i j; apply CognitiveSample.numbered_inj|]. intros i. apply not_elem_of_nil.
  - by left.
  - repeat split; constructor.
Qed.

(** The next request of the user, asking nothing in particular. *)
Lemma extracted_fact_told_witness : told.2 = Success /\
  exists st' before after, handleGetContextFormatted CognitiveSample.key 20 ContextSample.now ContextSample.ask asking told.1 ∅ true
    (st', mkContextResponse StatusOK (CFormatted (TrimSpace ("## Identity" +:+ newline +:+ before +:+ "- job: pilot" +:+ newline +:+ after)))).
Proof.
  pose proof (extracted_fact_told CognitiveSample.key told_crypto "{{MESSAGE}}" 20 telling Background CognitiveSample.message []
    CognitiveSample.db self_answer 7 (Unmarshal dec_extraction (extractCognitiveJSON self_answer) no_extraction).1 pilot) as Htold.
  destruct Htold as [Ho Hask]; [reflexivity|exact telling_ready|reflexivity|vm_compute; reflexivity|apply (bool_decide_unpack _); vm_compute; exact I|vm_compute; reflexivity|reflexivity|
    vm_compute; discriminate|].
  split; [exact Ho|].
  destruct (context_request ContextSample.ask) as [req|] eqn:Er; [|vm_compute in Er; discriminate].
  destruct (recent_messages 20 (withTenant ContextSample.now (rq_TenantID req)) req (clock asking) told.1 ∅) as [st' recent] eqn:Em.
  destruct (collecting_exists true (context_tasks CognitiveSample.key (withTenant ContextSample.now (rq_TenantID req)) req asking)
    (mkContextBundle [] recent [] [] [] [])) as [b Hb].
  assert (Hh : handleGetContextFormatted CognitiveSample.key 20 ContextSample.now ContextSample.ask asking told.1 ∅ true (st', formatted_answer (Ok b)))
    by (eapply handles_answered; [exact Er|]; eapply GetContext_returns; [exact Em|exact Hb]).
  exists st'. destruct (Hask ContextSample.now ContextSample.ask req asking told.1 ∅ st' (formatted_answer (Ok b))) as (before & after & Eans).
  - reflexivity.
  - exact Er.
  - vm_compute in Er. injection Er as <-. reflexivity.
  - vm_compute in Er. injection Er as <-. reflexivity.
  - reflexivity.
  - reflexivity.
  - exact Hh.
  - rewrite Eans in Hh. by exists before, after.
Defined.
End PipelineSample.
