(* ===== verification/Coverage.v ===== *)
(** No user message is left out: from a conversation of requests to
    [handleAppendMessages] ([internal/api/rest.go]), through the jobs these and
    the flusher ([internal/worker/flusher.go]) publish, to the messages the
    cognitive worker reads for them ([internal/worker/cognitive.go]).  The jobs
    ask for twice as many messages as they count user messages; that reaches all
    of those as long as no two messages of the assistant or the system follow
    one another, and no further. *)
From Stdlib Require Import Ascii String.
From S2P Require Import Prelude GoStd GoStrings Float64 Model Security Json GoJson Llm Db MessageRepo EntityRepo ExperienceRepo Streams Redis Cache Retriever Rest Flusher ContextApi Cognitive Pipeline.

Local Open Scope Z_scope.

(** ** Windows *)

Definition by_user (m : Message) : bool := bool_decide (msg_Role m = "user"%string).

(** Of any two messages that follow one another one is the user's. *)
Fixpoint paired (h : list Message) : Prop :=
  match h with
  | a :: (b :: _) as h' => (by_user a = true \/ by_user b = true) /\ paired h'
  | _ => True
  end.

(** [h] is newest first: a job of [size] messages up to the one with [id]
    reaches [m]. *)
Definition reaches (h : list Message) (size : Z) (id : uuid) (m : Message) : Prop :=
  exists later a before, h = later ++ a :: before /\ msg_ID a = id /\ m ∈ take (Z.to_nat size) (a :: before).

(** Every user message is in reach of a job, but for the newest [c]. *)
Definition covered (t u s : string) (h : list Message) (c : nat) (js : list job) : Prop :=
  forall m, m ∈ h -> by_user m = true -> m ∈ take c (List.filter by_user h) \/
    exists size id, mkJob (mkBatchPayload t u s size id) "0" ∈ js /\ 0 < size /\ reaches h size id m.

Lemma paired_tail m h : paired (m :: h) -> paired h.
Proof. destruct h; [done|]. by intros [_ Hp]. Qed.

Lemma take_subset {A} n k (l : list A) : (n <= k)%nat -> take n l ⊆ take k l.
Proof. intros Hn x (i & Hi & Hlt)%elem_of_take. apply elem_of_take. exists i. split; [done|lia]. Qed.

(** Twice as many messages hold the user messages. *)
Lemma paired_window n h : paired h -> take n (List.filter by_user h) ⊆ take (2 * n) h.
Proof.
  revert h. induction n as [|n IH]; intros h Hp; [done|]. replace (2 * S n)%nat with (S (S (2 * n))) by lia.
  destruct h as [|a h]; [done|]. cbn [List.filter]. destruct (by_user a) eqn:Ea.
  - cbn [take]. intros m [->|Hm]%elem_of_cons; [by left|]. right. apply (IH _ (paired_tail _ _ Hp)) in Hm.
    destruct h as [|b h]; [by rewrite take_nil in Hm|]. cbn [take].
    change (b :: take (2 * n) h) with (take (S (2 * n)) (b :: h)). by apply (take_subset (2 * n)); [lia|].
  - destruct h as [|b h]; [simpl; set_solver|]. destruct Hp as [[Hx|Eb] Hp]; [congruence|]. cbn [List.filter]. rewrite Eb. cbn [take].
    intros m [->|Hm]%elem_of_cons; [by right; left|]. right. right. by apply (IH _ (paired_tail _ _ Hp)).
Qed.

Lemma reaches_cons m0 h size id m : reaches h size id m -> reaches (m0 :: h) size id m.
Proof. intros (later & a & before & -> & Ha & Hm). by exists (m0 :: later), a, before. Qed.

Section Covered.
Context (t u s : string).
#[local] Abbreviation covered := (covered t u s).

Lemma covered_mono h c js js' : js ⊆ js' -> covered h c js -> covered h c js'.
Proof. intros Hj Hc m Hm Hu. destruct (Hc m Hm Hu) as [?|(size & id & Hin & Hr)]; [by left|]. right. exists size, id. split; [by apply Hj|done]. Qed.

(** Another message of the assistant or the system. *)
Lemma covered_other h c js m0 : by_user m0 = false -> covered h c js -> covered (m0 :: h) c js.
Proof.
  intros Hm0 Hc m Hm Hu. simpl. rewrite Hm0. apply elem_of_cons in Hm as [->|Hm]; [congruence|].
  destruct (Hc m Hm Hu) as [?|(size & id & Hin & Hs & Hr)]; [by left|]. right. exists size, id. by split_and!; [..|apply reaches_cons].
Qed.

(** Another message of the user, which is counted. *)
Lemma covered_counted h c js m0 : by_user m0 = true -> covered h c js -> covered (m0 :: h) (S c) js.
Proof.
  intros Hm0 Hc m Hm Hu. simpl. rewrite Hm0. cbn [take]. apply elem_of_cons in Hm as [->|Hm]; [left; by left|].
  destruct (Hc m Hm Hu) as [?|(size & id & Hin & Hs & Hr)]; [left; by right|]. right. exists size, id. by split_and!; [..|apply reaches_cons].
Qed.

(** A job for the counted messages, up to the newest. *)
Lemma covered_published m0 h c js : paired (m0 :: h) -> covered (m0 :: h) (Z.to_nat c) js -> 0 < c ->
  covered (m0 :: h) 0 (js ++ [mkJob (mkBatchPayload t u s (c * 2) (msg_ID m0)) "0"]).
Proof.
  intros Hp Hc Hpos m Hm Hu. right. destruct (Hc m Hm Hu) as [Hw|(size & id & Hin & Hr)].
  - exists (c * 2), (msg_ID m0). split; [apply elem_of_app; right; by left|]. split; [lia|]. exists [], m0, h. split_and!; [done..|].
    apply (paired_window _ _ Hp) in Hw. by replace (Z.to_nat (c * 2)) with (2 * Z.to_nat c)%nat by lia.
  - exists size, id. split; [apply elem_of_app; by left|done].
Qed.
End Covered.

(** ** A conversation *)

(** A live request with a message of session [s] of user [u]. *)
Record said_in `{UuidLib} (t u s : string) (x : env * AppendRequest) : Prop := {
  si_live : live (e_ctx x.1);
  si_tenant : ar_TenantID x.2 = t;
  si_user : ar_UserID x.2 = u;
  si_session : ar_SessionID x.2 = s;
  si_acceptable : acceptable x.2 t u s;
  si_id : canonical (e_new_id x.1);
}.
Definition of_user (x : env * AppendRequest) : bool := bool_decide (ar_Role x.2 = "user"%string).

Section Conversation.
Context `{UuidLib, OrderBy, PgSearch, CryptoLib, Jsonb, UnicodeCase, Redis}.

(** The message a request leaves in the database. *)
Definition stored (t u s : string) (x : env * AppendRequest) : Message :=
  m_msg (message_row (new_message x.1 t u s x.2) (e_db_now x.1)).

Lemma accepted_message B x d st t u s : said_in t u s x -> canonical t ->
  let '((d1, _), r) := handleAppendMessages B x.1 (Some x.2) (d, st) in
  status r = StatusOK -> (e_new_id x.1 ∉ msg_ID ∘ m_msg <$> messages d) /\
    messages d1 = messages d ++ [message_row (new_message x.1 t u s x.2) (e_db_now x.1)].
Proof.
  intros [Hlive _ _ _ Hacc _] Ht. destruct (handleAppendMessages_checks B x.1 x.2 d st) as [(m & -> & Hno)|(t' & u' & s' & Hacc' & ->)].
  { by destruct (Hno t u s). }
  assert (t' = t /\ u' = u /\ s' = s) as (-> & -> & ->) by (unfold acceptable in *; naive_solver). cbv zeta.
  pose proof (InsertMessage_effect (e_ctx x.1) (new_message x.1 t u s x.2) (e_db_now x.1) d Hlive Ht) as Hins.
  change (msg_TenantID (new_message x.1 t u s x.2)) with t in Hins. fold (withTenant x.1 t) in Hins.
  destruct (InsertMessage (withTenant x.1 t) _ (e_db_now x.1) d) as [d1 [[]|err]]; [|done]. destruct Hins as (Hok & Hmsgs & _).
  intros _. rewrite decide_True in Hmsgs by by apply Hok. split; [|done]. destruct Hok as [Hok _]. by destruct (Hok eq_refl) as (_ & _ & Hid).
Qed.

(** The session with one more message. *)
Lemma session_grows t u s x d d1 : said_in t u s x -> one_session t u s d ->
  Forall (fun m => msg_CreatedAt m < e_db_now x.1) (session_messages t s d) ->
  e_new_id x.1 ∉ msg_ID ∘ m_msg <$> messages d -> messages d1 = messages d ++ [message_row (new_message x.1 t u s x.2) (e_db_now x.1)] ->
  history t s d1 = stored t u s x :: history t s d /\ session_messages t s d1 = session_messages t s d ++ [stored t u s x] /\
  one_session t u s d1.
Proof.
  intros Hx [Hu Ht Hus] Hnew Hid E. set (msg := new_message x.1 t u s x.2) in *.
  assert (Es : session_messages t s d1 = session_messages t s d ++ [stored t u s x]).
  { unfold session_messages. rewrite E, fmap_app, List.filter_app. f_equal. simpl. unfold in_session. simpl. by rewrite !bool_decide_true. }
  split; [|split; [exact Es|split]].
  - pose proof (history_insert t s d msg (e_db_now x.1) (fun l => l) eq_refl eq_refl Ht Hnew) as Eh. unfold stored. fold msg. rewrite <-Eh.
    unfold history, session_messages. by rewrite E.
  - unfold unique_ids. rewrite E, fmap_app. apply NoDup_app. split; [exact Hu|]. split; [|apply NoDup_singleton].
    intros i Hi ->%list_elem_of_singleton. by apply Hid.
  - unfold distinct_times. rewrite Es, fmap_app. apply NoDup_app. split; [exact Ht|]. split; [|apply NoDup_singleton].
    intros i (m & -> & Hm)%list_elem_of_fmap Hi%list_elem_of_singleton. rewrite Forall_forall in Hnew. specialize (Hnew m Hm). simpl in Hi. lia.
  - rewrite Es. apply Forall_app_2; [done|]. by apply Forall_singleton.
Qed.

(** A message of the assistant or the system leaves the batching alone. *)
Lemma handle_other_turn B x d st t u s k : 0 < B -> said_in t u s x -> canonical t -> of_user x = false ->
  k = cog_key t s \/ k = active_key \/ k = stream_key t ->
  view (handleAppendMessages B x.1 (Some x.2) (d, st)).1.2 !! k = view st !! k.
Proof.
  destruct x as [e req]. intros HB Hx Ht Hrole%bool_decide_eq_false Hk. destruct Hx as [_ Et _ Es _ _]. simpl in Et, Es, Hrole. subst t s. cbn [fst snd].
  destruct (handleAppendMessages_checks B e req d st) as [(m & -> & _)|(t' & u' & s' & _ & ->)]; [done|]. cbv zeta.
  destruct (InsertMessage _ _ _ _) as [d1 [?|?]]; [|done]. cbn [fst snd]. unfold trigger_batch. rewrite decide_False by done.
  rewrite (proj2 (Z.leb_gt _ _)) by lia. apply AppendMessages_frame.
  destruct (msgs_key_apart (ar_TenantID req) (ar_SessionID req) (canonical_no_colon _ Ht)) as (K1 & K2 & K3).
  by destruct Hk as [-> |[-> | ->]].
Qed.
(** A session in the middle of a conversation: [c] messages are counted, for a
    day from [now], and every other user message is in reach of a job. *)
Record ongoing (B : Z) (t u s : string) (now : time) (c : Z) (js : list job) (d : DB) (st : store) : Prop := {
  og_range : 0 <= c < B;
  og_counts : counts now t s (view st) c;
  og_active : is_Some (active (view st));
  og_jobs : jobs t (view st) = Some js;
  og_session : one_session t u s d;
  og_covered : covered t u s (history t s d) (Z.to_nat c) js;
}.

Lemma ongoing_turn B x d st t u s now c js : reliable -> canonical t -> B < 2 ^ 62 -> said_in t u s x -> ongoing B t u s now c js d st ->
  (of_user x = true -> now <= e_now x.1 < now + day) -> Z.of_nat (length js) < 10000 ->
  Forall (fun m => msg_CreatedAt m < e_db_now x.1) (session_messages t s d) -> paired (stored t u s x :: history t s d) ->
  let '((d1, st1), r) := handleAppendMessages B x.1 (Some x.2) (d, st) in
  status r = StatusOK ->
  history t s d1 = stored t u s x :: history t s d /\ session_messages t s d1 = session_messages t s d ++ [stored t u s x] /\
  exists c1 js1, ongoing B t u s (if of_user x then e_now x.1 else now) c1 js1 d1 st1 /\ (length js1 <= S (length js))%nat.
Proof.
  intros Hrel Ht HB Hx [Hc Hcount [a Ha] Hj Hses Hcov] Hnow Hlen Hnew Hp.
  pose proof (accepted_message B x d st t u s Hx Ht) as Hacc. pose proof (fun k => handle_other_turn B x d st t u s k ltac:(lia) Hx Ht) as Hother.
  assert (Huser : of_user x = true -> user_turn t s x) by (destruct Hx; intros Hr%bool_decide_eq_true; by split_and!).
  pose proof (fun Hu => handle_user_turn B x d st now c a js t s Hrel Ht (Huser Hu) Hc HB Hcount (Hnow Hu) Ha Hj Hlen) as Hturn.
  destruct (handleAppendMessages B x.1 (Some x.2) (d, st)) as [[d1 st1] r]. cbn [fst snd] in Hother. intros Hr. destruct (Hacc Hr) as [Hid E].
  destruct (session_grows t u s x d d1 Hx Hses Hnew Hid E) as (Eh & Es & Hses1). split; [exact Eh|]. split; [exact Es|].
  assert (Eu : by_user (stored t u s x) = of_user x) by done. destruct (of_user x).
  - destruct (Hturn eq_refl Hr) as (Hcount1 & Ha1 & Hj1). eexists _, _. split; [split; [|exact Hcount1|exact Ha1|exact Hj1|exact Hses1|]|].
    + destruct (Z.eqb_spec (c + 1) B); lia.
    + rewrite Eh. apply (covered_counted t u s _ _ _ _ Eu) in Hcov. replace (S (Z.to_nat c)) with (Z.to_nat (c + 1)) in Hcov by lia.
      destruct (Z.eqb_spec (c + 1) B) as [EB|_]; [|by rewrite app_nil_r]. unfold batch_job. rewrite (si_user _ _ _ _ Hx), <-EB.
      apply (covered_published t u s (stored t u s x)); [exact Hp|exact Hcov|lia].
    + rewrite length_app. case_match; simpl; lia.
  - exists c, js. specialize (Hother). split; [split; [exact Hc| | | |exact Hses1|]|lia].
    + intros now' Hn. rewrite <-(Hcount now' Hn). apply counter_frame, Hother; [done|by left].
    + exists a. rewrite <-Ha. apply active_frame, Hother; [done|by right; left].
    + rewrite <-Hj. apply jobs_frame, Hother; [done|by right; right].
    + rewrite Eh. by apply covered_other.
Qed.

(** The time of the last message of the user. *)
Definition last_spoken (now : time) (l : list (env * AppendRequest)) : time :=
  foldl (fun now x => if of_user x then e_now x.1 else now) now l.

Lemma paired_suffix k h : paired (k ++ h) -> paired h.
Proof. induction k as [|m k IH]; [done|]. intros Hp. by apply IH, (paired_tail m). Qed.

Lemma ongoing_conversation B t u s l d st now c js : reliable -> canonical t -> B < 2 ^ 62 -> Forall (said_in t u s) l ->
  ongoing B t u s now c js d st -> spaced now (List.filter of_user l) -> Z.of_nat (length js + length l) <= 10000 ->
  Forall (fun x => Forall (fun m => msg_CreatedAt m < e_db_now x.1) (session_messages t s d)) l ->
  StronglySorted (fun x y => e_db_now x.1 < e_db_now y.1) l -> paired (rev (stored t u s <$> l) ++ history t s d) ->
  let '((d1, st1), rs) := handle_all B l (d, st) in
  Forall (fun r => status r = StatusOK) rs ->
  history t s d1 = rev (stored t u s <$> l) ++ history t s d /\
  exists c1 js1, ongoing B t u s (last_spoken now l) c1 js1 d1 st1 /\ (length js1 <= length js + length l)%nat.
Proof.
  intros Hrel Ht HB Hl. revert d st now c js. induction Hl as [|x l Hx Hl IH]; intros d st now c js Hog Hsp Hlen Hnew Hsorted Hp.
  { intros _. split; [done|]. exists c, js. split; [done|lia]. }
  apply Forall_cons in Hnew as [Hnx Hnew]. apply StronglySorted_inv in Hsorted as [Hsorted Hafter].
  assert (Hrev : rev (stored t u s <$> x :: l) ++ history t s d = rev (stored t u s <$> l) ++ stored t u s x :: history t s d)
    by (rewrite fmap_cons; simpl; by rewrite <-(assoc_L (++))).
  rewrite Hrev in Hp |- *. cbn [length] in Hlen.
  assert (Hnow : of_user x = true -> now <= e_now x.1 < now + day) by (intros E; simpl in Hsp; rewrite E in Hsp; by destruct x, Hsp).
  pose proof (ongoing_turn B x d st t u s now c js Hrel Ht HB Hx Hog Hnow ltac:(lia) Hnx (paired_suffix _ _ Hp)) as Hturn.
  destruct x as [e req]. cbn [handle_all fst snd] in *. destruct (handleAppendMessages B e (Some req) (d, st)) as [[d1 st1] r].
  destruct (handle_all B l (d1, st1)) as [[d2 st2] rs] eqn:E. intros [Hr Hrs]%Forall_cons.
  destruct (Hturn Hr) as (Eh & Es & c1 & js1 & Hog1 & Hlen1).
  specialize (IH d1 st1 (if of_user (e, req) then e_now e else now) c1 js1 Hog1). rewrite E, Eh, Es in IH.
  destruct IH as (Ehist & c2 & js2 & Hog2 & Hlen2); [| | |done|done|done|split; [exact Ehist|exists c2, js2; split; [exact Hog2|simpl; lia]]].
  - cbn [List.filter] in Hsp. destruct (of_user (e, req)); [by destruct Hsp|done].
  - lia.
  - rewrite Forall_forall in *. intros y Hy. apply Forall_app_2; [by apply Hnew|]. apply Forall_singleton. simpl. by apply Hafter.
Qed.

(** The flusher publishes what is left. *)
Lemma flush_covers B t u s now c js d st now1 older a l : reliable -> B < 2 ^ 62 -> ongoing B t u s now c js d st -> canonical t ->
  now <= now1 < now + day -> paired (history t s d) ->
  get_value now1 lockKey (view st) = None -> active (view st) = Some a -> NoDup l ->
  (fun x => member x.1 x.2) <$> l = take 100 (List.filter (fun x => x.2 <=? unix (now1 - older)) a).*1 ->
  Forall (flushable now1 (length l) (view st)) l -> (t, s) ∈ l ->
  exists js1, jobs t (view (runFlushCycle now1 older d st)) = Some js1 /\ covered t u s (history t s d) 0 js1.
Proof.
  intros Hrel HB [Hc Hcount _ Hj Hses Hcov] Ht Hnow Hp Hfree Ha Hnd Hl Hfl Hin.
  destruct (flush_cycle_effect now1 older d st a l Hrel Hfree Ha Hnd Hl Hfl) as (Hjobs & _). eexists. split; [by apply Hjobs|].
  destruct (history t s d) as [|m h] eqn:Eh; [by intros m Hm%not_elem_of_nil|].
  destruct (decide (c = 0)) as [->|Hc0]; [eapply covered_mono; [|exact Hcov]; set_solver|].
  eapply covered_mono; [|apply covered_published; [exact Hp|exact Hcov|lia]]. intros j [Hin'|Ej%list_elem_of_singleton]%elem_of_app; [set_solver|].
  apply elem_of_app. right. apply list_elem_of_omap. exists (t, s). split; [done|]. simpl. rewrite decide_True by done.
  unfold flush_job. rewrite (Hcount now1 Hnow). cbn [mbind option_bind]. rewrite (proj2 (Z.eqb_neq _ _)), Eh by done. simpl.
  assert (Eu : msg_UserID m = u).
  { pose proof (os_user _ _ _ _ Hses) as Hu. rewrite Forall_forall in Hu. apply Hu. rewrite <-(order_by_perm newest_first). fold (history t s d). rewrite Eh. by left. }
  rewrite Eu, int64_small by lia. by rewrite Ej.
Qed.

(** The worker that processes the job of [size] messages up to the one with
    [id], whenever it does, reads [m]: from the database when the session's list
    is not cached, and from a list that holds the history up to that message and
    has room for the window. *)
Definition read_for (t u s : string) (h : list Message) (size : Z) (id : uuid) (m : Message) : Prop :=
  forall ctx now d later newer a before rest st, live ctx -> one_session t u s d -> history t s d = later ++ h ->
    h = newer ++ a :: before -> msg_ID a = id -> window_cached now t s size a before rest st ->
    exists msgs x, (fetch_messages (WithTenantID ctx t) now d (mkBatchPayload t u s size id) size st).2 = Ok msgs /\
      x ∈ msgs /\ same_message x m.

Lemma reaches_read t u s h size id m : reliable -> canonical t -> canonical u -> canonical s -> 0 < size ->
  NoDup (msg_ID <$> h) -> Forall (fun a => canonical (msg_ID a)) h -> reaches h size id m -> read_for t u s h size id m.
Proof.
  intros Hrel Ht Hu Hs Hsize Hnd Hids (l1 & a & before & -> & <- & Hm) ctx now d later newer a' before' rest st Hlive Hd Hh Eh Ea Hcache.
  assert (newer = l1 /\ a' = a /\ before' = before) as (-> & -> & ->).
  { pose proof (f_equal (fmap msg_ID) Eh) as Ei. rewrite !fmap_app, !fmap_cons, Ea in Ei. rewrite fmap_app, fmap_cons in Hnd.
    assert (El : length l1 = length newer).
    { rewrite <-(length_fmap msg_ID l1), <-(length_fmap msg_ID newer). apply (NoDup_lookup _ _ _ (msg_ID a) Hnd); [|rewrite Ei];
        rewrite lookup_app_r, Nat.sub_diag by lia; done. }
    apply app_inj_1 in Eh as [-> E]; [|done]. by injection E as -> ->. }
  destruct (fetch_window ctx now d t u s (later ++ l1) a before rest size st) as (msgs & extra & E & Hsame & _); try done.
  - rewrite Forall_forall in Hids. apply Hids, elem_of_app. right. by left.
  - by rewrite Hh, (assoc_L (++)).
  - apply list_elem_of_lookup in Hm as [i Hi]. destruct (Forall2_lookup_r _ _ _ _ _ Hsame Hi) as (x & Hx & Hxm).
    exists (msgs ++ extra), x. split_and!; [exact E| |exact Hxm]. apply elem_of_app. left. by eapply list_elem_of_lookup_2.
Qed.

(** ** Properties *)

(** C7: no user message is left out.  A new session's messages, accepted one after
    the other, and the flush once it is idle put every message of the user in
    reach of a job: the worker that processes the job, now or after the session
    has gone on, reads it when the session's list is not cached, and from a list
    that holds the history up to the job's anchor with room for the window (as
    in [talk_read_from_cache]; a list reloaded in between has one of its messages
    twice, see [duplicate_crowds_out]).  (No two messages of the assistant or the system
    follow one another; the user's come within a day of one another and of the
    flush, which takes this session among its hundred; Redis answers and drops no
    job.) *)
Theorem no_message_left_out B t u s l d st now js : reliable -> canonical t -> canonical u -> canonical s -> 0 < B < 2 ^ 62 ->
  Forall (said_in t u s) l -> spaced now (List.filter of_user l) -> StronglySorted (fun x y => e_db_now x.1 < e_db_now y.1) l ->
  paired (rev (stored t u s <$> l)) -> unique_ids d -> session_messages t s d = [] -> view st !! cog_key t s = None ->
  is_Some (active (view st)) -> jobs t (view st) = Some js -> Z.of_nat (length js + length l) <= 10000 ->
  let '((d1, st1), rs) := handle_all B l (d, st) in
  Forall (fun r => status r = StatusOK) rs ->
  history t s d1 = rev (stored t u s <$> l) /\
  forall older now1 a ls, get_value now1 lockKey (view st1) = None -> last_spoken now l <= now1 < last_spoken now l + day ->
    active (view st1) = Some a -> NoDup ls ->
    (fun x => member x.1 x.2) <$> ls = take 100 (List.filter (fun x => x.2 <=? unix (now1 - older)) a).*1 ->
    Forall (flushable now1 (length ls) (view st1)) ls -> (t, s) ∈ ls ->
    exists js1, jobs t (view (runFlushCycle now1 older d1 st1)) = Some js1 /\
      forall x, x ∈ l -> of_user x = true -> exists size id,
        mkJob (mkBatchPayload t u s size id) "0" ∈ js1 /\ read_for t u s (history t s d1) size id (stored t u s x).
Proof.
  intros Hrel Ht Hu Hs HB Hl Hsp Hsorted Hp Huniq Hempty Hcold Hact Hj Hlen.
  assert (Eh : history t s d = []) by (apply Permutation_nil_r; rewrite <-Hempty; apply order_by_perm).
  assert (Hog : ongoing B t u s now 0 js d st).
  { split; [lia|by apply counts_of_absent|done|done| |rewrite Eh; by intros m Hm%not_elem_of_nil].
    split; [done|rewrite Hempty; constructor|by rewrite Hempty]. }
  pose proof (ongoing_conversation B t u s l d st now 0 js Hrel Ht (proj2 HB) Hl Hog Hsp Hlen) as Hconv.
  rewrite Hempty, Eh, app_nil_r in Hconv. specialize (Hconv ltac:(apply Forall_true; constructor) Hsorted Hp).
  destruct (handle_all B l (d, st)) as [[d1 st1] rs]. intros Hrs. destruct (Hconv Hrs) as (Eh1 & c1 & js1 & Hog1 & _). split; [exact Eh1|].
  intros older now1 a ls Hfree Hnow Ha Hnd Hls Hfl Hin. rewrite <-Eh1 in Hp.
  destruct (flush_covers B t u s _ c1 js1 d1 st1 now1 older a ls Hrel (proj2 HB) Hog1 Ht Hnow Hp Hfree Ha Hnd Hls Hfl Hin) as (js2 & Ej & Hcov).
  exists js2. split; [exact Ej|]. intros x Hx Hux.
  assert (Hxh : stored t u s x ∈ history t s d1) by (rewrite Eh1; apply list_elem_of_In, in_rev; rewrite rev_involutive; by apply list_elem_of_In, list_elem_of_fmap_2).
  destruct (Hcov _ Hxh Hux) as [Hn%not_elem_of_nil|(size & id & Hjob & Hsize & Hr)]; [done|]. exists size, id. split; [exact Hjob|].
  destruct (og_session _ _ _ _ _ _ _ _ _ Hog1) as [Huniq1 Htimes1 _].
  apply reaches_read; try done; [by apply history_NoDup|]. rewrite Eh1. apply Forall_forall. intros m Hm%list_elem_of_In%in_rev%list_elem_of_In.
  apply list_elem_of_fmap in Hm as (y & -> & Hy). rewrite Forall_forall in Hl. apply (Hl y Hy).
Qed.
End Conversation.

(** ** Examples *)

Module CoverageSample.
#[local] Existing Instances toy_uuid merge_order_by toy_search toy_crypto toy_jsonb.
#[local] Instance server : Redis := local_redis true.
#[local] Instance ascii_case : UnicodeCase := CognitiveSample.ascii_case.
Import RestSample.

Definition says (role : string) (now : time) (id : uuid) : env * AppendRequest := (at_ now id, mkAppendRequest "t" "u" "s" role "hello").

Lemma says_said role now id : role ∈ valid_roles -> canonical id -> said_in "t" "u" "s" (says role now id).
Proof. intros Hr Hid. split; [reflexivity..| |exact Hid]. unfold acceptable. split_and!; [discriminate|discriminate|discriminate|discriminate|exact Hr|vm_compute; discriminate|reflexivity..]. Qed.

(** Three questions and two answers, in batches of two. *)
Definition talk : list (env * AppendRequest) :=
  [says "user" 10 "m1"; says "assistant" 20 "m2"; says "user" 30 "m3"; says "assistant" 40 "m4"; says "user" 50 "m5"]%string.
Definition talked : state * list response := handle_all 2 talk (empty_db, cold).
Definition noon : time := 100 * minute.
Definition flushed_talk : store := runFlushCycle noon (30 * minute) talked.1.1 talked.1.2.

Lemma no_message_left_out_witness :
  jobs "t" (view flushed_talk) = Some [mkJob (mkBatchPayload "t" "u" "s" 4 "m3") "0"; mkJob (mkBatchPayload "t" "u" "s" 2 "m5") "0"] /\
  exists js1, jobs "t" (view flushed_talk) = Some js1 /\ forall x, x ∈ talk -> of_user x = true -> exists size id,
    mkJob (mkBatchPayload "t" "u" "s" size id) "0" ∈ js1 /\
    read_for "t" "u" "s" (history "t" "s" talked.1.1) size id (stored "t" "u" "s" x).
Proof.
  split; [vm_compute; reflexivity|].
  pose proof (no_message_left_out 2 "t" "u" "s" talk empty_db cold 0 []) as Hall. unfold flushed_talk, talked in *.
  destruct (handle_all 2 talk (empty_db, cold)) as [[d1 st1] rs] eqn:E. cbn [fst snd] in *.
  assert (Ed : (d1, st1, rs) = handle_all 2 talk (empty_db, cold)) by done. clear E.
  destruct Hall as [_ Hflush].
  - apply CacheSample.server_reliable.
  - reflexivity.
  - reflexivity.
  - reflexivity.
  - split; reflexivity.
  - repeat (apply Forall_cons; split; [apply says_said; [by repeat constructor|reflexivity]|]). constructor.
  - vm_compute. repeat split; discriminate.
  - repeat constructor.
  - vm_compute. repeat split; tauto.
  - constructor.
  - reflexivity.
  - reflexivity.
  - eexists. reflexivity.
  - reflexivity.
  - vm_compute. discriminate.
  - apply (f_equal snd) in Ed. cbn [snd] in Ed. rewrite Ed. vm_compute. repeat constructor.
  - apply (f_equal (fun r => view r.1.2)) in Ed. cbn [fst snd] in Ed.
    apply (Hflush (30 * minute) noon [("t:s"%string, 0)] [("t", "s")%string]); rewrite ?Ed.
    + vm_compute. reflexivity.
    + vm_compute. split; [discriminate|reflexivity].
    + vm_compute. reflexivity.
    + apply NoDup_singleton.
    + reflexivity.
    + apply Forall_singleton. split; [reflexivity|]. split; [reflexivity|]. split; [eexists; vm_compute; reflexivity|].
      eexists. split; [vm_compute; reflexivity|vm_compute; discriminate].
    + by left.
Defined.

(** Both jobs, read from the cached list the conversation left: each of the
    user's three messages is in one of them, though the first message of the
    session is cached twice. *)
Lemma talk_read_from_cache :
  (fun size_id => (fun l : list Message => msg_ID <$> l) <$>
    (fetch_messages (WithTenantID Background "t") noon talked.1.1 (mkBatchPayload "t" "u" "s" size_id.1 size_id.2) size_id.1 flushed_talk).2)
    <$> [(4, "m3"); (2, "m5")]%string = [Ok ["m3"; "m2"; "m1"; "m1"]; Ok ["m5"; "m4"]]%string /\
  is_Some (get_value noon (msgs_key "t" "s") (view flushed_talk)).
Proof. split; [vm_compute; reflexivity|]. eexists. vm_compute. reflexivity. Qed.

(** An assistant that answers in three messages: the job of the full batch asks
    for four, which leaves out the question they answer; nothing is left for the
    flusher. *)
Definition chatty : list (env * AppendRequest) :=
  [says "user" 10 "m1"; says "assistant" 20 "m2"; says "assistant" 30 "m3"; says "assistant" 40 "m4"; says "user" 50 "m5"]%string.
Definition chatted : state * list response := handle_all 2 chatty (empty_db, cold).

Lemma chatty_session_loses :
  Forall (fun r => status r = StatusOK) chatted.2 /\
  jobs "t" (view (runFlushCycle noon (30 * minute) chatted.1.1 chatted.1.2)) = Some [mkJob (mkBatchPayload "t" "u" "s" 4 "m5") "0"] /\
  (fun l : list Message => msg_ID <$> l) <$>
    (fetch_messages (WithTenantID Background "t") 60 chatted.1.1 (mkBatchPayload "t" "u" "s" 4 "m5") 4 cold).2 = Ok ["m5"; "m4"; "m3"; "m2"]%string.
Proof. split; [vm_compute; repeat constructor|]. vm_compute. done. Qed.

(** A cache that does not mirror the history: when the list has expired in the
    middle of a conversation, the next message is cached twice, and takes the
    place of the oldest one in what the worker reads for the flush. *)
Definition resumed : list (env * AppendRequest) :=
  [says "user" 0 "m1"; says "assistant" minute "m2"; says "user" (3 * hour) "m3"; says "assistant" (3 * hour + minute) "m4"]%string.
Definition resumed_end : state * list response := handle_all 3 resumed (empty_db, cold).
Definition later : time := 3 * hour + 40 * minute.
Definition resumed_flushed : store := runFlushCycle later (30 * minute) resumed_end.1.1 resumed_end.1.2.

Lemma duplicate_crowds_out :
  Forall (fun r => status r = StatusOK) resumed_end.2 /\
  jobs "t" (view resumed_flushed) = Some [mkJob (mkBatchPayload "t" "u" "s" 4 "m4") "0"] /\
  (fun l : list Message => msg_ID <$> l) <$>
    (fetch_messages (WithTenantID Background "t") later resumed_end.1.1 (mkBatchPayload "t" "u" "s" 4 "m4") 4 resumed_flushed).2 =
    Ok ["m4"; "m3"; "m3"; "m2"]%string.
Proof. split; [vm_compute; repeat constructor|]. vm_compute. done. Qed.
End CoverageSample.
