(* ===== verification/Experience.v ===== *)
(** What the experience worker makes of a job ([internal/worker/experience.go],
    processPayload): the keyword gate, the slice of the conversation the model
    sees, and the experience merged or inserted.  [Streams] has the worker's
    reading and retrying, [Cognitive] what the two workers do alike. *)
From Stdlib Require Import Ascii String.
From S2P Require Import Prelude GoStd GoStrings Float64 Model Security Json GoJson Llm Db MessageRepo EntityRepo MemoryRepo ExperienceRepo Redis Cache Streams Cognitive.

Local Open Scope Z_scope.

(** ** Signals *)

Definition experienceWindowSize : Z := 20.
Definition experienceTier1Depth : nat := 8.
Definition experienceSimilarityMin : float64 := f_lit 85 100.
Definition experiencePeriodicEvery : Z := 3.

Definition tier1Keywords : list string :=
  ["lần sau"; "nhớ"; "luôn luôn"; "luôn "; "không phải"; "thay vào đó"; "đúng rồi"; "chính xác";
   "gần rồi"; "không đúng"; "sai rồi"; "cần phải"; "nên "; "thay vì"; "tốt hơn nếu"; "từ nay";
   "tôi không biết"; "mình không biết"; "à ra vậy"; "à ra thế"; "tôi hiểu"; "mình hiểu"; "tôi học";
   "mình học"; "hay đó"; "cảm ơn"; "giúp tôi"; "giúp mình"; "tư vấn"; "gợi ý"; "nên làm gì";
   "làm thế nào"; "như thế nào"; "có cách nào"; "vấn đề là"; "khó khăn"; "thách thức"; "lo lắng";
   "next time"; "always "; "remember"; "instead"; "that's right"; "exactly"; "not like that";
   "you should"; "please always"; "going forward"; "from now on"; "in the future"; "don't do";
   "i don't know"; "i didn't know"; "i see"; "i understand"; "can you help"; "how do i";
   "what should"; "any advice"; "the problem is"; "struggling"; "challenge"; "worried"; "thank you";
   "thanks"; "got it"; "makes sense"]%string.

Section Signals.
Context `{UnicodeCase}.

(** The inner loop of hasTier1Signal and of findSmartSlice. *)
Definition has_keyword (m : Message) : bool := existsb (Contains (ToLower (msg_Content m))) tier1Keywords.
Definition hasTier1Signal (msgs : list Message) : bool := existsb has_keyword msgs.

(** The loop goes from the last message to the first. *)
Definition boundary (msgs : list Message) : nat :=
  foldl (fun b i => match msgs !! i with Some m => if has_keyword m then i else b | None => b end)
    0%nat (rev (seq 0 (length msgs))).
Definition findSmartSlice (msgs : list Message) : list Message := drop (boundary msgs - 1) msgs.

(** ** The window *)

(** [s[:1]] panics on the empty string. *)
Definition role_title (role : string) : option string :=
  match role with
  | EmptyString => None
  | String c rest => Some (ToUpper (String c EmptyString) +:+ rest)
  end.

Definition window_content (content : string) : string :=
  if 300 <? RuneCountInString content then string_of_runes (take 300 (runes content)) +:+ "…" else content.

Definition window_line (m : Message) : option string :=
  role ← role_title (msg_Role m); Some ("[" +:+ role +:+ "]: " +:+ window_content (msg_Content m) +:+ newline).

(** [None]: the loop panics. *)
Definition buildWindowTranscript (msgs : list Message) : option string :=
  lines ← mapM window_line msgs; Some (Join lines "").
End Signals.

(** ** Texts *)

(** The struct this worker reads a job into has no batch_size. *)
Definition dec_window_batch : json -> BatchPayload -> BatchPayload * bool :=
  dec_struct [
    ("tenant_id"%string, fun j p => let '(v, ok) := dec_string j (bp_TenantID p) in
       (mkBatchPayload v (bp_UserID p) (bp_SessionID p) (bp_BatchSize p) (bp_LastMessageID p), ok));
    ("user_id"%string, fun j p => let '(v, ok) := dec_string j (bp_UserID p) in
       (mkBatchPayload (bp_TenantID p) v (bp_SessionID p) (bp_BatchSize p) (bp_LastMessageID p), ok));
    ("session_id"%string, fun j p => let '(v, ok) := dec_string j (bp_SessionID p) in
       (mkBatchPayload (bp_TenantID p) (bp_UserID p) v (bp_BatchSize p) (bp_LastMessageID p), ok));
    ("last_message_id"%string, fun j p => let '(v, ok) := dec_string j (bp_LastMessageID p) in
       (mkBatchPayload (bp_TenantID p) (bp_UserID p) (bp_SessionID p) (bp_BatchSize p) v, ok))].

Definition extractJSON (s : string) : string := let s := TrimSpace s in default s (find_block s).

Record Learned := mkLearned {
  xl_HasSignal : bool;
  xl_Description : string;
  xl_Steps : slice string;
}.

Definition dec_learned : json -> Learned -> Learned * bool :=
  dec_struct [
    ("has_signal"%string, fun j x => let '(v, ok) := dec_bool j (xl_HasSignal x) in
       (mkLearned v (xl_Description x) (xl_Steps x), ok));
    ("description"%string, fun j x => let '(v, ok) := dec_string j (xl_Description x) in
       (mkLearned (xl_HasSignal x) v (xl_Steps x), ok));
    ("steps"%string, fun j x => let '(v, ok) := dec_slice EmptyString dec_string j (xl_Steps x) in
       (mkLearned (xl_HasSignal x) (xl_Description x) v, ok))].
Definition nothing_learned : Learned := mkLearned false "" nil_slice.

(** ** What the outside decides during a run

    The clock, the provider's answers, the id of a new row, and what
    uuid.Parse returns besides an error, which the code does not look at. *)
Record exp_env := mkExpEnv {
  xe_clock : time;
  xe_time : string;                                   (* time.Now().Format(time.RFC3339) *)
  xe_Generate : LLMRequest -> result (string * Z);
  xe_Embed : string -> result (list float64);
  xe_new_id : uuid;
  xe_parse_rest : string -> uuid;
}.

Section Processing.
Context `{UuidLib, OrderBy, PgSearch, CryptoLib, Jsonb, UnicodeCase, Redis}.
(** The configuration: master key and prompt. *)
Context (key : string) (ExperiencePrompt : string).

Definition buildPrompt (e : exp_env) (ctx : context) (tenantID userID window : string) (msgCount : Z) (d : DB) : string :=
  Replace [("{{CURRENT_TIME}}", xe_time e); ("{{USER_NAME}}", up_CanonicalName (ProfileGet key ctx tenantID userID d));
           ("{{MESSAGE_COUNT}}", Itoa msgCount); ("{{CONVERSATION_WINDOW}}", window)]%string ExperiencePrompt.

(** Merge with the most similar experience, or insert.  [latest] is the newest
    message of the window. *)
Definition store_learned (e : exp_env) (ctx : context) (p : BatchPayload) (latest : uuid) (x : Learned) (embedding : list float64)
    (d : DB) : result DB :=
  let sessionID := default (xe_parse_rest e (bp_SessionID p)) (uuid_Parse (bp_SessionID p)) in
  let similarID := match SearchSimilar ctx (bp_TenantID p) (bp_UserID p) embedding experienceSimilarityMin d with
                   | Ok (Some s, _) => Some (exp_ID s)
                   | _ => None
                   end in
  UpsertExperience ctx (bp_TenantID p) (bp_UserID p) sessionID latest (xl_Description x) (Some (elems (xl_Steps x)))
    embedding similarID (xe_new_id e) (xe_clock e) d.

(** What is stored of the model's answer. *)
Definition learn (e : exp_env) (ctx : context) (p : BatchPayload) (latest : uuid) (resp : string) (d : DB) : DB * result unit :=
  match Unmarshal dec_learned (extractJSON resp) nothing_learned with
  | (_, Err _) => (d, Ok tt)
  | (x, Ok _) =>
    if negb (xl_HasSignal x) || bool_decide (xl_Description x = EmptyString) || bool_decide (elems (xl_Steps x) = [])
    then (d, Ok tt)
    else match xe_Embed e (xl_Description x) with
         | Err err => (d, Err ("embed description: " +:+ err)%string)
         | Ok embedding =>
           match store_learned e ctx p latest x embedding d with
           | Err err => (d, Err ("upsert experience: " +:+ err)%string)
           | Ok d' => (d', Ok tt)
           end
         end
  end.

(** The gate: call [callN] may pass without a keyword every third time. *)
Definition gate_open (callN : Z) (chronological : list Message) : bool :=
  (Z.rem callN experiencePeriodicEvery =? 0) ||
  hasTier1Signal (drop (length chronological - experienceTier1Depth) chronological).

(** [calls] is the worker's batchCount; [None]: the goroutine panics. *)
Definition processPayload (e : exp_env) (ctx : context) (payload : string) (calls : Z) (st : store) (d : DB)
  : option (store * Z * DB * result unit) :=
  match Unmarshal dec_window_batch payload no_batch with
  | (_, Err err) => Some (st, calls, d, Err ("parse payload: " +:+ err)%string)
  | (p, Ok _) =>
    let ctx := WithTenantID ctx (bp_TenantID p) in
    match fetch_messages ctx (xe_clock e) d p experienceWindowSize st with
    | (st, Err _) | (st, Ok []) => Some (st, calls, d, Ok tt)
    | (st, Ok ((m :: _) as msgs)) =>
      let chronological := rev msgs in
      let calls := int64 (calls + 1) in
      if gate_open calls chronological then
        let slice := findSmartSlice chronological in
        window ← buildWindowTranscript slice;
        let prompt := buildPrompt e ctx (bp_TenantID p) (bp_UserID p) window (Z.of_nat (length slice)) d in
        match xe_Generate e (BuildLLMRequest "You are an experience extractor. Return JSON only. No markdown." prompt) with
        | Err err => Some (st, calls, d, Err ("llm generate: " +:+ err)%string)
        | Ok (resp, _) => let '(d', r) := learn e ctx p (msg_ID m) resp d in Some (st, calls, d', r)
        end
      else Some (st, calls, d, Ok tt)
    end
  end.
End Processing.

(** ** Lemmas *)

Section SliceLemmas.
Context `{UnicodeCase}.

Lemma foldl_rev {A B} (f : B -> A -> B) b l : foldl f b (rev l) = foldr (fun x y => f y x) b l.
Proof. induction l as [|x l IH]; [done|]. simpl. by rewrite foldl_app, IH. Qed.

(** The boundary is the first message with a keyword, or the start. *)
Lemma boundary_first pre m post : Forall (fun x => has_keyword x = false) pre -> has_keyword m = true ->
  boundary (pre ++ m :: post) = length pre.
Proof.
  intros Hpre Hm. unfold boundary. rewrite foldl_rev, length_app. cbn [length].
  rewrite seq_app, foldr_app. cbn [seq foldr]. rewrite Nat.add_0_l, lookup_app_r, Nat.sub_diag by lia. simpl. rewrite Hm.
  assert (Hs : Forall (fun i => i < length pre)%nat (seq 0 (length pre))) by (apply Forall_seq; lia).
  induction Hs as [|i l Hi _ IH]; [done|]. cbn [foldr]. rewrite IH. rewrite lookup_app_l by done.
  destruct (pre !! i) as [x|] eqn:E; [|done]. rewrite Forall_forall in Hpre. by rewrite (Hpre x) by by eapply list_elem_of_lookup_2.
Qed.

Lemma boundary_none msgs : Forall (fun x => has_keyword x = false) msgs -> boundary msgs = 0%nat.
Proof.
  intros Hall. unfold boundary. rewrite foldl_rev. induction (seq 0 (length msgs)) as [|i l IH]; [done|]. simpl. rewrite IH.
  destruct (msgs !! i) as [x|] eqn:E; [|done]. rewrite Forall_forall in Hall. by rewrite (Hall x) by by eapply list_elem_of_lookup_2.
Qed.

(** Roles are not empty: the transcript does not panic. *)
Lemma transcript_total msgs : Forall (fun m => msg_Role m <> EmptyString) msgs -> is_Some (buildWindowTranscript msgs).
Proof.
  intros Hm. unfold buildWindowTranscript. enough (is_Some (mapM window_line msgs)) as [l ->] by by eexists.
  apply mapM_is_Some. eapply Forall_impl; [exact Hm|]. intros m Hr. unfold compose, window_line, role_title.
  destruct (msg_Role m) eqn:E; [by destruct Hr|]. by eexists.
Qed.

(** It fails on an empty role only. *)
Lemma transcript_panics msgs : buildWindowTranscript msgs = None <-> Exists (fun m => msg_Role m = EmptyString) msgs.
Proof.
  split.
  - intros Hn. destruct (decide (Exists (fun m => msg_Role m = EmptyString) msgs)) as [|Hno]; [done|].
    apply not_Exists_Forall in Hno; [|apply _]. apply transcript_total in Hno as [t Ht]. congruence.
  - intros He. unfold buildWindowTranscript. destruct (mapM window_line msgs) as [l|] eqn:E; [|done].
    apply mapM_Some_1 in E. apply Exists_exists in He as (m & [i Hi]%list_elem_of_lookup & Hr).
    destruct (Forall2_lookup_l _ _ _ _ _ E Hi) as (t & _ & Ht). unfold window_line in Ht. by rewrite Hr in Ht.
Qed.
End SliceLemmas.

Section StoreLemmas.
Context `{UuidLib, OrderBy, PgSearch, Jsonb}.

Definition experiences_only (d d' : DB) : Prop := d' = set_experiences (fun _ => experiences d') d.

(** The rows of a table an upsert leaves: another tenant's are the same. *)
Lemma UpsertExperience_write ctx t u s m desc steps v similar id now d d' :
  UpsertExperience ctx t u s m desc steps v similar id now d = Ok d' ->
  experiences_only d d' /\ (length (experiences d') <= S (length (experiences d)))%nat /\
  forall t', to_uuid t <> Ok t' ->
    List.filter (fun r => bool_decide (exp_TenantID (xp_exp r) = t')) (experiences d') =
    List.filter (fun r => bool_decide (exp_TenantID (xp_exp r) = t')) (experiences d).
Proof.
  unfold UpsertExperience. intros (? & _ & (? & _ & (t0 & Ht & (? & _ & Hd)%result_bind_Ok)%result_bind_Ok)%result_bind_Ok)%result_bind_Ok.
  destruct (jsonb_in _) as [js|]; [|done]. apply result_bind_Ok in Hd as (? & _ & Hd). destruct similar as [i|].
  - injection Hd as <-. split; [done|]. simpl. split; [rewrite length_fmap; lia|]. intros t' Hne. rewrite filter_fmap.
    assert (Hb : forall r, bool_decide (exp_ID (xp_exp r) = i) && bool_decide (exp_TenantID (xp_exp r) = t0) = true ->
      exp_TenantID (xp_exp r) <> t').
    { intros r [_ Hr%bool_decide_eq_true]%andb_true_iff E. apply Hne. congruence. }
    induction (experiences d) as [|r l IH]; [done|]. cbn [List.filter].
    destruct (bool_decide _ && bool_decide _) eqn:E; cbn [xp_exp exp_TenantID].
    + specialize (Hb r E). rewrite bool_decide_false by done. exact IH.
    + destruct (bool_decide (exp_TenantID (xp_exp r) = t')); [|exact IH]. rewrite fmap_cons, E. by rewrite IH.
  - apply result_bind_Ok in Hd as (u0 & _ & Hd). destruct (existsb _ _); [done|]. injection Hd as <-.
    split; [done|]. simpl. rewrite length_app. simpl. split; [lia|]. intros t' Hne.
    rewrite List.filter_app. cbn [List.filter xp_exp exp_TenantID]. rewrite bool_decide_false by congruence. apply app_nil_r.
Qed.

(** What is at least as near as a vector to itself is similar to it. *)
Lemma near_self x : pg_le (f_of_Z 0) x = true -> pg_le x (f_of_Z 0) = true ->
  flt (fsub (f_of_Z 1) x) experienceSimilarityMin = false.
Proof. destruct x as [s|s| |s m ex]; [by destruct s; vm_compute|by destruct s; vm_compute|done|by destruct s]. Qed.
End StoreLemmas.

(** ** Properties *)

(** The slice the model sees starts one message before the first of the
    window with a keyword, and is the whole window when there is none or it is
    the first; it is never empty when the window is not. *)
Theorem findSmartSlice_spec `{UnicodeCase} msgs :
  (Forall (fun m => has_keyword m = false) msgs -> findSmartSlice msgs = msgs) /\
  (forall m post, has_keyword m = true -> msgs = m :: post -> findSmartSlice msgs = msgs) /\
  (forall pre c m post, Forall (fun x => has_keyword x = false) (pre ++ [c]) -> has_keyword m = true ->
     msgs = pre ++ c :: m :: post -> findSmartSlice msgs = c :: m :: post) /\
  (msgs <> [] -> findSmartSlice msgs <> []).
Proof.
  assert (Hfirst : forall pre c m post, Forall (fun x => has_keyword x = false) (pre ++ [c]) -> has_keyword m = true ->
     msgs = pre ++ c :: m :: post -> findSmartSlice msgs = c :: m :: post).
  { intros pre c m post Hpre Hm ->. unfold findSmartSlice. replace (pre ++ c :: m :: post) with ((pre ++ [c]) ++ m :: post) at 1
      by by rewrite <-(assoc_L (++)). rewrite boundary_first by done.
    rewrite length_app. cbn [length]. replace (_ + 1 - 1)%nat with (length pre) by lia. apply drop_app_length. }
  assert (Hhead : forall m post, has_keyword m = true -> msgs = m :: post -> findSmartSlice msgs = msgs).
  { intros m post Hm ->. unfold findSmartSlice. by rewrite (boundary_first [] m post). }
  assert (Hnone : Forall (fun m => has_keyword m = false) msgs -> findSmartSlice msgs = msgs).
  { intros Hall. unfold findSmartSlice. by rewrite boundary_none. }
  split_and!; [done..|]. intros Hne.
  destruct (decide (Forall (fun m => has_keyword m = false) msgs)) as [Hall|Hex]; [by rewrite Hnone|].
  apply not_Forall_Exists in Hex; [|apply _].
  assert (Hsplit : exists pre m post, msgs = pre ++ m :: post /\ Forall (fun x => has_keyword x = false) pre /\ has_keyword m = true).
  { clear -Hex. induction msgs as [|x l IH]; [by inversion Hex|]. destruct (has_keyword x) eqn:E; [by exists [], x, l|].
    apply Exists_cons in Hex as [Hx|Hl]; [by destruct Hx|]. destruct (IH Hl) as (pre & m & post & -> & Hpre & Hm).
    exists (x :: pre), m, post. split_and!; [done|by constructor|done]. }
  destruct Hsplit as (pre & m & post & E & Hpre & Hm). destruct pre as [|y pre _] using rev_ind.
  - by rewrite (Hhead m post).
  - rewrite <-(assoc_L (++)) in E. by rewrite (Hfirst pre y m post).
Qed.

Section Properties.
Context `{UuidLib, OrderBy, PgSearch, CryptoLib, Jsonb, UnicodeCase, Redis}.
Context (key ExperiencePrompt : string).

Lemma learn_write e ctx p latest resp d :
  let '(d', r) := learn e ctx p latest resp d in
  experiences_only d d' /\ (length (experiences d') <= S (length (experiences d)))%nat /\
  (r <> Ok tt -> d' = d) /\
  forall t', to_uuid (bp_TenantID p) <> Ok t' ->
    List.filter (fun r => bool_decide (exp_TenantID (xp_exp r) = t')) (experiences d') =
    List.filter (fun r => bool_decide (exp_TenantID (xp_exp r) = t')) (experiences d).
Proof.
  assert (Hd : experiences_only d d) by by destruct d.
  unfold learn. destruct (Unmarshal dec_learned _ _) as [x [?|err]]; [|split_and!; auto with lia].
  destruct (_ || _ || _); [split_and!; auto with lia|]. destruct (xe_Embed e _) as [v|err]; [|split_and!; auto with lia].
  destruct (store_learned e ctx p latest x v d) as [d'|err] eqn:E; [|split_and!; auto with lia].
  apply UpsertExperience_write in E as (Ho & Hl & Ht). split_and!; done.
Qed.

(** An experience job writes nothing but experiences, of its own tenant
    only and at most one new one; a job that ends in an error has stored
    nothing.  It returns, provided no message in its window has an empty role
    (the HTTP API stores none). *)
Theorem experience_job_writes e ctx payload calls st d :
  let p := (Unmarshal dec_window_batch payload no_batch).1 in
  (forall st' calls' d' r, processPayload key ExperiencePrompt e ctx payload calls st d = Some (st', calls', d', r) ->
     experiences_only d d' /\ (length (experiences d') <= S (length (experiences d)))%nat /\
     (r <> Ok tt -> d' = d) /\
     forall t', to_uuid (bp_TenantID p) <> Ok t' ->
       List.filter (fun r => bool_decide (exp_TenantID (xp_exp r) = t')) (experiences d') =
       List.filter (fun r => bool_decide (exp_TenantID (xp_exp r) = t')) (experiences d)) /\
  ((forall msgs, (fetch_messages (WithTenantID ctx (bp_TenantID p)) (xe_clock e) d p experienceWindowSize st).2 = Ok msgs ->
      Forall (fun m => msg_Role m <> EmptyString) msgs) ->
   is_Some (processPayload key ExperiencePrompt e ctx payload calls st d)).
Proof.
  intros p. assert (Hd : experiences_only d d) by by destruct d.
  unfold processPayload. subst p. destruct (Unmarshal dec_window_batch payload no_batch) as [p [?|err]]; cbn [fst].
  2: { split; [|by eexists]. intros ? ? ? ? [= <- <- <- <-]. split_and!; auto with lia. }
  destruct (fetch_messages _ _ d p _ st) as [st1 r1]. cbn [snd].
  assert (Hnil : forall (Q : Prop) (c : Z) (r : result unit) res, res = Some (st1, c, d, r) ->
    (forall st' calls' d' r, res = Some (st', calls', d', r) ->
       experiences_only d d' /\ (length (experiences d') <= S (length (experiences d)))%nat /\ (r <> Ok tt -> d' = d) /\
       forall t', to_uuid (bp_TenantID p) <> Ok t' ->
         List.filter (fun r => bool_decide (exp_TenantID (xp_exp r) = t')) (experiences d') =
         List.filter (fun r => bool_decide (exp_TenantID (xp_exp r) = t')) (experiences d)) /\ (Q -> is_Some res)).
  { intros Q c r res ->. split; [|by eexists]. intros ? ? ? ? [= <- <- <- <-]. split_and!; auto with lia. }
  destruct r1 as [[|m msgs]|err]; [by eapply Hnil| |by eapply Hnil].
  destruct (gate_open _ _); [|by eapply Hnil].
  destruct (buildWindowTranscript _) as [window|] eqn:Ew; cbn [mbind option_bind].
  2: { split; [done|]. intros Hroles. apply transcript_panics in Ew. apply Exists_exists in Ew as (x & Hx & Hr).
       specialize (Hroles _ eq_refl). rewrite Forall_forall in Hroles. destruct (Hroles x); [|done].
       apply list_elem_of_lookup in Hx as [i Hi]. unfold findSmartSlice in Hi. rewrite lookup_drop in Hi.
       by apply list_elem_of_lookup_2, list_elem_of_In, in_rev, list_elem_of_In in Hi. }
  destruct (xe_Generate e _) as [[resp tokens]|err]; [|by eapply Hnil].
  pose proof (learn_write e (WithTenantID ctx (bp_TenantID p)) p (msg_ID m) resp d) as Hw.
  destruct (learn _ _ _ _ _ _) as [d1 r1]. split; [|by eexists]. by intros ? ? ? ? [= <- <- <- <-].
Qed.

(** pgvector's distance of a vector to itself is zero, and no distance is
    negative. *)
Record self_near (v : list float64) : Prop := {
  near_zero : cosine_distance v v = f_of_Z 0;
  near_least w : pg_le (f_of_Z 0) (cosine_distance w v) = true;
}.

(** The experience a stored answer is in. *)
Definition holds (p : BatchPayload) (x : Learned) (v : list float64) (r : ExperienceRow) : Prop :=
  active_of (bp_TenantID p) (bp_UserID p) r = true /\ xp_embedding r = Some v /\
  exp_Description (xp_exp r) = xl_Description x.

Section OneUser.
Context (ctx : context) (p : BatchPayload) (v : list float64).
Hypothesis Hlive : live ctx.
Hypothesis Ht : canonical (bp_TenantID p).
Hypothesis Hu : canonical (bp_UserID p).

(** The experience found, when there is one, is the user's own; when there is
    none, the index reaches no active experience with this vector. *)
Lemma similar_found d : forallb finite v = true -> vector_in v = true ->
  (exists r, r ∈ experiences d /\ active_of (bp_TenantID p) (bp_UserID p) r = true /\
     SearchSimilar (WithTenantID ctx (bp_TenantID p)) (bp_TenantID p) (bp_UserID p) v experienceSimilarityMin d =
     Ok (Some (xp_exp r), fsub (f_of_Z 1) (exp_distance v r)) /\
     forall r', r' ∈ reached_experiences v d -> active_of (bp_TenantID p) (bp_UserID p) r' = true -> triggered r' = true ->
       pg_le (exp_distance v r) (exp_distance v r') = true) \/
  (exists sim, SearchSimilar (WithTenantID ctx (bp_TenantID p)) (bp_TenantID p) (bp_UserID p) v experienceSimilarityMin d = Ok (None, sim) /\
     (self_near v -> forall r', r' ∈ reached_experiences v d -> active_of (bp_TenantID p) (bp_UserID p) r' = true -> xp_embedding r' <> Some v)).
Proof using Hlive Ht Hu.
  intros Hq Hv. unfold SearchSimilar, marshal_vector, vector_param. rewrite Hq, Hv.
  rewrite Acquire_live, (to_uuid_canonical (bp_TenantID p)), (to_uuid_canonical (bp_UserID p)) by done. cbn [mbind result_bind].
  set (cand := List.filter _ (reached_experiences v d)).
  assert (Hcand : forall r, r ∈ cand <-> r ∈ reached_experiences v d /\ active_of (bp_TenantID p) (bp_UserID p) r = true /\ triggered r = true)
    by (intros r; unfold cand; by rewrite elem_of_filter_bool, andb_true_iff).
  destruct (head (order_by (by_exp_distance v) cand)) as [r|] eqn:E.
  - apply head_order_by in E as [Hr Hmin]; [|apply by_exp_distance_trans|apply by_exp_distance_total].
    pose proof Hr as (Hin & Ha & Htr)%Hcand. destruct (flt _ _) eqn:Ef.
    + right. eexists. split; [done|]. intros [Hz Hl] r' Hr' Ha' Ev.
      assert (Hle : pg_le (exp_distance v r) (f_of_Z 0) = true).
      { rewrite <-Hz. replace (cosine_distance v v) with (exp_distance v r') by (unfold exp_distance; by rewrite Ev).
        apply Hmin, Hcand. unfold triggered. by rewrite Ev. }
      enough (Hge : pg_le (f_of_Z 0) (exp_distance v r) = true) by (rewrite near_self in Ef; done).
      unfold triggered in Htr. unfold exp_distance. by destruct (xp_embedding r).
    + left. exists r. split_and!; [by apply (elem_of_reached xp_embedding v)|done..|]. intros r' Hr' Ha' Ht'. by apply Hmin, Hcand.
  - right. eexists. split; [done|]. intros _ r' Hr' Ha' Ev. apply head_None in E.
    apply (not_elem_of_nil r'). rewrite <-E, order_by_In. apply Hcand. unfold triggered. by rewrite Ev.
Qed.

Lemma store_learned_Ok e latest x d d' : store_learned e (WithTenantID ctx (bp_TenantID p)) p latest x v d = Ok d' ->
  forallb finite v = true /\ vector_in v = true /\ text_params [xl_Description x] = Ok tt /\
  jsonb_in (marshal_steps (Some (elems (xl_Steps x)))) <> None.
Proof using.
  unfold store_learned, UpsertExperience, marshal_vector, vector_param. destruct (forallb finite v); [|done]. cbn [mbind result_bind].
  intros (? & _ & (? & _ & ([] & Htext & Hd)%result_bind_Ok)%result_bind_Ok)%result_bind_Ok.
  destruct (jsonb_in _); [|done]. by destruct (vector_in v).
Qed.

(** One way to merge, with the experience found. *)
Definition merged (e : exp_env) (latest : uuid) (x : Learned) (steps : string) (r : ExperienceRow) : ExperienceRow :=
  let o := xp_exp r in
  mkExperienceRow (mkExperience (exp_ID o) (exp_TenantID o) (exp_UserID o) (xl_Description x) steps
    (Some (default (xe_parse_rest e (bp_SessionID p)) (uuid_Parse (bp_SessionID p))))
    (merge_confidence (exp_Confidence o)) (exp_UsageCount o) (exp_SuccessCount o) (exp_IsActive o) (exp_CreatedAt o) (xe_clock e))
    (Some v) (xp_sources r ++ [latest]).
Definition same_experience (r s : ExperienceRow) : bool :=
  bool_decide (exp_ID (xp_exp s) = exp_ID (xp_exp r)) && bool_decide (exp_TenantID (xp_exp s) = bp_TenantID p).

Lemma store_learned_merges e latest x d r sim steps : forallb finite v = true -> vector_in v = true -> text_params [xl_Description x] = Ok tt ->
  jsonb_in (marshal_steps (Some (elems (xl_Steps x)))) = Some steps ->
  SearchSimilar (WithTenantID ctx (bp_TenantID p)) (bp_TenantID p) (bp_UserID p) v experienceSimilarityMin d = Ok (Some (xp_exp r), sim) ->
  store_learned e (WithTenantID ctx (bp_TenantID p)) p latest x v d =
  Ok (set_experiences (fmap (fun s => if same_experience r s then merged e latest x steps s else s)) d).
Proof using Hlive Ht Hu.
  intros Hq Hv Htext Hj Hs. unfold store_learned, UpsertExperience, marshal_vector, vector_param. rewrite Hs, Hq, Hv.
  rewrite Acquire_live, (to_uuid_canonical (bp_TenantID p)), Htext by done. cbn [mbind result_bind]. rewrite Hj. done.
Qed.

(** Stored either way, the answer is in an active experience of the user. *)
Lemma store_learned_holds e latest x d d' :
  store_learned e (WithTenantID ctx (bp_TenantID p)) p latest x v d = Ok d' -> exists r, r ∈ experiences d' /\ holds p x v r.
Proof using Hlive Ht Hu.
  intros Hd. pose proof Hd as (Hq & Hv & Htext & Hj)%store_learned_Ok. destruct (jsonb_in _) as [steps|] eqn:Ej; [|done].
  destruct (similar_found d Hq Hv) as [(r & Hr & Ha & Hs & _)|(sim & Hs & _)].
  - rewrite (store_learned_merges e latest x d r _ steps Hq Hv Htext Ej Hs) in Hd. injection Hd as <-.
    exists (merged e latest x steps r). split; [|by split; [|split]]. simpl. apply list_elem_of_fmap. exists r. split; [|done].
    unfold same_experience. unfold active_of in Ha. rewrite !andb_true_iff, !bool_decide_eq_true in Ha.
    by rewrite !bool_decide_true by tauto.
  - revert Hd. unfold store_learned, UpsertExperience, marshal_vector, vector_param. rewrite Hs, Hq, Hv.
    rewrite Acquire_live, (to_uuid_canonical (bp_TenantID p)), (to_uuid_canonical (bp_UserID p)), Htext by done. cbn [mbind result_bind].
    rewrite Ej. cbn [mbind result_bind]. destruct (existsb _ _); [done|]. intros [= <-]. simpl. eexists.
    rewrite elem_of_app, list_elem_of_singleton. split; [by right|]. split; [|done].
    unfold active_of. simpl. by rewrite !bool_decide_true by done.
Qed.

(** C25: what a job learned stays one experience: once stored, the answer is in an
    active experience of the user, and storing it again, when the job is
    delivered again, merges with the nearest experience instead of adding one,
    provided the walk of the vector index reaches an experience that holds the
    answer (the index is shared by all tenants and approximate; see
    [unreached_added_again]).  The merge counts, though: it raises the confidence
    and records the same source message a second time. *)
Theorem learned_again e e' latest x d d1 : self_near v ->
  store_learned e (WithTenantID ctx (bp_TenantID p)) p latest x v d = Ok d1 ->
  (exists r, r ∈ experiences d1 /\ holds p x v r) /\
  forall r0, r0 ∈ reached_experiences v d1 -> holds p x v r0 ->
  exists r d2, r ∈ experiences d1 /\ active_of (bp_TenantID p) (bp_UserID p) r = true /\
    store_learned e' (WithTenantID ctx (bp_TenantID p)) p latest x v d1 = Ok d2 /\
    Forall2 (fun s s' =>
      if same_experience r s then
        exp_ID (xp_exp s') = exp_ID (xp_exp s) /\ exp_Description (xp_exp s') = xl_Description x /\
        exp_Confidence (xp_exp s') = merge_confidence (exp_Confidence (xp_exp s)) /\ xp_sources s' = xp_sources s ++ [latest]
      else s' = s) (experiences d1) (experiences d2).
Proof using Hlive Ht Hu.
  intros Hnear Hd. pose proof Hd as (Hq & Hv & Htext & Hj)%store_learned_Ok. destruct (jsonb_in _) as [steps|] eqn:Ej; [|done].
  split; [exact (store_learned_holds e latest x d d1 Hd)|]. intros r0 Hr0 Hh.
  destruct (similar_found d1 Hq Hv) as [(r & Hr & Ha & Hs & _)|(sim & _ & Hno)].
  - exists r. eexists. split_and!; [done|done|by eapply store_learned_merges|]. simpl.
    apply Forall2_fmap_r, Forall_Forall2_diag, Forall_true. intros s. unfold compose. by destruct (same_experience r s).
  - destruct Hh as (Ha & Ev & _). by destruct (Hno Hnear r0 Hr0 Ha).
Qed.
End OneUser.
End Properties.

(** ** Examples *)

Module ExperienceJobSample.
Import CognitiveSample.
#[local] Existing Instances toy_uuid merge_order_by toy_search toy_crypto toy_jsonb server ascii_case.

Definition say (id : uuid) (content : string) (at_ : time) : Message := mkMessage id "t" "s" "u" "user" content 4 at_.
Definition window : list Message := [say "m0" "hello" 1; say "m1" "the code is red" 2; say "m2" "Next time use tabs" 3; say "m3" "ok" 4].

Lemma findSmartSlice_spec_witness : findSmartSlice window = [say "m1" "the code is red" 2; say "m2" "Next time use tabs" 3; say "m3" "ok" 4].
Proof.
  apply (proj1 (proj2 (proj2 (findSmartSlice_spec window))) [say "m0" "hello" 1] (say "m1" "the code is red" 2)
    (say "m2" "Next time use tabs" 3) [say "m3" "ok" 4]).
  - repeat constructor.
  - reflexivity.
  - reflexivity.
Defined.

Definition talk : DB :=
  mkDB [mkSessionRow "s" "t" "u" (Some "chat"%string) "{}" 1 1] ((fun m => mkMessageRow m None) <$> window) [] [] [] [].
Definition lesson : string := of_bytes (encode (JObject
  [("has_signal", JBool true); ("description", JString "use tabs"); ("steps", JArray [JString "indent with tabs"])]%string)).
Definition exp_run (id : uuid) : exp_env := {|
  xe_clock := 20; xe_time := "now"; xe_Generate _ := Ok (lesson, 7); xe_Embed _ := Ok [f_of_Z 1];
  xe_new_id := id; xe_parse_rest _ := "0"%string |}.
Definition talk_job : BatchPayload := mkBatchPayload "t" "u" "s" 6 "m3".

(** A job whose window has a keyword. *)
Example a_job_learns :
  match processPayload key "{{CONVERSATION_WINDOW}}" (exp_run "x1") Background (batch_text talk_job) 0 ∅ talk with
  | Some (_, calls, d, r) => calls = 1 /\ r = Ok tt /\ (fun r => exp_Description (xp_exp r)) <$> experiences d = ["use tabs"%string]
  | None => False
  end.
Proof. vm_compute. repeat split. Qed.

Lemma experience_job_writes_witness :
  exists st calls d r, processPayload key "{{CONVERSATION_WINDOW}}" (exp_run "x1") Background (batch_text talk_job) 0 ∅ talk =
    Some (st, calls, d, r) /\ messages d = messages talk.
Proof.
  destruct (experience_job_writes key "{{CONVERSATION_WINDOW}}" (exp_run "x1") Background (batch_text talk_job) 0 ∅ talk) as [Hw Ht].
  destruct Ht as [[[[st calls] d] r] E].
  - intros msgs. vm_compute. intros [= <-]. repeat constructor; discriminate.
  - exists st, calls, d, r. split; [exact E|]. destruct (Hw st calls d r E) as [Ho _]. exact (f_equal messages Ho).
Defined.

Definition learned : Learned := mkLearned true "use tabs" (mkSlice ["indent with tabs"%string] []).

Lemma toy_near v : self_near v.
Proof. split; [reflexivity|]. intros w. reflexivity. Qed.

Lemma learned_again_witness :
  exists d1 d2 r, store_learned (exp_run "x1") (WithTenantID Background "t") talk_job "m3" learned [f_of_Z 1] talk = Ok d1 /\
    store_learned (exp_run "x2") (WithTenantID Background "t") talk_job "m3" learned [f_of_Z 1] d1 = Ok d2 /\
    r ∈ experiences d2 /\ length (experiences d2) = 1%nat.
Proof.
  destruct (store_learned (exp_run "x1") (WithTenantID Background "t") talk_job "m3" learned [f_of_Z 1] talk) as [d1|err] eqn:E;
    [|vm_compute in E; discriminate].
  destruct (learned_again Background talk_job [f_of_Z 1]) with (e := exp_run "x1") (e' := exp_run "x2") (latest := "m3"%string)
    (x := learned) (d := talk) (d1 := d1) as [_ Hagain]; [reflexivity|reflexivity|reflexivity|apply toy_near|exact E|].
  destruct (experiences d1) as [|r0 l0] eqn:E0; [vm_compute in E; injection E as <-; discriminate|].
  destruct (Hagain r0) as (r & d2 & _ & _ & E2 & Hl); [vm_compute in E; injection E as <-; injection E0 as <- <-; by left|
    vm_compute in E; injection E as <-; injection E0 as <- <-; repeat split|].
  assert (Hlen : length (r0 :: l0) = 1%nat) by (vm_compute in E; injection E as <-; injection E0 as <- <-; reflexivity).
  rewrite (Forall2_length _ _ _ Hl) in Hlen. destruct (experiences d2) as [|s l] eqn:E3; [discriminate|].
  exists d1, d2, s. split; [reflexivity|]. split; [exact E2|]. rewrite E3. split; [by left|exact Hlen].
Defined.

(** An index whose walk reaches nothing: the same answer is stored twice. *)
#[local] Instance unreached : PgSearch.
Proof.
  refine {| fts_match := @fts_match toy_search; ts_rank := @ts_rank toy_search; trgm_match := @trgm_match toy_search;
            unaccent := @unaccent toy_search; cosine_distance := @cosine_distance toy_search; vector_in := @vector_in toy_search;
            index_scan _ _ _ := false; text_le := @text_le toy_search |}; apply toy_search.
Defined.

Lemma unreached_added_again :
  match store_learned (exp_run "x1") (WithTenantID Background "t") talk_job "m3" learned [f_of_Z 1] talk with
  | Ok d1 => match store_learned (exp_run "x2") (WithTenantID Background "t") talk_job "m3" learned [f_of_Z 1] d1 with
             | Ok d2 => (fun r => exp_Description (xp_exp r)) <$> experiences d2 = ["use tabs"; "use tabs"]%string
             | Err _ => False
             end
  | Err _ => False
  end.
Proof. vm_compute. reflexivity. Qed.
End ExperienceJobSample.
