(* ===== verification/Config.v ===== *)
(** The configuration ([internal/config/config.go]): the settings read from the
    environment, their defaults and limits, and the errors that end the
    process; and the connection pool made from it ([internal/repository/db.go]). *)
From Stdlib Require Import Ascii String.
From S2P Require Import Prelude GoStd GoStrings Float64 Model Security Json GoJson Llm Db MemoryRepo.

Local Open Scope Z_scope.

Definition DefaultServerPort : string := ":8080".
Definition DefaultDBMaxConns : Z := 100.
Definition DefaultRedisPool : Z := 100.
Definition DefaultRedisAddr : string := "localhost:6379".
Definition DefaultPromptPath : string := "prompts/cognitive.j2".
Definition AltPromptPath : string := "../cortexa/prompts/cognitive.j2".
Definition DefaultExperiencePromptPath : string := "prompts/experience_extractor.j2".
Definition AltExperiencePromptPath : string := "../cortexa/prompts/experience_extractor.j2".
Definition DefaultDecayIntervalHrs : Z := 24.
Definition DefaultDecayAfterDays : Z := 30.
Definition DefaultRecentMessagesLimit : Z := 20.
Definition MaxDBMaxConns : Z := 1000.
Definition MaxRedisPool : Z := 1000.
Definition MaxRecentMsgsLimit : Z := 200.

Definition providers : list string := [""; "mock"; "gemini"; "openai"; "azure"]%string.

Record Config := mkConfig {
  DatabaseURL : string;
  DBMaxConns : Z;
  RedisAddr : string;
  RedisPool : Z;
  ServerPort : string;
  MasterKey : string;
  CognitivePrompt : string;
  CognitiveBatch : Z;
  CognitiveConcurrency : Z;
  ExperiencePrompt : string;
  DecayIntervalHours : Z;
  DecayAfterDays : Z;
  RecentMessagesLimit : Z;
  LLMProvider : string;
}.

(** [int32(x)] *)
Definition int32 (x : Z) : Z := (x + 2 ^ 31) mod 2 ^ 32 - 2 ^ 31.

(** A setting that must be a number [ok] accepts; anything else reads as its
    default. *)
Definition number_setting (ok : Z -> bool) (dflt : Z) (val : string) : Z :=
  if decide (val = EmptyString) then dflt
  else match Atoi val with Some n => if ok n then n else dflt | None => dflt end.
Definition positive (n : Z) : bool := 0 <? n.
Definition between_1_and (max n : Z) : bool := (0 <? n) && (n <=? max).

Definition server_port (val : string) : string :=
  let port := if decide (val = EmptyString) then DefaultServerPort else val in
  match port with
  | EmptyString => port
  | String c _ => if decide (c = ":"%char) then port else ":" +:+ port
  end.

(** The environment once the .env file is loaded, and the file system. *)
Section Loading.
Context (Getenv : string -> string) (exists_file : string -> bool) (ReadFile : string -> result string).

Definition prompt_path (var dflt alt : string) : string :=
  let path := Getenv var in
  if decide (path = EmptyString) then (if exists_file dflt then dflt else if exists_file alt then alt else dflt) else path.

(** What once.Do runs; [Err] is log.Fatalf, which ends the process. *)
Definition load : result Config :=
  if decide (Getenv "DATABASE_URL" = EmptyString) then Err "DATABASE_URL environment variable is required"%string
  else
    let dbMaxConns := number_setting (between_1_and MaxDBMaxConns) DefaultDBMaxConns (Getenv "DB_MAX_CONNS") in
    let redisAddr := if decide (Getenv "REDIS_ADDR" = EmptyString) then DefaultRedisAddr else Getenv "REDIS_ADDR" in
    let redisPool := number_setting (between_1_and MaxRedisPool) DefaultRedisPool (Getenv "REDIS_POOL_SIZE") in
    let port := server_port (Getenv "PORT") in
    if decide (Getenv "MASTER_KEY" = EmptyString) then Err "MASTER_KEY environment variable is required"%string
    else
      cognitive ← ReadFile (prompt_path "COGNITIVE_PROMPT_PATH" DefaultPromptPath AltPromptPath);
      let batch := number_setting positive 10 (Getenv "COGNITIVE_BATCH_SIZE") in
      let concurrency := number_setting positive 5 (Getenv "COGNITIVE_CONCURRENCY") in
      let decayInterval := number_setting positive DefaultDecayIntervalHrs (Getenv "DECAY_INTERVAL_HOURS") in
      let decayAfter := number_setting positive DefaultDecayAfterDays (Getenv "DECAY_AFTER_DAYS") in
      let recent := number_setting (between_1_and MaxRecentMsgsLimit) DefaultRecentMessagesLimit (Getenv "RECENT_MESSAGES_LIMIT") in
      experience ← ReadFile (prompt_path "EXPERIENCE_PROMPT_PATH" DefaultExperiencePromptPath AltExperiencePromptPath);
      let provider := Getenv "LLM_PROVIDER" in
      if decide (provider ∈ providers) then
        Ok (mkConfig (Getenv "DATABASE_URL") (int32 dbMaxConns) redisAddr redisPool port (Getenv "MASTER_KEY") cognitive batch
              concurrency experience decayInterval decayAfter recent provider)
      else Err "LLM_PROVIDER is invalid"%string.
End Loading.

(** [config.Get()]: sync.Once runs the load at the first call only; afterwards
    the environment is not looked at.  [instance] is the package variable. *)
Definition Get (instance : option Config) (Getenv : string -> string) (exists_file : string -> bool)
    (ReadFile : string -> result string) : result (Config * option Config) :=
  match instance with
  | Some c => Ok (c, Some c)
  | None => c ← load Getenv exists_file ReadFile; Ok (c, Some c)
  end.

(** [repository.GetDB] ([internal/repository/db.go]): the pool is created once,
    with the configured size; an error is kept as well.  [Db] has the hook that
    sets the tenant of a connection. *)
Section Pool.
Context {pool : Type} (ParseConfig : string -> result unit) (NewWithConfig : string -> Z -> result pool).

Definition GetDB (c : Config) (dbOnce : option (result pool)) : result pool * option (result pool) :=
  match dbOnce with
  | Some r => (r, Some r)
  | None =>
    let r := (_ ← ParseConfig (DatabaseURL c); NewWithConfig (DatabaseURL c) (DBMaxConns c)) in (r, Some r)
  end.
End Pool.

(** ** Lemmas *)

Lemma number_setting_ok ok dflt val : ok dflt = true -> ok (number_setting ok dflt val) = true.
Proof. intros Hd. unfold number_setting. case_decide; [done|]. destruct (Atoi val); [|done]. by destruct (ok z) eqn:E. Qed.

Lemma number_setting_range ok dflt val : - 2 ^ 63 <= dflt < 2 ^ 63 -> - 2 ^ 63 <= number_setting ok dflt val < 2 ^ 63.
Proof.
  intros Hd. unfold number_setting. case_decide; [done|]. destruct (Atoi val) as [n|] eqn:E; [|done].
  apply Atoi_range in E. by destruct (ok n).
Qed.

(** A setting is either given, valid, or its default. *)
Lemma number_setting_valid ok dflt val n : val <> EmptyString -> Atoi val = Some n -> ok n = true -> number_setting ok dflt val = n.
Proof. intros Hv Hn Hok. unfold number_setting. rewrite decide_False by done. by rewrite Hn, Hok. Qed.

Lemma server_port_colon val : exists rest, server_port val = ":" +:+ rest.
Proof.
  unfold server_port. case_decide; [by exists "8080"%string|]. destruct val as [|c rest]; [done|].
  case_decide; [subst; by exists rest|by eexists].
Qed.

(** ** Properties *)

(** What the rest of the program relies on. *)
Record well_configured (c : Config) : Prop := {
  cfg_url : DatabaseURL c <> EmptyString;
  cfg_key : MasterKey c <> EmptyString;
  cfg_conns : 1 <= DBMaxConns c <= MaxDBMaxConns;
  cfg_pool : 1 <= RedisPool c <= MaxRedisPool;
  cfg_addr : RedisAddr c <> EmptyString;
  cfg_port : exists rest, ServerPort c = (":" +:+ rest)%string;
  cfg_batch : 0 < CognitiveBatch c < 2 ^ 63;
  cfg_concurrency : 0 < CognitiveConcurrency c < 2 ^ 63;
  cfg_interval : 0 < DecayIntervalHours c < 2 ^ 63;
  cfg_after : 0 < DecayAfterDays c < 2 ^ 63;
  cfg_recent : 1 <= RecentMessagesLimit c <= MaxRecentMsgsLimit;
  cfg_provider : LLMProvider c ∈ providers;
}.

Lemma load_configured Getenv exists_file ReadFile c : load Getenv exists_file ReadFile = Ok c -> well_configured c.
Proof.
  unfold load. case_decide as Hu; [done|]. case_decide as Hk; [done|].
  intros (cog & _ & (ex & _ & Hc)%result_bind_Ok)%result_bind_Ok. case_decide as Hp; [|done]. injection Hc as <-.
  assert (Hrange : forall max dflt val, between_1_and max dflt = true -> 1 <= number_setting (between_1_and max) dflt val <= max).
  { intros max dflt val Hd. apply (number_setting_ok _ _ val) in Hd. unfold between_1_and in Hd at 1. lia. }
  assert (Hpos : forall dflt val, 0 < dflt < 2 ^ 63 -> 0 < number_setting positive dflt val < 2 ^ 63).
  { intros dflt val Hd. pose proof (number_setting_range positive dflt val ltac:(lia)).
    assert (Hok : positive (number_setting positive dflt val) = true) by (apply number_setting_ok; unfold positive; lia).
    unfold positive in Hok at 1. lia. }
  split; simpl; try done; try (by apply Hrange); try (by apply Hpos).
  - pose proof (Hrange MaxDBMaxConns DefaultDBMaxConns (Getenv "DB_MAX_CONNS") eq_refl) as Hr. unfold MaxDBMaxConns in *.
    unfold int32. rewrite Z.mod_small; lia.
  - case_decide; done.
  - apply server_port_colon.
Qed.

(** C36: whatever the environment and the files hold, a configuration that loads
    is well formed: every number is in its range, with no truncation by the
    conversion to int32, the port has its colon, the required values are there
    and the provider is one NewClient knows by this name; and it is loaded once,
    later calls give the same whatever has become of the environment. *)
Theorem load_well_configured `{UnicodeCase} Do Getenv exists_file ReadFile c : load Getenv exists_file ReadFile = Ok c ->
  well_configured c /\ NewClient Do Getenv <> Err "LLM_PROVIDER is invalid"%string /\
  Get None Getenv exists_file ReadFile = Ok (c, Some c) /\
  (forall Getenv' exists_file' ReadFile', Get (Some c) Getenv' exists_file' ReadFile' = Ok (c, Some c)).
Proof.
  intros Hload. split; [by eapply load_configured|]. split; [|split; [unfold Get; by rewrite Hload|done]].
  unfold load in Hload. case_decide as Hu; [done|]. case_decide as Hk; [done|].
  apply result_bind_Ok in Hload as (cog & _ & (ex & _ & Hc)%result_bind_Ok). case_decide as Hp; [|done]. clear Hc.
  intros Hc. unfold NewClient in Hc.
  assert (Elow : ToLower (TrimSpace (Getenv "LLM_PROVIDER")) = Getenv "LLM_PROVIDER").
  { revert Hp. generalize (Getenv "LLM_PROVIDER"). intros s. unfold providers. rewrite !elem_of_cons.
    intros [-> |[-> |[-> |[-> |[-> |Hn]]]]]; [by vm_compute..|]. by apply not_elem_of_nil in Hn. }
  rewrite Elow in Hc. unfold newAzureClient in Hc. revert Hc. repeat case_match; try done. intros _.
  unfold providers in Hp. rewrite !elem_of_cons in Hp. destruct Hp as [?|[?|[?|[?|[?|Hn]]]]]; [done..|]. by apply not_elem_of_nil in Hn.
Qed.

(** ** Examples *)

Module ConfigSample.
#[local] Instance ascii_case : UnicodeCase := {| unicode_lower r := r; unicode_upper r := r |}.

(** A limit out of range reads as the default. *)
Definition environment (name : string) : string :=
  if decide (name = "DATABASE_URL"%string) then "postgres://db" else if decide (name = "MASTER_KEY"%string) then "k"
  else if decide (name = "RECENT_MESSAGES_LIMIT"%string) then "500" else if decide (name = "PORT"%string) then "9090" else "".
Definition no_network (r : http_request) : result (Z * string) := Err "unreachable"%string.

Lemma load_well_configured_witness : exists c, load environment (fun _ => true) (fun p => Ok p) = Ok c /\ well_configured c /\
  RecentMessagesLimit c = 20 /\ ServerPort c = ":9090"%string.
Proof.
  destruct (load environment (fun _ => true) (fun p => Ok p)) as [c|e] eqn:E; [|discriminate].
  destruct (load_well_configured no_network environment (fun _ => true) (fun p => Ok p) c E) as [Hc _].
  exists c. split; [reflexivity|]. split; [exact Hc|]. vm_compute in E. injection E as <-. split; reflexivity.
Defined.
End ConfigSample.
