(* ===== verification/Discovery.v ===== *)
(** What keeps the workers going: how the two consumers find the streams to
    read ([internal/worker/cognitive.go] and [experience.go], discoverStreams),
    and the decay worker ([internal/worker/decay.go])
    with the settings [cmd/worker/main.go] gives it. *)
From Stdlib Require Import Ascii String.
From S2P Require Import Prelude GoStd GoStrings Float64 Model Json Db EntityRepo MemoryRepo Streams Config.

Local Open Scope Z_scope.

(** ** Streams *)

Definition cognitiveMaxStreamsPerTick : nat := 100.

(** [Scan n cursor] is what the [n]-th SCAN command answers: keys that match the
    pattern, and the next cursor. *)
Section Discovery.
Context (Scan : nat -> Z -> result (list string * Z)).

(** The loop; [None] when the fuel is too little. *)
Fixpoint scan_loop (fuel n : nat) (cursor : Z) (streams : list string) : option (result (list string * Z)) :=
  match fuel with
  | O => None
  | S fuel =>
    match Scan n cursor with
    | Err e => Some (Err e)
    | Ok (keys, nextCursor) =>
      let streams := streams ++ keys in
      if (nextCursor =? 0) || (cognitiveMaxStreamsPerTick <=? length streams)%nat then Some (Ok (streams, nextCursor))
      else scan_loop fuel (S n) nextCursor streams
    end
  end.

(** The cognitive worker's, with the cursor it keeps. *)
Definition discoverStreams (fuel n : nat) (scanCursor : Z) : option (result (list string) * Z) :=
  match scan_loop fuel n scanCursor [] with
  | None => None
  | Some (Err e) => Some (Err e, scanCursor)
  | Some (Ok (streams, cursor)) => Some (Ok (take cognitiveMaxStreamsPerTick streams), cursor)
  end.

(** The experience worker's, which starts at the beginning each time. *)
Definition exp_discoverStreams (fuel n : nat) : option (result (list string)) :=
  match scan_loop fuel n 0 [] with
  | None => None
  | Some (Err e) => Some (Err e)
  | Some (Ok (streams, _)) => Some (Ok (take cognitiveMaxStreamsPerTick streams))
  end.

(** The keys an undisturbed scan answers from a cursor to the end. *)
Inductive scans_from : nat -> Z -> list string -> Prop :=
  | scans_end n c keys : Scan n c = Ok (keys, 0) -> scans_from n c keys
  | scans_more n c keys next rest : Scan n c = Ok (keys, next) -> next <> 0 -> scans_from (S n) next rest ->
      scans_from n c (keys ++ rest).

Lemma scan_loop_spec n c rest : scans_from n c rest -> forall acc, exists k, forall fuel, (k <= fuel)%nat ->
  exists pre next, scan_loop fuel n c acc = Some (Ok (acc ++ pre, next)) /\
    ((pre = rest /\ next = 0) \/
     exists n' tail, rest = pre ++ tail /\ (cognitiveMaxStreamsPerTick <= length (acc ++ pre))%nat /\ scans_from n' next tail).
Proof.
  induction 1 as [n c keys E|n c keys next rest E Hn Hs IH]; intros acc.
  - exists 1%nat. intros fuel Hf. destruct fuel as [|fuel]; [lia|]. simpl. rewrite E. simpl. exists keys, 0. split; [done|by left].
  - destruct (decide (cognitiveMaxStreamsPerTick <= length (acc ++ keys))%nat) as [Hl|Hl].
    + exists 1%nat. intros fuel Hf. destruct fuel as [|fuel]; [lia|]. cbn [scan_loop]. rewrite E.
      rewrite (proj2 (Nat.leb_le _ _)), orb_true_r by done. exists keys, next. split; [done|]. right. by exists (S n), rest.
    + destruct (IH (acc ++ keys)) as [k Hk]. exists (S k). intros fuel Hf. destruct fuel as [|fuel]; [lia|]. cbn [scan_loop].
      rewrite E, (proj2 (Z.eqb_neq _ _)) by done. rewrite (proj2 (Nat.leb_gt _ _)) by lia. cbn [orb].
      destruct (Hk fuel ltac:(lia)) as (pre & next' & El & Hres). exists (keys ++ pre), next'.
      rewrite (assoc_L (++)). split; [exact El|]. destruct Hres as [[-> ->]|(n' & tail & -> & Hlen & Hs')]; [by left|right].
      exists n', tail. rewrite (assoc_L (++)). done.
Qed.

(** C38: discovery ends, and what it finds is bounded: when the scan answers
    without error, a call of the cognitive worker returns the first hundred of
    the streams left to scan and moves its cursor to the end or past at least a
    hundred of them; the experience worker starts over at each call, and always
    returns the first hundred of all streams and never another. *)
Theorem discoverStreams_spec n c rest : scans_from n c rest ->
  (exists k, forall fuel, (k <= fuel)%nat -> exists next,
     discoverStreams fuel n c = Some (Ok (take cognitiveMaxStreamsPerTick rest), next) /\
     (next = 0 \/ exists n' pre tail, rest = pre ++ tail /\ (cognitiveMaxStreamsPerTick <= length pre)%nat /\ scans_from n' next tail)) /\
  (c = 0 -> exists k, forall fuel, (k <= fuel)%nat -> exp_discoverStreams fuel n = Some (Ok (take cognitiveMaxStreamsPerTick rest))).
Proof.
  intros Hs. destruct (scan_loop_spec n c rest Hs []) as [k Hk].
  assert (Htake : forall pre tail : list string, (cognitiveMaxStreamsPerTick <= length pre)%nat ->
    take cognitiveMaxStreamsPerTick pre = take cognitiveMaxStreamsPerTick (pre ++ tail)) by (intros; by rewrite take_app_le).
  split.
  - exists k. intros fuel Hf. destruct (Hk fuel Hf) as (pre & next & E & Hres). exists next. unfold discoverStreams. rewrite E. simpl.
    destruct Hres as [[-> ->]|(n' & tail & -> & Hl & Hs')]; [split; [done|by left]|].
    rewrite (Htake pre tail) by done. split; [done|]. right. by exists n', pre, tail.
  - intros ->. exists k. intros fuel Hf. destruct (Hk fuel Hf) as (pre & next & E & Hres). unfold exp_discoverStreams. rewrite E. simpl.
    destruct Hres as [[-> ->]|(n' & tail & -> & Hl & Hs')]; [done|]. by rewrite (Htake pre tail).
Qed.
End Discovery.

(** ** Decay *)

Record DecayWorker := mkDecayWorker { dw_interval : Z; dw_rate : float64; dw_ageDays : Z }.   (* interval in nanoseconds *)
Definition NewDecayWorker (interval : Z) (rate : float64) (ageDays : Z) : DecayWorker := mkDecayWorker interval rate ageDays.

(** [time.Hour]; [time.Duration] is an int64. *)
Definition Hour : Z := 3600 * 1000 * 1000 * 1000.
Definition decay_worker (c : Config) : DecayWorker :=
  NewDecayWorker (int64 (DecayIntervalHours c * Hour)) (f_lit 5 100) (DecayAfterDays c).

Section Decay.
Context `{UuidLib, OrderBy, PgSearch, Jsonb}.
Context (bypassrls : bool) (pgx_int4 : float64 -> result Z).

(** The error is logged. *)
Definition decay (w : DecayWorker) (ctx : context) (now : time) (d : DB) : DB :=
  match DecayImportance bypassrls pgx_int4 ctx (dw_rate w) (dw_ageDays w) now d with
  | Ok (d', _) => d'
  | Err _ => d
  end.

(** The database after the first run and the ticks that followed it; [None]
    when NewTicker panics, which it does for an interval that is not
    positive. *)
Definition Run (w : DecayWorker) (ctx : context) (started : time) (ticks : list time) (d : DB) : DB * option DB :=
  let d1 := decay w ctx started d in
  (d1, if 0 <? dw_interval w then Some (foldl (fun d now => decay w ctx now d) d1 ticks) else None).

(** What decay does to a row, once or many times. *)
Definition decayed (r r' : MemoryRow) : Prop :=
  r' = r \/ (mem_type r ∈ decaying_types /\ pg_le floor_importance (mem_importance r') = true /\
             r' = set_rec (set_importance (mem_importance r')) r).

#[export] Instance decayed_trans : Transitive decayed.
Proof.
  intros r1 r2 r3 [-> |(Ht & Hf & E)] [-> |(Ht' & Hf' & E')]; [by left|by right|by right|right].
  split_and!; [done|done|]. rewrite E', E. by destruct r1 as [[] ? ? ? ?].
Qed.

Lemma decay_rows w ctx now d : exists l, decay w ctx now d = set_memory_records (fun _ => l) d /\
  Forall2 decayed (memory_records d) l.
Proof.
  assert (Hid : exists l, d = set_memory_records (fun _ => l) d /\ Forall2 decayed (memory_records d) l).
  { exists (memory_records d). split; [by destruct d|]. apply Forall_Forall2_diag, Forall_true. intros r. by left. }
  unfold decay. destruct (DecayImportance _ _ _ _ _ _ d) as [[d' k]|e] eqn:E; [|done].
  unfold DecayImportance in E. apply result_bind_Ok in E as (o & _ & E). destruct bypassrls; [|done]. cbn [negb] in E.
  apply result_bind_Ok in E as (i & _ & [= <- _]). eexists. split; [done|].
  apply Forall2_fmap_r, Forall_Forall2_diag, Forall_true. intros r. unfold compose, decayed.
  destruct (stale now (dw_ageDays w) r) eqn:Es; [right|by left].
  unfold stale in Es. apply andb_true_iff in Es as [Es%bool_decide_eq_true _].
  split; [done|]. split; [apply GREATEST_ge_l|]. done.
Qed.

Lemma decay_many w ctx ticks d : exists l, foldl (fun d now => decay w ctx now d) d ticks = set_memory_records (fun _ => l) d /\
  Forall2 decayed (memory_records d) l.
Proof.
  revert d. induction ticks as [|now ticks IH]; intros d; simpl.
  - exists (memory_records d). split; [by destruct d|]. apply Forall_Forall2_diag, Forall_true. intros r. by left.
  - destruct (decay_rows w ctx now d) as (l1 & E1 & H1'). rewrite E1. destruct (IH (set_memory_records (fun _ => l1) d)) as (l & E & Hl).
    exists l. rewrite E. split; [done|]. simpl in Hl. by transitivity l1.
Qed.

(** C39: as configured, the decay worker starts its ticker for every interval up to
    2,562,047 hours, and panics from one hour more up to 5,124,095 hours (the
    product of hours overflows int64 to a negative interval; beyond that it is
    positive again, but wrong: 5,124,096 hours are 25 minutes), values the
    configuration accepts; however often it runs, it changes nothing but the importance of
    records of the types that decay, leaves none of those it changes below
    0.01, and under the row-level policies it changes nothing at all. *)
Theorem decay_worker_spec c ctx started ticks d : 0 < DecayIntervalHours c < 2 ^ 63 ->
  (DecayIntervalHours c <= 2562047 -> exists d', (Run (decay_worker c) ctx started ticks d).2 = Some d') /\
  (2562048 <= DecayIntervalHours c <= 5124095 -> (Run (decay_worker c) ctx started ticks d).2 = None) /\
  (DecayIntervalHours c = 5124096 -> dw_interval (decay_worker c) = 1526290448384) /\
  (forall d', (Run (decay_worker c) ctx started ticks d).2 = Some d' ->
     d' = set_memory_records (fun _ => memory_records d') d /\ Forall2 decayed (memory_records d) (memory_records d') /\
     (bypassrls = false -> d' = d)).
Proof.
  intros Hh. split_and!.
  - intros Hle. unfold Run, decay_worker, NewDecayWorker, Hour. simpl. rewrite int64_small by lia.
    rewrite (proj2 (Z.ltb_lt 0 _)) by lia. by eexists.
  - intros Hle. unfold Run, decay_worker, NewDecayWorker, Hour. simpl.
    rewrite (proj2 (Z.ltb_ge 0 _)); [done|]. unfold int64. Z.to_euclidean_division_equations; lia.
  - intros E. unfold decay_worker, NewDecayWorker, Hour. by rewrite E.
  - intros d'. unfold Run. simpl. destruct (0 <? _); [|done]. intros [= <-].
    change (foldl (fun d now => decay (decay_worker c) ctx now d) (decay (decay_worker c) ctx started d) ticks) with
      (foldl (fun d now => decay (decay_worker c) ctx now d) d (started :: ticks)).
    destruct (decay_many (decay_worker c) ctx (started :: ticks) d) as (l & E & Hl). split; [by rewrite E|]. split; [by rewrite E|].
    intros Hno. clear E Hl. induction (started :: ticks) as [|now ts IH]; [done|]. simpl.
    replace (decay (decay_worker c) ctx now d) with d; [done|]. unfold decay, DecayImportance.
    destruct (Acquire ctx); [|done]. cbn [mbind result_bind]. by rewrite Hno.
Qed.
End Decay.

(** ** Examples *)

Module DiscoverySample.
#[local] Existing Instances toy_uuid merge_order_by toy_search toy_jsonb.

(** A hundred and twenty streams, which Redis answers sixty at a time. *)
Definition stream (i : nat) : string := Nat.iter i (String "x") cognitiveStreamSuffix.
Definition two_pages (_ : nat) (cursor : Z) : result (list string * Z) :=
  if cursor =? 0 then Ok (stream <$> seq 0 60, 7) else Ok (stream <$> seq 60 60, 0).

Lemma two_pages_scan : scans_from two_pages 0 0 ((stream <$> seq 0 60) ++ (stream <$> seq 60 60)).
Proof. eapply scans_more; [reflexivity|discriminate|]. by apply scans_end. Defined.

Lemma discoverStreams_spec_witness : exists fuel next,
  discoverStreams two_pages fuel 0 0 = Some (Ok (stream <$> seq 0 100), next) /\
  exp_discoverStreams two_pages fuel 0 = Some (Ok (stream <$> seq 0 100)).
Proof.
  destruct (discoverStreams_spec two_pages 0 0 _ two_pages_scan) as [[k Hk] He]. destruct (He eq_refl) as [k' Hk'].
  exists (k + k')%nat. destruct (Hk (k + k')%nat ltac:(lia)) as (next & E & _). exists next.
  split; [exact E|exact (Hk' (k + k')%nat ltac:(lia))].
Defined.

(** The twenty streams cut off are never read: the cursor is at the end of the
    scan already, and each call is like the one before. *)
Lemma discoverStreams_starves n : discoverStreams two_pages 3 n 0 = Some (Ok (stream <$> seq 0 100), 0).
Proof. vm_compute. reflexivity. Qed.

Definition settings (hours : Z) : Config :=
  mkConfig "postgres://db" 10 "redis:6379" 10 ":8080" "k" "" 10 5 "" hours 30 20 "".

Definition quiet : time := 0.
Lemma decay_worker_spec_witness : exists d',
  (Run false (fun _ => Err "rate"%string) (decay_worker (settings 24)) Background quiet [1; 2] empty_db).2 = Some d' /\ d' = empty_db /\
  (Run false (fun _ => Err "rate"%string) (decay_worker (settings 2562048)) Background quiet [1; 2] empty_db).2 = None.
Proof.
  destruct (decay_worker_spec false (fun _ => Err "rate"%string) (settings 24) Background quiet [1; 2] empty_db) as (Hok & _ & _ & Hd);
    [vm_compute; split; reflexivity|].
  destruct (decay_worker_spec false (fun _ => Err "rate"%string) (settings 2562048) Background quiet [1; 2] empty_db) as (_ & Hno & _ & _);
    [vm_compute; split; reflexivity|].
  destruct Hok as [d' E]; [vm_compute; discriminate|]. specialize (Hno ltac:(vm_compute; split; discriminate)). exists d'. split; [exact E|].
  split; [exact (proj2 (proj2 (Hd d' E)) eq_refl)|exact Hno].
Defined.
End DiscoverySample.
