(* ===== verification/Server.v ===== *)
(** The HTTP server around the handlers: the routes and the chain of middleware
    ([internal/api/rest.go], NewRESTServer and routes; [internal/api/middleware.go]).
    A handler is what it does to the exchange and to the process's telemetry,
    and whether it panics; what a middleware does after c.Next() is skipped by a
    panic.  A request gin redirects for its trailing slash never reaches them. *)
From Stdlib Require Import Ascii String.
From S2P Require Import Prelude GoStd GoStrings.

Local Open Scope Z_scope.

(** ** Routes *)

Definition v1 (path : string) : string := "/v1" +:+ path.
Definition routes : list (string * string) :=
  [("GET", "/health"); ("GET", "/metrics");
   ("POST", v1 "/context"); ("POST", v1 "/context/formatted"); ("POST", v1 "/messages"); ("POST", v1 "/feedback");
   ("GET", v1 "/sessions/:session_id/messages"); ("POST", v1 "/sessions"); ("GET", v1 "/sessions");
   ("DELETE", v1 "/sessions/:session_id"); ("GET", v1 "/experiences");
   ("POST", v1 "/experiences/:experience_id/feedback"); ("DELETE", v1 "/experiences/:experience_id")]%string.

(** gin's matching: [FullPath] is the pattern of the route a request matches, and
    empty when it matches none; [trailing_slash] says of a request without a
    route that one is there for its path with a slash more or less at the end.
    [gin.New] has RedirectTrailingSlash on: such a request is redirected. *)
Class Gin := {
  FullPath : list (string * string) -> string -> string -> string;
  trailing_slash : list (string * string) -> string -> string -> bool;
  FullPath_route table method path : FullPath table method path <> EmptyString -> (method, FullPath table method path) ∈ table;
}.

(** ** The exchange and the telemetry *)

(** A request, and what the outside gives while it is served: the id [uuid.New]
    makes, the two latencies measured, and the URL of a redirection. *)
Record request := mkRequest {
  r_Method : string;
  r_Path : string;                 (* c.Request.URL.Path *)
  r_RequestID : string;            (* the header X-Request-ID *)
  r_ClientIP : string;
  r_new_id : string;
  r_log_latency : Z;
  r_metrics_latency : Z;
  r_redirect_URL : string;
}.

Record exchange := mkExchange {
  keys : gmap string string;       (* c.Set *)
  headers : gmap string string;    (* of the response *)
  status : Z;                      (* c.Writer.Status() *)
}.

Record log_line := mkLogLine {
  l_method : string; l_path : string; l_status : Z; l_latency : Z; l_request_id : option string; l_ip : string;
}.

Record telemetry := mkTelemetry {
  httpRequestsTotal : gmap (string * string * string) Z;
  httpRequestDuration : gmap (string * string) (list Z);
  log_lines : list log_line;
}.
Definition no_telemetry : telemetry := mkTelemetry ∅ ∅ [].

Definition world : Type := exchange * telemetry.

(** [utf8.ValidString(s)] *)
Definition ValidString (s : string) : bool := bool_decide (string_of_runes (runes s) = s).

(** A handler, or the rest of a chain; the flag says that it panics. *)
Definition handler : Type := world -> world * bool.

Section Middleware.
Context `{Gin}.
Variable r : request.

Definition route : string := FullPath routes (r_Method r) (r_Path r).
Definition path_label : string := if decide (route = EmptyString) then r_Path r else route.

Definition RequestIDMiddleware (next : handler) : handler := fun '(x, t) =>
  let reqID := if decide (r_RequestID r = EmptyString) then r_new_id r else r_RequestID r in
  next (mkExchange (<["request_id"%string := reqID]> (keys x)) (<["X-Request-ID"%string := reqID]> (headers x)) (status x), t).

Definition SlogMiddleware (next : handler) : handler := fun w =>
  match next w with
  | (w', true) => (w', true)
  | ((x, t), false) =>
    let line := mkLogLine (r_Method r) path_label (status x) (r_log_latency r) (keys x !! "request_id"%string) (r_ClientIP r) in
    ((x, mkTelemetry (httpRequestsTotal t) (httpRequestDuration t) (log_lines t ++ [line])), false)
  end.

(** [WithLabelValues] panics on a label that is not UTF-8, as the path of a
    request without a route may be; the other labels of the program are ASCII. *)
Definition labels_valid : bool := ValidString (r_Method r) && ValidString path_label.

Definition MetricsMiddleware (next : handler) : handler := fun w =>
  match next w with
  | (w', true) => (w', true)
  | ((x, t), false) =>
    let c := (r_Method r, path_label, Itoa (status x)) in
    let h := (r_Method r, path_label) in
    if negb labels_valid then ((x, t), true)
    else ((x, mkTelemetry (<[c := default 0 (httpRequestsTotal t !! c) + 1]> (httpRequestsTotal t))
           (<[h := default [] (httpRequestDuration t !! h) ++ [r_metrics_latency r]]> (httpRequestDuration t)) (log_lines t)), false)
  end.

(** gin.Recovery: a panic is answered with 500. *)
Definition Recovery (next : handler) : handler := fun w =>
  match next w with
  | ((x, t), true) => ((mkExchange (keys x) (headers x) 500, t), false)
  | (w', false) => (w', false)
  end.

(** The chain of NewRESTServer; a request that matches no route passes it too,
    with the status 404 and no handler. *)
Definition served (h : handler) : handler :=
  Recovery (RequestIDMiddleware (SlogMiddleware (MetricsMiddleware (if decide (route = EmptyString) then fun w => (w, false) else h)))).

(** gin answers a redirection itself, before any middleware. *)
Definition redirected : bool :=
  bool_decide (route = EmptyString) && bool_decide (r_Method r <> "CONNECT"%string) && bool_decide (r_Path r <> "/"%string) &&
  trailing_slash routes (r_Method r) (r_Path r).
Definition redirection : exchange :=
  mkExchange ∅ {["Location"%string := r_redirect_URL r]} (if decide (r_Method r = "GET"%string) then 301 else 307).

Definition ServeHTTP (h : handler) (t : telemetry) : exchange * telemetry :=
  if redirected then (redirection, t)
  else (served h (mkExchange ∅ ∅ (if decide (route = EmptyString) then 404 else 200), t)).1.
End Middleware.

(** handleHealth *)
Definition handleHealth : handler := fun '(x, t) => ((mkExchange (keys x) (headers x) 200, t), false).

(** ** Lemmas *)

(** What the program's handlers do to an exchange: they write a status, or
    panic. *)
Definition answers (h : handler) (result : option Z) : Prop :=
  forall x t, h (x, t) = match result with
                         | Some s => ((mkExchange (keys x) (headers x) s, t), false)
                         | None => ((x, t), true)
                         end.

Lemma handleHealth_answers : answers handleHealth (Some 200).
Proof. by intros x t. Qed.

(** ** Properties *)

Section Properties.
Context `{Gin}.

(** The requests a server has served, each with what its handler did. *)
Definition serve_all (calls : list (request * handler)) (t : telemetry) : telemetry :=
  foldl (fun t c => (ServeHTTP c.1 c.2 t).2) t calls.

(** The status a request is counted with; [None] when it is not counted. *)
Definition counted (r : request) (result : option Z) : option Z :=
  if redirected r || negb (labels_valid r) then None
  else if decide (route r = EmptyString) then Some 404 else result.

Definition answer_id (r : request) : string := if decide (r_RequestID r = EmptyString) then r_new_id r else r_RequestID r.

Lemma ServeHTTP_redirected r h t : redirected r = true -> ServeHTTP r h t = (redirection r, t).
Proof. intros E. unfold ServeHTTP. by rewrite E. Qed.

Lemma ServeHTTP_answers r h result t : answers h result ->
  (ServeHTTP r h t).1 = (if redirected r then redirection r else
    mkExchange {["request_id"%string := answer_id r]} {["X-Request-ID"%string := answer_id r]} (default 500 (counted r result))) /\
  (ServeHTTP r h t).2 =
  match counted r result with
  | None => t
  | Some s =>
    let c := (r_Method r, path_label r, Itoa s) in
    let k := (r_Method r, path_label r) in
    mkTelemetry (<[c := default 0 (httpRequestsTotal t !! c) + 1]> (httpRequestsTotal t))
      (<[k := default [] (httpRequestDuration t !! k) ++ [r_metrics_latency r]]> (httpRequestDuration t))
      (log_lines t ++ [mkLogLine (r_Method r) (path_label r) s (r_log_latency r) (Some (answer_id r)) (r_ClientIP r)])
  end.
Proof.
  intros Hh. unfold counted. destruct (redirected r) eqn:Er; [by rewrite ServeHTTP_redirected|].
  unfold ServeHTTP, served, Recovery, RequestIDMiddleware, SlogMiddleware, MetricsMiddleware. rewrite Er. cbn [orb]. fold (answer_id r).
  case_decide as Hr; [by destruct (labels_valid r)|]. rewrite Hh. destruct result; by destruct (labels_valid r).
Qed.

(** The counter a request adds to. *)
Definition series (r : request) (result : option Z) : option (string * string * string) :=
  (fun s => (r_Method r, path_label r, Itoa s)) <$> counted r result.

(** C40: every request that reaches the middleware is answered under its id, and
    counted once unless something panicked.  However many requests the server
    has served, the response to each carried the id of its request, or a new one,
    and a status: the handler's, 404 without a route, 500 after a panic, be it
    the handler's or that of a counter on a path that is not UTF-8.  A counter is
    the number of requests with its method, path and status that did not panic,
    and there is a line in the log for each of those; a counter's path is the
    pattern of a route of its method, or the path of a request that matched none.
    A request redirected for its trailing slash gets neither id, count nor line. *)
Theorem served_telemetry (calls : list (request * handler * option Z)) :
  Forall (fun c => answers c.1.2 c.2) calls ->
  let t := serve_all calls.*1 no_telemetry in
  (forall r h result t0, (r, h, result) ∈ calls -> let x := (ServeHTTP r h t0).1 in
     headers x !! "X-Request-ID"%string = (if redirected r then None else Some (answer_id r)) /\
     status x = if redirected r then (if decide (r_Method r = "GET"%string) then 301 else 307) else
                if negb (labels_valid r) then 500 else
                if decide (route r = EmptyString) then 404 else default 500 result) /\
  (forall k, default 0 (httpRequestsTotal t !! k) =
     Z.of_nat (length (List.filter (fun c => bool_decide (series c.1.1 c.2 = Some k)) calls))) /\
  length (log_lines t) = length (List.filter (fun c => negb (bool_decide (counted c.1.1 c.2 = None))) calls) /\
  (forall m p s, is_Some (httpRequestsTotal t !! (m, p, s)) ->
     (m, p) ∈ routes \/ exists c, c ∈ calls /\ route c.1.1 = EmptyString /\ p = r_Path c.1.1).
Proof.
  intros Hall. cbv zeta. split.
  { intros r h result t0 Hc. rewrite Forall_forall in Hall. destruct (ServeHTTP_answers r h result t0 (Hall _ Hc)) as [-> _]. unfold counted.
    destruct (redirected r); [split; [by apply lookup_singleton_ne|done]|]. split; [apply lookup_singleton_eq|]. cbn [orb status].
    destruct (labels_valid r); [|done]. cbn [negb]. by case_decide. }
  induction calls as [|[[r h] result] calls IH] using rev_ind; [split_and!; [done..|]; intros m p s Hk; simpl in Hk; rewrite lookup_empty in Hk; by destruct Hk|].
  apply Forall_app in Hall as [Hall [Hh _]%Forall_cons]. destruct (IH Hall) as (Hcount & Hlog & Hpath). clear IH.
  unfold serve_all. rewrite fmap_app, foldl_app. simpl. fold (serve_all calls.*1 no_telemetry).
  set (t := serve_all _ _) in *. cbn [fst snd] in Hh. rewrite (proj2 (ServeHTTP_answers r h result t Hh)).
  setoid_rewrite List.filter_app. cbn [List.filter fst snd]. change (series r result) with ((fun s => (r_Method r, path_label r, Itoa s)) <$> counted r result).
  destruct (counted r result) as [s0|] eqn:Es; cbn [fmap option_fmap option_map httpRequestsTotal log_lines].
  - split_and!.
    + intros k. rewrite length_app, Nat2Z.inj_add, <-Hcount. destruct (decide ((r_Method r, path_label r, Itoa s0) = k)) as [<-|Hne].
      * rewrite lookup_insert_eq, bool_decide_true by done. done.
      * rewrite lookup_insert_ne, bool_decide_false by congruence. simpl. lia.
    + rewrite !length_app, Hlog. done.
    + intros m p s. rewrite lookup_insert_is_Some'. intros [[= <- <- <-]|Hk].
      * unfold path_label. destruct (decide (route r = EmptyString)) as [Er|Er]; [right|left; by apply FullPath_route].
        exists (r, h, result). split; [apply elem_of_app; right; by left|done].
      * destruct (Hpath m p s Hk) as [?|(c & Hc & ?)]; [by left|right]. exists c. split; [apply elem_of_app; by left|done].
  - split_and!.
    + intros k. rewrite Hcount, length_app. simpl. lia.
    + rewrite length_app, Hlog. simpl. lia.
    + intros m p s Hk. destruct (Hpath m p s Hk) as [?|(c & Hc & ?)]; [by left|right]. exists c. split; [apply elem_of_app; by left|done].
Qed.
End Properties.

(** ** Examples *)

Module ServerSample.

(** Routes without parameters. *)
#[local] Instance exact_routes : Gin.
Proof.
  refine {| FullPath table method path := if decide ((method, path) ∈ table) then path else EmptyString;
            trailing_slash table method path := existsb (fun route =>
              bool_decide (route.1 = method) && (bool_decide (path = route.2 +:+ "/") || bool_decide (route.2 = path +:+ "/"))) table |}.
  intros table method path. by case_decide.
Defined.

Definition ask (method path id : string) : request := mkRequest method path id "::1" "new" 3 3 "/".
Definition panicking : handler := fun w => (w, true).

(** The path of GET /%ff *)
Definition not_utf8 : string := String "/" (String "255" EmptyString).

(** A health check, a path that is none, a handler that panics, another health
    check, one with a slash too many, and a path that is not UTF-8. *)
Definition calls : list (request * handler * option Z) :=
  [(ask "GET" "/health" "a", handleHealth, Some 200); (ask "GET" "/robots.txt" "", handleHealth, Some 200);
   (ask "POST" "/v1/messages" "b", panicking, None); (ask "GET" "/health" "", handleHealth, Some 200);
   (ask "GET" "/health/" "c", handleHealth, Some 200); (ask "GET" not_utf8 "d", handleHealth, Some 200)]%string.

Lemma served_telemetry_witness : let t := serve_all calls.*1 no_telemetry in
  default 0 (httpRequestsTotal t !! ("GET", "/health", "200")%string) = 2 /\
  default 0 (httpRequestsTotal t !! ("GET", "/robots.txt", "404")%string) = 1 /\
  length (log_lines t) = 3%nat /\
  status (ServeHTTP (ask "GET" "/health/" "c") handleHealth t).1 = 301 /\
  headers (ServeHTTP (ask "GET" "/health/" "c") handleHealth t).1 !! "X-Request-ID"%string = None /\
  status (ServeHTTP (ask "GET" not_utf8 "d") handleHealth t).1 = 500.
Proof.
  intros t. destruct (served_telemetry calls) as (Hans & Hcount & Hlog & _).
  - repeat constructor; intros x t'; reflexivity.
  - split; [etransitivity; [apply Hcount|]; vm_compute; reflexivity|].
    split; [etransitivity; [apply Hcount|]; vm_compute; reflexivity|].
    split; [etransitivity; [apply Hlog|]; vm_compute; reflexivity|].
    destruct (Hans (ask "GET" "/health/" "c") handleHealth (Some 200) t) as [Hid Hst]; [do 4 right; by left|].
    destruct (Hans (ask "GET" not_utf8 "d") handleHealth (Some 200) t) as [_ Hst2]; [do 5 right; by left|].
    split; [etransitivity; [exact Hst|]; vm_compute; reflexivity|].
    split; [etransitivity; [exact Hid|]; vm_compute; reflexivity|].
    etransitivity; [exact Hst2|]. vm_compute. reflexivity.
Defined.
End ServerSample.
