(* ===== verification/Procedures.v ===== *)
(** The operations of the service as procedures: the same code as in [Rest],
    [Flusher], [Cognitive], [Experience] and [Embedder], one action for each
    command to the database or to Redis, so that others may come between.  Each
    procedure run alone is the operation ([.._alone]).  An action is one method
    of a repository, or one round trip to Redis; the statement for facts has two,
    the snapshot it starts from and what it writes. *)
From Stdlib Require Import Ascii String.
From S2P Require Import Prelude GoStd GoStrings Float64 Model Security Json GoJson Llm Db MessageRepo EntityRepo History MemoryRepo ExperienceRepo Streams Redis Cache Retriever Rest Flusher ContextApi Embedder Cognitive Experience Discovery Threads.

Local Open Scope Z_scope.

Abbreviation procedure := (proc (DB * store)) (only parsing).

Section Primitives.
Context `{Redis}.

(** A method of a repository, a query, a round trip to Redis. *)
Definition on_db {A} (f : DB -> DB * A) : procedure A := act (fun '(d, s) => let '(d', a) := f d in ((d', s), a)).
Definition try_db (f : DB -> result DB) : procedure (result unit) :=
  on_db (fun d => match f d with Ok d' => (d', Ok tt) | Err e => (d, Err e) end).
Definition read {A} (f : DB -> A) : procedure A := act (fun st => (st, f st.1)).
Definition on_redis {A} (f : store -> store * A) : procedure A := act (fun '(d, s) => let '(s', a) := f s in ((d, s'), a)).
Definition redis (ctx : context) (now : time) (cs : list cmd) : procedure (result (list reply)) :=
  on_redis (Pipeline (ctx_Done ctx) now cs).

Lemma perform_on_db {A} (f : DB -> DB * A) d s : perform (on_db f) (d, s) = (((f d).1, s), (f d).2).
Proof. unfold on_db. rewrite perform_act. by destruct (f d). Qed.
Lemma perform_read {A} (f : DB -> A) st : perform (read f) st = (st, f st.1).
Proof. unfold read. by rewrite perform_act. Qed.
Lemma perform_on_redis {A} (f : store -> store * A) d s : perform (on_redis f) (d, s) = ((d, (f s).1), (f s).2).
Proof. unfold on_redis. rewrite perform_act. by destruct (f s). Qed.
Lemma perform_try_db f d s : perform (try_db f) (d, s) = match f d with Ok d' => ((d', s), Ok tt) | Err e => ((d, s), Err e) end.
Proof. unfold try_db. rewrite perform_on_db. by destruct (f d). Qed.
Lemma perform_redis ctx now cs d s :
  perform (redis ctx now cs) (d, s) = ((d, (Pipeline (ctx_Done ctx) now cs s).1), (Pipeline (ctx_Done ctx) now cs s).2).
Proof. apply perform_on_redis. Qed.
End Primitives.

(** Runs a procedure of primitives. *)
Ltac alone := cbn [fst snd];
  repeat progress (rewrite ?perform_bind, ?perform_on_db, ?perform_read, ?perform_on_redis, ?perform_try_db, ?perform_redis, ?perform_ret;
    cbn [fst snd]).

(** ** The cache *)

Section Cache.
Context `{UuidLib, OrderBy, PgSearch, CryptoLib, Jsonb, Redis}.

Definition append_messages (ctx : context) (now : time) (tenantID sessionID : string) (msgs : list Message) : procedure (result unit) :=
  let key := msgs_key tenantID sessionID in
  r ← redis ctx now [EXISTS key];
  match r with
  | Err e => mret (Err e)
  | Ok [RInt 0] =>
    existing ← read (fun d => match GetSessionHistory ctx tenantID sessionID 50 EmptyString d with Ok l => l | Err _ => [] end);
    r ← redis ctx now ((RPUSH key <$> existing) ++ (LPUSH key <$> msgs) ++ keep_recent key);
    mret (_ ← r; Ok tt)
  | Ok _ =>
    r ← redis ctx now ((LPUSH key <$> msgs) ++ keep_recent key);
    mret (_ ← r; Ok tt)
  end.

Lemma append_messages_alone ctx now t s msgs d st :
  perform (append_messages ctx now t s msgs) (d, st) =
  let '(st', r) := AppendMessages ctx now d t s msgs st in ((d, st'), r).
Proof.
  unfold append_messages, AppendMessages, reloadAndAppend. alone. destruct (Pipeline _ now [EXISTS _] st) as [st1 [rs|e]]; [|done].
  assert (Hhit : perform (r ← redis ctx now ((LPUSH (msgs_key t s) <$> msgs) ++ keep_recent (msgs_key t s)); mret (_ ← r; Ok tt)) (d, st1) =
    let '(st', r) := (let '(s'', r) := Pipeline (ctx_Done ctx) now ((LPUSH (msgs_key t s) <$> msgs) ++ keep_recent (msgs_key t s)) st1 in
      (s'', _ ← r; Ok tt)) in ((d, st'), r)) by (alone; by destruct (Pipeline _ _ _ _)).
  destruct rs as [|[[|p|p]| | | | | |] [|? ?]]; try exact Hhit. clear Hhit. alone. by destruct (Pipeline _ _ _ _).
Qed.

Definition get_raw_messages (ctx : context) (now : time) (tenantID sessionID : string) (count : Z) : procedure (result (list Message)) :=
  r ← redis ctx now [LRANGE (msgs_key tenantID sessionID) 0 (count - 1)];
  match r with
  | Err e => mret (Err e)
  | Ok [RMessages (m :: l)] => mret (Ok (m :: l))
  | Ok _ => read (GetSessionHistory ctx tenantID sessionID count EmptyString)
  end.

Lemma get_raw_messages_alone ctx now t s count d st : perform (get_raw_messages ctx now t s count) (d, st) =
  let '(st', r) := GetRawMessages ctx now d t s count st in ((d, st'), r).
Proof.
  unfold get_raw_messages, GetRawMessages. alone. destruct (Pipeline _ _ _ _) as [st1 [rs|e]]; [|done]. cbn [fst snd].
  repeat case_match; by alone.
Qed.

Definition get_raw_messages_until (ctx : context) (now : time) (tenantID sessionID anchorMsgID : string) (count : Z)
  : procedure (result (list Message)) :=
  if decide (anchorMsgID = EmptyString) then get_raw_messages ctx now tenantID sessionID count
  else
    r ← redis ctx now [LRANGE (msgs_key tenantID sessionID) 0 49];
    mret match r with
    | Err e => Err e
    | Ok [RMessages all] =>
      match anchor_index anchorMsgID all with
      | None => Ok []
      | Some i => if count <? 0 then Err "panic: slice bounds out of range"%string else Ok (take (Z.to_nat count) (drop i all))
      end
    | Ok _ => Ok []
    end.

Lemma get_raw_messages_until_alone ctx now t s anchor count d st : perform (get_raw_messages_until ctx now t s anchor count) (d, st) =
  let '(st', r) := GetRawMessagesUntil ctx now d t s anchor count st in ((d, st'), r).
Proof.
  unfold get_raw_messages_until, GetRawMessagesUntil. case_decide; [apply get_raw_messages_alone|].
  alone. destruct (Pipeline _ _ _ _) as [st1 [rs|e]]; [|done]. cbn [fst snd]. repeat case_match; done.
Qed.
End Cache.

(** ** The handlers *)

Section Handlers.
Context `{UuidLib, OrderBy, PgSearch, CryptoLib, Jsonb, Redis}.
Context (CognitiveBatch : Z).

(** The counting and publishing of handleAppendMessages. *)
Definition publish_full (ctx : context) (now : time) (req : AppendRequest) (msgID : uuid) (r : result Z) : procedure () :=
  match r with
  | Err _ => mret tt
  | Ok count =>
    if CognitiveBatch <=? count then
      _ ← on_redis (ResetCognitiveBatch ctx now (ar_TenantID req) (ar_SessionID req));
      let p := mkBatchPayload (ar_TenantID req) (ar_UserID req) (ar_SessionID req) (int64 (count * 2)) msgID in
      _ ← on_redis (XAddCognitiveBatch ctx now (ar_TenantID req) p);
      mret tt
    else mret tt
  end.
Definition trigger (ctx : context) (now : time) (req : AppendRequest) (msgID : uuid) : procedure () :=
  r ← (if decide (ar_Role req = "user"%string)
       then on_redis (IncrementCognitiveBatch ctx now (ar_TenantID req) (ar_SessionID req))
       else mret (Ok 0));
  publish_full ctx now req msgID r.

Lemma trigger_alone ctx now req i d st :
  perform (trigger ctx now req i) (d, st) = ((d, trigger_batch CognitiveBatch ctx now req i st), tt).
Proof.
  unfold trigger, trigger_batch. rewrite perform_bind.
  set (q := if decide (ar_Role req = _) then IncrementCognitiveBatch _ _ _ _ st else _).
  assert (Eq : perform (if decide (ar_Role req = "user"%string)
      then on_redis (IncrementCognitiveBatch ctx now (ar_TenantID req) (ar_SessionID req)) else mret (Ok 0)) (d, st) =
    ((d, q.1), q.2)) by (unfold q; case_decide; alone; done).
  rewrite Eq. destruct q as [st1 [count|e]]; [|done]. cbn [fst snd publish_full]. destruct (_ <=? _); [|done].
  alone. by destruct (ResetCognitiveBatch _ _ _ _ st1).
Qed.

Definition append_message (e : env) (body : option AppendRequest) : procedure response :=
  match body with
  | None => mret bad_format
  | Some req =>
    if negb (required [ar_TenantID req; ar_UserID req; ar_SessionID req; ar_Role req; ar_Content req]) then mret bad_format
    else if negb (bool_decide (ar_Role req ∈ ["user"; "assistant"; "system"]%string)) then
      mret (bad_request ("invalid role. Must be one of: " +:+ ValidRoles))
    else if MaxContentLength <? len (ar_Content req) then mret (bad_request "content too large")
    else
      parsed tenantID of ar_TenantID req or mret (bad_request "invalid tenant_id format") in
      parsed userID of ar_UserID req or mret (bad_request "invalid user_id format") in
      parsed sessionID of ar_SessionID req or mret (bad_request "invalid session_id format") in
      let ctx := withTenant e tenantID in
      let msg := new_message e tenantID userID sessionID req in
      r ← on_db (InsertMessage ctx msg (e_db_now e));
      match r with
      | Err _ => mret (server_error "failed to store message")
      | Ok _ =>
        _ ← append_messages ctx (e_now e) (ar_TenantID req) (ar_SessionID req) [msg];
        _ ← trigger ctx (e_now e) req (msg_ID msg);
        mret (mkResponse StatusOK (BAppended (msg_ID msg)))
      end
  end.

Lemma append_message_alone e body st : perform (append_message e body) st = handleAppendMessages CognitiveBatch e body st.
Proof.
  destruct st as [d st]. unfold append_message, handleAppendMessages. destruct body as [req|]; [|done].
  destruct (negb (required _)); [done|]. destruct (negb (bool_decide _)); [done|]. destruct (_ <? _); [done|].
  destruct (uuid_Parse (ar_TenantID req)) as [t|]; [|done]. destruct (uuid_Parse (ar_UserID req)) as [u|]; [|done].
  destruct (uuid_Parse (ar_SessionID req)) as [s|]; [|done]. cbv zeta. alone. destruct (InsertMessage _ _ _ d) as [d1 [?|?]]; [|done].
  alone. rewrite append_messages_alone. destruct (AppendMessages _ _ d1 _ _ _ st) as [st1 r]. alone. by rewrite trigger_alone.
Qed.

(** flushPreviousUserSessions, which handleCreateSession starts in the
    background. *)
Definition flush_previous_session (ctx : context) (now : time) (tenantID userID excludeSessionID : string) (sess : Session)
  : procedure () :=
  let sessID := ses_ID sess in
  if decide (sessID = excludeSessionID) then mret tt
  else
    r ← on_redis (GetCognitiveBatchCount ctx now tenantID sessID);
    match r with
    | Err _ => mret tt
    | Ok count =>
      if count =? 0 then mret tt
      else
        h ← read (GetSessionHistory ctx tenantID sessID 1 EmptyString);
        match h with
        | Err _ | Ok [] => mret tt
        | Ok (m :: _) =>
          _ ← on_redis (ResetCognitiveBatch ctx now tenantID sessID);
          let p := mkBatchPayload tenantID userID sessID (int64 (count * 2)) (msg_ID m) in
          _ ← on_redis (XAddCognitiveBatch ctx now tenantID p);
          mret tt
        end
    end.

Lemma flush_previous_session_alone ctx now t u x sess d st :
  perform (flush_previous_session ctx now t u x sess) (d, st) = ((d, flush_previous ctx now t u x d st sess), tt).
Proof.
  unfold flush_previous_session, flush_previous. case_decide; [done|]. alone.
  destruct (GetCognitiveBatchCount _ _ _ _ st) as [st1 [count|e]]; [|done]. alone. destruct (count =? 0); [done|]. alone.
  destruct (GetSessionHistory _ _ _ _ _ d) as [[|m l]|e]; [done| |done]. alone. by destruct (ResetCognitiveBatch _ _ _ _ st1).
Qed.

Definition flush_previous_sessions (ctx : context) (now : time) (tenantID userID excludeSessionID : string) : procedure () :=
  r ← read (List ctx tenantID userID 5 0);
  match r with
  | Err _ => mret tt
  | Ok sessions => _ ← mapM (flush_previous_session ctx now tenantID userID excludeSessionID) sessions; mret tt
  end.

(** A loop whose body leaves the database alone. *)
Lemma perform_loop {A} (body : A -> procedure ()) (g : store -> A -> store) d l st :
  (forall x st, perform (body x) (d, st) = ((d, g st x), tt)) -> (perform (mapM body l) (d, st)).1 = (d, foldl g st l).
Proof.
  intros Hb. revert st. induction l as [|x l IH]; intros st; [done|]. cbn [mapM]. rewrite perform_bind, Hb. cbn [fst snd].
  rewrite perform_bind. alone. by rewrite IH.
Qed.

Lemma flush_previous_sessions_alone ctx now t u x d st :
  perform (flush_previous_sessions ctx now t u x) (d, st) = ((d, flushPreviousUserSessions ctx now t u x (d, st)), tt).
Proof.
  unfold flush_previous_sessions, flushPreviousUserSessions. alone. destruct (List _ _ _ _ _ d) as [l|e]; [|done].
  alone. rewrite (perform_loop _ (flush_previous ctx now t u x d)); [done|]. intros s0 st0. apply flush_previous_session_alone.
Qed.

Definition create_session (e : env) (body : option SessionRequest) : procedure response :=
  match body with
  | None => mret bad_format
  | Some req =>
    if negb (required [sr_TenantID req; sr_UserID req]) then mret bad_format
    else
      parsed tenantID of sr_TenantID req or mret (bad_request "invalid tenant_id format") in
      parsed userID of sr_UserID req or mret (bad_request "invalid user_id format") in
      let session := mkSession (e_new_id e) tenantID userID (sr_Title req) "{}" 0 0 in
      r ← on_db (Create (withTenant e tenantID) session (e_db_now e));
      match r with
      | Err _ => mret (server_error "failed to create session")
      | Ok _ =>
        _ ← flush_previous_sessions (WithTenantID Background tenantID) (e_now e) (sr_TenantID req) (sr_UserID req) (ses_ID session);
        mret (mkResponse StatusCreated (BSession session))
      end
  end.

Lemma create_session_alone e body st : perform (create_session e body) st = handleCreateSession e body st.
Proof.
  destruct st as [d st]. unfold create_session, handleCreateSession. destruct body as [req|]; [|done].
  destruct (negb _); [done|]. destruct (uuid_Parse (sr_TenantID req)) as [t|]; [|done].
  destruct (uuid_Parse (sr_UserID req)) as [u|]; [|done]. cbv zeta. alone. destruct (Create _ _ _ d) as [d1 [?|?]]; [|done]. alone.
  by rewrite flush_previous_sessions_alone.
Qed.
End Handlers.

(** ** The retriever *)

Section Context.
Context `{UuidLib, OrderBy, PgSearch, CryptoLib, Jsonb, Redis}.
Context (RecentMessagesLimit : Z).

(** What GetContext does besides the queries of its tasks, and the uses counted
    in the background. *)
Definition recent (ctx : context) (req : GetContextRequest) (now : time) : procedure (list Message) :=
  if wantsType req "recent_messages" then
    match rq_TimeRange req with
    | Some (Some _, Some _) => mret []
    | _ =>
      let limit := if RecentMessagesLimit <=? 0 then CacheRecentMessagesCount else RecentMessagesLimit in
      r ← get_raw_messages ctx now (rq_TenantID req) (rq_SessionID req) limit;
      mret (ok_or_nil r)
    end
  else mret [].

Definition count_usages (req : GetContextRequest) (exps : list Experience) (now : time) : procedure () :=
  _ ← mapM (fun x => try_db (RecordUsage Background (rq_TenantID req) (exp_ID x) now)) exps; mret tt.

Definition get_context (ctx : context) (req : GetContextRequest) (clock now : time) (exps : list Experience) : procedure () :=
  _ ← recent ctx req clock; count_usages req exps now.

Lemma recent_alone ctx req now d st : perform (recent ctx req now) (d, st) =
  let '(st', l) := recent_messages RecentMessagesLimit ctx req now d st in ((d, st'), l).
Proof.
  unfold recent, recent_messages. destruct (wantsType _ _); [|done].
  set (limit := if RecentMessagesLimit <=? 0 then _ else _). clearbody limit.
  assert (Hread : perform (r ← get_raw_messages ctx now (rq_TenantID req) (rq_SessionID req) limit; mret (ok_or_nil r)) (d, st) =
    let '(st', l) := (let '(st', r) := GetRawMessages ctx now d (rq_TenantID req) (rq_SessionID req) limit st in (st', ok_or_nil r)) in
    ((d, st'), l)).
  { rewrite perform_bind, get_raw_messages_alone. by destruct (GetRawMessages _ _ _ _ _ _ st). }
  destruct (rq_TimeRange req) as [[[?|] [?|]]|]; done.
Qed.

Lemma count_usages_alone req exps now d st :
  perform (count_usages req exps now) (d, st) = ((record_usages req exps now d, st), tt).
Proof.
  unfold count_usages, record_usages. rewrite perform_bind.
  enough (E : (perform (mapM (fun x => try_db (RecordUsage Background (rq_TenantID req) (exp_ID x) now)) exps) (d, st)).1 =
    (record_usages req exps now d, st)) by by rewrite E.
  unfold record_usages. revert d. induction exps as [|x exps IH]; intros d; [done|]. cbn [mapM foldl]. alone.
  destruct (RecordUsage _ _ _ _ d) as [d1|]; cbn [fst snd]; alone; by rewrite IH.
Qed.

Lemma get_context_alone ctx req clock now exps d st :
  (perform (get_context ctx req clock now exps) (d, st)).1 =
  (record_usages req exps now d, (recent_messages RecentMessagesLimit ctx req clock d st).1).
Proof.
  unfold get_context. rewrite perform_bind, recent_alone. destruct (recent_messages _ _ _ _ d st) as [st1 l]. cbn [fst snd].
  by rewrite count_usages_alone.
Qed.
End Context.

(** ** The flusher *)

Section Flusher.
Context `{UuidLib, OrderBy, PgSearch, CryptoLib, Jsonb, Redis}.

Definition flush_session (ctx : context) (now : time) (tenantID sessionID : string) (count : Z) : procedure () :=
  let ctx := WithTenantID ctx tenantID in
  h ← read (GetSessionHistory ctx tenantID sessionID 1 EmptyString);
  match h with
  | Err _ | Ok [] => _ ← on_redis (RemoveSessionActivity ctx now tenantID sessionID); mret tt
  | Ok (m :: _) =>
    _ ← on_redis (ResetCognitiveBatch ctx now tenantID sessionID);
    let p := mkBatchPayload tenantID (msg_UserID m) sessionID (int64 (count * 2)) (msg_ID m) in
    _ ← on_redis (XAddCognitiveBatch ctx now tenantID p);
    mret tt
  end.

Definition flush_inactive (ctx : context) (now : time) (member : string) : procedure () :=
  match Split member ":" with
  | [tenantID; sessionID] =>
    r ← on_redis (GetCognitiveBatchCount ctx now tenantID sessionID);
    match r with
    | Err _ => mret tt
    | Ok count =>
      if count =? 0 then _ ← on_redis (RemoveSessionActivity ctx now tenantID sessionID); mret tt
      else flush_session ctx now tenantID sessionID count
    end
  | _ => mret tt
  end.

Definition flush_cycle (now olderThan : time) : procedure () :=
  let ctx := Background in
  r ← on_redis (TryLock ctx now lockKey lockTTL);
  match r with
  | Ok true =>
    r ← on_redis (GetInactiveSessions ctx now olderThan 100);
    match r with
    | Err _ => mret tt
    | Ok inactiveMembers => _ ← mapM (flush_inactive ctx now) inactiveMembers; mret tt
    end
  | _ => mret tt
  end.

Lemma flush_session_alone ctx now t s count d st :
  perform (flush_session ctx now t s count) (d, st) = ((d, flushSession ctx now d t s count st), tt).
Proof.
  unfold flush_session, flushSession. alone. destruct (GetSessionHistory _ _ _ _ _ d) as [[|m l]|e]; alone; try done.
  by destruct (ResetCognitiveBatch _ _ _ _ st).
Qed.

Lemma flush_inactive_alone ctx now m d st : perform (flush_inactive ctx now m) (d, st) = ((d, flush_member ctx now d st m), tt).
Proof.
  unfold flush_inactive, flush_member. destruct (Split m ":") as [|t [|s [|? ?]]]; [done..| |done]. alone.
  destruct (GetCognitiveBatchCount _ _ _ _ st) as [st1 [count|e]]; [|done]. alone.
  destruct (count =? 0); [by alone|]. apply flush_session_alone.
Qed.

Lemma flush_cycle_alone now olderThan d st : perform (flush_cycle now olderThan) (d, st) = ((d, runFlushCycle now olderThan d st), tt).
Proof.
  unfold flush_cycle, runFlushCycle. alone. destruct (TryLock _ _ _ _ st) as [st1 [[]|e]]; [|done..]. alone.
  destruct (GetInactiveSessions _ _ _ _ st1) as [st2 [l|e]]; [|done]. alone.
  rewrite (perform_loop _ (flush_member Background now d)); [done|]. intros m st3. apply flush_inactive_alone.
Qed.
End Flusher.

(** ** The cognitive worker *)

Section Worker.
Context `{UuidLib, OrderBy, PgSearch, CryptoLib, Jsonb, UnicodeCase, Redis}.
Context (key : string) (crypto : Crypto) (CognitivePrompt ExperiencePrompt : string).

Definition fetch (ctx : context) (now : time) (p : BatchPayload) (size : Z) : procedure (result (list Message)) :=
  r ← get_raw_messages_until ctx now (bp_TenantID p) (bp_SessionID p) (bp_LastMessageID p) size;
  match r with
  | Ok (m :: msgs) => mret (Ok (m :: msgs))
  | _ => read (GetRecentMessagesUntil ctx (bp_TenantID p) (bp_UserID p) (bp_SessionID p) (bp_LastMessageID p) size)
  end.

(** What a statement starts from. *)
Definition fact_ids (d : DB) : list uuid := em_id <$> entity_mentions d.
Definition snapshot {A} (x : A) : procedure (A * list uuid) := ids ← read fact_ids; mret (x, ids).

(** A batch of upserts: a statement reads the table when its turn comes, and
    what the batch writes is there when it is committed. *)
Definition upsert_batch (ctx : context) (now : time) (mp : MessagePayload) (items : list (uuid * ExtractedFact * list Z * string))
  : procedure (result unit) :=
  seen ← mapM snapshot items;
  on_db (UpsertFactBatch_at ctx now mp seen).

Definition store_facts (e : run_env) (ctx : context) (mp : MessagePayload) (facts : gmap string ExtractedFact) : procedure () :=
  match encrypt_facts crypto e mp (re_range e facts) with
  | [] => mret tt
  | items =>
    let batch := (fun x => x.1.1.2) <$> items in
    _ ← upsert_batch ctx (re_clock e) mp items;
    match re_EmbedFacts e (fact_text <$> batch) with
    | Err _ => mret tt
    | Ok embeddings => _ ← on_db (UpdateFactEmbeddingsBatch ctx (mp_TenantID mp) (mp_UserID mp) batch embeddings); mret tt
    end
  end.

Definition store_events (e : run_env) (ctx : context) (mp : MessagePayload) (payloads : list string) : procedure () :=
  match payloads with
  | [] => mret tt
  | _ =>
    _ ← on_db (UpsertEventBatch ctx (mp_TenantID mp) (mp_UserID mp) (mp_SessionID mp)
                 (imap (fun i p => (re_event_id e i, p)) payloads));
    mret tt
  end.

Fixpoint insert_traits (ctx : context) (tenantID userID sessionID : string) (newTraits : list (uuid * time * string))
  : procedure (list uuid) :=
  match newTraits with
  | [] => mret []
  | (id, now, trait) :: rest =>
    let trait := TrimSpace trait in
    if decide (trait = EmptyString) then insert_traits ctx tenantID userID sessionID rest
    else
      r ← try_db (insert_trait ctx tenantID userID sessionID id now trait);
      ids ← insert_traits ctx tenantID userID sessionID rest;
      mret (match r with Ok _ => id :: ids | Err _ => ids end)
  end.

Definition store_persona (e : run_env) (ctx : context) (mp : MessagePayload) (updates : list string) : procedure () :=
  match updates with
  | [] => mret tt
  | _ =>
    ids ← insert_traits ctx (mp_TenantID mp) (mp_UserID mp) (mp_SessionID mp) (imap (fun i t => (re_trait_id e i, t)) updates);
    if decide (ids = []) then mret tt
    else match re_EmbedTraits e (embedded_traits updates ids) with
         | Err _ => mret tt
         | Ok embeddings => _ ← on_db (UpdatePersonaEmbeddingsBatch ctx (mp_TenantID mp) ids embeddings); mret tt
         end
  end.

Definition store_extraction (e : run_env) (ctx : context) (mp : MessagePayload) (x : Extraction) : procedure () :=
  let facts := uniqueFacts (elems (x_Facts x)) in
  _ ← store_facts e ctx mp facts;
  _ ← store_events e ctx mp (event_payloads e (elems (x_Events x)) facts);
  store_persona e ctx mp (elems (x_PersonaUpdates x)).

Definition extract (e : run_env) (ctx : context) (msgs : list Message) : procedure outcome :=
  match msgs with
  | [] => mret (Transient "no messages to process")
  | m :: _ =>
    let mp := payload_of m in
    prompt ← read (buildBatchPrompt key CognitivePrompt e ctx (mp_TenantID mp) (mp_UserID mp) (transcript msgs));
    match re_Generate e (BuildLLMRequest "You are a cognitive data extractor" prompt) with
    | Err err => mret (Transient err)
    | Ok (resp, tokens) =>
      let usage := mkLLMUsage (mp_TenantID mp) (mp_UserID mp) (mp_SessionID mp) "cognitive_extraction"
                     (re_ModelName e) tokens (re_clock e) in
      _ ← try_db (Record ctx usage);
      match Unmarshal dec_extraction (extractCognitiveJSON resp) no_extraction with
      | (_, Err err) => mret (Unrecoverable err)
      | (x, Ok _) => _ ← store_extraction e ctx mp x; mret Success
      end
    end
  end.

Definition process_batch (e : run_env) (ctx : context) (payload : string) : procedure outcome :=
  match Unmarshal dec_batch payload no_batch with
  | (_, Err err) => mret (Unrecoverable err)
  | (p, Ok _) =>
    let ctx := WithTenantID ctx (bp_TenantID p) in
    r ← fetch ctx (re_clock e) p (bp_BatchSize p);
    match r with
    | Err err => mret (Transient err)
    | Ok msgs => extract e ctx msgs
    end
  end.

Lemma fetch_alone ctx now p size d st : perform (fetch ctx now p size) (d, st) =
  let '(st', r) := fetch_messages ctx now d p size st in ((d, st'), r).
Proof.
  unfold fetch, fetch_messages. rewrite perform_bind, get_raw_messages_until_alone.
  destruct (GetRawMessagesUntil _ _ _ _ _ _ _ st) as [st1 [[|m l]|e]]; alone; done.
Qed.

Lemma snapshot_alone {A} (x : A) d st : perform (snapshot x) (d, st) = ((d, st), (x, fact_ids d)).
Proof. unfold snapshot. by alone. Qed.

Lemma upsert_batch_alone ctx now mp items d st : perform (upsert_batch ctx now mp items) (d, st) =
  (((UpsertFactBatch ctx now mp items d).1, st), (UpsertFactBatch ctx now mp items d).2).
Proof.
  unfold upsert_batch. rewrite perform_bind.
  assert (Es : perform (mapM snapshot items) (d, st) = ((d, st), (fun x => (x, fact_ids d)) <$> items)).
  { induction items as [|x items IH]; [done|]. cbn [mapM]. alone. rewrite snapshot_alone. cbn [fst snd]. by rewrite IH. }
  rewrite Es. alone. unfold fact_ids. by rewrite UpsertFactBatch_at_alone.
Qed.

Lemma store_facts_alone e ctx mp facts d st :
  perform (store_facts e ctx mp facts) (d, st) = ((process_facts crypto e ctx mp facts d, st), tt).
Proof.
  unfold store_facts, process_facts. destruct (encrypt_facts _ _ _ _) as [|x items]; [done|]. cbv zeta.
  rewrite perform_bind, upsert_batch_alone. destruct (UpsertFactBatch _ _ _ _ d) as [d1 r]. cbn [fst snd].
  destruct (re_EmbedFacts e _); [|done]. by alone.
Qed.

Lemma store_events_alone e ctx mp payloads d st :
  perform (store_events e ctx mp payloads) (d, st) = ((process_events e ctx mp payloads d, st), tt).
Proof. unfold store_events, process_events. destruct payloads; [done|]. by alone. Qed.

Lemma insert_traits_alone ctx t u s items d st : perform (insert_traits ctx t u s items) (d, st) =
  let '(d', ids) := UpsertPersona ctx t u s items d in ((d', st), ids).
Proof.
  revert d. induction items as [|[[id now] trait] items IH]; intros d; [done|]. cbn [insert_traits UpsertPersona]. cbv zeta.
  case_decide; [apply IH|]. alone. destruct (insert_trait _ _ _ _ _ _ _ d) as [d1|e]; alone; rewrite IH;
    by destruct (UpsertPersona ctx t u s items _).
Qed.

Lemma store_persona_alone e ctx mp updates d st :
  perform (store_persona e ctx mp updates) (d, st) = ((process_persona e ctx mp updates d, st), tt).
Proof.
  unfold store_persona, process_persona. destruct updates as [|t l]; [done|]. rewrite perform_bind, insert_traits_alone.
  destruct (UpsertPersona _ _ _ _ _ d) as [d1 ids]. cbn [fst snd]. case_decide; [done|].
  destruct (re_EmbedTraits e _); [|done]. by alone.
Qed.

Lemma store_extraction_alone e ctx mp x d st :
  perform (store_extraction e ctx mp x) (d, st) = ((process_extraction crypto e ctx mp x d, st), tt).
Proof.
  unfold store_extraction, process_extraction. rewrite perform_bind, store_facts_alone. cbn [fst snd].
  rewrite perform_bind, store_events_alone. cbn [fst snd]. apply store_persona_alone.
Qed.

Lemma extract_alone e ctx msgs d st : perform (extract e ctx msgs) (d, st) =
  let '(d', o) := process_messages key crypto CognitivePrompt e ctx msgs d in ((d', st), o).
Proof.
  unfold extract, process_messages. destruct msgs as [|m msgs]; [done|]. cbv zeta. alone.
  destruct (re_Generate e _) as [[resp tokens]|err]; [|done]. alone.
  destruct (Record _ _ d) as [d1|err]; cbn [fst snd];
    (destruct (Unmarshal dec_extraction _ _) as [x [?|err']]; [|done]); by rewrite perform_bind, store_extraction_alone.
Qed.

Lemma process_batch_alone e ctx payload d st : perform (process_batch e ctx payload) (d, st) =
  let '(st', d', o) := processBatchPayload key crypto CognitivePrompt e ctx payload st d in ((d', st'), o).
Proof.
  unfold process_batch, processBatchPayload. destruct (Unmarshal dec_batch payload no_batch) as [p [?|err]]; [|done]. cbv zeta.
  rewrite perform_bind, fetch_alone. destruct (fetch_messages _ _ d p _ st) as [st1 [msgs|err]]; [|done]. cbn [fst snd].
  rewrite extract_alone. by destruct (process_messages _ _ _ _ _ _ d).
Qed.
(** ** The experience worker *)

Definition store_experience (e : exp_env) (ctx : context) (p : BatchPayload) (latest : uuid) (x : Learned) (embedding : list float64)
  : procedure (result unit) :=
  let sessionID := default (xe_parse_rest e (bp_SessionID p)) (uuid_Parse (bp_SessionID p)) in
  found ← read (SearchSimilar ctx (bp_TenantID p) (bp_UserID p) embedding experienceSimilarityMin);
  let similarID := match found with Ok (Some s, _) => Some (exp_ID s) | _ => None end in
  try_db (UpsertExperience ctx (bp_TenantID p) (bp_UserID p) sessionID latest (xl_Description x) (Some (elems (xl_Steps x)))
    embedding similarID (xe_new_id e) (xe_clock e)).

Definition learn_from (e : exp_env) (ctx : context) (p : BatchPayload) (latest : uuid) (resp : string) : procedure (result unit) :=
  match Unmarshal dec_learned (extractJSON resp) nothing_learned with
  | (_, Err _) => mret (Ok tt)
  | (x, Ok _) =>
    if negb (xl_HasSignal x) || bool_decide (xl_Description x = EmptyString) || bool_decide (elems (xl_Steps x) = [])
    then mret (Ok tt)
    else match xe_Embed e (xl_Description x) with
         | Err err => mret (Err ("embed description: " +:+ err)%string)
         | Ok embedding =>
           r ← store_experience e ctx p latest x embedding;
           mret match r with Err err => Err ("upsert experience: " +:+ err)%string | Ok _ => Ok tt end
         end
  end.

(** [calls] is the worker's batchCount when the job counts its call. *)
Definition process_window (e : exp_env) (ctx : context) (payload : string) (calls : Z) : procedure (option (result unit)) :=
  match Unmarshal dec_window_batch payload no_batch with
  | (_, Err err) => mret (Some (Err ("parse payload: " +:+ err)%string))
  | (p, Ok _) =>
    let ctx := WithTenantID ctx (bp_TenantID p) in
    r ← fetch ctx (xe_clock e) p experienceWindowSize;
    match r with
    | Err _ | Ok [] => mret (Some (Ok tt))
    | Ok ((m :: _) as msgs) =>
      let chronological := rev msgs in
      if gate_open (int64 (calls + 1)) chronological then
        let slice := findSmartSlice chronological in
        match buildWindowTranscript slice with
        | None => mret None
        | Some window =>
          prompt ← read (buildPrompt key ExperiencePrompt e ctx (bp_TenantID p) (bp_UserID p) window (Z.of_nat (length slice)));
          match xe_Generate e (BuildLLMRequest "You are an experience extractor. Return JSON only. No markdown." prompt) with
          | Err err => mret (Some (Err ("llm generate: " +:+ err)%string))
          | Ok (resp, _) => r ← learn_from e ctx p (msg_ID m) resp; mret (Some r)
          end
        end
      else mret (Some (Ok tt))
    end
  end.

Lemma learn_from_alone e ctx p latest resp d st : perform (learn_from e ctx p latest resp) (d, st) =
  let '(d', r) := learn e ctx p latest resp d in ((d', st), r).
Proof.
  unfold learn_from, learn. destruct (Unmarshal dec_learned _ _) as [x [?|err]]; [|done]. destruct (_ || _); [done|].
  destruct (xe_Embed e _) as [v|err]; [|done]. unfold store_experience, store_learned. alone.
  by destruct (UpsertExperience _ _ _ _ _ _ _ _ _ _ _ d).
Qed.

Lemma process_window_alone e ctx payload calls d st :
  match processPayload key ExperiencePrompt e ctx payload calls st d with
  | Some (st', _, d', r) => perform (process_window e ctx payload calls) (d, st) = ((d', st'), Some r)
  | None => (perform (process_window e ctx payload calls) (d, st)).2 = None
  end.
Proof.
  unfold process_window, processPayload. destruct (Unmarshal dec_window_batch payload no_batch) as [p [?|err]]; [|done]. cbv zeta.
  rewrite perform_bind, fetch_alone. destruct (fetch_messages _ _ d p _ st) as [st1 [[|m msgs]|err]]; [done| |done]. cbn [fst snd].
  destruct (gate_open _ _); [|done]. destruct (buildWindowTranscript _) as [window|]; [|done]. cbn [mbind option_bind]. alone.
  destruct (xe_Generate e _) as [[resp tokens]|err]; [|done]. rewrite perform_bind, learn_from_alone.
  by destruct (learn e _ p _ resp d).
Qed.
End Worker.

(** ** The embedder *)

Section Embedding.
Context `{UuidLib, OrderBy, PgSearch, Redis}.

Definition embed_tenant (e : embed_env) (ctx : context) (tenantID : string) (payloads : list MessagePayload)
  : procedure (list (string * string) * result unit) :=
  let ctx := WithTenantID ctx tenantID in
  let ids := mp_MessageID <$> payloads in
  found ← read (fun d => Query ctx (fun tid =>
    Ok (order_by (fun _ _ => true) (select_messages tid (fun m => bool_decide (msg_ID m ∈ ids)) d))));
  match found with
  | Err err => mret ([], Err err)
  | Ok [] => mret ([], Ok tt)
  | Ok records =>
    match ee_EmbedBatch e tenantID (msg_Content <$> records) with
    | Err err => mret ([], Err err)
    | Ok embeddings =>
      if negb (Nat.eqb (length embeddings) (length records)) then mret ([], Err "embedding count mismatch"%string)
      else
        _ ← on_db (fun d => (match BeforeAcquire ctx with
                             | Err _ => d
                             | Ok tid => SendBatch (set_embedding tid <$> zip records embeddings) d
                             end, tt));
        mret (publication <$> payloads, Ok tt)
    end
  end.

Lemma embed_tenant_alone e ctx t payloads d st : perform (embed_tenant e ctx t payloads) (d, st) =
  let '(d', published, r) := processTenantBatch e ctx t payloads d in ((d', st), (published, r)).
Proof.
  unfold embed_tenant, processTenantBatch. cbv zeta. alone. destruct (Query _ _) as [[|m records]|err]; [done| |done].
  destruct (ee_EmbedBatch e _ _) as [embeddings|err]; [|done]. destruct (negb _); [done|]. by alone.
Qed.
End Embedding.
