(* ===== verification/System.v ===== *)
(** The whole service: the server's handlers ([internal/api/rest.go]) and the
    workers ([cmd/worker/main.go] starts them), taking turns on one database and
    one Redis store.  A turn is a whole operation, with whatever the outside
    decides during it; the overlap of two operations is the subject of the
    theorems of the components ([EntityRepo], [Streams], [Flusher]). *)
From Stdlib Require Import Ascii String.
From S2P Require Import Prelude GoStd GoStrings Float64 Model Security Json GoJson Llm Db MessageRepo EntityRepo History MemoryRepo ExperienceRepo Streams Redis Cache Tenancy Retriever Rest Flusher ContextApi Embedder Cognitive Statements Experience Config Discovery.

Local Open Scope Z_scope.

(** The tenant an experience job names; its table has no policy. *)
Definition named `{UuidLib} (tenant : string) : option uuid := match to_uuid tenant with Ok t => Some t | Err _ => None end.

Section Service.
Context `{UuidLib, OrderBy, PgSearch, CryptoLib, Jsonb, UnicodeCase, Redis}.
(** The configuration: the master key and what it decodes to, the prompts, the
    size of a batch and the limit on recent messages. *)
Context (key : string) (crypto : Crypto) (CognitivePrompt ExperiencePrompt : string) (CognitiveBatch RecentMessagesLimit : Z).
(** The database role, and the driver's encoding of a decay rate. *)
Context (bypassrls : bool) (pgx_int4 : float64 -> result Z).

(** The experiences the tasks of a request found; a use of each is counted
    after the answer. *)
Definition used_experiences (ctx : context) (req : GetContextRequest) (w : surroundings) : list Experience :=
  concat (omap experiences_fetched (context_tasks key ctx req w)).

(** One operation, with the tenant it acts for.  Requests that only read leave
    the state alone and are left out. *)
Inductive turn (tid : option uuid) : DB * store -> DB * store -> Prop :=
  | turn_append e body st : tid = (body ≫= fun req => uuid_Parse (ar_TenantID req)) ->
      turn tid st (handleAppendMessages CognitiveBatch e body st).1
  | turn_create_session e body st : tid = (body ≫= fun req => uuid_Parse (sr_TenantID req)) ->
      turn tid st (handleCreateSession e body st).1
  | turn_delete_session e session_id tenant_id st : tid = acting tenant_id ->
      turn tid st (handleDeleteSession e session_id tenant_id st).1
  | turn_feedback e body st : tid = (body ≫= fun req => uuid_Parse (fr_TenantID req)) ->
      turn tid st (handleFeedback e body st).1
  | turn_experience_feedback e experience_id body st : tid = (body ≫= fun req => uuid_Parse (fr_TenantID req)) ->
      turn tid st (handleExperienceFeedback e experience_id body st).1
  | turn_delete_experience e experience_id tenant_id user_id st : tid = uuid_Parse tenant_id ->
      turn tid st (handleDeleteExperience e experience_id tenant_id user_id st).1
  | turn_context e body req w now all d st st' r : context_request body = inl req -> tid = Some (rq_TenantID req) ->
      GetContext key RecentMessagesLimit (withTenant e (rq_TenantID req)) req w d st all (st', r) ->
      turn tid (d, st) (record_usages req (used_experiences (withTenant e (rq_TenantID req)) req w) now d, st')
  | turn_cognitive e ctx payload d st d' st' o : ranges e -> sized_nonces e ->
      tid = acting (bp_TenantID (Unmarshal dec_batch payload no_batch).1) ->
      processBatchPayload key crypto CognitivePrompt e ctx payload st d = (st', d', o) -> turn tid (d, st) (d', st')
  | turn_experience e ctx payload calls calls' d st d' st' r :
      tid = named (bp_TenantID (Unmarshal dec_window_batch payload no_batch).1) ->
      processPayload key ExperiencePrompt e ctx payload calls st d = Some (st', calls', d', r) -> turn tid (d, st) (d', st')
  | turn_flush now olderThan d st : tid = None -> turn tid (d, st) (d, runFlushCycle now olderThan d st)
  | turn_embed e ctx tenantID payloads d st : tid = acting tenantID ->
      turn tid (d, st) ((processTenantBatch e ctx tenantID payloads d).1.1, st).

(** The service at work: turns, and runs of the decay worker, which ages the
    records of every tenant if its role may. *)
Inductive service_step : DB * store -> DB * store -> Prop :=
  | service_turn tid s s' : turn tid s s' -> service_step s s'
  | service_decay w ctx now d st : service_step (d, st) (decay bypassrls pgx_int4 w ctx now d, st).
Definition service : DB * store -> DB * store -> Prop := rtc service_step.

(** ** Lemmas *)

(** The database without a session and its messages. *)
Definition without_session (tid : option uuid) (t s : uuid) (d : DB) : DB :=
  set_messages (List.filter (fun r => negb (bool_decide (msg_SessionID (m_msg r) = s))))
    (set_sessions (List.filter (fun r => negb (policy tid (s_tenant r) && bool_decide (s_id r = s) && bool_decide (s_tenant r = t)))) d).

(** What a deletion finds: a session of the tenant, and no fact from its
    messages. *)
Record deletable (tid : option uuid) (t s : uuid) (d : DB) : Prop := {
  del_session : exists r, r ∈ sessions d /\ s_id r = s /\ s_tenant r = t /\ tid = Some t;
  del_facts f m : f ∈ entity_mentions d -> m ∈ messages d -> msg_SessionID (m_msg m) = s -> em_message f <> msg_ID (m_msg m);
}.

Lemma Delete_effect ctx t0 s0 d tid : (forall o, BeforeAcquire ctx = Ok o -> o = tid) ->
  (Delete ctx t0 s0 d).1 = d \/
  exists t s, to_uuid s0 = Ok s /\ deletable tid t s d /\ (Delete ctx t0 s0 d).1 = without_session tid t s d.
Proof.
  intros Htid. unfold Delete. destruct (BeforeAcquire ctx) as [o|]; [|by left]. rewrite (Htid o eq_refl). cbn [mbind result_bind].
  destruct (to_uuid s0) as [s|]; [|by left]. destruct (to_uuid t0) as [t|]; [|by left]. cbn [mbind result_bind].
  destruct (existsb _ (sessions d)) eqn:Es; [|by left]. destruct (existsb _ (messages d)) eqn:Em; [by left|]. right. exists t, s.
  split; [done|]. split; [|done]. split.
  - apply existsb_exists in Es as (r & Hr%list_elem_of_In & [[Hp%bool_decide_eq_true Hs%bool_decide_eq_true]%andb_true_iff Ht%bool_decide_eq_true]%andb_true_iff).
    exists r. split_and!; [done..|congruence].
  - intros f m Hf Hm Hs E. apply not_true_iff_false in Em. apply Em, existsb_exists. exists m. split; [by apply list_elem_of_In|].
    rewrite bool_decide_true by done. simpl. apply existsb_exists. exists f. split; [by apply list_elem_of_In|]. by apply bool_decide_eq_true.
Qed.

Lemma without_session_sound tid t s d : deletable tid t s d -> sound crypto d -> sound crypto (without_session tid t s d).
Proof.
  intros [_ Hf] [Cs Cm Ci Cr Cx Co Ct Cms Cf Ch Cv]. split; try done; simpl.
  - by apply NoDup_fmap_filter.
  - by apply NoDup_fmap_filter.
  - apply Forall_forall. intros m [Hm _]%elem_of_filter_bool. rewrite Forall_forall in Co. by apply Co.
  - apply Forall_forall. intros m [Hm Hs%negb_true_iff%bool_decide_eq_false]%elem_of_filter_bool. rewrite Forall_forall in Cms.
    apply Cms in Hm as Hr. apply list_elem_of_fmap in Hr as (r & Er & Hr). apply list_elem_of_fmap. exists r. split; [done|].
    apply elem_of_filter_bool. split; [done|]. rewrite (bool_decide_false (s_id r = s)) by congruence. by rewrite andb_false_r.
  - apply Forall_forall. intros f Hin. rewrite Forall_forall in Cf. pose proof (Cf f Hin) as (m & Em & Hm)%list_elem_of_fmap.
    apply list_elem_of_fmap. exists m. split; [done|]. apply elem_of_filter_bool. split; [done|].
    apply negb_true_iff, bool_decide_eq_false. intros Hs. by apply (Hf f m).
Qed.

(** *** Turns are writes *)

Lemma acting_parsed text t ctx o : uuid_Parse text = Some t -> BeforeAcquire (WithTenantID ctx t) = Ok o -> o = Some t.
Proof.
  intros Ht%uuid_Parse_canonical Ho%BeforeAcquire_acting. rewrite Ho. unfold acting. by rewrite to_uuid_canonical.
Qed.

Lemma append_writes e body st : writes crypto (body ≫= fun req => uuid_Parse (ar_TenantID req)) st.1
  (handleAppendMessages CognitiveBatch e body st).1.1.
Proof.
  destruct st as [d s]. destruct body as [req|]; [|apply writes_refl].
  destruct (handleAppendMessages_checks CognitiveBatch e req d s) as [(m & -> & _)|(t & u & ss & Hacc & ->)]; [apply writes_refl|].
  cbv zeta. assert (Et : uuid_Parse (ar_TenantID req) = Some t) by (unfold acceptable in Hacc; tauto). cbn [mbind option_bind]. rewrite Et.
  pose proof (InsertMessage_writes crypto (withTenant e t) (new_message e t u ss req) (e_db_now e) d (Some t)
    (fun o => acting_parsed _ t _ o Et)) as Hw.
  by destruct (InsertMessage _ _ _ d) as [d1 [?|?]].
Qed.

Lemma create_writes e body st : writes crypto (body ≫= fun req => uuid_Parse (sr_TenantID req)) st.1
  (handleCreateSession e body st).1.1.
Proof.
  destruct st as [d s]. unfold handleCreateSession. destruct body as [req|]; [|apply writes_refl]. cbn [mbind option_bind].
  destruct (negb _); [apply writes_refl|]. destruct (uuid_Parse (sr_TenantID req)) as [t|] eqn:Et; [|apply writes_refl].
  destruct (uuid_Parse (sr_UserID req)) as [u|]; [|apply writes_refl]. cbv zeta.
  set (session := mkSession _ _ _ _ _ _ _).
  pose proof (Create_writes crypto (withTenant e t) session (e_db_now e) d (Some t) (fun o => acting_parsed _ t _ o Et)) as Hw.
  by destruct (Create _ _ _ d) as [d1 [?|?]].
Qed.

Lemma feedback_writes e body st : writes crypto (body ≫= fun req => uuid_Parse (fr_TenantID req)) st.1 (handleFeedback e body st).1.1.
Proof.
  destruct st as [d s]. unfold handleFeedback. destruct body as [req|]; [|apply writes_refl]. cbn [mbind option_bind].
  destruct (negb _); [apply writes_refl|]. destruct (negb _); [apply writes_refl|].
  destruct (uuid_Parse (fr_TenantID req)) as [t|] eqn:Et; [|apply writes_refl].
  destruct (uuid_Parse (fr_UserID req)) as [u|]; [|apply writes_refl]. destruct (uuid_Parse (fr_ItemID req)); [|apply writes_refl].
  destruct (MemoryRepo.RecordFeedback _ _ _ _ _ _ d) as [d1|] eqn:Ed; [|apply writes_refl].
  eapply memory_feedback_writes; [|exact Ed]. intros o. by apply (acting_parsed (fr_TenantID req)).
Qed.

Lemma experience_feedback_turn_writes e i body st : writes crypto (body ≫= fun req => uuid_Parse (fr_TenantID req)) st.1
  (handleExperienceFeedback e i body st).1.1.
Proof.
  destruct st as [d s]. unfold handleExperienceFeedback. destruct (uuid_Parse i); [|apply writes_refl].
  destruct body as [req|]; [|apply writes_refl]. cbn [mbind option_bind].
  destruct (negb _); [apply writes_refl|]. destruct (negb _); [apply writes_refl|].
  destruct (uuid_Parse (fr_TenantID req)) as [t|] eqn:Et; [|apply writes_refl].
  destruct (uuid_Parse (fr_UserID req)) as [u|]; [|apply writes_refl].
  destruct (ExperienceRepo.RecordFeedback _ _ _ _ _ _ d) as [d1|] eqn:Ed; [|apply writes_refl].
  eapply experience_feedback_writes; [|exact Ed]. by eapply uuid_Parse_canonical.
Qed.

Lemma delete_experience_writes e i tenant_id user_id st : writes crypto (uuid_Parse tenant_id) st.1
  (handleDeleteExperience e i tenant_id user_id st).1.1.
Proof.
  destruct st as [d s]. unfold handleDeleteExperience. destruct (uuid_Parse i); [|apply writes_refl].
  destruct (uuid_Parse tenant_id) as [t|] eqn:Et; [|apply writes_refl]. destruct (uuid_Parse user_id) as [u|]; [|apply writes_refl].
  destruct (Deactivate _ _ _ _ _ d) as [d1|] eqn:Ed; [|apply writes_refl].
  eapply Deactivate_writes; [|exact Ed]. by eapply uuid_Parse_canonical.
Qed.

Lemma delete_session_effect e session_id tenant_id st :
  let d' := (handleDeleteSession e session_id tenant_id st).1.1 in
  d' = st.1 \/ exists t s, to_uuid session_id = Ok s /\ deletable (acting tenant_id) t s st.1 /\ d' = without_session (acting tenant_id) t s st.1.
Proof.
  destruct st as [d s]. unfold handleDeleteSession. destruct (uuid_Parse session_id); [|by left].
  destruct (uuid_Parse tenant_id); [|by left].
  pose proof (Delete_effect (withTenant e tenant_id) tenant_id session_id d (acting tenant_id) (BeforeAcquire_acting _ _)) as Hd.
  by destruct (Delete _ _ _ d) as [d1 [[]|]].
Qed.

Lemma usage_writes req exps now d : canonical (rq_TenantID req) -> writes crypto (Some (rq_TenantID req)) d (record_usages req exps now d).
Proof.
  intros Ht. unfold record_usages. revert d. induction exps as [|x exps IH]; intros d; simpl; [apply writes_refl|].
  eapply writes_trans; [|apply IH]. destruct (RecordUsage _ _ _ _ d) as [d1|] eqn:Ed; [|apply writes_refl].
  by eapply RecordUsage_writes.
Qed.

Lemma Record_writes tid ctx u d : writes crypto tid d (match Record ctx u d with Ok d' => d' | Err _ => d end).
Proof.
  unfold Record. destruct (Acquire ctx); cbn [mbind result_bind]; [|apply writes_refl].
  destruct (text_params _); cbn [mbind result_bind]; [|apply writes_refl]. destruct (_ && _); [|apply writes_refl].
  apply writes_one, write_usage.
Qed.

Lemma process_events_writes e ctx mp payloads d tid : (forall o, BeforeAcquire ctx = Ok o -> o = tid) ->
  writes crypto tid d (process_events e ctx mp payloads d).
Proof. intros Htid. unfold process_events. destruct payloads; [apply writes_refl|]. by apply UpsertEventBatch_writes. Qed.

Lemma process_persona_writes e ctx mp updates d tid : (forall o, BeforeAcquire ctx = Ok o -> o = tid) ->
  writes crypto tid d (process_persona e ctx mp updates d).
Proof.
  intros Htid. unfold process_persona. destruct updates as [|t l]; [apply writes_refl|].
  generalize (imap (fun i t => (re_trait_id e i, t)) (t :: l)). intros items.
  pose proof (UpsertPersona_writes crypto ctx (mp_TenantID mp) (mp_UserID mp) (mp_SessionID mp) items d tid Htid) as Hw.
  destruct (UpsertPersona _ _ _ _ items d) as [d1 ids]. cbn [fst] in Hw. case_decide; [done|].
  destruct (re_EmbedTraits e _); [|done]. eapply writes_trans; [exact Hw|]. by apply UpdatePersonaEmbeddingsBatch_writes.
Qed.

Lemma process_extraction_writes e ctx mp x d tid : sized_nonces e -> ranges e -> (forall o, BeforeAcquire ctx = Ok o -> o = tid) ->
  writes crypto tid d (process_extraction crypto e ctx mp x d).
Proof.
  intros Hn Hr Htid. unfold process_extraction. eapply writes_trans; [apply process_facts_writes; try done; apply uniqueFacts_keyed|].
  eapply writes_trans; [by apply process_events_writes|by apply process_persona_writes].
Qed.

Lemma cognitive_writes e ctx payload d st : sized_nonces e -> ranges e ->
  writes crypto (acting (bp_TenantID (Unmarshal dec_batch payload no_batch).1)) d
    (processBatchPayload key crypto CognitivePrompt e ctx payload st d).1.2.
Proof.
  intros Hn Hr. unfold processBatchPayload. destruct (Unmarshal dec_batch payload no_batch) as [p [?|err]]; [|apply writes_refl]. cbn [fst].
  destruct (fetch_messages _ _ d p _ st) as [st1 [[|m msgs]|err]]; [apply writes_refl| |apply writes_refl].
  cbn [process_messages]. destruct (re_Generate e _) as [[resp tokens]|err]; [|apply writes_refl].
  set (d0 := match Record _ _ d with Ok _ => _ | Err _ => _ end).
  assert (Hu : writes crypto (acting (bp_TenantID p)) d d0) by apply Record_writes. clearbody d0.
  destruct (Unmarshal dec_extraction _ _) as [x [?|err]]; [|done]. cbn [fst snd].
  eapply writes_trans; [exact Hu|]. apply process_extraction_writes; [done|done|]. intros o. apply BeforeAcquire_acting.
Qed.

Lemma experience_writes e ctx payload calls calls' d st d' st' r :
  processPayload key ExperiencePrompt e ctx payload calls st d = Some (st', calls', d', r) ->
  writes crypto (named (bp_TenantID (Unmarshal dec_window_batch payload no_batch).1)) d d'.
Proof.
  unfold processPayload. destruct (Unmarshal dec_window_batch payload no_batch) as [p [?|err]]; cbn [fst];
    [|intros [= <- <- <- <-]; apply writes_refl].
  destruct (fetch_messages _ _ d p _ st) as [st1 [[|m msgs]|err]]; try by (intros [= <- <- <- <-]; apply writes_refl).
  destruct (gate_open _ _); [|intros [= <- <- <- <-]; apply writes_refl].
  destruct (buildWindowTranscript _) as [window|]; [|done]. cbn [mbind option_bind].
  destruct (xe_Generate e _) as [[resp tokens]|err]; [|intros [= <- <- <- <-]; apply writes_refl]. unfold learn.
  destruct (Unmarshal dec_learned _ _) as [x [?|err]]; [|intros [= <- <- <- <-]; apply writes_refl].
  destruct (_ || _ || _); [intros [= <- <- <- <-]; apply writes_refl|].
  destruct (xe_Embed e _) as [v|err]; [|intros [= <- <- <- <-]; apply writes_refl].
  destruct (store_learned _ _ _ _ _ _ d) as [d1|err] eqn:E; intros [= <- <- <- <-]; [|apply writes_refl].
  eapply UpsertExperience_writes; [|exact E]. unfold named. by intros t' ->.
Qed.

Lemma embed_writes e ctx tenantID payloads d : writes crypto (acting tenantID) d (processTenantBatch e ctx tenantID payloads d).1.1.
Proof.
  unfold processTenantBatch. destruct (Query _ _) as [[|m records]|err]; try apply writes_refl.
  destruct (ee_EmbedBatch e _ _) as [embeddings|err]; [|apply writes_refl]. destruct (negb _); [apply writes_refl|]. cbn [fst snd].
  destruct (BeforeAcquire (WithTenantID ctx tenantID)) as [o|] eqn:Eo; [|apply writes_refl]. apply BeforeAcquire_acting in Eo as ->.
  apply SendBatch_writes, Forall_fmap, Forall_true. intros [x v] d1 d2. unfold set_embedding. simpl.
  intros (? & _ & [= <-])%result_bind_Ok. apply message_vectors_writes.
Qed.

(** A turn is a sequence of writes of its tenant, or deletes a session. *)
Lemma turn_effect tid s s' : turn tid s s' -> writes crypto tid s.1 s'.1 \/
  exists t i, deletable tid t i s.1 /\ s'.1 = without_session tid t i s.1.
Proof.
  intros [e body st ->|e body st ->|e sid t st ->|e body st ->|e i body st ->|e i t u st ->|e body req w now all d st st' r Hreq -> _|
    e ctx payload d st d' st' o Hr Hn -> Hp|e ctx payload calls calls' d st d' st' r -> Hp|now old d st ->|e ctx t payloads d st ->].
  - left. apply append_writes.
  - left. apply create_writes.
  - destruct (delete_session_effect e sid t st) as [E|(t' & i & _ & Hd & E)]; [left; rewrite E; apply writes_refl|right; eauto].
  - left. apply feedback_writes.
  - left. apply experience_feedback_turn_writes.
  - left. apply delete_experience_writes.
  - left. apply usage_writes. by apply context_request_canonical in Hreq as (? & _).
  - left. pose proof (cognitive_writes e ctx payload d st Hn Hr) as Hw. by rewrite Hp in Hw.
  - left. by eapply experience_writes.
  - left. apply writes_refl.
  - left. apply embed_writes.
Qed.

(** Ageing changes the importance of memory records. *)
Lemma decay_sound w ctx now d : sound crypto d -> sound crypto (decay bypassrls pgx_int4 w ctx now d).
Proof.
  destruct (decay_rows bypassrls pgx_int4 w ctx now d) as (l & -> & Hl). intros [Cs Cm Ci Cr Cx Co Ct Cms Cf Ch Cv].
  assert (Hsame : Forall2 same_memory (memory_records d) l).
  { eapply Forall2_impl; [exact Hl|]. by intros r r' [-> |(_ & _ & ->)]. }
  split; try done; simpl.
  - by rewrite (Forall2_fmap_same (mr_ID ∘ mem_rec) _ _ _ sm_id Hsame).
  - clear -Ct Hsame. induction Hsame as [|r r' k k' E _ IH]; [done|]. apply Forall_cons in Ct as [Hr Ct].
    constructor; [by rewrite (sm_type _ _ E)|by apply IH].
Qed.

Lemma decay_facts w ctx now d : entity_mentions (decay bypassrls pgx_int4 w ctx now d) = entity_mentions d.
Proof. by destruct (decay_rows bypassrls pgx_int4 w ctx now d) as (l & -> & _). Qed.

(** Without a write to the facts, soundness is enough. *)
Lemma consistent_same d d' : (sound crypto d -> sound crypto d') -> entity_mentions d' = entity_mentions d -> consistent crypto d ->
  consistent crypto d'.
Proof. intros Hs E [Hd Hk]. split; [by apply Hs|]. unfold current_rows. by rewrite E. Qed.

Lemma decay_remembered w ctx now d : remembered d (decay bypassrls pgx_int4 w ctx now d).
Proof.
  destruct (decay_rows bypassrls pgx_int4 w ctx now d) as (l & -> & Hl). split; simpl; try kept.
  intros r [i Hi]%list_elem_of_lookup. destruct (Forall2_lookup_l _ _ _ _ _ Hl Hi) as (r' & Hi' & Hr).
  exists r'. split; [by eapply list_elem_of_lookup_2|]. by destruct Hr as [-> |(_ & _ & ->)].
Qed.

Lemma service_step_keeps s s' : service_step s s' -> consistent crypto s.1 -> consistent crypto s'.1 /\ remembered s.1 s'.1.
Proof.
  intros [tid s1 s2 Ht|w ctx now d st] Hc; [|split; [|apply decay_remembered]].
  2: { apply (consistent_same d); [apply decay_sound|apply decay_facts|done]. }
  apply turn_effect in Ht as [Hw|(t & i & Hd & ->)].
  - split; [by eapply writes_consistent|by eapply writes_remembered].
  - split; [|by apply remembered_same]. by apply (consistent_same s1.1); [apply without_session_sound|..].
Qed.

(** ** Properties *)

(** C2: the invariant of the whole service.  Whatever requests and jobs are
    served, one at a time, in whatever order, and whatever the cache, the model
    providers and the clock answer, the database stays consistent: the ids of
    every table are unique, every message belongs to a session and every fact to
    a message, a fact that replaced another names one that is there, roles and
    types are those the schema allows, and every fact is one the validator
    accepts, at most one current of each key, with a value that decrypts to a
    text of its hash.  ([Interleave] has what remains of it when operations
    overlap.) *)
Theorem service_consistent s s' : service s s' -> consistent crypto s.1 -> consistent crypto s'.1.
Proof. induction 1 as [|s1 s2 s3 Hs _ IH]; [done|]. intros Hc. by apply IH, (service_step_keeps s1 s2). Qed.

(** Isolation of writes.  An operation that acts for one tenant leaves what
    every other tenant has as it is: sessions, facts, memory records,
    experiences, and messages, save that the deletion of a session of its own
    takes every message filed under it. *)
Theorem turn_isolated tid s s' t' : turn tid s s' -> tid <> Some t' ->
  visible (Some t') s_tenant (sessions s'.1) = visible (Some t') s_tenant (sessions s.1) /\
  visible (Some t') em_tenant (entity_mentions s'.1) = visible (Some t') em_tenant (entity_mentions s.1) /\
  visible (Some t') mem_tenant (memory_records s'.1) = visible (Some t') mem_tenant (memory_records s.1) /\
  visible (Some t') x_tenant (experiences s'.1) = visible (Some t') x_tenant (experiences s.1) /\
  (visible (Some t') m_tenant (messages s'.1) = visible (Some t') m_tenant (messages s.1) \/
   exists r, r ∈ sessions s.1 /\ tid = Some (s_tenant r) /\
     visible (Some t') m_tenant (messages s'.1) =
     List.filter (fun m => negb (bool_decide (msg_SessionID (m_msg m) = s_id r))) (visible (Some t') m_tenant (messages s.1))).
Proof.
  intros Ht Hne. apply turn_effect in Ht as [Hw|(t & i & [(r & Hr & Hi & Hrt & Etid) _] & ->)].
  - destruct (writes_others crypto tid t' _ _ Hne Hw) as [E1 E2 E3 E4 E5]. split_and!; auto.
  - simpl. split_and!; try done.
    + unfold visible. rewrite filter_filter_and. apply List.filter_ext. intros x. unfold policy.
      destruct (bool_decide (Some t' = Some (s_tenant x))) eqn:Ex; [|by rewrite andb_false_r].
      apply bool_decide_eq_true in Ex. rewrite (bool_decide_false (tid = _)) by congruence. done.
    + right. exists r. split_and!; [done|congruence|]. unfold visible. rewrite !filter_filter_and. apply List.filter_ext.
      intros x. by rewrite Hi, andb_comm.
Qed.

(** Nothing learned is lost.  However long the service runs, every fact that
    was ever stored is still on record, with its name, its value and its source,
    and once closed it never changes again; every memory record keeps its
    payload and every experience its owner.  (So a session can be deleted only
    as long as no fact came of it: [session_with_facts_stays].) *)
Theorem service_remembers s s' : service s s' -> consistent crypto s.1 -> remembered s.1 s'.1.
Proof.
  induction 1 as [|s1 s2 s3 Hs _ IH]; [done|]. intros Hc. destruct (service_step_keeps s1 s2 Hs Hc) as [Hc2 Hr].
  etransitivity; [exact Hr|by apply IH].
Qed.

(** A request to delete a session of which a fact was learned is answered with
    500, each time. *)
Theorem session_with_facts_stays e sid d st f m row : live (e_ctx e) -> canonical sid -> canonical (s_tenant row) ->
  row ∈ sessions d -> s_id row = sid -> m ∈ messages d -> msg_SessionID (m_msg m) = sid ->
  f ∈ entity_mentions d -> em_message f = msg_ID (m_msg m) ->
  handleDeleteSession e sid (s_tenant row) (d, st) = ((d, st), server_error "failed to delete session").
Proof.
  intros Hlive Hsid Ht Hrow Erow Hm Em Hf Ef. unfold handleDeleteSession. rewrite Hsid, Ht. unfold Delete, withTenant.
  rewrite BeforeAcquire_canonical, !to_uuid_canonical by done. cbn [mbind result_bind].
  rewrite (proj2 (existsb_exists _ (sessions d))); [|exists row; split; [by apply list_elem_of_In|]].
  - rewrite (proj2 (existsb_exists _ (messages d))); [done|]. exists m. split; [by apply list_elem_of_In|].
    rewrite (bool_decide_true (_ = sid)) by done. apply existsb_exists. exists f. split; [by apply list_elem_of_In|].
    by apply bool_decide_eq_true.
  - unfold policy. by rewrite !bool_decide_true by done.
Qed.
End Service.

(** ** Examples *)

Module SystemSample.
#[local] Existing Instances toy_uuid merge_order_by toy_search toy_crypto toy_jsonb.
#[local] Instance server : Redis := local_redis true.
#[local] Instance ascii_case : UnicodeCase := CognitiveSample.ascii_case.
Import CognitiveSample.

Definition no_int4 (_ : float64) : result Z := Err "cannot encode"%string.
Definition working : DB * store -> DB * store -> Prop := service key crypto "{{MESSAGE}}" "{{MESSAGE}}" 2 20 false no_int4.

(** A job, and a request to delete its session. *)
Definition before : DB * store := (CognitiveSample.db, ∅).
Definition learned : DB * store := (run.1.2, run.1.1).
Definition deleting : DB * store := (handleDeleteSession (RestSample.at_ 30 "x") "s" "t" learned).1.

Lemma before_consistent : consistent crypto before.1.
Proof. split; [split|]; try apply db_valid; try (vm_compute; repeat constructor; set_solver). Qed.

Lemma job_step : service_step key crypto "{{MESSAGE}}" "{{MESSAGE}}" 2 20 false no_int4 before learned.
Proof.
  apply (service_turn _ _ _ _ _ _ _ _ (Some "t"%string)).
  apply (turn_cognitive _ _ _ _ _ _ _ (env "a") Background (batch_text job) _ _ _ _ run.2);
    [apply env_ranges|apply env_sized|vm_compute; reflexivity|].
  change (run = (run.1.1, run.1.2, run.2)). by destruct run as [[st d] o].
Qed.

Lemma service_consistent_witness : consistent crypto learned.1 /\ length (entity_mentions learned.1) = 1%nat.
Proof.
  split; [|vm_compute; reflexivity].
  apply (service_consistent key crypto "{{MESSAGE}}" "{{MESSAGE}}" 2 20 false no_int4 before learned).
  - apply rtc_once. exact job_step.
  - exact before_consistent.
Defined.

Lemma service_remembers_witness : remembered learned.1 deleting.1 /\ length (entity_mentions deleting.1) = 1%nat.
Proof.
  split; [|vm_compute; reflexivity].
  apply (service_remembers key crypto "{{MESSAGE}}" "{{MESSAGE}}" 2 20 false no_int4 learned deleting).
  - apply rtc_once. apply (service_turn _ _ _ _ _ _ _ _ (acting "t")). by apply turn_delete_session.
  - exact (proj1 (service_step_keeps key crypto "{{MESSAGE}}" "{{MESSAGE}}" 2 20 false no_int4 before learned job_step before_consistent)).
Defined.

(** Tenant b has filed a message under a session of tenant t. *)
Definition strayed : DB :=
  mkDB [mkSessionRow "s" "t" "u" None "{}" 1 1; mkSessionRow "r" "b" "v" None "{}" 1 1]
    [mkMessageRow (mkMessage "m1" "b" "s" "v" "user" "hi" 1 1) None; mkMessageRow (mkMessage "m2" "b" "r" "v" "user" "hi" 1 2) None] [] [] [] [].

Lemma turn_isolated_witness :
  let after := (handleDeleteSession (RestSample.at_ 30 "x") "s" "t" (strayed, ∅)).1.1 in
  visible (Some "b"%string) s_tenant (sessions after) = visible (Some "b"%string) s_tenant (sessions strayed) /\
  (msg_ID ∘ m_msg <$> messages after) = ["m2"%string].
Proof.
  intros after. destruct (turn_isolated key crypto "{{MESSAGE}}" "{{MESSAGE}}" 2 20 (acting "t") (strayed, ∅)
    (handleDeleteSession (RestSample.at_ 30 "x") "s" "t" (strayed, ∅)).1 "b") as (Es & _).
  - by apply turn_delete_session.
  - vm_compute. discriminate.
  - split; [exact Es|vm_compute; reflexivity].
Defined.
End SystemSample.
