(* ===== verification/Interleave.v ===== *)
(** The service under any interleaving.  [System] lets the operations take turns;
    here their procedures ([Procedures]) run beside each other, an action at a
    time, in any order a scheduler may choose: requests of many clients, several
    workers, several processes. *)
From Stdlib Require Import Ascii String.
From S2P Require Import Prelude GoStd GoStrings Float64 Model Security Json GoJson Llm Db MessageRepo EntityRepo History MemoryRepo ExperienceRepo Streams Redis Cache Tenancy Retriever Rest Flusher ContextApi Embedder Cognitive Statements Experience Config Discovery Threads Procedures System.

Local Open Scope Z_scope.

(** A procedure of which only the effects matter. *)
Definition discard {S A} (p : proc S A) : proc S () := _ ← p; mret tt.

Section Service.
Context `{UuidLib, OrderBy, PgSearch, CryptoLib, Jsonb, UnicodeCase, Redis}.
Context (key : string) (crypto : Crypto) (CognitivePrompt ExperiencePrompt : string) (CognitiveBatch RecentMessagesLimit : Z).
Context (bypassrls : bool) (pgx_int4 : float64 -> result Z).

(** The operations of the service, with the tenant each acts for and the session
    it is to delete, if any; a handler that makes one call is one action. *)
Inductive operation (tid : option uuid) : option uuid -> procedure () -> Prop :=
  | op_append e body : tid = (body ≫= fun req => uuid_Parse (ar_TenantID req)) ->
      operation tid None (discard (append_message CognitiveBatch e body))
  | op_create_session e body : tid = (body ≫= fun req => uuid_Parse (sr_TenantID req)) ->
      operation tid None (discard (create_session e body))
  | op_delete_session e session_id tenant_id : tid = acting tenant_id ->
      operation tid (named session_id) (discard (act (handleDeleteSession e session_id tenant_id)))
  | op_feedback e body : tid = (body ≫= fun req => uuid_Parse (fr_TenantID req)) ->
      operation tid None (discard (act (handleFeedback e body)))
  | op_experience_feedback e experience_id body : tid = (body ≫= fun req => uuid_Parse (fr_TenantID req)) ->
      operation tid None (discard (act (handleExperienceFeedback e experience_id body)))
  | op_delete_experience e experience_id tenant_id user_id : tid = uuid_Parse tenant_id ->
      operation tid None (discard (act (handleDeleteExperience e experience_id tenant_id user_id)))
  | op_context e body req clock now exps : context_request body = inl req -> tid = Some (rq_TenantID req) ->
      operation tid None (get_context RecentMessagesLimit (withTenant e (rq_TenantID req)) req clock now exps)
  | op_cognitive e ctx payload : ranges e -> sized_nonces e ->
      tid = acting (bp_TenantID (Unmarshal dec_batch payload no_batch).1) ->
      operation tid None (discard (process_batch key crypto CognitivePrompt e ctx payload))
  | op_experience e ctx payload calls : tid = named (bp_TenantID (Unmarshal dec_window_batch payload no_batch).1) ->
      operation tid None (discard (process_window key ExperiencePrompt e ctx payload calls))
  | op_flush now olderThan : tid = None -> operation tid None (flush_cycle now olderThan)
  | op_embed e ctx tenantID payloads : tid = acting tenantID -> operation tid None (discard (embed_tenant e ctx tenantID payloads)).

(** The service's operations, and the decay worker's runs. *)
Inductive running : procedure () -> Prop :=
  | running_operation tid gone p : operation tid gone p -> running p
  | running_decay w ctx now : running (on_db (fun d => (decay bypassrls pgx_int4 w ctx now d, tt))).

(** ** Every turn is an operation run alone *)

Lemma perform_discard {S A} (p : proc S A) s : perform (discard p) s = ((perform p s).1, tt).
Proof. unfold discard. by rewrite perform_bind. Qed.

Lemma turn_operation tid s s' : turn key crypto CognitivePrompt ExperiencePrompt CognitiveBatch RecentMessagesLimit tid s s' ->
  exists gone p, operation tid gone p /\ (perform p s).1 = s'.
Proof.
  intros [e body st Ht|e body st Ht|e i t st Ht|e body st Ht|e i body st Ht|e i t u st Ht|e body req w now all d st st' r Hreq Ht Hg|
    e ctx payload d st d' st' o Hr Hn Ht Hp|e ctx payload calls calls' d st d' st' r Ht Hp|now old d st Ht|e ctx t payloads d st Ht].
  - eexists _, _. split; [by apply op_append|]. by rewrite perform_discard, append_message_alone.
  - eexists _, _. split; [by apply op_create_session|]. by rewrite perform_discard, create_session_alone.
  - eexists _, _. split; [by apply op_delete_session|]. by rewrite perform_discard, perform_act.
  - eexists _, _. split; [by apply op_feedback|]. by rewrite perform_discard, perform_act.
  - eexists _, _. split; [by apply op_experience_feedback|]. by rewrite perform_discard, perform_act.
  - eexists _, _. split; [by apply op_delete_experience|]. by rewrite perform_discard, perform_act.
  - eexists _, _. split; [by apply (op_context _ e body req (clock w) now (used_experiences key (withTenant e (rq_TenantID req)) req w))|].
    rewrite get_context_alone. inversion Hg as [st1 recent b Hrec _ E]. subst. by rewrite Hrec.
  - eexists _, _. split; [by apply op_cognitive|]. by rewrite perform_discard, process_batch_alone, Hp.
  - eexists _, _. split; [by apply (op_experience _ e ctx payload calls)|]. rewrite perform_discard.
    pose proof (process_window_alone key ExperiencePrompt e ctx payload calls d st) as E. rewrite Hp in E. by rewrite E.
  - eexists _, _. split; [by apply op_flush|]. by rewrite flush_cycle_alone.
  - eexists _, _. split; [by apply (op_embed _ e ctx t payloads)|]. rewrite perform_discard, embed_tenant_alone.
    by destruct (processTenantBatch e ctx t payloads d) as [[d' published] r].
Qed.

(** ** What an action may do *)

(** Writes of the tenant, from snapshots that may be old, or the deletion of
    session [gone] of the tenant. *)
Definition overlapped (tid : option uuid) : DB -> DB -> Prop := rtc (write crypto true tid).
Definition written (tid : option uuid) (st st' : DB * store) : Prop := overlapped tid st.1 st'.1.
Definition effect (tid gone : option uuid) (st st' : DB * store) : Prop :=
  written tid st st' \/ exists t i, gone = Some i /\ deletable tid t i st.1 /\ st'.1 = without_session tid t i st.1.

Lemma writes_overlapped tid d d' : writes crypto tid d d' -> overlapped tid d d'.
Proof.
  induction 1 as [|d1 d2 d3 Hw _ IH]; [apply rtc_refl|]. eapply rtc_l; [|exact IH]. clear -Hw.
  destruct Hw; [by apply write_session|by apply write_message|by apply write_vectors|by eapply write_fact; [| intros [=]|]|by apply write_fact_vectors|
    by apply write_memory|by apply write_memories|by apply write_experience|by apply write_experiences|apply write_usage].
Qed.

Lemma written_writes tid st st' : writes crypto tid st.1 st'.1 -> written tid st st'.
Proof. apply writes_overlapped. Qed.

Lemma obeys_read {A} tid (f : DB -> A) : obeys (written tid) (read f).
Proof. apply obeys_act. intros st. apply written_writes, writes_refl. Qed.

Lemma obeys_redis {A} tid (f : store -> store * A) : obeys (written tid) (on_redis f).
Proof. apply obeys_act. intros [d st]. destruct (f st). apply written_writes, writes_refl. Qed.

Lemma obeys_on_db {A} tid (f : DB -> DB * A) : (forall d, writes crypto tid d (f d).1) -> obeys (written tid) (on_db f).
Proof. intros Hf. apply obeys_act. intros [d st]. apply written_writes. specialize (Hf d). by destruct (f d). Qed.

Lemma obeys_try_db tid (f : DB -> result DB) : (forall d d', f d = Ok d' -> writes crypto tid d d') -> obeys (written tid) (try_db f).
Proof. intros Hf. apply obeys_on_db. intros d. destruct (f d) eqn:E; [by apply Hf|apply writes_refl]. Qed.

Lemma obeys_handler tid (h : DB * store -> DB * store * response) : (forall st, writes crypto tid st.1 (h st).1.1) ->
  obeys (written tid) (discard (act h)).
Proof. intros Hh. apply obeys_bind; [|done]. apply obeys_act. intros st. by apply written_writes. Qed.

Lemma obeys_discard {A} tid (p : procedure A) : obeys (written tid) p -> obeys (written tid) (discard p).
Proof. intros Hp. by apply obeys_bind. Qed.

(** *** The handlers *)

Lemma append_messages_obeys tid ctx now t s msgs : obeys (written tid) (append_messages ctx now t s msgs).
Proof.
  apply obeys_bind; [apply obeys_redis|]. intros r. repeat case_match; try done;
    repeat (apply obeys_bind; [apply obeys_redis || apply obeys_read|intros ?]); done.
Qed.

Lemma publish_full_obeys tid ctx now req i r : obeys (written tid) (publish_full CognitiveBatch ctx now req i r).
Proof.
  destruct r as [count|]; [|done]. cbn [publish_full]. cbv zeta. case_match; [|done].
  repeat (apply obeys_bind; [apply obeys_redis|intros ?]). done.
Qed.

Lemma append_obeys e body : obeys (written (body ≫= fun req => uuid_Parse (ar_TenantID req))) (append_message CognitiveBatch e body).
Proof.
  destruct body as [req|]; [|done]. unfold append_message. cbn [mbind option_bind]. case_match; [done|]. case_match; [done|]. case_match; [done|].
  destruct (uuid_Parse (ar_TenantID req)) as [t|] eqn:Et; [|done]. destruct (uuid_Parse (ar_UserID req)) as [u|]; [|done].
  destruct (uuid_Parse (ar_SessionID req)) as [s|]; [|done]. cbv zeta. apply obeys_bind.
  - apply obeys_on_db. intros d. apply InsertMessage_writes. intros o. by apply (acting_parsed (ar_TenantID req)).
  - intros [?|?]; [|done]. apply obeys_bind; [apply append_messages_obeys|]. intros _. apply obeys_bind; [|done].
    apply obeys_bind; [destruct (decide (ar_Role req = "user"%string)); [apply obeys_redis|done]|]. intros r. apply publish_full_obeys.
Qed.

Lemma flush_previous_obeys tid ctx now t u x : obeys (written tid) (flush_previous_sessions ctx now t u x).
Proof.
  apply obeys_bind; [apply obeys_read|]. intros [l|]; [|done]. apply obeys_bind; [|done]. apply obeys_mapM. intros sess.
  unfold flush_previous_session. cbv zeta. case_decide; [done|]. apply obeys_bind; [apply obeys_redis|]. intros [count|]; [|done].
  case_match; [done|]. apply obeys_bind; [apply obeys_read|]. intros [[|m h]|]; [done| |done].
  repeat (apply obeys_bind; [apply obeys_redis|intros ?]). done.
Qed.

Lemma create_obeys e body : obeys (written (body ≫= fun req => uuid_Parse (sr_TenantID req))) (create_session e body).
Proof.
  destruct body as [req|]; [|done]. unfold create_session. cbn [mbind option_bind]. case_match; [done|].
  destruct (uuid_Parse (sr_TenantID req)) as [t|] eqn:Et; [|done]. destruct (uuid_Parse (sr_UserID req)) as [u|]; [|done].
  cbv zeta. apply obeys_bind.
  - apply obeys_on_db. intros d. apply Create_writes. intros o. by apply (acting_parsed (sr_TenantID req)).
  - intros [?|?]; [|done]. apply obeys_bind; [apply flush_previous_obeys|done].
Qed.

Lemma delete_obeys e i t : obeys (effect (acting t) (named i)) (discard (act (handleDeleteSession e i t))).
Proof.
  apply obeys_bind; [|done]. apply obeys_act. intros st. destruct (delete_session_effect e i t st) as [E|(t' & s & Es & ?)]; [|right; exists t', s; unfold named; by rewrite Es].
  left. unfold written, state in *. rewrite E. apply rtc_refl.
Qed.

(** *** Reading a context *)

Lemma get_raw_messages_obeys tid ctx now t s count : obeys (written tid) (get_raw_messages ctx now t s count).
Proof. apply obeys_bind; [apply obeys_redis|]. intros r. repeat case_match; try done; apply obeys_read. Qed.

Lemma get_context_obeys ctx req clock now exps : canonical (rq_TenantID req) ->
  obeys (written (Some (rq_TenantID req))) (get_context RecentMessagesLimit ctx req clock now exps).
Proof.
  intros Ht. apply obeys_bind.
  - unfold recent. case_match; [|done]. repeat case_match; try done; (apply obeys_bind; [apply get_raw_messages_obeys|done]).
  - intros _. apply obeys_bind; [|done]. apply obeys_mapM. intros x. apply obeys_try_db. intros d d' Hd. by eapply RecordUsage_writes.
Qed.

(** *** The workers *)

Lemma flush_cycle_obeys tid now olderThan : obeys (written tid) (flush_cycle now olderThan).
Proof.
  apply obeys_bind; [apply obeys_redis|]. intros [[]|]; try done. apply obeys_bind; [apply obeys_redis|]. intros [l|]; [|done].
  apply obeys_bind; [|done]. apply obeys_mapM. intros m. unfold flush_inactive. repeat (case_match; try done).
  apply obeys_bind; [apply obeys_redis|]. intros [count|]; [|done]. case_match; [apply obeys_bind; [apply obeys_redis|done]|].
  apply obeys_bind; [apply obeys_read|]. intros [[|x h]|];
    repeat (apply obeys_bind; [apply obeys_redis|intros ?]); done.
Qed.

Lemma fetch_obeys tid ctx now p size : obeys (written tid) (fetch ctx now p size).
Proof.
  apply obeys_bind.
  - unfold get_raw_messages_until. case_decide; [apply get_raw_messages_obeys|]. apply obeys_bind; [apply obeys_redis|done].
  - intros [[|m l]|]; try done; apply obeys_read.
Qed.

Lemma upsert_stmts_overlapped tid now mp own items d :
  Forall (fun x => sealed crypto mp x.1.1.1.2 x.1.1.2 /\ x.1.2 = ValueHash (xf_Value x.1.1.1.2)) items ->
  overlapped tid d (SendBatch (upsert_stmts_at tid now mp own items) d).
Proof.
  intros Hs. apply (SendBatch_ind (overlapped tid d)); [|apply rtc_refl]. revert own.
  induction Hs as [|x items [Hseal Eh] _ IH]; intros own; [constructor|]. destruct x as [[[[id f] enc] h] seen]. simpl in Hseal, Eh. subst h.
  constructor; [|apply IH].
  intros d1 d2 Hd1 Hd2. eapply rtc_r; [exact Hd1|]. eapply write_fact; [exact Hseal|intros [=]|exact Hd2].
Qed.

Lemma upsert_batch_obeys tid ctx now mp items : (forall o, BeforeAcquire ctx = Ok o -> o = tid) ->
  Forall (fun x => sealed crypto mp x.1.1.2 x.1.2 /\ x.2 = ValueHash (xf_Value x.1.1.2)) items ->
  obeys (written tid) (upsert_batch ctx now mp items).
Proof.
  intros Htid Hs. eapply (follows_bind _ _ _ (Forall2 (fun x y => y.1 = x) items)).
  - apply follows_mapM. intros x. eapply follows_bind; [apply obeys_read|]. done.
  - intros seen Hseen. apply obeys_act. intros [d st]. unfold UpsertFactBatch_at.
    destruct (BeforeAcquire ctx) as [o|]; [|apply rtc_refl]. rewrite (Htid o eq_refl). apply upsert_stmts_overlapped.
    clear -Hs Hseen. induction Hseen as [|x y l k E _ IH]; [constructor|]. apply Forall_cons in Hs as [Hx Hs].
    constructor; [by rewrite E|by apply IH].
Qed.

Lemma store_facts_obeys tid e ctx mp facts : sized_nonces e -> ranges e -> keyed_facts facts ->
  (forall o, BeforeAcquire ctx = Ok o -> o = tid) -> obeys (written tid) (store_facts crypto e ctx mp facts).
Proof.
  intros Hn Hr Hm Htid. unfold store_facts.
  pose proof (fun id f enc h => encrypt_facts_sealed crypto e mp facts id f enc h Hn Hr Hm) as Hseal.
  destruct (encrypt_facts _ _ _ _) as [|x items]; [done|]. cbv zeta. apply obeys_bind.
  - apply upsert_batch_obeys; [done|]. apply Forall_forall. intros [[[id f] enc] h] Hin. by eapply Hseal.
  - intros _. case_match; [|done]. apply obeys_bind; [|done]. apply obeys_on_db. intros d. by apply UpdateFactEmbeddingsBatch_writes.
Qed.

Lemma store_persona_obeys tid e ctx mp updates : (forall o, BeforeAcquire ctx = Ok o -> o = tid) ->
  obeys (written tid) (store_persona e ctx mp updates).
Proof.
  intros Htid. unfold store_persona. destruct updates as [|t l]; [done|]. apply obeys_bind.
  - generalize (imap (fun i t => (re_trait_id e i, t)) (t :: l)). intros items.
    induction items as [|[[id now] trait] items IH]; [done|]. cbn [insert_traits]. cbv zeta. case_decide; [done|].
    apply obeys_bind; [|intros r; by apply obeys_bind]. apply obeys_try_db. intros d d'. by apply insert_trait_writes.
  - intros ids. case_decide; [done|]. case_match; [|done]. apply obeys_bind; [|done]. apply obeys_on_db. intros d.
    by apply UpdatePersonaEmbeddingsBatch_writes.
Qed.

Lemma process_batch_obeys e ctx payload : ranges e -> sized_nonces e ->
  obeys (written (acting (bp_TenantID (Unmarshal dec_batch payload no_batch).1))) (process_batch key crypto CognitivePrompt e ctx payload).
Proof.
  intros Hr Hn. unfold process_batch. destruct (Unmarshal dec_batch payload no_batch) as [p [?|err]]; [|done]. cbn [fst]. cbv zeta.
  apply obeys_bind; [apply fetch_obeys|]. intros [[|m msgs]|]; try done. apply obeys_bind; [apply obeys_read|]. intros prompt.
  destruct (re_Generate e _) as [[resp tokens]|]; [|done]. cbv zeta. apply obeys_bind.
  { apply obeys_try_db. intros d d' Hd. pose proof (Record_writes crypto (acting (bp_TenantID p)) (WithTenantID ctx (bp_TenantID p))) as Hw.
    match type of Hd with Record _ ?u _ = _ => specialize (Hw u d) end. by rewrite Hd in Hw. }
  intros _. destruct (Unmarshal dec_extraction _ _) as [x [?|err]]; [|done]. apply obeys_bind; [|done].
  apply obeys_bind; [apply store_facts_obeys; [done|done|apply uniqueFacts_keyed|apply BeforeAcquire_acting]|]. intros _.
  apply obeys_bind; [|intros _; apply store_persona_obeys, BeforeAcquire_acting].
  unfold store_events. case_match; [done|]. apply obeys_bind; [|done]. apply obeys_on_db. intros d.
  apply UpsertEventBatch_writes, BeforeAcquire_acting.
Qed.

Lemma process_window_obeys e ctx payload calls :
  obeys (written (named (bp_TenantID (Unmarshal dec_window_batch payload no_batch).1))) (process_window key ExperiencePrompt e ctx payload calls).
Proof.
  unfold process_window. destruct (Unmarshal dec_window_batch payload no_batch) as [p [?|err]]; [|done]. cbn [fst]. cbv zeta.
  apply obeys_bind; [apply fetch_obeys|]. intros [[|m msgs]|]; try done. case_match; [|done]. case_match; [|done].
  apply obeys_bind; [apply obeys_read|]. intros prompt. destruct (xe_Generate e _) as [[resp tokens]|]; [|done].
  apply obeys_bind; [|done]. unfold learn_from. destruct (Unmarshal dec_learned _ _) as [x [?|err]]; [|done].
  case_match; [done|]. destruct (xe_Embed e _); [|done]. apply obeys_bind; [|done]. apply obeys_bind; [apply obeys_read|].
  intros found. apply obeys_try_db. intros d d' Hd. eapply UpsertExperience_writes; [|exact Hd]. unfold named. by intros t' ->.
Qed.

Lemma embed_obeys e ctx t payloads : obeys (written (acting t)) (embed_tenant e ctx t payloads).
Proof.
  apply obeys_bind; [apply obeys_read|]. intros [[|m records]|]; try done. case_match; [|done]. case_match; [done|].
  apply obeys_bind; [|done]. apply obeys_on_db. intros d. cbn [fst].
  destruct (BeforeAcquire (WithTenantID ctx t)) as [o|] eqn:Eo; [|apply writes_refl]. apply BeforeAcquire_acting in Eo as ->.
  apply SendBatch_writes, Forall_fmap, Forall_true. intros [x v] d1 d2. unfold set_embedding. simpl.
  intros (? & _ & [= <-])%result_bind_Ok. apply message_vectors_writes.
Qed.

(** Every operation keeps to writes of its tenant, whatever runs beside it, but
    for the deletion of a session. *)
Lemma operation_cases tid gone p : operation tid gone p -> obeys (written tid) p \/
  exists e i t, p = discard (act (handleDeleteSession e i t)) /\ tid = acting t /\ gone = named i.
Proof.
  intros [e body ->|e body ->|e i t ->|e body ->|e i body ->|e i t u ->|e body req clock now exps Hreq ->|e ctx payload Hr Hn ->|
    e ctx payload calls ->|now old ->|e ctx t payloads ->].
  3: right; by eexists _, _, _.
  all: left.
  - apply obeys_discard, append_obeys.
  - apply obeys_discard, create_obeys.
  - apply obeys_handler. intros st. apply feedback_writes.
  - apply obeys_handler. intros st. apply experience_feedback_turn_writes.
  - apply obeys_handler. intros st. apply delete_experience_writes.
  - apply get_context_obeys. by apply context_request_canonical in Hreq as (? & _).
  - by apply obeys_discard, process_batch_obeys.
  - apply obeys_discard, process_window_obeys.
  - apply flush_cycle_obeys.
  - apply obeys_discard, embed_obeys.
Qed.

Lemma operation_obeys tid gone p : operation tid gone p -> obeys (effect tid gone) p.
Proof.
  intros [Hw|(e & i & t & -> & -> & ->)]%operation_cases; [|apply delete_obeys].
  eapply obeys_mono; [|exact Hw]. intros s s' Hs. by left.
Qed.

(** *** What an action keeps *)

Lemma overlapped_sound tid d d' : overlapped tid d d' -> sound crypto d -> sound crypto d' /\ remembered d d'.
Proof.
  induction 1 as [|d1 d2 d3 Hw _ IH]; [done|]. intros Hd. assert (Hd2 : sound crypto d2) by by eapply write_sound.
  destruct (IH Hd2) as [Hd3 Hr]. split; [done|]. etransitivity; [|exact Hr]. eapply write_remembered; [apply Hd|exact Hw].
Qed.

Lemma overlapped_others tid t' d d' : tid <> Some t' -> overlapped tid d d' -> others_same t' d d'.
Proof. intros Hne. induction 1 as [|d1 d2 d3 Hw _ IH]; [done|]. etransitivity; [by eapply write_others|done]. Qed.

(** A step of the service. *)
Definition service_action (st st' : DB * store) : Prop :=
  (exists tid gone, effect tid gone st st') \/ exists w ctx now, st'.1 = decay bypassrls pgx_int4 w ctx now st.1.

Lemma running_obeys p : running p -> obeys service_action p.
Proof.
  intros [tid gone p' Hp|w ctx now].
  - eapply obeys_mono; [|by eapply operation_obeys]. intros s s' He. left. eauto.
  - apply obeys_act. intros [d st]. right. by exists w, ctx, now.
Qed.

Lemma effect_sound tid gone st st' : effect tid gone st st' -> sound crypto st.1 -> sound crypto st'.1 /\ remembered st.1 st'.1.
Proof.
  intros [Ho|(t & i & _ & Hd & ->)] Hs; [by eapply overlapped_sound|]. split; [by apply without_session_sound|by apply remembered_same].
Qed.

Lemma service_action_sound st st' : service_action st st' -> sound crypto st.1 -> sound crypto st'.1 /\ remembered st.1 st'.1.
Proof.
  intros [(tid & gone & He)|(w & ctx & now & ->)] Hs; [by eapply effect_sound|].
  split; [by apply decay_sound|apply decay_remembered].
Qed.

Lemma running_sound ps sched st : Forall running ps -> sound crypto st.1 ->
  sound crypto (interleave sched (ps, st)).2.1 /\ remembered st.1 (interleave sched (ps, st)).2.1.
Proof.
  intros Hps Hs. assert (Hr : rtc service_action st (interleave sched (ps, st)).2).
  { apply (interleave_obeys _ sched (ps, st)). eapply Forall_impl; [exact Hps|]. apply running_obeys. }
  revert Hr Hs. generalize (interleave sched (ps, st)).2. intros st'. induction 1 as [|s1 s2 s3 Ha _ IH]; [done|]. intros Hs.
  destruct (service_action_sound _ _ Ha Hs) as [Hs2 Hr2]. destruct (IH Hs2) as [Hs3 Hr3]. split; [done|]. by etransitivity.
Qed.

(** What an operation of another tenant leaves of tenant [t']'s rows. *)
Record untouched (t' : uuid) (d d' : DB) : Prop := {
  ut_sessions : visible (Some t') s_tenant (sessions d') = visible (Some t') s_tenant (sessions d);
  ut_facts : visible (Some t') em_tenant (entity_mentions d') = visible (Some t') em_tenant (entity_mentions d);
  ut_memories : visible (Some t') mem_tenant (memory_records d') = visible (Some t') mem_tenant (memory_records d);
  ut_experiences : visible (Some t') x_tenant (experiences d') = visible (Some t') x_tenant (experiences d);
  ut_messages : visible (Some t') m_tenant (messages d') `sublist_of` visible (Some t') m_tenant (messages d);
}.

#[local] Instance untouched_preorder t' : PreOrder (untouched t').
Proof. split; [by split|]. intros d1 d2 d3 [? ? ? ? ?] [? ? ? ? ?]. split; try congruence. by etransitivity. Qed.

Lemma effect_untouched tid gone t' st st' : tid <> Some t' -> effect tid gone st st' -> untouched t' st.1 st'.1.
Proof.
  intros Hne [Ho|(t & i & _ & [(r & _ & _ & Hrt & Etid) _] & ->)].
  - destruct (overlapped_others tid t' _ _ Hne Ho) as [E1 E2 E3 E4 E5]. split; try done. by rewrite E2.
  - split; try done; simpl.
    + unfold visible. rewrite filter_filter_and. apply List.filter_ext. intros x. unfold policy.
      destruct (bool_decide (Some t' = Some (s_tenant x))) eqn:Ex; [|by rewrite andb_false_r].
      apply bool_decide_eq_true in Ex. rewrite (bool_decide_false (tid = _)) by congruence. done.
    + unfold visible. rewrite filter_filter_and. induction (messages st.1) as [|m l IH]; [done|]. simpl.
      destruct (policy (Some t') (m_tenant m)) eqn:Ep; simpl; [|by rewrite andb_false_r].
      rewrite andb_true_r. destruct (negb _); [by apply sublist_skip|by apply sublist_cons].
Qed.

(** The messages of tenant [t'] that satisfy [p]. *)
Definition messages_that (p : MessageRow -> bool) (t' : uuid) (d : DB) : list MessageRow :=
  List.filter p (visible (Some t') m_tenant (messages d)).
(** Filed under a session that none of [gone] is; under a session of the tenant
    itself. *)
Definition not_under (gone : list uuid) (m : MessageRow) : bool := negb (bool_decide (msg_SessionID (m_msg m) ∈ gone)).
Definition under_own (t' : uuid) (d : DB) (m : MessageRow) : bool :=
  bool_decide (msg_SessionID (m_msg m) ∈ s_id <$> visible (Some t') s_tenant (sessions d)).

Lemma effect_messages tid gone t' p st st' : tid <> Some t' -> effect tid gone st st' ->
  (forall t i m, gone = Some i -> deletable tid t i st.1 -> p m = true -> msg_SessionID (m_msg m) <> i) ->
  messages_that p t' st'.1 = messages_that p t' st.1.
Proof.
  intros Hne [Ho|(t & i & Eg & Hd & ->)] Hp; unfold messages_that.
  - destruct (overlapped_others tid t' _ _ Hne Ho) as [_ E _ _ _]. by rewrite E.
  - simpl. unfold visible. rewrite !filter_filter_and. apply List.filter_ext. intros m. destruct (p m) eqn:Em; [|by rewrite !andb_false_r].
    rewrite (bool_decide_false (_ = i)) by by apply (Hp t i m). by rewrite !andb_true_r.
Qed.

(** A session another tenant can delete is not one of [t']'s. *)
Lemma deletable_not_own tid t t' i d m : tid <> Some t' -> sound crypto d -> deletable tid t i d -> under_own t' d m = true ->
  msg_SessionID (m_msg m) <> i.
Proof.
  intros Hne Hs [(r & Hr & Hi & Hrt & Etid) _] Hm%bool_decide_eq_true E. rewrite E in Hm.
  apply list_elem_of_fmap in Hm as (r' & Hi' & [Hr' Ht']%elem_of_visible). apply Hne.
  assert (r' = r) as -> by (apply (NoDup_fmap_eq s_id (sessions d)); [apply Hs|done|done|congruence]).
  congruence.
Qed.

(** ** Properties *)

(** Taking turns is one of the interleavings.  Whatever [System.service] can
    reach, a schedule of operations reaches, each with its actions together; so
    what holds under any interleaving holds of the service. *)
Theorem service_interleaves s s' :
  service key crypto CognitivePrompt ExperiencePrompt CognitiveBatch RecentMessagesLimit bypassrls pgx_int4 s s' ->
  exists ps sched, Forall running ps /\ forallb finished (interleave sched (ps, s)).1 = true /\ (interleave sched (ps, s)).2 = s'.
Proof.
  induction 1 as [s|s1 s2 s3 Hstep _ (ps & sched & Hps & Hfin & Hs)]; [by exists [], []|].
  assert (Hp : exists p, running p /\ (perform p s1).1 = s2).
  { destruct Hstep as [tid s1 s2 (gone & p & Hp & E)%turn_operation|w ctx now d st]; [exists p; split; [by eapply running_operation|done]|].
    eexists. split; [apply (running_decay w ctx now)|]. by rewrite perform_on_db. }
  destruct Hp as (p & Hp & E). destruct (interleave_alone 0 p (p :: ps) s1 eq_refl) as [n Hn].
  exists (p :: ps), (replicate n 0%nat ++ (Datatypes.S <$> sched)). rewrite interleave_app, Hn, E. cbn [list_insert insert list_insert].
  rewrite interleave_cons. split; [by constructor|]. by split.
Qed.

(** C3: the invariant of the service under any interleaving.  However the actions
    of any number of operations are ordered, ids stay unique, every message
    belongs to a session and every fact to a message, each fact is one the
    validator accepts and its value decrypts to a text of its hash; the closed
    facts of a key form chains, each replaced by exactly one later row of the
    same key with another value; and nothing learned is lost. *)
Theorem interleaved_sound ps sched st : Forall running ps -> sound crypto st.1 ->
  sound crypto (interleave sched (ps, st)).2.1 /\ remembered st.1 (interleave sched (ps, st)).2.1.
Proof. apply running_sound. Qed.

(** C4: isolation of writes under any interleaving.  Whatever operations of other
    tenants run beside each other, a tenant's sessions, facts, memory records
    and experiences stay as they are, and it gets no new messages; those of its
    messages that are not filed under a session one of the operations is to
    delete are all still there, as they were, and so are, in a sound database,
    those filed under its own sessions.  (A message can be filed under another
    tenant's session, and goes when that is deleted.) *)
Theorem interleaved_isolated t' gone ps sched st :
  Forall (fun p => exists tid g, tid <> Some t' /\ (forall s, g = Some s -> s ∈ gone) /\ operation tid g p) ps ->
  let d' := (interleave sched (ps, st)).2.1 in
  untouched t' st.1 d' /\
  messages_that (not_under gone) t' d' = messages_that (not_under gone) t' st.1 /\
  (sound crypto st.1 -> messages_that (under_own t' st.1) t' d' = messages_that (under_own t' st.1) t' st.1).
Proof.
  intros Hps. assert (Hr : rtc (fun s s' => exists tid g, tid <> Some t' /\ (forall s, g = Some s -> s ∈ gone) /\ effect tid g s s')
    st (interleave sched (ps, st)).2).
  { apply (interleave_obeys _ sched (ps, st)). eapply Forall_impl; [exact Hps|]. intros p (tid & g & Hne & Hg & Hp). cbn beta.
    eapply obeys_mono; [|by eapply operation_obeys]. intros s s' He. by exists tid, g. }
  revert Hr. generalize (interleave sched (ps, st)).2. cbv zeta. intros st'. induction 1 as [|s1 s2 s3 (tid & g & Hne & Hg & Ha) _ IH]; [done|].
  destruct IH as (IHu & IHg & IHo). pose proof (effect_untouched tid g t' _ _ Hne Ha) as Hu. split_and!.
  - by etransitivity.
  - rewrite IHg. apply (effect_messages tid g t' _ _ _ Hne Ha). intros t i m Eg _ Hm%negb_true_iff%bool_decide_eq_false E.
    apply Hm. rewrite E. by apply Hg.
  - intros Hs. assert (Hs2 : sound crypto s2.1) by by eapply effect_sound.
    unfold under_own at 1. rewrite <-(ut_sessions _ _ _ Hu). fold (under_own t' s2.1). rewrite (IHo Hs2). unfold under_own at 1.
    rewrite (ut_sessions _ _ _ Hu). apply (effect_messages tid g t' _ _ _ Hne Ha). intros t i m _ Hd. by apply (deletable_not_own tid t t').
Qed.
End Service.

(** ** Examples *)

Module InterleaveSample.
#[local] Existing Instances toy_uuid merge_order_by toy_search toy_crypto toy_jsonb.
#[local] Instance server : Redis := local_redis true.
#[local] Instance ascii_case : UnicodeCase := CognitiveSample.ascii_case.
Import CognitiveSample.

(** One job, delivered to two workers at once. *)
Definition delivered (c : string) : procedure () :=
  discard (process_batch key crypto "{{MESSAGE}}" (env c) Background (batch_text job)).
Definition workers : list (procedure ()) := [delivered "a"; delivered "b"].
(** The two take turns. *)
Definition alternating : list nat := concat (replicate 12 [0; 1]%nat).
Definition before : DB * store := (CognitiveSample.db, ∅).
Definition after : pool (DB * store) () := interleave alternating (workers, before).

Definition running_here : procedure () -> Prop := running key crypto "{{MESSAGE}}" "{{MESSAGE}}" 2 20 false SystemSample.no_int4.

Lemma delivered_operation c : operation key crypto "{{MESSAGE}}" "{{MESSAGE}}" 2 20 (acting "t") None (delivered c).
Proof. apply op_cognitive; [apply env_ranges|apply env_sized|vm_compute; reflexivity]. Qed.

Lemma before_sound : sound crypto before.1.
Proof. apply SystemSample.before_consistent. Qed.

(** Both started before either wrote: the fact is stored twice, which
    [service_consistent] rules out for jobs that take turns; the table is sound
    all the same. *)
Lemma interleaved_sound_witness : sound crypto after.2.1 /\ forallb finished after.1 = true /\
  (fact_key <$> current_rows after.2.1) = replicate 2 ("t", "u", "Nam", "job")%string.
Proof.
  split; [|vm_compute; done].
  apply (interleaved_sound key crypto "{{MESSAGE}}" "{{MESSAGE}}" 2 20 false SystemSample.no_int4 workers alternating before).
  - repeat constructor; eapply running_operation, delivered_operation.
  - exact before_sound.
Defined.

Lemma service_interleaves_witness : exists ps sched, Forall running_here ps /\
  forallb finished (interleave sched (ps, SystemSample.before)).1 = true /\ (interleave sched (ps, SystemSample.before)).2 = SystemSample.learned.
Proof.
  apply (service_interleaves key crypto "{{MESSAGE}}" "{{MESSAGE}}" 2 20 false SystemSample.no_int4 SystemSample.before SystemSample.learned).
  apply rtc_once. exact SystemSample.job_step.
Defined.

(** Tenant t deletes its session, under which tenant b has filed a message, while
    a job of t is running. *)
Definition strayed : DB * store := (SystemSample.strayed, ∅).
Definition deleting : procedure () := discard (act (handleDeleteSession (RestSample.at_ 30 "x") "s" "t")).
Definition racing : list (procedure ()) := [delivered "a"; deleting].
Definition after_race : DB * store := (interleave alternating (racing, strayed)).2.

Lemma interleaved_isolated_witness : untouched "b" strayed.1 after_race.1 /\
  (msg_ID ∘ m_msg <$> messages_that (not_under ["s"%string]) "b" after_race.1) = ["m2"%string] /\
  (msg_ID ∘ m_msg <$> messages after_race.1) = ["m2"%string].
Proof.
  destruct (interleaved_isolated key crypto "{{MESSAGE}}" "{{MESSAGE}}" 2 20 "b" ["s"%string] racing alternating strayed) as (Hu & Hm & _).
  - repeat constructor.
    + exists (acting "t"), None. split; [vm_compute; discriminate|]. split; [done|apply delivered_operation].
    + exists (acting "t"), (named "s"). split; [vm_compute; discriminate|]. split; [|by apply op_delete_session].
      intros s Es. vm_compute in Es. injection Es as <-. by left.
  - split; [exact Hu|]. split; [|vm_compute; reflexivity]. etransitivity; [exact (f_equal (fmap (msg_ID ∘ m_msg)) Hm)|]. vm_compute. reflexivity.
Defined.
End InterleaveSample.
