(* ===== verification/Durable.v ===== *)
(** What an answer promises: a message whose request was answered with 200 stays
    in its session's history, whatever runs beside the request and after it,
    until the session is deleted. *)
From Stdlib Require Import Ascii String.
From S2P Require Import Prelude GoStd GoStrings Float64 Model Security Json GoJson Llm Db MessageRepo EntityRepo History MemoryRepo ExperienceRepo Streams Redis Cache Tenancy Retriever Rest Flusher ContextApi Embedder Cognitive Statements Experience Config Discovery Threads Procedures System Interleave.

Local Open Scope Z_scope.

Section Service.
Context `{UuidLib, OrderBy, PgSearch, CryptoLib, Jsonb, UnicodeCase, Redis}.
Context (key : string) (crypto : Crypto) (CognitivePrompt ExperiencePrompt : string) (CognitiveBatch RecentMessagesLimit : Z).
Context (bypassrls : bool) (pgx_int4 : float64 -> result Z).

(** What may run without deleting session [s]. *)
Inductive sparing (s : uuid) : procedure () -> Prop :=
  | sparing_operation tid gone p : operation key crypto CognitivePrompt ExperiencePrompt CognitiveBatch RecentMessagesLimit tid gone p ->
      gone <> Some s -> sparing s p
  | sparing_decay w ctx now : sparing s (on_db (fun d => (decay bypassrls pgx_int4 w ctx now d, tt))).

(** The messages of a session that an action keeps: all but their vectors. *)
Definition keeps_messages (s : uuid) (st st' : DB * store) : Prop :=
  forall m, m ∈ m_msg <$> messages st.1 -> msg_SessionID m = s -> m ∈ m_msg <$> messages st'.1.

(** A request of which the answer matters, beside operations of which nothing
    but the effects do. *)
Definition answered (p : procedure response) : procedure (option response) := r ← p; mret (Some r).
Definition unheard (p : procedure ()) : procedure (option response) := _ ← p; mret None.
Definition request_among (p : procedure response) (ps : list (procedure ())) : list (procedure (option response)) :=
  answered p :: (unheard <$> ps).

(** ** Lemmas *)

#[local] Instance keeps_messages_preorder s : PreOrder (keeps_messages s).
Proof. split; [by intros st m|]. intros s1 s2 s3 Hk Hk' m Hm Hs. apply Hk'; [by apply Hk|done]. Qed.

Lemma write_keeps_messages stale tid s d d' st st' : write crypto stale tid d d' -> keeps_messages s (d, st) (d', st').
Proof.
  intros Hw m Hm _. simpl in *.
  destruct Hw as [r Ht Hn|r Ht Hn Hr Hs|l Hl|seen id now mp f enc d' Hs Hseen Hd|l Hl|r Ht Hn Hty|l Hl|r Ht Hn|l Hl|u]; try done; simpl.
  - rewrite fmap_app. apply elem_of_app. by left.
  - by rewrite (updated_same m_msg tid m_tenant (fun r r' => m_msg r' = m_msg r) _ _ (fun r r' E => E) Hl).
  - by rewrite (upsertFactCTE_facts_only _ _ _ _ _ _ _ _ _ _ Hd).
Qed.

Lemma written_keeps_messages tid s st st' : written crypto tid st st' -> keeps_messages s st st'.
Proof.
  destruct st as [d st], st' as [d' st']. unfold written. simpl. intros Hw.
  assert (Hk : keeps_messages s (d, st) (d', st)).
  { induction Hw as [|d1 d2 d3 Hw _ IH]; [done|]. etransitivity; [by eapply write_keeps_messages|exact IH]. }
  exact Hk.
Qed.

Lemma Delete_messages ctx t0 s0 d : messages (Delete ctx t0 s0 d).1 = messages d \/ exists s, to_uuid s0 = Ok s /\
  messages (Delete ctx t0 s0 d).1 = List.filter (fun r => negb (bool_decide (msg_SessionID (m_msg r) = s))) (messages d).
Proof.
  unfold Delete. destruct (BeforeAcquire ctx); [|by left]. cbn [mbind result_bind]. destruct (to_uuid s0) as [s|]; [|by left].
  destruct (to_uuid t0); [|by left]. cbn [mbind result_bind]. repeat case_match; [by left|right; by exists s|by left].
Qed.

Lemma delete_keeps_messages s e i t : to_uuid i <> Ok s -> obeys (keeps_messages s) (act (handleDeleteSession e i t)).
Proof.
  intros Hi. apply obeys_act. intros [d st] m Hm Hs. unfold handleDeleteSession. simpl in Hm.
  destruct (uuid_Parse i); [|done]. destruct (uuid_Parse t); [|done].
  pose proof (Delete_messages (withTenant e t) t i d) as Hd. destruct (Delete _ _ _ d) as [d' r]. simpl in Hd.
  assert (Hm' : m ∈ m_msg <$> messages d').
  { destruct Hd as [-> |(s' & Es & ->)]; [done|]. apply list_elem_of_fmap in Hm as (r' & -> & Hr).
    apply list_elem_of_fmap_2, elem_of_filter_bool. split; [done|]. apply negb_true_iff, bool_decide_eq_false. congruence. }
  by destruct r as [[]|].
Qed.

Lemma decay_keeps_messages s w ctx now d st : keeps_messages s (d, st) (decay bypassrls pgx_int4 w ctx now d, st).
Proof. intros m Hm _. by destruct (decay_rows bypassrls pgx_int4 w ctx now d) as (l & -> & _). Qed.

(** Whatever does not delete a session keeps its messages. *)
Lemma sparing_keeps_messages s p : sparing s p -> obeys (keeps_messages s) p.
Proof.
  intros [tid gone p' Hp Hne|w ctx now].
  - apply operation_cases in Hp as [Hw|(e & i & t & -> & _ & ->)].
    + eapply obeys_mono; [|exact Hw]. intros st st'. apply written_keeps_messages.
    + apply obeys_bind; [|done]. apply delete_keeps_messages. intros Hi. apply Hne. unfold named. by rewrite Hi.
  - apply obeys_act. intros [d st]. apply decay_keeps_messages.
Qed.

(** A stored message. *)
Lemma InsertMessage_stores ctx msg now d d' : InsertMessage ctx msg now d = (d', Ok tt) -> m_msg (message_row msg now) ∈ m_msg <$> messages d'.
Proof.
  unfold InsertMessage. destruct (BeforeAcquire ctx) as [tid|]; [|done]. destruct (ensure_session _ _ _ d) as [d1 [[]|]]; [|done].
  unfold insert_message_row. repeat (case_match; [done|]). intros [= <-]. simpl. rewrite fmap_app. apply elem_of_app. right.
  by apply list_elem_of_singleton.
Qed.

(** What the answer of a request to append has established. *)
Definition appended (e : env) (t u s : uuid) (req : AppendRequest) (a : response) (st : DB * store) : Prop :=
  status a = StatusOK -> a = mkResponse StatusOK (BAppended (e_new_id e)) /\
    m_msg (message_row (new_message e t u s req) (e_db_now e)) ∈ m_msg <$> messages st.1.

Lemma append_establishes e t u s req : uuid_Parse (ar_TenantID req) = Some t -> uuid_Parse (ar_UserID req) = Some u ->
  uuid_Parse (ar_SessionID req) = Some s ->
  establishes (keeps_messages s) (fun _ => True) (append_message CognitiveBatch e (Some req)) (appended e t u s req).
Proof.
  intros Ht Hu Hs. unfold append_message. case_match; [by intros st _|]. case_match; [by intros st _|]. case_match; [by intros st _|].
  rewrite Ht, Hu, Hs. cbv zeta.
  set (msg := new_message e t u s req). set (stored := m_msg (message_row msg (e_db_now e))).
  eapply (establishes_bind _ _ _ _ (fun r st => r = Ok tt -> stored ∈ m_msg <$> messages st.1)).
  - apply establishes_act.
    + intros r st st' Hk Hr E. by apply (Hk stored (Hr E)).
    + intros [d st] _ E. pose proof (InsertMessage_stores (withTenant e t) msg (e_db_now e) d) as Hi.
      destruct (InsertMessage _ _ _ d) as [d' r]. simpl in E |- *. subst r. by apply Hi.
  - intros [[]|err]; [|by intros st _].
    set (K := fun st : DB * store => Ok tt = Ok tt -> stored ∈ m_msg <$> messages st.1).
    assert (HK : stable (keeps_messages s) K) by (intros st st' Hk Hr E; by apply (Hk stored (Hr E))).
    assert (Hframe : forall tid A (p : procedure A), obeys (written crypto tid) p -> establishes (keeps_messages s) K p (fun _ => K)).
    { intros tid A p Hp. apply establishes_frame; [done|]. eapply obeys_mono; [|exact Hp]. intros st st'. apply written_keeps_messages. }
    eapply establishes_bind; [by apply (Hframe None), append_messages_obeys|]. intros r. cbn beta.
    eapply establishes_bind; [apply (Hframe None)|intros a st Hst Ha; split; [done|by apply Hst]].
    apply obeys_bind; [destruct (decide (ar_Role req = "user"%string)); [apply obeys_redis|done]|]. intros n. apply publish_full_obeys.
Qed.

Lemma interleaved_append e req t u s ps sched st a : uuid_Parse (ar_TenantID req) = Some t -> uuid_Parse (ar_UserID req) = Some u ->
  uuid_Parse (ar_SessionID req) = Some s -> Forall (sparing s) ps ->
  let c := interleave sched (request_among (append_message CognitiveBatch e (Some req)) ps, st) in
  c.1 !! 0%nat = Some (Done (Some a)) -> appended e t u s req a c.2.
Proof.
  intros Ht Hu Hs Hps. cbv zeta. intros Ha.
  apply (interleave_establishes (keeps_messages s) 0 sched _ (answered (append_message CognitiveBatch e (Some req))) (Some a)
           (fun r st => match r with Some a => appended e t u s req a st | None => True end)) in Ha; [done| |reflexivity| |].
  - constructor.
    + apply obeys_bind; [|done]. eapply obeys_mono; [|apply (append_obeys crypto CognitiveBatch e (Some req))].
      intros st1 st2. apply written_keeps_messages.
    + apply Forall_fmap. eapply Forall_impl; [exact Hps|]. intros p Hp. apply obeys_bind; [|done]. by apply sparing_keeps_messages.
  - intros [a'|]; [|done]. intros st1 st2 Hk Hst Ea. destruct (Hst Ea) as [-> Hm]. split; [done|]. by apply Hk.
  - eapply establishes_bind; [by apply append_establishes|]. by intros a' st'.
Qed.

(** ** Properties *)

(** C5: an acknowledged message stays.  Whatever operations run beside a request
    to append a message and after it, in whatever order their commands come,
    once the request is answered with 200 its message is in the history of its
    session, as it was sent, unless one of them deletes that session; the answer
    names the id it is stored under. *)
Theorem acknowledged_message_stays e req t u s ps sched st a :
  uuid_Parse (ar_TenantID req) = Some t -> uuid_Parse (ar_UserID req) = Some u -> uuid_Parse (ar_SessionID req) = Some s ->
  Forall (sparing s) ps ->
  let c := interleave sched (request_among (append_message CognitiveBatch e (Some req)) ps, st) in
  c.1 !! 0%nat = Some (Done (Some a)) -> status a = StatusOK ->
  a = mkResponse StatusOK (BAppended (e_new_id e)) /\
  mkMessage (e_new_id e) t s u (ar_Role req) (ar_Content req) (RuneCountInString (ar_Content req) / 4) (e_db_now e)
    ∈ session_messages t s c.2.1.
Proof.
  intros Ht Hu Hs Hps c Ha E. destruct (interleaved_append e req t u s ps sched st a Ht Hu Hs Hps Ha E) as [Ea Hm]. split; [exact Ea|].
  apply elem_of_filter_bool. split; [exact Hm|]. unfold in_session. simpl. by rewrite !bool_decide_true.
Qed.
End Service.

(** ** Examples *)

Module DurableSample.
#[local] Existing Instances toy_uuid merge_order_by toy_search toy_crypto toy_jsonb.
#[local] Instance server : Redis := local_redis true.
#[local] Instance ascii_case : UnicodeCase := CognitiveSample.ascii_case.
Import RestSample.

(** Beside it: another message of the session, a flush, and the deletion of
    another session. *)
Definition others : list (procedure ()) :=
  [discard (append_message 2 (at_ 9 "m5") (Some (said "two"))); flush_cycle 3000 2000;
   discard (act (handleDeleteSession (at_ 9 "x") "other" "t"))].
Definition pool_of : list (procedure (option response)) := request_among (append_message 2 (at_ 9 "m4") (Some (said "one"))) others.
(** They take turns. *)
Definition turns : list nat := concat (replicate 12 [0; 1; 2; 3]%nat).
Definition ended : pool (DB * store) (option response) := interleave turns (pool_of, (db, cold)).

Lemma acknowledged_message_stays_witness :
  mkMessage "m4" "t" "s" "u" "user" "one" 0 10 ∈ session_messages "t" "s" ended.2.1 /\ forallb finished ended.1 = true.
Proof.
  split; [|vm_compute; reflexivity].
  apply (acknowledged_message_stays CognitiveSample.key CognitiveSample.crypto "{{MESSAGE}}" "{{MESSAGE}}" 2 20 false SystemSample.no_int4
    (at_ 9 "m4") (said "one") "t" "u" "s" others turns (db, cold) (mkResponse StatusOK (BAppended "m4")));
    [vm_compute; reflexivity..| |vm_compute; reflexivity|reflexivity].
  repeat constructor.
  - apply (sparing_operation _ _ _ _ _ _ _ _ _ (Some "t"%string) None); [by apply op_append|discriminate].
  - apply (sparing_operation _ _ _ _ _ _ _ _ _ None None); [by apply op_flush|discriminate].
  - apply (sparing_operation _ _ _ _ _ _ _ _ _ (acting "t") (named "other")); [by apply op_delete_session|discriminate].
Defined.
End DurableSample.
