(* ===== verification/Overlap.v ===== *)
(** Overlapping requests of one session: the batching counter beside concurrent
    appends ([Rest.batching] has them one after the other), what it still
    promises, and what is lost when two requests reset it. *)
From Stdlib Require Import Ascii String.
From S2P Require Import Prelude GoStd GoStrings Float64 Model Security Json GoJson Llm Db MessageRepo EntityRepo History MemoryRepo ExperienceRepo Streams Redis Cache Tenancy Retriever Rest Flusher ContextApi Embedder Cognitive Statements Experience Discovery Threads Procedures Interleave.

Local Open Scope Z_scope.

Section Counter.
Context `{UuidLib, OrderBy, PgSearch, CryptoLib, Jsonb, UnicodeCase, Redis}.

(** The number a counter's key holds, expired or not. *)
Definition tally (k : string) (ks : keyspace) : Z :=
  match ks !! k with Some (VInt n, _) => Z.max 0 n | _ => 0 end.

Definition counted (k : string) (st : DB * store) : Z := tally k (view st.2).
(** The set of active sessions is one, and never expires. *)
Definition tracked (st : DB * store) : Prop := is_Some (active (view st.2)).

Lemma tally_frame k ks ks' : ks' !! k = ks !! k -> tally k ks' = tally k ks.
Proof. intros E. unfold tally. by rewrite E. Qed.

Lemma tally_nonneg k ks : 0 <= tally k ks.
Proof. unfold tally. destruct (ks !! k) as [[[] ?]|]; lia. Qed.

Lemma tally_INCR trim now k ks :
  match run1 trim now (INCR k) ks with
  | (ks', RInt n) => tally k ks' = Z.max 0 n /\ n <= tally k ks + 1
  | (ks', RErr _) => ks' = ks
  | _ => False
  end.
Proof.
  cbn [run1]. pose proof (tally_nonneg k ks). unfold get_value. destruct (lookup_key now k ks) as [[v dl]|] eqn:E; cbn [fmap option_fmap option_map fst].
  - assert (Ek : ks !! k = Some (v, dl)) by (unfold lookup_key in E; destruct (ks !! k); simpl in E; [destruct (alive now p); congruence|done]).
    destruct v as [n| | | |]; try done. destruct (n <? 2 ^ 63 - 1); [|done].
    unfold tally, put_value. rewrite lookup_insert_eq, Ek. lia.
  - unfold tally at 1, put_value. rewrite lookup_insert_eq. lia.
Qed.

Lemma tally_EXPIRE trim now k ttl ks : tally k (run1 trim now (EXPIRE k ttl) ks).1 = tally k ks.
Proof.
  cbn [run1]. unfold get_value, lookup_key. destruct (ks !! k) as [[v dl]|] eqn:E; [|done]. simpl.
  destruct (alive now (v, dl)); [|done]. simpl. unfold tally. by rewrite lookup_insert_eq, E.
Qed.

(** A pipeline that names neither key. *)
Lemma pipeline_apart ctx now k cs st : Forall (fun c => cmd_key c <> k) cs -> Forall (fun c => cmd_key c <> active_key) cs ->
  let st' := (Pipeline (ctx_Done ctx) now cs st).1 in tally k (view st') = tally k (view st) /\ active (view st') = active (view st).
Proof.
  intros Hk Ha. destruct (Pipeline (ctx_Done ctx) now cs st) as [st' r] eqn:E. simpl.
  split; [by apply tally_frame; eapply Pipeline_frame|by apply active_frame; eapply Pipeline_frame].
Qed.

(** The round trip that counts a message. *)
Lemma IncrementCognitiveBatch_tally ctx now t s st : reliable -> no_byte ":" t -> is_Some (active (view st)) ->
  let '(st', r) := IncrementCognitiveBatch ctx now t s st in
  is_Some (active (view st')) /\
  match r with
  | Ok n => tally (cog_key t s) (view st') = Z.max 0 n /\ n <= tally (cog_key t s) (view st) + 1
  | Err _ => tally (cog_key t s) (view st') = tally (cog_key t s) (view st)
  end.
Proof.
  intros Hrel Ht [a Ha]. unfold IncrementCognitiveBatch. destruct (ctx_Done ctx); [by split|].
  destruct (Pipeline_run now [INCR (cog_key t s); EXPIRE (cog_key t s) day; ZADD active_key (unix now) (member t s)] st Hrel)
    as (st' & E & Hv). rewrite E. clear E. cbn [run] in *.
  assert (Hk : cog_key t s <> active_key) by by apply sess_key_active.
  pose proof (tally_INCR approx_trim now (cog_key t s) (view st)) as Hi.
  pose proof (run1_frame approx_trim now (INCR (cog_key t s)) active_key (view st) Hk) as Fi.
  destruct (run1 approx_trim now (INCR (cog_key t s)) (view st)) as [ks1 r1]. cbn [fst] in Fi.
  pose proof (tally_EXPIRE approx_trim now (cog_key t s) day ks1) as He.
  pose proof (run1_frame approx_trim now (EXPIRE (cog_key t s) day) active_key ks1 Hk) as Fe.
  assert (Hr2 : exists n, (run1 approx_trim now (EXPIRE (cog_key t s) day) ks1).2 = RInt n) by (cbn [run1]; destruct (get_value now (cog_key t s) ks1); by eexists).
  destruct (run1 approx_trim now (EXPIRE (cog_key t s) day) ks1) as [ks2 r2]. cbn [fst snd] in Fe, He, Hr2.
  destruct Hr2 as [n2 ->]. destruct (run1_ZADD approx_trim now (member t s) (unix now) ks2 a) as [n3 Hz].
  { rewrite <-Ha. apply active_frame. congruence. }
  rewrite Hz in *. cbn [fst snd] in Hv.
  assert (Ht3 : tally (cog_key t s) (view st') = tally (cog_key t s) ks1).
  { rewrite Hv, <-He. apply tally_frame. by rewrite lookup_insert_ne. }
  assert (Ha3 : is_Some (active (view st'))) by (rewrite Hv, active_insert; eauto).
  destruct r1 as [n| | | | | |e]; try done; cbn [first_error omap list_omap option_bind head].
  - split; [done|]. by rewrite Ht3.
  - split; [done|]. by rewrite Ht3, Hi.
Qed.

Lemma ResetCognitiveBatch_tally ctx now t s st : reliable -> no_byte ":" t -> is_Some (active (view st)) ->
  let st' := (ResetCognitiveBatch ctx now t s st).1 in
  is_Some (active (view st')) /\ (ctx_Done ctx = false -> tally (cog_key t s) (view st') = 0).
Proof.
  intros Hrel Ht [a Ha]. unfold ResetCognitiveBatch. destruct (ctx_Done ctx); [by split|].
  assert (Hk : cog_key t s <> active_key) by by apply sess_key_active.
  destruct (Pipeline_run now [DEL (cog_key t s); ZREM active_key (member t s)] st Hrel) as (st' & E & Hv). rewrite E. clear E.
  cbn [run fst] in *. change (run1 approx_trim now (DEL (cog_key t s)) (view st)) with
    (delete (cog_key t s) (view st), RInt (if get_value now (cog_key t s) (view st) is Some _ then 1 else 0)) in Hv. cbv beta iota in Hv.
  destruct (run1_ZREM approx_trim now (member t s) (delete (cog_key t s) (view st)) a) as (ks' & n & Hz & Ha').
  { rewrite <-Ha. apply active_frame. by rewrite lookup_delete_ne. }
  pose proof (run1_frame approx_trim now (ZREM active_key (member t s)) (cog_key t s) (delete (cog_key t s) (view st))
    (not_eq_sym Hk)) as Fz.
  rewrite Hz in Hv, Fz. cbn [fst] in Hv, Fz. rewrite Hv, Ha'. split; [eauto|]. intros _.
  unfold tally. by rewrite Fz, lookup_delete_eq.
Qed.

(** *** Appending pays its debts *)

Section Debts.
Context (B : Z) (t0 s0 : string).
Hypothesis (Hrel : reliable) (Ht0 : no_byte ":" t0) (HB : 1 <= B).
#[local] Abbreviation k0 := (cog_key t0 s0).
#[local] Abbreviation paying := (credit tracked (counted k0) B).

Lemma paying_on_db {A} (f : DB -> DB * A) o : paying o (on_db f) (fun _ o' => o' = o).
Proof. apply credit_act. intros [d st] Hs. destruct (f d) as [d' a] eqn:E. cbn [fst]. split; [exact Hs|]. unfold counted. simpl. lia. Qed.

Lemma paying_read {A} (f : DB -> A) o : paying o (read f) (fun _ o' => o' = o).
Proof. apply credit_act. intros st Hs. split; [exact Hs|]. simpl. lia. Qed.

Lemma paying_redis ctx now cs o : Forall (fun c => cmd_key c <> k0) cs -> Forall (fun c => cmd_key c <> active_key) cs ->
  paying o (redis ctx now cs) (fun _ o' => o' = o).
Proof.
  intros Hk Ha. apply credit_act. intros [d st] [a Hs]. destruct (pipeline_apart ctx now k0 cs st Hk Ha) as [Ek Ea].
  destruct (Pipeline _ _ _ st) as [st' r]. unfold tracked, counted in *. simpl in *. rewrite Ek, Ea, Hs. split; [eauto|lia].
Qed.

Lemma paying_append_messages ctx now t s msgs o : no_byte ":" t ->
  paying o (append_messages ctx now t s msgs) (fun _ o' => o' = o).
Proof.
  intros Ht. assert (Hk : msgs_key t s <> k0) by apply not_eq_sym, cog_key_msgs. pose proof (msgs_key_apart t s Ht) as (_ & Ha & _).
  assert (Hcs : forall (l : list Message) (k : string), msgs_key t s <> k ->
    Forall (fun c => cmd_key c <> k) ((LPUSH (msgs_key t s) <$> l) ++ keep_recent (msgs_key t s))).
  { intros l k Hne. apply Forall_app_2; [by apply Forall_fmap, Forall_true|by repeat constructor]. }
  assert (Hcs' : forall (l' l : list Message) (k : string), msgs_key t s <> k ->
    Forall (fun c => cmd_key c <> k) ((RPUSH (msgs_key t s) <$> l') ++ (LPUSH (msgs_key t s) <$> l) ++ keep_recent (msgs_key t s))).
  { intros l' l k Hne. apply Forall_app_2; [by apply Forall_fmap, Forall_true|by apply Hcs]. }
  assert (Hhit : paying o (r ← redis ctx now ((LPUSH (msgs_key t s) <$> msgs) ++ keep_recent (msgs_key t s)); mret (_ ← r; Ok tt))
    (fun _ o' => o' = o)) by (eapply credit_bind; [apply paying_redis; auto|]; by intros r o' ->).
  eapply credit_bind; [apply paying_redis; by repeat constructor|]. intros r o' ->. cbn beta.
  destruct r as [[|[[|p|p]| | | | | |] [|? ?]]|e]; try exact Hhit; [|done].
  eapply credit_bind; [apply paying_read|]. intros l o' ->. eapply credit_bind; [apply paying_redis; auto|]. by intros r o' ->.
Qed.

(** The counting of a message takes on a debt when it fills a batch, and
    resetting the counter pays it. *)
Lemma paying_trigger ctx now req i : no_byte ":" (ar_TenantID req) ->
  paying false (trigger B ctx now req i) (fun _ o' => o' = false).
Proof.
  intros Ht. set (t := ar_TenantID req) in *. set (s := ar_SessionID req).
  assert (Hpub : forall p o, paying o (on_redis (XAddCognitiveBatch ctx now t p)) (fun _ o' => o' = o)).
  { intros p o. apply credit_act. intros [d st] [a Hs].
    destruct (pipeline_apart ctx now k0 [XADD (stream_key t) 10000 (mkJob p "0")] st) as [Ek Ea];
      [by repeat constructor; apply stream_key_sess|by repeat constructor; apply stream_key_active|].
    unfold XAddCognitiveBatch, tracked, counted in *. destruct (Pipeline _ _ _ st) as [st' r]. simpl in *. rewrite Ek, Ea, Hs. split; [eauto|lia]. }
  unfold trigger. eapply (credit_bind _ _ _ _ _ _
    (fun r o => o = match r with Ok n => bool_decide (cog_key t s = k0) && (B <=? n) && negb (ctx_Done ctx) | Err _ => false end)).
  - destruct (decide (ar_Role req = "user"%string)); [|intros; simpl].
    2: { rewrite (proj2 (Z.leb_gt B 0)) by lia. by rewrite andb_false_r. }
    intros [d st] Hs. unfold tracked in Hs. simpl in Hs.
    pose proof (IncrementCognitiveBatch_tally ctx now t s st Hrel Ht Hs) as Hi.
    pose proof (tally_nonneg k0 (view st)) as Hnn.
    assert (Hdone : ctx_Done ctx = true -> IncrementCognitiveBatch ctx now t s st = (st, Err "context canceled"%string)).
    { intros E. unfold IncrementCognitiveBatch, Pipeline. by rewrite E. }
    assert (Hapart : cog_key t s <> k0 -> view (IncrementCognitiveBatch ctx now t s st).1 !! k0 = view st !! k0).
    { intros Hne. unfold IncrementCognitiveBatch. destruct (Pipeline _ _ _ st) as [st' r] eqn:E.
      assert (Ev : view st' !! k0 = view st !! k0).
      { eapply Pipeline_frame; [|exact E]. repeat constructor; try done. by apply not_eq_sym, sess_key_active. }
      by destruct r as [[|[] ?]|?]. }
    fold t s. destruct (IncrementCognitiveBatch ctx now t s st) as [st' r] eqn:E. cbn [fst snd] in *. destruct Hi as [Ha Ht']. split; [exact Ha|].
    eexists. split; [reflexivity|]. unfold counted. cbn [fst snd]. destruct (decide (cog_key t s = k0)) as [Ek|Hne].
    + rewrite Ek in Ht'. rewrite bool_decide_true by done. destruct r as [n|err]; [|simpl; left; lia]. destruct Ht' as [-> Hn]. simpl.
      destruct (ctx_Done ctx); [by specialize (Hdone eq_refl)|]. rewrite andb_true_r.
      destruct (Z.leb_spec B n); simpl; [left|right]; lia.
    + rewrite bool_decide_false by done. rewrite (tally_frame _ _ _ (Hapart Hne)). left. destruct r; simpl; lia.
  - intros r o ->. unfold publish_full. destruct r as [n|e]; [|done]. destruct (B <=? n); [|by rewrite andb_false_r].
    rewrite andb_true_r. fold t s. cbv zeta. eapply (credit_bind _ _ _ _ _ _ (fun _ o => o = false)).
    + intros [d st] Hs. unfold tracked in Hs. simpl in Hs.
      pose proof (ResetCognitiveBatch_tally ctx now t s st Hrel Ht Hs) as [Ha Hz].
      assert (Hapart : cog_key t s <> k0 -> view (ResetCognitiveBatch ctx now t s st).1 !! k0 = view st !! k0).
      { intros Hne. unfold ResetCognitiveBatch. destruct (Pipeline _ _ _ st) as [st' r] eqn:E. simpl.
        eapply Pipeline_frame; [|exact E]. repeat constructor; try done. by apply not_eq_sym, sess_key_active. }
      destruct (ResetCognitiveBatch ctx now t s st) as [st' r] eqn:E. cbn [fst snd] in *. split; [exact Ha|].
      exists false. split; [done|]. unfold counted. cbn [fst snd]. destruct (decide (cog_key t s = k0)) as [Ek|Hne].
      * rewrite bool_decide_true by done. simpl. destruct (ctx_Done ctx) eqn:Ed.
        -- unfold ResetCognitiveBatch, Pipeline in E. rewrite Ed in E. injection E as <- _. simpl. left. lia.
        -- right. rewrite <-Ek, Hz by done. lia.
      * rewrite bool_decide_false by done. rewrite (tally_frame _ _ _ (Hapart Hne)). left. simpl. lia.
    + intros _ o ->. eapply credit_bind; [apply Hpub|]. by intros _ o ->.
Qed.

Lemma paying_append e body : (forall req, body = Some req -> no_byte ":" (ar_TenantID req)) ->
  solvent tracked (counted k0) B false (discard (append_message B e body)).
Proof.
  intros Hbody. unfold solvent, discard. eapply (credit_bind _ _ _ _ _ _ (fun _ o => o = false)); [|by intros _ o ->].
  destruct body as [req|]; [|done]. specialize (Hbody req eq_refl). unfold append_message.
  case_match; [done|]. case_match; [done|]. case_match; [done|].
  destruct (uuid_Parse (ar_TenantID req)) as [t|]; [|done]. destruct (uuid_Parse (ar_UserID req)) as [u|]; [|done].
  destruct (uuid_Parse (ar_SessionID req)) as [s|]; [|done]. cbv zeta.
  eapply credit_bind; [apply paying_on_db|]. intros [r|r] o ->; [|done].
  eapply credit_bind; [by apply paying_append_messages|]. intros _ o ->. eapply credit_bind; [by apply paying_trigger|]. by intros _ o ->.
Qed.
End Debts.

(** ** Properties *)

(** C14: the batching counter under concurrent requests.  However the requests
    to append messages are interleaved, in whatever sessions, a session's
    counter is below the batch size and the number of requests still at work:
    once they are answered, no full batch is left waiting.  (Redis answers, and
    no request is cancelled between its commands.) *)
Theorem overlapping_appends_bounded B t s (ps : list (procedure ())) sched st : reliable -> no_byte ":" t -> 1 <= B ->
  Forall (fun p => exists e body, p = discard (append_message B e body) /\
            forall req, body = Some req -> no_byte ":" (ar_TenantID req)) ps ->
  tracked st -> counted (cog_key t s) st < B ->
  let c' := interleave sched (ps, st) in
  counted (cog_key t s) c'.2 < B + Z.of_nat (at_work c'.1).
Proof.
  intros Hrel Ht HB Hps Hs Hc.
  destruct (interleave_solvent tracked (counted (cog_key t s)) B sched (ps, st)) as [_ Hc']; [exact Hs| |exact Hc|].
  - eapply Forall_impl; [exact Hps|]. intros p (e & body & -> & Hb). by apply paying_append.
  - exact Hc'.
Qed.
End Counter.

(** ** Examples *)

Module OverlapSample.
#[local] Existing Instances toy_uuid merge_order_by toy_search toy_crypto toy_jsonb.
#[local] Instance server : Redis := local_redis true.
#[local] Instance ascii_case : UnicodeCase := CognitiveSample.ascii_case.
Import RestSample.

(** One message counted, of batches of two; then three requests. *)
Definition start : DB * store := (handleAppendMessages 2 (at_ 8 "m3") (Some (said "zero")) (db, cold)).1.
Definition requests : list (procedure ()) :=
  (fun x => discard (append_message 2 (at_ x.1 x.2.1) (Some (said x.2.2)))) <$> [(9, ("m4", "one")); (9, ("m5", "two")); (9, ("m6", "three"))]%string.

(** The first request counts to two and falls behind; the second counts to
    three, resets the counter and publishes; the third counts to one; then the
    first resets the counter and publishes. *)
Definition lossy : list nat := (replicate 4 0 ++ replicate 6 1 ++ replicate 4 2 ++ replicate 2 0)%nat.
Definition after : pool (DB * store) () := interleave lossy (requests, start).

Definition busy : list nat := [0; 0; 0; 0; 1; 1; 1; 1]%nat.
Lemma overlapping_appends_bounded_witness :
  counted (cog_key "t" "s") (interleave busy (requests, start)).2 < 2 + Z.of_nat (at_work (interleave busy (requests, start)).1) /\
  counted (cog_key "t" "s") (interleave busy (requests, start)).2 = 3.
Proof.
  split; [|vm_compute; reflexivity].
  apply (overlapping_appends_bounded 2 "t" "s" requests busy start);
    [apply CacheSample.server_reliable|by vm_compute; repeat constructor|lia| |by eexists|vm_compute; reflexivity].
  unfold requests. apply Forall_fmap, Forall_forall. intros x _. eexists _, _. split; [reflexivity|].
  intros req [= <-]. by vm_compute; repeat constructor.
Defined.

(** The reset of the first request takes the count of the third with it: all
    three messages are stored, neither job reaches the last one, and the counter
    and the set of active sessions, which the flusher goes by, know nothing of
    it: a flush publishes nothing. *)
Lemma append_race :
  forallb finished after.1 = true /\
  (msg_ID ∘ m_msg <$> messages after.2.1) = ["m1"; "m2"; "m3"; "m4"; "m5"; "m6"]%string /\
  jobs "t" (view after.2.2) = Some [mkJob (mkBatchPayload "t" "u" "s" 6 "m5") "0"; mkJob (mkBatchPayload "t" "u" "s" 4 "m4") "0"] /\
  counter 100 "t" "s" (view after.2.2) = Some 0 /\ active (view after.2.2) = Some [] /\
  jobs "t" (view (runFlushCycle 3000 2000 after.2.1 after.2.2)) = jobs "t" (view after.2.2).
Proof. vm_compute. done. Qed.

End OverlapSample.
