(* ===== verification/Startup.v ===== *)
(** The two processes ([cmd/server/main.go], [cmd/worker/main.go]): what each
    makes of its environment before it starts, which errors end it (the server's
    listening included), and what it runs afterwards. *)
From Stdlib Require Import Ascii String.
From S2P Require Import Prelude GoStd GoStrings Float64 Model Security Json GoJson Llm Db MessageRepo EntityRepo History MemoryRepo ExperienceRepo Streams Redis Cache Tenancy Retriever Rest Flusher ContextApi Embedder Cognitive Statements Experience Config Discovery Threads Procedures System Interleave.

Local Open Scope Z_scope.

Section Startup.
Context `{UuidLib, OrderBy, PgSearch, CryptoLib, Jsonb, UnicodeCase, Redis}.
(** pgxpool; the environment and the files, the same for both processes. *)
Context {pool : Type} (ParseConfig : string -> result unit) (NewWithConfig : string -> Z -> result pool).
Context (Do : http_request -> result (Z * string)).
(** gin's Run: the error it returns with, or that it is serving. *)
Context (ListenAndServe : string -> result unit).
Context (Getenv : string -> string) (exists_file : string -> bool) (ReadFile : string -> result string).
Context (bypassrls : bool) (pgx_int4 : float64 -> result Z).

(** log.Fatalf: the process ends. *)
Definition fatal {A} (message : string) (r : result A) : result A :=
  match r with Ok a => Ok a | Err e => Err (message +:+ e)%string end.

Record Server := mkServer { sv_config : Config; sv_pool : pool; sv_llm : Client }.

(** RESTServer.Run *)
Definition Run (addr : string) : result unit := ListenAndServe addr.

(** Up to the listening, and the whole; [Ok]: the server is running. *)
Definition server_setup : result Server :=
  '(cfg, _) ← Get None Getenv exists_file ReadFile;
  db ← fatal "Failed to connect to DB: " (GetDB ParseConfig NewWithConfig cfg None).1;
  llmClient ← NewClient Do Getenv;
  Ok (mkServer cfg db llmClient).

Definition server_main : result Server :=
  server ← server_setup;
  _ ← fatal "Server failed: " (Run (ServerPort (sv_config server)));
  Ok server.

Record Worker := mkWorker {
  wk_config : Config;
  wk_pool : pool;
  wk_llm : Client;
  wk_crypto : Crypto;                    (* of the cognitive worker *)
  wk_decay : DecayWorker;
  wk_flush : time * time;                (* the flusher's interval and idle time *)
}.

Definition NewCognitiveWorker (cfg : Config) : result Crypto :=
  fatal "CognitiveWorker: failed to init crypto (check MASTER_KEY): " (NewCrypto (MasterKey cfg)).

Definition worker_main : result Worker :=
  '(cfg, _) ← Get None Getenv exists_file ReadFile;
  db ← fatal "Failed to connect to DB: " (GetDB ParseConfig NewWithConfig cfg None).1;
  llmClient ← NewClient Do Getenv;
  crypto ← NewCognitiveWorker cfg;
  Ok (mkWorker cfg db llmClient crypto (decay_worker cfg) (minute, 30 * minute)).

(** What the server does: the handlers that change state. *)
Inductive serving (s : Server) : procedure () -> Prop :=
  | serve_append e body : serving s (discard (append_message (CognitiveBatch (sv_config s)) e body))
  | serve_create_session e body : serving s (discard (create_session e body))
  | serve_delete_session e session_id tenant_id : serving s (discard (act (handleDeleteSession e session_id tenant_id)))
  | serve_feedback e body : serving s (discard (act (handleFeedback e body)))
  | serve_experience_feedback e i body : serving s (discard (act (handleExperienceFeedback e i body)))
  | serve_delete_experience e i tenant_id user_id : serving s (discard (act (handleDeleteExperience e i tenant_id user_id)))
  | serve_context e body req clock now exps : context_request body = inl req ->
      serving s (get_context (RecentMessagesLimit (sv_config s)) (withTenant e (rq_TenantID req)) req clock now exps).

(** What the worker does: its four goroutines, each with the settings main
    gives it. *)
Inductive working (w : Worker) : procedure () -> Prop :=
  | work_cognitive e payload : ranges e -> sized_nonces e ->
      working w (discard (process_batch (MasterKey (wk_config w)) (wk_crypto w) (CognitivePrompt (wk_config w)) e Background payload))
  | work_experience e payload calls :
      working w (discard (process_window (MasterKey (wk_config w)) (ExperiencePrompt (wk_config w)) e Background payload calls))
  | work_flush now : working w (flush_cycle now (wk_flush w).2)
  | work_decay now : working w (on_db (fun d => (decay bypassrls pgx_int4 (wk_decay w) Background now d, tt))).

(** ** Lemmas *)

Lemma fatal_Ok {A} m (r : result A) a : fatal m r = Ok a <-> r = Ok a.
Proof. by destruct r. Qed.

Lemma NewCrypto_bytes s c : NewCrypto s = Ok c -> length (masterKey c) = 32%nat /\ Forall is_byte (masterKey c).
Proof.
  unfold NewCrypto. destruct (hex_DecodeString s) as [key|] eqn:E; [|done]. apply hex_DecodeString_Some in E as (_ & _ & Hb).
  case_bool_decide as Hl; [done|]. intros [= <-]. split; [simpl; lia|done].
Qed.

Lemma server_main_Ok s : server_main = Ok s <-> server_setup = Ok s /\ ListenAndServe (ServerPort (sv_config s)) = Ok tt.
Proof.
  unfold server_main. split.
  - intros (s' & E & ([] & ER%fatal_Ok & [= <-])%result_bind_Ok)%result_bind_Ok. by split.
  - intros [-> ER]. cbn [mbind result_bind]. unfold Run. by rewrite ER.
Qed.

(** The worker's main is the server's, but for the listening, and the key. *)
Lemma worker_main_server w : worker_main = Ok w <-> exists s crypto, server_setup = Ok s /\ NewCrypto (MasterKey (sv_config s)) = Ok crypto /\
  w = mkWorker (sv_config s) (sv_pool s) (sv_llm s) crypto (decay_worker (sv_config s)) (minute, 30 * minute).
Proof.
  unfold worker_main, server_setup. split.
  - intros ([cfg i] & E1 & (db & E2 & (client & E3 & (crypto & E4%fatal_Ok & [= <-])%result_bind_Ok)%result_bind_Ok)%result_bind_Ok)%result_bind_Ok.
    exists (mkServer cfg db client), crypto. split_and!; [|done|done]. rewrite E1. cbn [mbind result_bind]. rewrite E2. cbn [mbind result_bind]. by rewrite E3.
  - intros (s & crypto & ([cfg i] & E1 & (db & E2 & (client & E3 & [= <-])%result_bind_Ok)%result_bind_Ok)%result_bind_Ok & E4 & ->).
    rewrite E1. cbn [mbind result_bind]. rewrite E2. cbn [mbind result_bind]. rewrite E3. cbn [mbind result_bind].
    unfold NewCognitiveWorker. cbn [sv_config] in E4. by rewrite E4.
Qed.

Lemma server_setup_config s : server_setup = Ok s -> load Getenv exists_file ReadFile = Ok (sv_config s).
Proof.
  intros ([cfg i] & (c & E1 & [= -> _])%result_bind_Ok & (db & _ & (client & _ & [= <-])%result_bind_Ok)%result_bind_Ok)%result_bind_Ok. exact E1.
Qed.

(** Without a key no query of facts succeeds. *)
Lemma query_facts_no_key key err ctx t u q : NewCrypto key = Err err -> query_facts key ctx t u q = Err err.
Proof. intros E. unfold query_facts. by rewrite E. Qed.

Definition factless (r : fetchResult) : Prop := default [] (self_of r) = [] /\ default [] (entity_of r) = [].

Lemma entity_task_no_key key err ctx req w : NewCrypto key = Err err -> fr_data (entity_facts_task key ctx req w) = FetchedEntity [].
Proof.
  intros E. assert (Hn : exists o, named_facts key ctx req w = ([], o)).
  { unfold named_facts. case_decide; [by eexists|]. case_decide as Hne; [by eexists|].
    assert (Hv : match usable_emb req w with
      | Some v => ok_or_nil (QueryFactsByVector key (WithTimeout ctx (expired w Q_rerank)) (rq_TenantID req) (rq_UserID req) v
          (ok_or_nil (ResolveEntities (WithTimeout ctx (expired w Q_resolve)) (rq_TenantID req) (rq_UserID req) (rq_Query req) (database w Q_resolve)))
          DefaultTopKPerEntity (database w Q_rerank))
      | None => [] end = []).
    { destruct (usable_emb req w); [|done]. unfold QueryFactsByVector. case_decide; [done|]. by rewrite (query_facts_no_key _ _ _ _ _ _ E). }
    rewrite Hv. rewrite decide_True by done. unfold QueryFactsByFTS. rewrite decide_False by done.
    rewrite (query_facts_no_key _ _ _ _ _ _ E). by eexists. }
  destruct Hn as [o Hn]. unfold entity_facts_task. rewrite Hn. cbv iota. rewrite decide_True by done.
  assert (Hv : exists o', vector_fallback key ctx req w o = ([], o')).
  { unfold vector_fallback. case_decide; [by eexists|]. destruct (usable_emb req w) as [v|] eqn:Ev; [|by eexists].
    unfold SearchAllFactsByVector. case_decide as Hnil.
    - subst v. unfold usable_emb in Ev. by repeat case_match.
    - rewrite (query_facts_no_key _ _ _ _ _ _ E). by eexists. }
  destruct Hv as [o' Hv]. rewrite Hv. cbv iota. rewrite decide_True by done.
  unfold confidence_fallback, FallbackFacts. by rewrite (query_facts_no_key _ _ _ _ _ _ E).
Qed.

Lemma tasks_no_key key err ctx req w : NewCrypto key = Err err -> Forall factless (context_tasks key ctx req w).
Proof.
  intros E. unfold context_tasks. repeat apply Forall_app_2.
  - apply Forall_singleton. unfold self_facts_task, SearchSelfFacts. by rewrite (query_facts_no_key _ _ _ _ _ _ E).
  - case_match; [|constructor]. apply Forall_singleton. unfold factless, entity_of, self_of. by rewrite (entity_task_no_key key err).
  - case_match; repeat constructor.
  - case_match; repeat constructor.
Qed.

Lemma collecting_factless all l b b' : collecting all l b b' -> Forall factless l -> SelfFacts b = [] -> EntityFacts b = [] ->
  SelfFacts b' = [] /\ EntityFacts b' = [].
Proof.
  induction 1 as [b|tasks b|all l r k b b' _ IH]; [done..|]. intros [Hl [[Hs He] Hk]%Forall_cons]%Forall_app Eb Eb'.
  apply IH; [by apply Forall_app_2|..]; unfold merge; destruct r as [[] o]; simpl in *; by subst.
Qed.

(** ** Properties *)

(** C29: what a start promises.  In an environment in which the configuration
    loads and the pool and the model client can be made, the server runs exactly
    when it can listen on its port, the worker's main gets to its end exactly
    when MASTER_KEY has 64 hexadecimal digits, and both then run with the same
    well-formed configuration.  The server does not look at the key: with any
    other key it runs all the same, and every answer to a request for context
    comes without an error and without a fact.  (What the worker's goroutines do
    then is another matter: a DECAY_INTERVAL_HOURS that overflows makes one of
    them panic, see [Discovery].) *)
Theorem key_checked_late s : server_setup = Ok s ->
  (server_main = Ok s <-> ListenAndServe (ServerPort (sv_config s)) = Ok tt) /\
  well_configured (sv_config s) /\
  ((exists w, worker_main = Ok w) <->
   String.length (MasterKey (sv_config s)) = 64%nat /\ Forall is_hex_digit (list_ascii_of_string (MasterKey (sv_config s)))) /\
  (forall w, worker_main = Ok w -> wk_config w = sv_config s) /\
  ((forall w, worker_main <> Ok w) -> forall ctx req w d st all out,
     GetContext (MasterKey (sv_config s)) (RecentMessagesLimit (sv_config s)) ctx req w d st all out ->
     exists b, out.2 = Ok b /\ SelfFacts b = [] /\ EntityFacts b = []).
Proof.
  intros Hs. assert (Hkey : (exists w, worker_main = Ok w) <-> exists crypto, NewCrypto (MasterKey (sv_config s)) = Ok crypto).
  { split.
    - intros [w (s' & crypto & Hs' & Hc & _)%worker_main_server]. assert (s' = s) as -> by congruence. by exists crypto.
    - intros [crypto Hc]. eexists. apply worker_main_server. by exists s, crypto. }
  split_and!.
  - rewrite server_main_Ok. tauto.
  - by eapply load_configured, server_setup_config.
  - rewrite Hkey, <-NewCrypto_ok_iff. split; intros [c Hc]; exists c; [|tauto].
    split; [done|]. by apply NewCrypto_bytes in Hc.
  - intros w (s' & crypto & Hs' & _ & ->)%worker_main_server. simpl. congruence.
  - intros Hno ctx req w d st all out Hg. destruct (NewCrypto (MasterKey (sv_config s))) as [c|err] eqn:Ek.
    { destruct (proj2 Hkey) as [w' Hw']; [by exists c|]. by destruct (Hno w'). }
    destruct Hg as [st' recent b _ Hb]. exists b. split; [done|].
    eapply collecting_factless; [exact Hb|by eapply tasks_no_key|done|done].
Qed.
(** The settings of the two processes agree: what they do is the service's, for
    one key, one batch size and the prompts of one configuration. *)
Lemma deployed_running s w p : server_main = Ok s -> worker_main = Ok w -> serving s p \/ working w p ->
  running (MasterKey (sv_config s)) (wk_crypto w) (CognitivePrompt (sv_config s)) (ExperiencePrompt (sv_config s))
    (CognitiveBatch (sv_config s)) (RecentMessagesLimit (sv_config s)) bypassrls pgx_int4 p.
Proof.
  intros [Hs _]%server_main_Ok (s' & crypto & Hs' & _ & ->)%worker_main_server. assert (s' = s) as -> by congruence.
  intros [[e body|e body|e i t|e body|e i body|e i t u|e body req clock now exps Hreq]|[e payload Hr Hn|e payload calls|now|now]]; simpl;
    try (by eapply running_operation, op_append); try (by eapply running_operation, op_create_session).
  - by eapply running_operation, op_delete_session.
  - by eapply running_operation, op_feedback.
  - by eapply running_operation, op_experience_feedback.
  - by eapply running_operation, op_delete_experience.
  - by eapply running_operation, op_context.
  - by eapply running_operation, op_cognitive.
  - by eapply running_operation, op_experience.
  - by eapply running_operation, op_flush.
  - apply running_decay.
Qed.

(** The deployed system: a server and a worker started in one environment keep
    the database sound between them, whatever they are asked and whatever the
    order of their commands, and lose nothing learned. *)
Theorem deployed_sound s w ps sched st : server_main = Ok s -> worker_main = Ok w -> Forall (fun p => serving s p \/ working w p) ps ->
  sound (wk_crypto w) st.1 ->
  sound (wk_crypto w) (interleave sched (ps, st)).2.1 /\ remembered st.1 (interleave sched (ps, st)).2.1.
Proof.
  intros Hs Hw Hps Hsound. eapply running_sound; [|done]. eapply Forall_impl; [exact Hps|]. intros p Hp.
  by eapply deployed_running.
Qed.
End Startup.

(** ** Examples *)

Module StartupSample.
#[local] Existing Instances toy_uuid merge_order_by toy_search toy_crypto toy_jsonb.
#[local] Instance server : Redis := local_redis true.
#[local] Instance ascii_case : UnicodeCase := CognitiveSample.ascii_case.

(** A key that is a password. *)
Definition environment (name : string) : string :=
  if decide (name = "DATABASE_URL"%string) then "postgres://db" else if decide (name = "MASTER_KEY"%string) then "hunter2"
  else if decide (name = "LLM_PROVIDER"%string) then "mock" else "".
Definition file (path : string) : result string := Ok path.
Definition pooled (url : string) (n : Z) : result Z := Ok n.
Definition no_network (r : http_request) : result (Z * string) := Err "unreachable"%string.

(** The port is free, or taken. *)
Definition free (addr : string) : result unit := Ok tt.
Definition taken (addr : string) : result unit := Err "listen tcp: bind: address already in use"%string.

Definition set_up : result (Server (pool := Z)) := server_setup (fun _ => Ok tt) pooled no_network environment (fun _ => true) file.
Definition started listen : result (Server (pool := Z)) :=
  server_main (fun _ => Ok tt) pooled no_network listen environment (fun _ => true) file.

(** There is a fact about Ann, and the answer is without it. *)
Lemma key_checked_late_witness : exists s, started free = Ok s /\ (forall s', started taken <> Ok s') /\
  (forall w, worker_main (fun _ => Ok tt) pooled no_network environment (fun _ => true) file <> Ok w) /\
  forall out, GetContext (MasterKey (sv_config s)) (RecentMessagesLimit (sv_config s)) (WithTenantID Background "t")
      RetrieverSample.req (RetrieverSample.around false RetrieverSample.doubtful) CognitiveSample.db ∅ true out ->
    exists b, out.2 = Ok b /\ EntityFacts b = [].
Proof.
  destruct set_up as [s|e] eqn:E; [|discriminate]. exists s.
  assert (Hno : forall w, worker_main (fun _ => Ok tt) pooled no_network environment (fun _ => true) file <> Ok w) by (intros w; vm_compute; discriminate).
  destruct (key_checked_late (fun _ => Ok tt) pooled no_network free environment (fun _ => true) file s E) as (Hrun & _ & _ & _ & Hans).
  split; [by apply Hrun|]. split; [intros s'; vm_compute; discriminate|].
  split; [exact Hno|]. intros out Hout.
  destruct (Hans Hno _ _ _ _ _ _ _ Hout) as (b & Hb & _ & He). exists b. split; [exact Hb|exact He].
Defined.
End StartupSample.
